(* ===== verification/_CoqProject ===== *)
-Q . S2P
Prelude.v
Cmonad.v
Dlist.v
Utils.v
Skbuff.v
World.v
Topology.v
Comm.v
Ethernet.v
Arp.v
Route.v
Ip.v
Icmp.v
Udp.v
Tcp.v
Stack.v
Net.v
Graph.v
Dump.v
Scenario.v
Invariant.v
GraphInv.v
Frame.v
SkbRules.v
LinkSafe.v
ArpSafe.v
IpSafe.v
ProtoSafe.v
TcpSafe.v
StackSafe.v
Packet.v
RecvSafe.v
ApiSafe.v
TcpApiSafe.v
GraphSafe.v
Teardown.v
Reach.v
Wire.v
ArpSpec.v
RouteSpec.v
IpSpec.v
ProtoSpec.v
RecvSpec.v
SockSpec.v
TcpSpec.v
TcpInSpec.v
InputSpec.v
ForwardSpec.v
Demo.v
TeardownThm.v
DumpThm.v
SendThm.v
Fuel.v
RecvThm.v
TcpThm.v
SockThm.v
EndToEnd.v
TcpSession.v
TcpStream.v
Routed.v
LinkThm.v
Widths.v
Thread.v
Callbacks.v
Fixture.v
Tests.v
