(* ===== verification/Prelude.v ===== *)
(** * simple_tcpip: a verification development

    The program under src/ is a TCP/IP stack in user space: a graph of nodes
    whose interfaces are joined by links (UDP sockets on the loopback device
    play the wires) or attached to TAP devices, and on every node Ethernet, ARP,
    IP with forwarding, ICMP echo, UDP sockets and passive TCP connections.  An
    application builds the graph and calls the socket functions; a receiving
    thread waits for frames on all interfaces and runs the stack on each.

    ** How the code is modelled

    A C function is a computation in the monad [M] of Cmonad.v: it transforms a
    state and returns a result, or stops with a [fault] (a failed assert, a NULL
    or dangling pointer, an access outside its block, an undefined shift, a call
    of exit).  Every dereference, assertion and memory access of the code is
    such a check.  The state [world] (World.v) has one finite map per struct
    that lives on the heap and one field per static variable; [malloc] returns
    pointers that were never used before, [free] deletes.  A [struct list_head]
    that links objects is kept as the sequence of their pointers at the head of
    the list; Dlist.v models list.h itself, pointer by pointer, and proves that
    it implements the operations on sequences used elsewhere.  A buffer
    (Skbuff.v) is its block of bytes with offsets into it, so that headers are
    read and written byte by byte, in the byte order of the code.  Integers are
    [Z], reduced modulo [2^w] where the code stores them in [w] bits.

    System calls are functions of the class [Os], of the history of system calls
    and their arguments; every call is added to the history [w_trace], where the
    theorems find the frames that are sent.  What [recvfrom] and [read] return,
    and what [epoll_wait] reports, is input.  Callbacks of the application are
    events.

    ** The files that model code

    - Dlist: list.h.  Utils: utils.c, utils.h.  Skbuff: skbuff.h.
    - World: the structs of graph.h, net.h, arp.h, ip.h, udp.h, tcp.h, comm.h,
      switch.h, the static variables, the system calls.
    - Topology: the inline functions of graph.h.  Graph: graph.c.  Net: net.c, and
      the functions that initialise and destroy the tables of a node.
    - Dump: the functions that print the graph, the tables and blocks of bytes.
    - Comm: comm.c, comm_udp.c, comm_tuntap.c (descriptors, sending, flooding).
    - Ethernet, Arp, Route, Ip, Icmp, Udp, Tcp: the file of that name (Route and
      Ip: ip.c); the protocols see the IP layer through the class [IpLayer].
    - Stack: ip_input, ethernet_input, switch.c, pkt_receive and recv_task,
      where the recursion of the layers is closed.
    - Thread: start_recv_thread, stop_recv_thread and the interleaving of the
      receiving thread with the application.
    - Scenario: a concrete operating system; Demo: concrete reachable states,
      built by calls and frames, on which the witnesses of the theorems are
      evaluated.
    - Fixture: test/fixture/fixture.c, with the receiving thread and the loopback
      network between the sockets of the links; Tests: the programs under
      test/unit and test/system, executed.

    ** What is proved

    - Safety.  Invariant defines the global invariant [wf]; SkbRules, LinkSafe,
      ArpSafe, IpSafe, ProtoSafe, TcpSafe, StackSafe, RecvSafe, ApiSafe, TcpApiSafe
      and GraphSafe prove that each function keeps it, as weakest preconditions; the
      protocols are verified against the contract [IpLayerOk] of the layer below.
      Reach concludes for all sequences of calls and received frames; Thread for
      all interleavings with the receiving thread.  Widths proves that every value
      stored in an object stays in the range of its C type, so that no wrap-around
      is missing in the model.  DumpThm proves that every graph that can be reached can be
      printed.
    - The graph.  GraphInv is the invariant [graph_wf] of nodes, slots, links and
      descriptors, relative to a list of nodes that are being taken apart; Frame
      proves by a walk through the code what a function leaves alone, so that the
      calls of the sockets keep the graph; Teardown follows the destruction of
      links, slots, nodes and graphs, and TeardownThm states what is freed, and
      the order of interfaces for which a freed one is read.
    - Function, byte by byte.  Packet is the view of a buffer as a byte string;
      Wire, ArpSpec, RouteSpec, IpSpec, ProtoSpec, TcpSpec give the exact frames
      that are sent, RecvSpec, InputSpec, TcpInSpec, ForwardSpec the effect of
      each kind of frame received, SockSpec the queues of the sockets as a FIFO
      of messages.  SendThm, RecvThm, TcpThm, SockThm state the results for the
      calls of an application and for receptions, EndToEnd for exchanges between
      two nodes, Routed for datagrams that cross any number of routers, TcpSession
      for a connection from its SYN to its data, TcpStream for the stream of a
      connection whose segments are lost, repeated and reordered.
      Where a frame with an IP packet is sent, these theorems assume that the
      MAC address of the next hop is resolved and that the route leads over a
      live UDP link: the record [reaches], with [wire] for the link (an interface
      with a link, both ends with a socket).  Otherwise the code sends an ARP
      request and keeps the packet, as EndToEnd shows, or the packet does not go
      out.  For a socket the route must lead over its own interface ([routed],
      [conn_reaches]); a relay forwards ([relay]).
    - Termination.  Fuel proves that the mutual recursion of ip_input, the
      protocols and ip_output ends, and that [STACK_FUEL], two levels, is enough:
      a packet that a node sends to itself has no ip_hdr, and then nothing is
      sent in answer.  Routed proves that the 64th router drops a datagram, so
      that loops of routers come to rest.  [bind_loop] has one step for each of the 2^16 ports; in C
      the loop goes on for ever when none can be bound, in the model it stops
      with [OutOfFuel], and the theorems name this outcome.
    - Tests.  Callbacks proves by a walk through the code that pkt_receive alone
      runs the receive callback, and Fixture that the recording of the tests holds
      what was received.  Tests evaluates the tests of the program, which supports
      the definitions: the model passes them, and the frames are those the tests
      expect byte by byte.
    - Components.  Dlist (refinement), Utils (checksum against RFC 1071, text of
      addresses, masks), Skbuff (invariant), RouteSpec (longest prefix), LinkThm
      (links, descriptor table, flooding, checksums filled and checked).

    Theorems hold as the code is.  Where it does not do what it means to, the
    theorem states what it does: the window of a TCP connection never reopens,
    padding is delivered as data, forwarding rewrites the source address and
    leaves a wrong checksum, masks of prefixes other than 8, 16 and 24 select
    the wrong bits, tcp_accept returns the same connection again.

    ** Bounds

    Received frames have at most 2044 bytes (the room recv_task offers; longer
    ones are cut, as recvfrom does).  Masks are between 0 and 30 where
    [(1 << mask) - 1] must be defined.  A TCP socket is closed in [Reach] only
    when it has no connections left: tcp_close leaves dangling pointers
    otherwise.  Tests wait for frames with fuel for ten seconds, which the evaluation of
    the tests shows to be enough.  Destroying a graph is proved from every reachable state but is not
    among the calls of [Reach]: routes and sockets of other graphs may still
    point to what it frees.  Streams are shorter than 2^32 bytes, so that
    sequence numbers tell their bytes apart; a datagram starts with a time to
    live of 64, which is the bound of 63 routers.

    ** Not modelled

    - The macros list_for_each, list_for_each_safe and IP_EQ, used by no file, and
      the test test_get_nbr_node_without_node: an interface of the model always
      has a node.
    - Data races: the receiving thread and the application share the state
      without a lock; the model interleaves whole calls and rounds.
    - tcp_syn_ack and tcp_connection_close are declared in tcp.h and defined
      nowhere. *)
From stdpp Require Export prelude list numbers.
From Stdlib Require Export ZArith Lia.

(** ** Scope and tactics of the development *)

Declare Scope cprog_scope.
Delimit Scope cprog_scope with cprog.

(** [eapply] of a lemma whose statement binds a local definition: the lemma is
    instantiated first, which keeps the unification cheap. *)
Tactic Notation "einvoke" uconstr(lem) :=
  let Hlem := fresh "Hlem" in epose proof lem as Hlem; eapply Hlem; clear Hlem.

Create HintDb cprog discriminated.
Create Rewrite HintDb cprog.

#[global] Open Scope Z_scope.

(** Case analysis on the boolean tests that the translated code uses. *)
Ltac zbool :=
  repeat match goal with
  | H : context [Z.ltb ?a ?b] |- _ => destruct (Z.ltb_spec a b)
  | H : context [Z.leb ?a ?b] |- _ => destruct (Z.leb_spec a b)
  | H : context [Z.eqb ?a ?b] |- _ => destruct (Z.eqb_spec a b)
  | |- context [Z.ltb ?a ?b] => destruct (Z.ltb_spec a b)
  | |- context [Z.leb ?a ?b] => destruct (Z.leb_spec a b)
  | |- context [Z.eqb ?a ?b] => destruct (Z.eqb_spec a b)
  end; cbn [andb orb negb] in *.

(** ** Machine integers

    An unsigned integer of [w] bits is a [Z] in [0, 2^w); an assignment to a
    variable of that type reduces modulo [2^w]. *)

Definition wrap8 (z : Z) : Z := z mod 2 ^ 8.
Definition wrap16 (z : Z) : Z := z mod 2 ^ 16.
Definition wrap32 (z : Z) : Z := z mod 2 ^ 32.
Definition wrap64 (z : Z) : Z := z mod 2 ^ 64.

Definition is_u8 (z : Z) : Prop := 0 <= z < 2 ^ 8.
Definition is_u16 (z : Z) : Prop := 0 <= z < 2 ^ 16.
Definition is_u32 (z : Z) : Prop := 0 <= z < 2 ^ 32.

#[export] Instance is_u8_dec z : Decision (is_u8 z).
Proof. unfold is_u8. apply _. Defined.
#[export] Instance is_u16_dec z : Decision (is_u16 z).
Proof. unfold is_u16. apply _. Defined.
#[export] Instance is_u32_dec z : Decision (is_u32 z).
Proof. unfold is_u32. apply _. Defined.

(** Reading a plain [char] back as a signed value. *)
Definition sign8 (z : Z) : Z := if wrap8 z <? 128 then wrap8 z else wrap8 z - 256.

Lemma wrap8_u8 z : is_u8 (wrap8 z).
Proof. apply Z.mod_pos_bound. lia. Qed.
Lemma wrap16_u16 z : is_u16 (wrap16 z).
Proof. apply Z.mod_pos_bound. lia. Qed.
Lemma wrap32_u32 z : is_u32 (wrap32 z).
Proof. apply Z.mod_pos_bound. lia. Qed.
Lemma wrap8_id z : is_u8 z → wrap8 z = z.
Proof. apply Z.mod_small. Qed.
Lemma wrap16_id z : is_u16 z → wrap16 z = z.
Proof. apply Z.mod_small. Qed.
Lemma wrap32_id z : is_u32 z → wrap32 z = z.
Proof. apply Z.mod_small. Qed.

#[export] Hint Resolve wrap8_u8 wrap16_u16 wrap32_u32 : cprog.

(** [Z.land] with a mask of low bits is a remainder, shifts are products and
    quotients: the forms [lia] understands. *)
Lemma land_ones_mod z n : 0 <= n → Z.land z (2 ^ n - 1) = z mod 2 ^ n.
Proof. intros. rewrite <- Z.land_ones by done. by rewrite Z.ones_equiv, Z.sub_1_r. Qed.

Lemma land_255 z : Z.land z 255 = z mod 256.
Proof. apply (land_ones_mod z 8). lia. Qed.
Lemma land_15 z : Z.land z 15 = z mod 16.
Proof. apply (land_ones_mod z 4). lia. Qed.
Lemma land_65535 z : Z.land z 65535 = z mod 65536.
Proof. apply (land_ones_mod z 16). lia. Qed.

Lemma shiftr_div z n : 0 <= n → Z.shiftr z n = z / 2 ^ n.
Proof. apply Z.shiftr_div_pow2. Qed.
Lemma shiftl_mul z n : 0 <= n → Z.shiftl z n = z * 2 ^ n.
Proof. apply Z.shiftl_mul_pow2. Qed.

Ltac unwrap := unfold wrap8, wrap16, wrap32, wrap64, is_u8, is_u16, is_u32 in *.

(** Arithmetic goals with [/] and [mod] by constants. *)
Ltac zdiv := unwrap; Z.div_mod_to_equations; lia.

(** ** Little-endian encodings of integers in memory *)

Fixpoint le_encode (n : nat) (v : Z) : list Z :=
  match n with
  | O => []
  | S n => v mod 256 :: le_encode n (v / 256)
  end.

Fixpoint le_decode (bs : list Z) : Z :=
  match bs with
  | [] => 0
  | b :: bs => b + 256 * le_decode bs
  end.

Lemma length_le_encode n v : length (le_encode n v) = n.
Proof. revert v. induction n; intros; simpl; auto. Qed.

Lemma le_decode_encode n v : le_decode (le_encode n v) = v mod 256 ^ Z.of_nat n.
Proof.
  revert v. induction n as [|n IH]; intros v; simpl le_encode; simpl le_decode.
  - by rewrite Z.mod_1_r.
  - rewrite IH, Nat2Z.inj_succ, Z.pow_succ_r by lia.
    rewrite Z.rem_mul_r by lia. done.
Qed.

Lemma le_encode_bytes n v : Forall is_u8 (le_encode n v).
Proof.
  revert v. induction n; intros; simpl; constructor; auto.
  apply Z.mod_pos_bound. lia.
Qed.

Lemma le_decode_bound bs : Forall is_u8 bs → 0 <= le_decode bs < 256 ^ Z.of_nat (length bs).
Proof.
  induction 1 as [|b bs Hb _ IH]; simpl length; simpl le_decode; [done|].
  rewrite Nat2Z.inj_succ, Z.pow_succ_r by lia. unfold is_u8 in *. lia.
Qed.

Lemma le_encode_decode bs : Forall is_u8 bs → le_encode (length bs) (le_decode bs) = bs.
Proof.
  induction 1 as [|b bs Hb _ IH]; [done|].
  cbn [length le_encode le_decode]. unfold is_u8 in Hb.
  f_equal; [zdiv|]. rewrite <- IH at 3. f_equal. zdiv.
Qed.

#[export] Hint Rewrite length_le_encode : cprog.
#[export] Hint Resolve le_encode_bytes : cprog.

(** ** Sub-lists of a memory block *)

Definition slice {A} (o n : Z) (b : list A) : list A :=
  take (Z.to_nat n) (drop (Z.to_nat o) b).

Definition splice {A} (o : Z) (bs b : list A) : list A :=
  take (Z.to_nat o) b ++ bs ++ drop (Z.to_nat o + length bs) b.

Lemma length_slice {A} o n (b : list A) :
  0 <= o → 0 <= n → o + n <= Z.of_nat (length b) → length (slice o n b) = Z.to_nat n.
Proof. intros. unfold slice. rewrite length_take, length_drop. lia. Qed.

Lemma length_splice {A} o (bs b : list A) :
  0 <= o → o + Z.of_nat (length bs) <= Z.of_nat (length b) →
  length (splice o bs b) = length b.
Proof.
  intros. unfold splice. rewrite !length_app, length_take, length_drop. lia.
Qed.

Lemma lookup_slice {A} o n (b : list A) i :
  0 <= o → (i < Z.to_nat n)%nat → slice o n b !! i = b !! (Z.to_nat o + i)%nat.
Proof. intros. unfold slice. rewrite lookup_take_lt by done. by rewrite lookup_drop. Qed.

Lemma lookup_splice {A} o (bs b : list A) i :
  0 <= o → o + Z.of_nat (length bs) <= Z.of_nat (length b) →
  splice o bs b !! i =
    if decide (Z.to_nat o <= i < Z.to_nat o + length bs)%nat
    then bs !! (i - Z.to_nat o)%nat else b !! i.
Proof.
  intros Ho Hl. unfold splice.
  case_decide as Hi.
  - rewrite lookup_app_r by (rewrite length_take; lia).
    rewrite length_take, lookup_app_l by lia. f_equal. lia.
  - destruct (decide (i < Z.to_nat o)%nat).
    + rewrite lookup_app_l by (rewrite length_take; lia). by rewrite lookup_take_lt.
    + rewrite lookup_app_r by (rewrite length_take; lia).
      rewrite length_take, lookup_app_r by lia. rewrite lookup_drop. f_equal. lia.
Qed.

(** Reading back what was written, and reading elsewhere. *)
Lemma slice_splice_eq {A} o (bs b : list A) n :
  0 <= o → o + Z.of_nat (length bs) <= Z.of_nat (length b) → n = Z.of_nat (length bs) →
  slice o n (splice o bs b) = bs.
Proof.
  intros Ho Hl ->. apply list_eq. intros i.
  destruct (decide (i < length bs)%nat).
  - rewrite lookup_slice, lookup_splice by lia. rewrite decide_True by lia. f_equal. lia.
  - rewrite !lookup_ge_None_2; [done|lia|]. rewrite length_slice; try lia.
    rewrite length_splice; lia.
Qed.

Lemma slice_splice_ne {A} o o' n (bs b : list A) :
  0 <= o → 0 <= o' → o + Z.of_nat (length bs) <= Z.of_nat (length b) →
  o' + n <= o ∨ o + Z.of_nat (length bs) <= o' →
  slice o' n (splice o bs b) = slice o' n b.
Proof.
  intros Ho Ho' Hl Hd. apply list_eq. intros i.
  destruct (decide (i < Z.to_nat n)%nat).
  - rewrite !lookup_slice, lookup_splice by lia. rewrite decide_False by lia. done.
  - unfold slice. rewrite !lookup_take_ge by lia. done.
Qed.

Lemma splice_splice {A} o (bs bs' b : list A) :
  0 <= o → o + Z.of_nat (length bs) <= Z.of_nat (length b) → length bs' = length bs →
  splice o bs' (splice o bs b) = splice o bs' b.
Proof.
  intros Ho Hl Hl'. apply list_eq. intros i.
  rewrite !lookup_splice; rewrite ?length_splice; try lia.
  rewrite Hl'. by case_decide.
Qed.

Lemma splice_slice {A} o n (b : list A) :
  0 <= o → 0 <= n → o + n <= Z.of_nat (length b) → splice o (slice o n b) b = b.
Proof.
  intros. apply list_eq. intros i. rewrite lookup_splice; rewrite ?length_slice; try lia.
  case_decide; [|done]. rewrite lookup_slice by lia. f_equal. lia.
Qed.

Lemma slice_all {A} (b : list A) n : n = Z.of_nat (length b) → slice 0 n b = b.
Proof. intros ->. unfold slice. rewrite drop_0, Nat2Z.id. by apply firstn_all. Qed.

Lemma slice_app_split {A} o n m (b : list A) :
  0 <= o → 0 <= n → 0 <= m → slice o (n + m) b = slice o n b ++ slice (o + n) m b.
Proof.
  intros. unfold slice. rewrite !Z2Nat.inj_add by lia.
  rewrite <- drop_drop. by rewrite take_take_drop.
Qed.

Lemma Forall_slice {A} (P : A → Prop) o n b : Forall P b → Forall P (slice o n b).
Proof. intros. by apply Forall_take, Forall_drop. Qed.

Lemma Forall_splice {A} (P : A → Prop) o bs b :
  Forall P b → Forall P bs → Forall P (splice o bs b).
Proof.
  intros. unfold splice. rewrite !Forall_app.
  split_and!; auto using Forall_take, Forall_drop.
Qed.

#[export] Hint Resolve Forall_slice Forall_splice : cprog.

(** ** Lists of identifiers *)

(** [list_remove x l]: [l] without its first [x] (what unlinking a node does to
    the sequence a list represents). *)
Fixpoint list_remove {A} `{EqDecision A} (x : A) (l : list A) : list A :=
  match l with
  | [] => []
  | y :: l => if decide (x = y) then l else y :: list_remove x l
  end.

Lemma list_remove_sublist {A} `{EqDecision A} (x : A) l : list_remove x l `sublist_of` l.
Proof.
  induction l as [|y l IH]; simpl; [done|].
  case_decide; [by apply sublist_cons|by apply sublist_skip].
Qed.

Lemma elem_of_list_remove {A} `{EqDecision A} (x y : A) l :
  NoDup l → y ∈ list_remove x l ↔ y ∈ l ∧ y ≠ x.
Proof.
  induction 1 as [|z l Hz _ IH]; simpl; [set_solver|].
  case_decide; subst; set_solver.
Qed.

Lemma list_remove_NoDup {A} `{EqDecision A} (x : A) l : NoDup l → NoDup (list_remove x l).
Proof. intros. eapply sublist_NoDup; [done|apply list_remove_sublist]. Qed.

Lemma list_remove_app_cons {A} `{EqDecision A} (x : A) l1 l2 :
  x ∉ l1 → list_remove x (l1 ++ x :: l2) = l1 ++ l2.
Proof.
  induction l1 as [|y l1 IH]; simpl; intros Hx; [by rewrite decide_True|].
  rewrite decide_False by set_solver. f_equal. apply IH. set_solver.
Qed.

#[export] Hint Resolve list_remove_NoDup : cprog.

(** The first element that satisfies a predicate. *)
Lemma head_filter_sat {A} (P : A → Prop) `{∀ x, Decision (P x)} l x :
  head (filter P l) = Some x → P x ∧ x ∈ l.
Proof.
  intros Hh. assert (x ∈ filter P l) as Hin%list_elem_of_filter; [|done].
  destruct (filter P l); [done|]. injection Hh as ->. by left.
Qed.
