(* ===== verification/Cmonad.v ===== *)
(** * The effects of the C code: faults, state and memory blocks

    A C function that can misbehave is a state transformer that may stop with a
    fault.  The faults are the ways in which the program can go wrong: an
    [assert] that fails, a NULL or dangling pointer that is dereferenced, a
    memory access outside its block, an undefined shift, a call of [exit], and
    a loop of the model that has used up its fuel.  [wp] is the weakest
    precondition of a computation for a postcondition on results and one on
    faults; its rules let the proofs follow the code statement by statement. *)
From S2P Require Import Prelude.

(** ** Faults and results *)

Inductive fault :=
  | AssertFail      (* assert() aborts the program *)
  | NullDeref       (* a NULL pointer is dereferenced *)
  | Dangling        (* a pointer to freed memory is dereferenced or freed again *)
  | OutOfBounds     (* a read or write outside the block a pointer points into *)
  | ShiftUB         (* a shift by a negative amount or past the width of int *)
  | ExitFailure     (* exit(EXIT_FAILURE) *)
  | OutOfFuel.      (* the fuel given to a loop of the model is used up *)

#[export] Instance fault_eq_dec : EqDecision fault.
Proof. solve_decision. Defined.

Inductive res (A : Type) :=
  | Ok (a : A)
  | Err (f : fault).
Arguments Ok {A} a.
Arguments Err {A} f.

(** A computation on a state of type [S] with a result of type [A]. *)
Definition M (S A : Type) : Type := S → res (A * S).

Section Monad.
Context {S : Type}.

Definition ret {A} (a : A) : M S A := λ s, Ok (a, s).

Definition bind {A B} (m : M S A) (k : A → M S B) : M S B := λ s,
  match m s with
  | Ok (a, s') => k a s'
  | Err f => Err f
  end.

Definition raise {A} (f : fault) : M S A := λ _, Err f.

Definition get : M S S := λ s, Ok (s, s).
Definition put (s : S) : M S unit := λ _, Ok (tt, s).
Definition modify (f : S → S) : M S unit := λ s, Ok (tt, f s).
Definition gets {A} (f : S → A) : M S A := λ s, Ok (f s, s).

Definition lift {A} (r : res A) : M S A := λ s,
  match r with
  | Ok a => Ok (a, s)
  | Err f => Err f
  end.

(** [assert(b)]. *)
Definition assert_ (b : bool) : M S unit := if b then ret tt else raise AssertFail.

(** Dereferencing a pointer that may be NULL. *)
Definition nonnull {A} (p : option A) : M S A :=
  match p with
  | Some a => ret a
  | None => raise NullDeref
  end.
End Monad.

Notation "'let*' x := m 'in' k" := (bind m (λ x, k))
  (at level 10, x pattern, m at level 200, k at level 200,
   format "'[v' 'let*'  x  :=  m  'in' '/' k ']'") : cprog_scope.
Notation "m ;;; k" := (bind m (λ _, k))
  (at level 100, k at level 200, right associativity,
   format "'[v' m ;;; '/' k ']'") : cprog_scope.
#[global] Open Scope cprog_scope.

(** ** Weakest preconditions *)

Definition wp {S A} (m : M S A) (Q : A → S → Prop) (E : fault → Prop) (s : S) : Prop :=
  match m s with
  | Ok (a, s') => Q a s'
  | Err f => E f
  end.

Section WpRules.
Context {S : Type}.
Implicit Types E : fault → Prop.

Lemma wp_ret {A} (a : A) Q E (s : S) : Q a s → wp (ret a) Q E s.
Proof. done. Qed.

Lemma wp_bind {A B} (m : M S A) (k : A → M S B) Q E s :
  wp m (λ a s', wp (k a) Q E s') E s → wp (bind m k) Q E s.
Proof. unfold wp, bind. by destruct (m s) as [[a s']|f]. Qed.

Lemma wp_bind_inv {A B} (m : M S A) (k : A → M S B) Q E s :
  wp (bind m k) Q E s → wp m (λ a s', wp (k a) Q E s') E s.
Proof. unfold wp, bind. by destruct (m s) as [[a s']|f]. Qed.

Lemma wp_raise {A} f Q E (s : S) : E f → wp (A := A) (raise f) Q E s.
Proof. done. Qed.

Lemma wp_mono {A} (m : M S A) Q Q' E E' s :
  wp m Q E s → (∀ a s', Q a s' → Q' a s') → (∀ f, E f → E' f) → wp m Q' E' s.
Proof. unfold wp. destruct (m s) as [[a s']|f]; eauto. Qed.

(** Weakening the postcondition only. *)
Lemma wp_post {A} (m : M S A) Q Q' E s :
  wp m Q E s → (∀ a s', Q a s' → Q' a s') → wp m Q' E s.
Proof. unfold wp. destruct (m s) as [[a s']|f]; eauto. Qed.

Lemma wp_conj {A} (m : M S A) Q Q' E s :
  wp m Q E s → wp m Q' E s → wp m (λ a s', Q a s' ∧ Q' a s') E s.
Proof. unfold wp. by destruct (m s) as [[a s']|f]. Qed.

Lemma wp_gets {A} (f : S → A) Q E s : Q (f s) s → wp (gets f) Q E s.
Proof. done. Qed.

Lemma wp_get Q E (s : S) : Q s s → wp get Q E s.
Proof. done. Qed.

Lemma wp_put s' Q E (s : S) : Q tt s' → wp (put s') Q E s.
Proof. done. Qed.

Lemma wp_modify f Q E (s : S) : Q tt (f s) → wp (modify f) Q E s.
Proof. done. Qed.

Lemma wp_lift_ok {A} (a : A) r Q E (s : S) : r = Ok a → Q a s → wp (lift r) Q E s.
Proof. by intros ->. Qed.

Lemma wp_lift {A} (r : res A) Q E (s : S) :
  match r with Ok a => Q a s | Err f => E f end → wp (lift r) Q E s.
Proof. by destruct r. Qed.

Lemma wp_assert b Q E (s : S) :
  (b = true → Q tt s) → (b = false → E AssertFail) → wp (assert_ b) Q E s.
Proof. destruct b; unfold wp, assert_; simpl; auto. Qed.

Lemma wp_assert_true (b : bool) Q E (s : S) : b = true → Q tt s → wp (assert_ b) Q E s.
Proof. by intros ->. Qed.

Lemma wp_nonnull {A} (p : option A) Q E (s : S) :
  (∀ a, p = Some a → Q a s) → (p = None → E NullDeref) → wp (nonnull p) Q E s.
Proof. destruct p; unfold wp, nonnull; simpl; auto. Qed.

Lemma wp_nonnull_some {A} (p : option A) a Q E (s : S) :
  p = Some a → Q a s → wp (nonnull p) Q E s.
Proof. by intros ->. Qed.

Lemma wp_if {A} (b : bool) (m1 m2 : M S A) Q E s :
  (b = true → wp m1 Q E s) → (b = false → wp m2 Q E s) →
  wp (if b then m1 else m2) Q E s.
Proof. destruct b; auto. Qed.

(** A computation that is known to return: from a [wp] without faults. *)
Lemma wp_ok {A} (m : M S A) Q s :
  wp m Q (λ _, False) s ↔ ∃ a s', m s = Ok (a, s') ∧ Q a s'.
Proof.
  unfold wp. destruct (m s) as [[a s']|f]; split; naive_solver.
Qed.

Lemma wp_ok_tt (m : M S unit) (P : S → Prop) s :
  wp m (λ _, P) (λ _, False) s → ∃ s', m s = Ok (tt, s') ∧ P s'.
Proof. intros ([] & s' & ? & ?)%wp_ok. eauto. Qed.
End WpRules.

(** Computations are equal when they agree on every state; [bind] and [wp]
    respect this equality, so the code can be rewritten by the monad laws. *)
Definition meq {S A} (m m' : M S A) : Prop := ∀ s, m s = m' s.
Infix "≡ₘ" := meq (at level 70) : cprog_scope.

#[export] Instance meq_equiv {S A} : Equivalence (@meq S A).
Proof.
  split; [done| |].
  - intros m m' H s. by rewrite H.
  - intros m1 m2 m3 H1 H2 s. by rewrite H1.
Qed.

#[export] Instance bind_proper {S A B} :
  Proper (meq ==> pointwise_relation A meq ==> meq) (@bind S A B).
Proof.
  intros m m' Hm k k' Hk s. unfold bind. rewrite Hm.
  destruct (m' s) as [[a s']|]; [apply Hk|done].
Qed.

#[export] Instance wp_proper {S A} :
  Proper (meq ==> eq ==> eq ==> eq ==> iff) (@wp S A).
Proof. intros m m' Hm Q ? <- E ? <- s ? <-. unfold wp. by rewrite Hm. Qed.

Lemma bind_ret_l {S A B} (a : A) (k : A → M S B) : bind (ret a) k ≡ₘ k a.
Proof. done. Qed.
Lemma bind_ret_r {S A} (m : M S A) : bind m ret ≡ₘ m.
Proof. intros s. unfold bind. by destruct (m s) as [[??]|]. Qed.
Lemma bind_assoc {S A B C} (m : M S A) (k : A → M S B) (l : B → M S C) :
  bind (bind m k) l ≡ₘ bind m (λ a, bind (k a) l).
Proof. intros s. unfold bind. by destruct (m s) as [[??]|]. Qed.

(** ** Memory blocks

    A block is the list of its bytes; an access at offset [o] is checked against
    the bounds of the block. *)

Definition rdn (b : list Z) (o n : Z) : res (list Z) :=
  if (0 <=? o) && (0 <=? n) && (o + n <=? Z.of_nat (length b))
  then Ok (slice o n b) else Err OutOfBounds.

Definition wrn (b : list Z) (o : Z) (bs : list Z) : res (list Z) :=
  if (0 <=? o) && (o + Z.of_nat (length bs) <=? Z.of_nat (length b))
  then Ok (splice o bs b) else Err OutOfBounds.

Definition rd_le (n : nat) (b : list Z) (o : Z) : res Z :=
  match rdn b o (Z.of_nat n) with
  | Ok bs => Ok (le_decode bs)
  | Err f => Err f
  end.

(** Loads and stores of u8, u16 and u32 fields on a little-endian machine. *)
Definition rd8 := rd_le 1.
Definition rd16 := rd_le 2.
Definition rd32 := rd_le 4.
Definition wr8 (b : list Z) (o v : Z) := wrn b o (le_encode 1 v).
Definition wr16 (b : list Z) (o v : Z) := wrn b o (le_encode 2 v).
Definition wr32 (b : list Z) (o v : Z) := wrn b o (le_encode 4 v).

Lemma rdn_ok b o n :
  0 <= o → 0 <= n → o + n <= Z.of_nat (length b) → rdn b o n = Ok (slice o n b).
Proof. intros. unfold rdn. zbool; auto; lia. Qed.

Lemma wrn_ok b o bs :
  0 <= o → o + Z.of_nat (length bs) <= Z.of_nat (length b) →
  wrn b o bs = Ok (splice o bs b).
Proof. intros. unfold wrn. zbool; auto; lia. Qed.

Lemma rd_le_ok n b o :
  0 <= o → o + Z.of_nat n <= Z.of_nat (length b) →
  rd_le n b o = Ok (le_decode (slice o (Z.of_nat n) b)).
Proof. intros. unfold rd_le. by rewrite rdn_ok by lia. Qed.

Lemma rdn_wrn_eq b o bs b' n :
  n = Z.of_nat (length bs) → wrn b o bs = Ok b' → rdn b' o n = Ok bs.
Proof.
  intros -> H. unfold wrn in H. zbool; simplify_eq.
  rewrite rdn_ok by (rewrite ?length_splice; lia). by rewrite slice_splice_eq.
Qed.

Lemma rdn_wrn_ne b o bs b' o' n :
  wrn b o bs = Ok b' → o' + n <= o ∨ o + Z.of_nat (length bs) <= o' →
  rdn b' o' n = rdn b o' n.
Proof.
  intros H Hd. unfold wrn in H. zbool; simplify_eq. unfold rdn.
  rewrite length_splice by lia. zbool; try done. by rewrite slice_splice_ne.
Qed.

Lemma length_wrn b o bs b' : wrn b o bs = Ok b' → length b' = length b.
Proof. unfold wrn. intros. zbool; simplify_eq. apply length_splice; lia. Qed.

(** ** The proof automation of the development

    [mstep] applies the rule for the first statement of the computation in a
    [wp] goal; [msteps] repeats it on the statements that need no thought. *)
Ltac mstep :=
  lazymatch goal with
  | |- wp (bind _ _) _ _ _ => apply wp_bind
  | |- wp (ret _) _ _ _ => apply wp_ret
  | |- wp (raise _) _ _ _ => apply wp_raise
  | |- wp (gets _) _ _ _ => apply wp_gets
  | |- wp get _ _ _ => apply wp_get
  | |- wp (put _) _ _ _ => apply wp_put
  | |- wp (modify _) _ _ _ => apply wp_modify
  | |- wp (assert_ true) _ _ _ => apply wp_ret
  | |- wp (nonnull (Some _)) _ _ _ => apply wp_ret
  | |- wp (lift (Ok _)) _ _ _ => apply wp_ret
  end; cbv beta.
Ltac msteps := repeat mstep.
