(* ===== verification/Dlist.v ===== *)
(** * list.h: intrusive circular doubly-linked lists

    The memory is a finite map from the address of a [struct list_head] to its
    two pointers; an entry is identified with the address of its embedded
    [list_head] ([container_of] is then the identity).  The operations are
    translated pointer assignment by pointer assignment.  [dll h head l] says
    that the cells reachable from [head] represent the sequence [l]; the
    theorems show that the operations implement the operations on sequences
    that the other files use: [x :: l] for [list_add], [list_remove x l] for
    [list_del], [last l] for [list_last_entry], and a walk of [l] in order for
    the [list_for_each] macros. *)
From S2P Require Import Prelude Cmonad.
From stdpp Require Import gmap.

Abbreviation addr := positive.

Record list_head := mk_list_head { next : addr; prev : addr }.

Abbreviation lheap := (gmap addr list_head).

(** ** Memory accesses *)

Definition ld (p : addr) : M lheap list_head := λ h,
  match h !! p with
  | Some c => Ok (c, h)
  | None => Err Dangling
  end.

Definition st (p : addr) (c : list_head) : M lheap unit := λ h,
  match h !! p with
  | Some _ => Ok (tt, <[p := c]> h)
  | None => Err Dangling
  end.

Definition set_next (p v : addr) : M lheap unit :=
  let* c := ld p in st p (mk_list_head v (prev c)).

Definition set_prev (p v : addr) : M lheap unit :=
  let* c := ld p in st p (mk_list_head (next c) v).

Definition free_entry (p : addr) : M lheap unit := λ h,
  match h !! p with
  | Some _ => Ok (tt, delete p h)
  | None => Err Dangling
  end.

(** ** The operations of list.h *)

Definition list_empty (list : addr) : M lheap bool :=
  let* c := ld list in ret (bool_decide (next c = list)).

Definition INIT_LIST_HEAD (list : addr) : M lheap unit :=
  set_prev list list ;;; set_next list list.

Definition list_add (new head : addr) : M lheap unit :=
  set_prev new head ;;;
  (let* h := ld head in set_next new (next h)) ;;;
  (let* n := ld new in set_next (prev n) new) ;;;
  (let* n := ld new in set_prev (next n) new).

Definition list_del (entry : addr) : M lheap unit :=
  (let* e := ld entry in set_next (prev e) (next e)) ;;;
  (let* e := ld entry in set_prev (next e) (prev e)).

Definition list_first_entry (head : addr) : M lheap addr :=
  let* c := ld head in ret (next c).

Definition list_last_entry (head : addr) : M lheap addr :=
  let* c := ld head in ret (prev c).

(** The body of a loop that returns from the function gives [Some r]. *)
Fixpoint for_each_from {R} (fuel : nat) (pos head : addr)
    (body : addr → M lheap (option R)) : M lheap (option R) :=
  match fuel with
  | O => raise OutOfFuel
  | S fuel =>
      if bool_decide (pos = head) then ret None else
      let* r := body pos in
      match r with
      | Some r => ret (Some r)
      | None => let* c := ld pos in for_each_from fuel (next c) head body
      end
  end.

Definition list_for_each_entry {R} (fuel : nat) (head : addr)
    (body : addr → M lheap (option R)) : M lheap (option R) :=
  let* first := list_first_entry head in
  for_each_from fuel first head body.

(** The safe variant reads the successor of an entry before the body runs. *)
Fixpoint for_each_safe_from (fuel : nat) (pos tmp head : addr)
    (body : addr → M lheap unit) : M lheap unit :=
  match fuel with
  | O => raise OutOfFuel
  | S fuel =>
      if bool_decide (pos = head) then ret tt else
      body pos ;;;
      let* c := ld tmp in
      for_each_safe_from fuel tmp (next c) head body
  end.

Definition list_for_each_entry_safe (fuel : nat) (head : addr)
    (body : addr → M lheap unit) : M lheap unit :=
  let* pos := list_first_entry head in
  let* c := ld pos in
  for_each_safe_from fuel pos (next c) head body.

(** The loop of the [destroy_*_table] functions. *)
Definition destroy_entries (fuel : nat) (head : addr) : M lheap unit :=
  list_for_each_entry_safe fuel head (λ p, list_del p ;;; free_entry p).

(** ** The sequence a list head represents *)

Definition nxt (h : lheap) (p : addr) : option addr := next <$> h !! p.
Definition prv (h : lheap) (p : addr) : option addr := prev <$> h !! p.

Definition linked (h : lheap) (a b : addr) : Prop :=
  nxt h a = Some b ∧ prv h b = Some a.

Fixpoint chain (h : lheap) (a : addr) (l : list addr) (z : addr) : Prop :=
  match l with
  | [] => linked h a z
  | x :: l => linked h a x ∧ chain h x l z
  end.

Definition dll (h : lheap) (head : addr) (l : list addr) : Prop :=
  NoDup (head :: l) ∧ chain h head l head.

(** ** Lemmas on chains *)

Lemma chain_app h a l1 x l2 z :
  chain h a (l1 ++ x :: l2) z ↔ chain h a l1 x ∧ chain h x l2 z.
Proof. revert a. induction l1 as [|y l1 IH]; intros a; simpl; [done|]. rewrite IH. tauto. Qed.

Lemma chain_snoc h a l x z : chain h a (l ++ [x]) z ↔ chain h a l x ∧ linked h x z.
Proof. apply chain_app. Qed.

Lemma chain_frame h h' a l z :
  (∀ p, p ∈ a :: l → nxt h' p = nxt h p) →
  (∀ p, p ∈ l ++ [z] → prv h' p = prv h p) →
  chain h a l z → chain h' a l z.
Proof.
  revert a. unfold linked.
  induction l as [|x l IH]; simpl; intros a Hn Hp; unfold linked.
  - rewrite Hn, Hp by set_solver. done.
  - rewrite (Hn a), (Hp x) by set_solver. intros [??]. split; [done|].
    apply IH; [set_solver..|done].
Qed.

(** The cells of a chain are allocated. *)
Lemma chain_alloc h a l z p : chain h a l z → p ∈ a :: l → is_Some (h !! p).
Proof.
  revert a. induction l as [|x l IH]; simpl; unfold linked, nxt; intros a.
  - intros [H%fmap_Some _] ->%list_elem_of_singleton. naive_solver.
  - intros [[H%fmap_Some _] Hc] [->|Hp]%elem_of_cons; [naive_solver|eauto].
Qed.

Lemma dll_alloc h head l p : dll h head l → p ∈ head :: l → is_Some (h !! p).
Proof. intros [_ ?]. by eapply chain_alloc. Qed.

Lemma dll_frame h h' head l :
  (∀ p, p ∈ head :: l → h' !! p = h !! p) → dll h head l → dll h' head l.
Proof.
  intros Hf [Hnd Hc]. split; [done|].
  eapply chain_frame; [| |done]; unfold nxt, prv; intros p Hp; rewrite Hf; set_solver.
Qed.

Lemma dll_first h head l :
  dll h head l → nxt h head = Some (default head (hd_error l)).
Proof. intros [_ Hc]. destruct l; simpl in *; unfold linked in *; naive_solver. Qed.

Lemma dll_last h head l :
  dll h head l → prv h head = Some (default head (last l)).
Proof.
  intros [_ Hc]. destruct l as [|x l _] using rev_ind; simpl in *.
  - by destruct Hc.
  - apply chain_snoc in Hc as [_ [_ ?]]. by rewrite last_snoc.
Qed.

(** ** Rules for the accesses *)

Lemma wp_ld p c Q E (h : lheap) : h !! p = Some c → Q c h → wp (ld p) Q E h.
Proof. intros H HQ. unfold wp, ld. by rewrite H. Qed.

Lemma wp_st p c Q E (h : lheap) :
  is_Some (h !! p) → Q tt (<[p := c]> h) → wp (st p c) Q E h.
Proof. intros [c' H] HQ. unfold wp, st. by rewrite H. Qed.

Lemma wp_free_entry p c Q E (h : lheap) :
  h !! p = Some c → Q tt (delete p h) → wp (free_entry p) Q E h.
Proof. intros H HQ. unfold wp, free_entry. by rewrite H. Qed.

Lemma nxt_insert h p c q : nxt (<[p := c]> h) q = if decide (p = q) then Some (next c) else nxt h q.
Proof. unfold nxt. rewrite lookup_insert. by case_decide. Qed.
Lemma prv_insert h p c q : prv (<[p := c]> h) q = if decide (p = q) then Some (prev c) else prv h q.
Proof. unfold prv. rewrite lookup_insert. by case_decide. Qed.

Lemma nxt_Some h p v : nxt h p = Some v → ∃ w, h !! p = Some (mk_list_head v w).
Proof. intros ([? w] & ? & ->)%fmap_Some. by eexists. Qed.
Lemma prv_Some h p w : prv h p = Some w → ∃ v, h !! p = Some (mk_list_head v w).
Proof. intros ([v ?] & ? & ->)%fmap_Some. by eexists. Qed.

(** A store to one pointer of a cell, seen through [nxt] and [prv]. *)
Lemma wp_set_next p v Q E (h : lheap) :
  is_Some (h !! p) →
  (∀ h', (∀ q, nxt h' q = if decide (p = q) then Some v else nxt h q) →
         (∀ q, prv h' q = prv h q) → (∀ q, q ≠ p → h' !! q = h !! q) →
         (∀ q, is_Some (h !! q) → is_Some (h' !! q)) → Q tt h') →
  wp (set_next p v) Q E h.
Proof.
  intros [[vn vp] Hp] HQ. apply wp_bind, (wp_ld _ _ _ _ _ Hp), wp_st; [by eexists|].
  apply HQ; intros q.
  - by rewrite nxt_insert.
  - rewrite prv_insert. case_decide; [|done]. subst. unfold prv. by rewrite Hp.
  - intros. by rewrite lookup_insert_ne.
  - intros. rewrite lookup_insert. case_decide; eauto.
Qed.

Lemma wp_set_prev p v Q E (h : lheap) :
  is_Some (h !! p) →
  (∀ h', (∀ q, prv h' q = if decide (p = q) then Some v else prv h q) →
         (∀ q, nxt h' q = nxt h q) → (∀ q, q ≠ p → h' !! q = h !! q) →
         (∀ q, is_Some (h !! q) → is_Some (h' !! q)) → Q tt h') →
  wp (set_prev p v) Q E h.
Proof.
  intros [[vn vp] Hp] HQ. apply wp_bind, (wp_ld _ _ _ _ _ Hp), wp_st; [by eexists|].
  apply HQ; intros q.
  - by rewrite prv_insert.
  - rewrite nxt_insert. case_decide; [|done]. subst. unfold nxt. by rewrite Hp.
  - intros. by rewrite lookup_insert_ne.
  - intros. rewrite lookup_insert. case_decide; eauto.
Qed.

(** Reading a pointer. *)
Lemma wp_ld_next {B} p v (k : list_head → M lheap B) Q E (h : lheap) :
  nxt h p = Some v → (∀ w, h !! p = Some (mk_list_head v w) → wp (k (mk_list_head v w)) Q E h) →
  wp (bind (ld p) k) Q E h.
Proof. intros (w & Hp)%nxt_Some HQ. apply wp_bind, (wp_ld _ _ _ _ _ Hp). auto. Qed.

Lemma wp_ld_prev {B} p w (k : list_head → M lheap B) Q E (h : lheap) :
  prv h p = Some w → (∀ v, h !! p = Some (mk_list_head v w) → wp (k (mk_list_head v w)) Q E h) →
  wp (bind (ld p) k) Q E h.
Proof. intros (v & Hp)%prv_Some HQ. apply wp_bind, (wp_ld _ _ _ _ _ Hp). auto. Qed.

(** Cells outside a set of addresses are untouched, and nothing is freed. *)
Definition untouched (l : list addr) (h h' : lheap) : Prop :=
  (∀ q, q ∉ l → h' !! q = h !! q) ∧ (∀ q, is_Some (h !! q) ↔ is_Some (h' !! q)).

Lemma is_Some_nxt h p : is_Some (h !! p) ↔ is_Some (nxt h p).
Proof. unfold nxt. by rewrite fmap_is_Some. Qed.
Lemma is_Some_prv h p : is_Some (h !! p) ↔ is_Some (prv h p).
Proof. unfold prv. by rewrite fmap_is_Some. Qed.

(** ** [list_add] puts the new entry at the front *)

Lemma wp_list_add h head l new Q E :
  dll h head l → new ∉ head :: l → is_Some (h !! new) →
  (∀ h', dll h' head (new :: l) → untouched (new :: head :: l) h h' → Q tt h') →
  wp (list_add new head) Q E h.
Proof.
  intros Hd Hnew Hs HQ. pose proof (dll_first _ _ _ Hd) as Hf.
  set (n := default head (hd_error l)) in *.
  assert (n ∈ head :: l) as Hn by (subst n; destruct l; simpl; set_solver).
  assert (new ≠ head) by set_solver. assert (new ≠ n) by set_solver.
  pose proof (dll_alloc _ _ _ n Hd Hn) as Hsn.
  assert (is_Some (h !! head)) as Hsh by (eapply dll_alloc; [done|set_solver]).
  apply wp_bind, wp_set_prev; [done|]. intros h1 P1 N1 F1 S1.
  apply wp_bind. eapply wp_ld_next; [by rewrite N1|]. intros w1 _. simpl.
  apply wp_set_next; [eauto|]. intros h2 N2 P2 F2 S2.
  apply wp_bind. eapply (wp_ld_prev _ head); [by rewrite P2, P1, decide_True|].
  intros v2 _. simpl. apply wp_set_next; [eauto|]. intros h3 N3 P3 F3 S3.
  eapply (wp_ld_next _ n).
  { rewrite N3, decide_False, N2, decide_True; done. }
  intros w3 _. simpl. apply wp_set_prev; [eauto|]. intros h4 P4 N4 F4 S4.
  assert (∀ q, nxt h4 q = if decide (head = q) then Some new
                          else if decide (new = q) then Some n else nxt h q) as Nx.
  { intros q. by rewrite N4, N3, N2, N1. }
  assert (∀ q, prv h4 q = if decide (n = q) then Some new
                          else if decide (new = q) then Some head else prv h q) as Px.
  { intros q. by rewrite P4, P3, P2, P1. }
  destruct Hd as [Hnd Hc]. apply HQ.
  - split; [apply NoDup_cons in Hnd as [??]; rewrite !NoDup_cons; set_solver|].
    simpl. split.
    + split; [by rewrite Nx, decide_True|].
      rewrite Px, decide_False, decide_True; done.
    + destruct l as [|x l]; simpl in *; subst n.
      * split; [by rewrite Nx, decide_False, decide_True|by rewrite Px, decide_True].
      * destruct Hc as [_ Hc]. apply NoDup_cons in Hnd as [Hh [Hx Hl]%NoDup_cons].
        split; [split; [by rewrite Nx, decide_False, decide_True|by rewrite Px, decide_True]|].
        eapply chain_frame; [| |done]; intros p Hp.
        -- rewrite Nx, !decide_False by set_solver. done.
        -- rewrite Px, !decide_False by set_solver. done.
  - split.
    + intros q Hq. rewrite F4, F3, F2, F1 by set_solver. done.
    + intros q. split; [eauto|]. rewrite !is_Some_nxt, Nx. repeat case_decide; subst; intros;
        [by apply is_Some_nxt|by apply is_Some_nxt|done].
Qed.

(** ** [list_del] unlinks an entry *)

(** The predecessor of the end of a chain, and how the chain is redirected to
    another end by changing that predecessor only. *)
Lemma chain_redirect h a0 l x :
  chain h a0 l x → NoDup (a0 :: l) →
  ∃ a, prv h x = Some a ∧ nxt h a = Some x ∧ a ∈ a0 :: l ∧
    ∀ h' b, (∀ q, q ∈ a0 :: l → q ≠ a → nxt h' q = nxt h q) →
            (∀ q, q ∈ l → prv h' q = prv h q) →
            linked h' a b → chain h' a0 l b.
Proof.
  revert a0. induction l as [|y l IH]; intros a0 Hc Hnd; simpl in Hc.
  - destruct Hc. exists a0. split_and!; [done..|set_solver|]. by intros.
  - destruct Hc as [[Hn Hp] Hc]. apply NoDup_cons in Hnd as [Ha0 Hnd].
    destruct (IH y Hc Hnd) as (a & Pa & Na & Ha & Hch). exists a.
    split_and!; [done..|set_solver|]. intros h' b Hn' Hp' Hl. simpl. split.
    + split; [rewrite Hn'; set_solver|rewrite Hp'; set_solver].
    + apply Hch; [| |done]; intros; [apply Hn'|apply Hp']; set_solver.
Qed.

Lemma wp_list_del h head l1 x l2 Q E :
  dll h head (l1 ++ x :: l2) →
  (∀ h', dll h' head (l1 ++ l2) → untouched (head :: l1 ++ l2) h h' → Q tt h') →
  wp (list_del x) Q E h.
Proof.
  intros [Hnd [Hc1 Hc2]%chain_app] HQ.
  apply NoDup_cons in Hnd as [Hh Hnd].
  apply NoDup_app in Hnd as (Hnd1 & Hd & [Hx Hnd2]%NoDup_cons).
  destruct (chain_redirect _ _ _ _ Hc1) as (a & Pa & Na & Ha & Hre).
  { apply NoDup_cons; set_solver. }
  assert (∃ b, nxt h x = Some b ∧ prv h b = Some x ∧ b ∈ l2 ++ [head])
    as (b & Nb & Pb & Hb).
  { destruct l2 as [|b l2]; [destruct Hc2; exists head|destruct Hc2 as [[??] _]; exists b];
      split_and!; set_solver. }
  assert (a ≠ x ∧ b ≠ x) as [Hax Hbx] by set_solver.
  eapply wp_bind, (wp_ld_prev _ a); [done|]. intros v0 E0.
  assert (v0 = b) as -> by (unfold nxt in Nb; rewrite E0 in Nb; naive_solver). simpl.
  apply wp_set_next; [apply is_Some_nxt; eauto|]. intros h1 N1 P1 F1 S1.
  eapply (wp_ld_prev _ a); [by rewrite P1|]. intros v1 E1.
  assert (v1 = b) as ->.
  { assert (nxt h1 x = Some b) as Hv by (by rewrite N1, decide_False).
    unfold nxt in Hv. rewrite E1 in Hv. naive_solver. }
  simpl. apply wp_set_prev; [apply S1, is_Some_prv; eauto|]. intros h2 P2 N2 F2 S2.
  assert (linked h2 a b) as Hab.
  { split; [by rewrite N2, N1, decide_True|by rewrite P2, decide_True]. }
  assert (∀ q, q ≠ a → nxt h2 q = nxt h q) as Nx by (intros; by rewrite N2, N1, decide_False).
  assert (∀ q, q ≠ b → prv h2 q = prv h q) as Px by (intros; by rewrite P2, P1, decide_False).
  assert (chain h2 head l1 b) as Hl.
  { apply Hre; [by auto| |done]. intros. apply Px. set_solver. }
  apply HQ; split.
  - apply NoDup_cons. split; [set_solver|]. apply NoDup_app. set_solver.
  - destruct l2 as [|y l2]; simpl in Hc2.
    + destruct Hc2. rewrite app_nil_r. by simplify_eq.
    + destruct Hc2 as [[??] Hc2]. simplify_eq. apply chain_app. split; [done|].
      apply NoDup_cons in Hnd2 as [??].
      eapply chain_frame; [| |done]; intros; [apply Nx|apply Px]; set_solver.
  - intros q Hq. rewrite F2, F1 by set_solver. done.
  - intros q. split; [by eauto|]. rewrite !is_Some_nxt, N2, N1.
    case_decide; [intros; subst; eauto|done].
Qed.

(** ** Walking a list *)

(** The first result that a partial function gives on the elements of a list. *)
Fixpoint first_some {A B} (f : A → option B) (l : list A) : option B :=
  match l with
  | [] => None
  | x :: l => match f x with Some r => Some r | None => first_some f l end
  end.

Lemma for_each_from_spec {R} h head (body : addr → M lheap (option R)) f a l fuel :
  chain h a l head → head ∉ l → (∀ p, p ∈ l → body p h = Ok (f p, h)) →
  (length l < fuel)%nat →
  for_each_from fuel (default head (hd_error l)) head body h = Ok (first_some f l, h).
Proof.
  revert a l. induction fuel as [|fuel IH]; intros a l Hc Hh Hb Hf; [lia|].
  destruct l as [|x l]; simpl.
  { by rewrite bool_decide_true. }
  rewrite bool_decide_false by set_solver. unfold bind. rewrite Hb by set_solver.
  destruct (f x) as [r|]; [done|]. destruct Hc as [_ Hc].
  assert (nxt h x = Some (default head (hd_error l))) as (w & Hx)%nxt_Some.
  { destruct l; simpl in *; unfold linked in *; naive_solver. }
  unfold ld. rewrite Hx. simpl in *.
  apply (IH x); [done|set_solver|intros; apply Hb; set_solver|lia].
Qed.

Lemma list_for_each_entry_spec {R} h head (body : addr → M lheap (option R)) f l fuel :
  dll h head l → (∀ p, p ∈ l → body p h = Ok (f p, h)) → (length l < fuel)%nat →
  list_for_each_entry fuel head body h = Ok (first_some f l, h).
Proof.
  intros Hd Hb Hf. pose proof (dll_first _ _ _ Hd) as (w & Hh)%nxt_Some.
  unfold list_for_each_entry, list_first_entry, bind, ld. rewrite Hh. simpl.
  destruct Hd as [[??]%NoDup_cons Hc]. by eapply for_each_from_spec.
Qed.

(** The safe walk whose body unlinks and frees each entry. *)
Lemma for_each_safe_destroy h head l fuel :
  dll h head l → (length l < fuel)%nat →
  (∃ c, h !! head = Some c) →
  ∀ pos tmp,
    pos = default head (hd_error l) → nxt h pos = Some tmp →
    ∃ h', for_each_safe_from fuel pos tmp head (λ p, list_del p ;;; free_entry p) h
            = Ok (tt, h') ∧
      dll h' head [] ∧ (∀ p, p ∈ l → h' !! p = None) ∧
      (∀ p, p ∉ head :: l → h' !! p = h !! p).
Proof.
  revert h l. induction fuel as [|fuel IH]; intros h l Hd Hf Hh pos tmp Hpos Htmp; [lia|].
  destruct l as [|x l]; simpl in Hpos; subst pos; cbn [for_each_safe_from].
  { rewrite bool_decide_true by done. eexists. split; [done|]. set_solver. }
  pose proof Hd as [[Hhd Hnd]%NoDup_cons Hc].
  rewrite bool_decide_false by set_solver.
  assert (tmp = default head (hd_error l)) as Ht.
  { destruct Hc as [_ Hc]. destruct l; simpl in *; unfold linked in *; naive_solver. }
  apply wp_ok_tt, wp_bind, wp_bind.
  eapply (wp_list_del _ head [] x l); [done|]. intros h1 Hd1 [F1 S1]. simpl in *.
  assert (is_Some (h1 !! x)) as [cx Ex].
  { apply S1. eapply dll_alloc; [done|set_solver]. }
  eapply wp_free_entry; [done|].
  assert (dll (delete x h1) head l) as Hd2.
  { eapply dll_frame; [|done]. intros p Hp. apply lookup_delete_ne.
    intros <-. apply NoDup_cons in Hnd. set_solver. }
  assert (is_Some (delete x h1 !! tmp)) as [[tn tp] Et].
  { eapply dll_alloc; [done|]. subst tmp. destruct l; set_solver. }
  apply wp_bind. eapply wp_ld; [done|].
  assert (is_Some (delete x h1 !! head)) as [ch Eh]
    by (eapply dll_alloc; [done|set_solver]).
  destruct (IH _ l Hd2 ltac:(simpl in *; lia) (ex_intro _ _ Eh) tmp tn Ht) as (h' & Er & Hd' & Hl & Ho).
  { unfold nxt. by rewrite Et. }
  unfold wp; cbn [next]. rewrite Er. split; [done|]. split.
  - intros p [->|Hp]%elem_of_cons; [|by auto].
    rewrite Ho by (apply NoDup_cons in Hnd; set_solver). apply lookup_delete_eq.
  - intros p Hp. rewrite Ho by set_solver. rewrite lookup_delete_ne by set_solver.
    apply F1. set_solver.
Qed.

Lemma destroy_entries_spec h head l fuel :
  dll h head l → (length l < fuel)%nat →
  ∃ h', destroy_entries fuel head h = Ok (tt, h') ∧ dll h' head [] ∧
    (∀ p, p ∈ l → h' !! p = None) ∧ (∀ p, p ∉ head :: l → h' !! p = h !! p).
Proof.
  intros Hd Hf. pose proof (dll_first _ _ _ Hd) as Hn. pose proof Hn as (w & Hh)%nxt_Some.
  set (pos := default head (hd_error l)) in *.
  assert (is_Some (h !! pos)) as [[tn tp] Et].
  { eapply dll_alloc; [done|]. subst pos. destruct l; set_solver. }
  unfold destroy_entries, list_for_each_entry_safe, list_first_entry, bind, ld.
  rewrite Hh. simpl. rewrite Et.
  eapply (for_each_safe_destroy _ _ l); eauto. unfold nxt. by rewrite Et.
Qed.

(** ** Refinement: list.h implements a family of disjoint sequences

    The abstract state gives the sequence of every initialised head and the set
    of allocated cells that are in no list.  The abstract operations are the
    sequence operations that the other files of the development use in place
    of list.h. *)

Record lists := mk_lists { reps : gmap addr (list addr); idle : gset addr }.

Inductive list_op :=
  | OpInit (p : addr)
  | OpAdd (x hd : addr)
  | OpDel (x hd : addr)                (* [hd] is not an argument of the code *)
  | OpEmpty (hd : addr)
  | OpFirst (hd : addr)
  | OpLast (hd : addr)
  | OpFind (f : addr → bool) (hd : addr)
  | OpDestroy (hd : addr).

Inductive list_obs :=
  | ObsUnit
  | ObsBool (b : bool)
  | ObsAddr (p : addr)
  | ObsFound (r : option addr).

(** The sequence-level operation; [None] when its precondition fails. *)
Definition spec_op (o : list_op) (a : lists) : option (list_obs * lists) :=
  match o with
  | OpInit p =>
      if decide (p ∈ idle a)
      then Some (ObsUnit, mk_lists (<[p := []]> (reps a)) (idle a ∖ {[p]})) else None
  | OpAdd x hd =>
      l ← reps a !! hd;
      if decide (x ∈ idle a)
      then Some (ObsUnit, mk_lists (<[hd := x :: l]> (reps a)) (idle a ∖ {[x]})) else None
  | OpDel x hd =>
      l ← reps a !! hd;
      if decide (x ∈ l)
      then Some (ObsUnit, mk_lists (<[hd := list_remove x l]> (reps a)) ({[x]} ∪ idle a))
      else None
  | OpEmpty hd => l ← reps a !! hd; Some (ObsBool (bool_decide (l = [])), a)
  | OpFirst hd => l ← reps a !! hd; Some (ObsAddr (default hd (hd_error l)), a)
  | OpLast hd => l ← reps a !! hd; Some (ObsAddr (default hd (last l)), a)
  | OpFind f hd => l ← reps a !! hd; Some (ObsFound (list.list_find f l ≫= λ r, Some r.2), a)
  | OpDestroy hd =>
      _ ← reps a !! hd; Some (ObsUnit, mk_lists (<[hd := []]> (reps a)) (idle a))
  end.

(** The code; a walk takes at most one iteration per allocated cell. *)
Definition exec_op (o : list_op) : M lheap list_obs :=
  let* fuel := gets (λ h, S (size h)) in
  match o with
  | OpInit p => INIT_LIST_HEAD p ;;; ret ObsUnit
  | OpAdd x hd => list_add x hd ;;; ret ObsUnit
  | OpDel x _ => list_del x ;;; ret ObsUnit
  | OpEmpty hd => let* b := list_empty hd in ret (ObsBool b)
  | OpFirst hd => let* p := list_first_entry hd in ret (ObsAddr p)
  | OpLast hd => let* p := list_last_entry hd in ret (ObsAddr p)
  | OpFind f hd =>
      let* r := list_for_each_entry fuel hd (λ p, ret (if f p then Some p else None)) in
      ret (ObsFound r)
  | OpDestroy hd => destroy_entries fuel hd ;;; ret ObsUnit
  end.

Fixpoint exec_ops (os : list list_op) : M lheap (list list_obs) :=
  match os with
  | [] => ret []
  | o :: os => let* r := exec_op o in let* rs := exec_ops os in ret (r :: rs)
  end.

Fixpoint spec_ops (os : list list_op) (a : lists) : option (list list_obs * lists) :=
  match os with
  | [] => Some ([], a)
  | o :: os =>
      '(r, a) ← spec_op o a;
      '(rs, a) ← spec_ops os a;
      Some (r :: rs, a)
  end.

Record rep (h : lheap) (a : lists) : Prop := {
  rep_dll hd l : reps a !! hd = Some l → dll h hd l;
  rep_idle x : x ∈ idle a → is_Some (h !! x);
  rep_idle_disj x hd l : x ∈ idle a → reps a !! hd = Some l → x ∉ hd :: l;
  rep_disj hd1 l1 hd2 l2 x :
    reps a !! hd1 = Some l1 → reps a !! hd2 = Some l2 →
    x ∈ hd1 :: l1 → x ∈ hd2 :: l2 → hd1 = hd2;
}.

Lemma dll_length h hd l : dll h hd l → (length l < S (size h))%nat.
Proof.
  intros Hd. pose proof Hd as [[_ Hnd]%NoDup_cons _].
  assert (size (list_to_set (C := gset addr) l) ≤ size (dom h))%nat as Hs.
  { apply subseteq_size. intros x Hx%elem_of_list_to_set. apply elem_of_dom.
    eapply dll_alloc; [done|set_solver]. }
  rewrite size_list_to_set in Hs by done. rewrite size_dom in Hs. lia.
Qed.

Lemma first_some_find (f : addr → bool) l :
  first_some (λ p, if f p then Some p else None) l = (list.list_find f l ≫= λ r, Some r.2).
Proof.
  induction l as [|x l IH]; simpl; [done|].
  destruct (f x) eqn:E; simpl; [done|].
  rewrite IH. by destruct (list.list_find f l) as [[]|].
Qed.

(** Re-establishing [rep] when one list (and the idle set) changes. *)
Lemma rep_update h h' a hd l' idle' :
  rep h a →
  dll h' hd l' →
  (∀ q, q ∉ hd :: l' → (∀ l, reps a !! hd = Some l → q ∉ hd :: l) →
        q ∉ idle a ∖ idle' → h' !! q = h !! q) →
  (∀ x, x ∈ idle' → is_Some (h' !! x)) →
  (∀ x, x ∈ hd :: l' → x ∈ idle a ∨ (∃ l, reps a !! hd = Some l ∧ x ∈ hd :: l)) →
  (∀ x, x ∈ idle' → x ∉ hd :: l' ∧ (x ∈ idle a ∨ (∃ l, reps a !! hd = Some l ∧ x ∈ hd :: l))) →
  rep h' (mk_lists (<[hd := l']> (reps a)) idle').
Proof.
  intros Hr Hd Hf Hi Hl' Hidle. split; simpl.
  - intros hd2 l2. rewrite lookup_insert. case_decide; [by intros; simplify_eq|]. intros H2.
    eapply dll_frame; [|by eapply rep_dll]. intros p Hp. apply Hf.
    + intros [?|(l & El & ?)]%Hl'; [by eapply rep_idle_disj|].
      by eapply H, eq_sym, (rep_disj _ _ Hr hd2 l2 hd l p).
    + intros l El Hpl. by eapply H, eq_sym, (rep_disj _ _ Hr hd2 l2 hd l p).
    + rewrite elem_of_difference. intros [? _]. by eapply rep_idle_disj.
  - done.
  - intros x hd2 l2 Hx. rewrite lookup_insert. case_decide; [intros; simplify_eq; by apply Hidle|].
    intros H2 Hx2. destruct (Hidle x Hx) as [_ [?|(l & El & ?)]]; [by eapply rep_idle_disj|].
    by eapply H, eq_sym, (rep_disj _ _ Hr hd2 l2 hd l x).
  - assert (∀ hd2 l2 x, reps a !! hd2 = Some l2 → x ∈ hd :: l' → x ∈ hd2 :: l2 → hd = hd2) as Hx.
    { intros hd2 l2 x H2 [?|(l & El & ?)]%Hl' Hx2; [by exfalso; eapply rep_idle_disj|].
      by eapply (rep_disj _ _ Hr hd l hd2 l2 x). }
    intros hd1 l1 hd2 l2 x. rewrite !lookup_insert. repeat case_decide; subst; intros; simplify_eq.
    + done.
    + by eapply Hx.
    + symmetry. by eapply Hx.
    + by eapply rep_disj.
Qed.

(** One lemma per operation: the new cells represent the new sequence, from
    which [rep_update] re-establishes the representation. *)
Section OpRefines.
Context (h : lheap) (a : lists) (Hr : rep h a).

Lemma refine_init p :
  p ∈ idle a →
  wp (INIT_LIST_HEAD p)
     (λ _ h', rep h' (mk_lists (<[p := []]> (reps a)) (idle a ∖ {[p]}))) (λ _, False) h.
Proof.
  intros Hp. pose proof (rep_idle _ _ Hr _ Hp) as Hsp.
  unfold INIT_LIST_HEAD. mstep. apply wp_set_prev; [done|]. intros h1 P1 N1 F1 S1.
  apply wp_set_next; [eauto|]. intros h2 N2 P2 F2 S2.
  eapply rep_update; [done|..].
  - split; [apply NoDup_singleton|]. simpl. split.
    + by rewrite N2, decide_True.
    + by rewrite P2, P1, decide_True.
  - intros q Hq _ _. rewrite F2, F1 by set_solver. done.
  - intros x [Hx _]%elem_of_difference. by eapply S2, S1, rep_idle.
  - set_solver.
  - set_solver.
Qed.

Lemma refine_add x hd l :
  reps a !! hd = Some l → x ∈ idle a →
  wp (list_add x hd)
     (λ _ h', rep h' (mk_lists (<[hd := x :: l]> (reps a)) (idle a ∖ {[x]}))) (λ _, False) h.
Proof.
  intros El Hx.
  eapply wp_list_add; [by eapply rep_dll|by eapply rep_idle_disj|by eapply rep_idle|].
  intros h1 Hd1 [F1 S1]. eapply rep_update; [done|done|..].
  - intros q Hq Hq' _. apply F1. specialize (Hq' _ El). set_solver.
  - intros y [Hy _]%elem_of_difference. by eapply S1, rep_idle.
  - intros y Hy. assert (y = x ∨ y ∈ hd :: l) as [->|?] by set_solver; eauto.
  - intros y [Hy Hyx]%elem_of_difference. split; [|by left].
    pose proof (rep_idle_disj _ _ Hr _ _ _ Hy El). set_solver.
Qed.

Lemma refine_del x hd l :
  reps a !! hd = Some l → x ∈ l →
  wp (list_del x)
     (λ _ h', rep h' (mk_lists (<[hd := list_remove x l]> (reps a)) ({[x]} ∪ idle a)))
     (λ _, False) h.
Proof.
  intros El (l1 & l2 & ->)%list_elem_of_split.
  pose proof (rep_dll _ _ Hr _ _ El) as Hd. pose proof Hd as [[Hhd Hnd]%NoDup_cons _].
  assert (x ∉ l1 ++ l2 ∧ x ≠ hd) as [Hxl Hxh].
  { apply NoDup_app in Hnd as (? & ? & [? ?]%NoDup_cons). set_solver. }
  rewrite list_remove_app_cons by set_solver.
  eapply wp_list_del; [done|]. intros h1 Hd1 [F1 S1]. eapply rep_update; [done|done|..].
  - intros q Hq _ _. by apply F1.
  - intros y [->%elem_of_singleton|Hy]%elem_of_union; apply S1; [|by eapply rep_idle].
    eapply dll_alloc; [done|set_solver].
  - intros y Hy. right. eexists. split; [done|]. set_solver.
  - intros y [->%elem_of_singleton|Hy]%elem_of_union.
    + split; [set_solver|]. right. eexists. split; [done|]. set_solver.
    + split; [|by left]. pose proof (rep_idle_disj _ _ Hr _ _ _ Hy El). set_solver.
Qed.

Lemma refine_empty hd l :
  reps a !! hd = Some l →
  wp (list_empty hd) (λ b h', b = bool_decide (l = []) ∧ h' = h) (λ _, False) h.
Proof.
  intros El. pose proof (rep_dll _ _ Hr _ _ El) as Hd.
  unfold list_empty. eapply wp_ld_next; [by eapply dll_first|]. intros w _. simpl.
  mstep. split; [|done]. apply bool_decide_ext.
  destruct l; simpl; [done|]. split; [|done]. intros ->.
  destruct Hd as [[? _]%NoDup_cons _]. set_solver.
Qed.

Lemma refine_destroy hd l :
  reps a !! hd = Some l →
  wp (destroy_entries (S (size h)) hd)
     (λ _ h', rep h' (mk_lists (<[hd := []]> (reps a)) (idle a))) (λ _, False) h.
Proof.
  intros El. pose proof (rep_dll _ _ Hr _ _ El) as Hd.
  destruct (destroy_entries_spec _ _ _ _ Hd (dll_length _ _ _ Hd)) as (h' & E & Hd' & Hl & Ho).
  unfold wp. rewrite E. eapply rep_update; [done|done|..].
  - intros q _ Hq _. by apply Ho, Hq.
  - intros y Hy. rewrite Ho by by eapply rep_idle_disj. by eapply rep_idle.
  - intros y Hy. right. eexists. split; [done|]. set_solver.
  - intros y Hy. split; [|by left]. pose proof (rep_idle_disj _ _ Hr _ _ _ Hy El). set_solver.
Qed.
End OpRefines.

Lemma spec_op_refines h a o r a' :
  rep h a → spec_op o a = Some (r, a') → ∃ h', exec_op o h = Ok (r, h') ∧ rep h' a'.
Proof.
  intros Hr Hs.
  enough (wp (exec_op o) (λ r' h', r' = r ∧ rep h' a') (λ _, False) h)
    as (r' & h' & ? & -> & ?)%wp_ok by eauto.
  unfold exec_op. mstep. mstep.
  destruct o as [p|x hd|x hd|hd|hd|hd|f hd|hd]; simpl in Hs;
    [|destruct (reps a !! hd) as [l|] eqn:El; simplify_eq/=..]; repeat case_decide; simplify_eq;
    mstep.
  - eapply wp_mono; [by apply refine_init|by intros; mstep|done].
  - eapply wp_mono; [by eapply refine_add|by intros; mstep|done].
  - eapply wp_mono; [by eapply refine_del|by intros; mstep|done].
  - eapply wp_mono; [by eapply refine_empty|intros ?? [-> ->]; by mstep|done].
  - unfold list_first_entry. eapply wp_ld_next; [by eapply dll_first, rep_dll|].
    intros w _. by repeat mstep.
  - unfold list_last_entry. eapply wp_ld_prev; [by eapply dll_last, rep_dll|].
    intros w _. by repeat mstep.
  - unfold wp. erewrite list_for_each_entry_spec;
      [|by eapply rep_dll|intros; reflexivity|by eapply dll_length, rep_dll].
    split; [|done]. by rewrite first_some_find.
  - eapply wp_mono; [by eapply refine_destroy|by intros; mstep|done].
Qed.

(** C29. Every program of list.h operations on circular lists whose abstract counterpart on
    sequences is defined runs without a fault, returns the same observations and leaves a
    heap that represents the resulting sequences. *)
Theorem list_ops_refine_sequences h a os rs a' :
  rep h a → spec_ops os a = Some (rs, a') →
  ∃ h', exec_ops os h = Ok (rs, h') ∧ rep h' a'.
Proof.
  revert h a rs. induction os as [|o os IH]; intros h a rs Hr Hs; simpl in Hs; simplify_eq.
  { by exists h. }
  destruct (spec_op o a) as [[r a1]|] eqn:E1; simplify_eq/=.
  destruct (spec_ops os a1) as [[rs1 a2]|] eqn:E2; simplify_eq/=.
  destruct (spec_op_refines _ _ _ _ _ Hr E1) as (h1 & X1 & Hr1).
  destruct (IH _ _ _ Hr1 E2) as (h2 & X2 & Hr2).
  exists h2. split; [|done]. simpl. unfold bind. by rewrite X1, X2.
Qed.

(** A head and two entries: the entries are added, the older one is last and is
    unlinked, and the head still leads to the other. *)
Lemma list_ops_refine_sequences_witness :
  let cell := λ p : addr, (p, mk_list_head 9 9) in
  let h : lheap := list_to_map [cell 1; cell 2; cell 3]%positive in
  let a := mk_lists ∅ {[1; 2; 3]}%positive in
  let os := [OpInit 1; OpAdd 2 1; OpAdd 3 1; OpLast 1; OpDel 2 1; OpFirst 1; OpEmpty 1;
             OpDestroy 1; OpEmpty 1]%positive in
  ∃ rs a', spec_ops os a = Some (rs, a') ∧
           rs !! 3%nat = Some (ObsAddr 2%positive) ∧ rs !! 5%nat = Some (ObsAddr 3%positive) ∧
           ∃ h', exec_ops os h = Ok (rs, h') ∧ rep h' a'.
Proof.
  intros cell h a os. do 2 eexists. split; [vm_compute; reflexivity|]. split; [reflexivity|].
  split; [reflexivity|]. apply (list_ops_refine_sequences h a os); [|vm_compute; reflexivity].
  split; unfold h, cell, a; simpl; try done.
  intros x Hx. assert (x = 1 ∨ x = 2 ∨ x = 3)%positive as [->|[->| ->]] by set_solver;
    by eexists.
Defined.
