(* ===== verification/Utils.v ===== *)
(** * utils.c, utils.h: byte order, addresses as text, checksums

    The byte-order macros, the conversions between dotted addresses and 32-bit
    integers (with the parts of [sscanf] and [sprintf] they use), the masks the
    program applies to addresses, broadcast MAC addresses, and the Internet
    checksum with its reference definition (RFC 1071). *)
From S2P Require Import Prelude Cmonad.
From stdpp Require Import strings.
#[local] Open Scope Z_scope.

(** Sequencing of results that have no state. *)
Definition rbind {A B} (r : res A) (k : A → res B) : res B :=
  match r with
  | Ok a => k a
  | Err f => Err f
  end.
Notation "'let?' x := r 'in' k" := (rbind r (λ x, k))
  (at level 10, x pattern, r at level 200, k at level 200) : cprog_scope.

(** A C string is the list of its bytes without the final NUL. *)
Definition cstr (s : string) : list Z :=
  map (λ c, Z.of_N (Ascii.N_of_ascii c)) (String.list_ascii_of_string s).

(** ** Byte order *)

Definition HTONS (n : Z) : Z := Z.shiftr n 8 + Z.shiftl (Z.land n 0xff) 8.
Definition NTOHS := HTONS.

Definition HTONL (n : Z) : Z :=
  Z.shiftr n 24
  + Z.land (Z.shiftr n 8) 0x0000ff00
  + Z.land (Z.shiftl n 8) 0x00ff0000
  + Z.land (Z.shiftl n 24) 0xff000000.
Definition NTOHL := HTONL.

Definition MIN (a b : Z) : Z := if a <? b then a else b.

(** ** Addresses as text *)

Definition isspace (c : Z) : bool := (c =? 32) || ((9 <=? c) && (c <=? 13)).
Definition isdigit (c : Z) : bool := (48 <=? c) && (c <=? 57).

Fixpoint skip_space (s : list Z) : list Z :=
  match s with
  | c :: s' => if isspace c then skip_space s' else s
  | [] => []
  end.

Fixpoint span_digits (s : list Z) : list Z * list Z :=
  match s with
  | c :: s' => if isdigit c then let '(ds, r) := span_digits s' in (c :: ds, r) else ([], s)
  | [] => ([], [])
  end.

Definition digits_value (ds : list Z) : Z := fold_left (λ acc d, acc * 10 + (d - 48)) ds 0.

(** The conversion [%u] of [sscanf]: white space, a sign, digits; the value is
    the one of [strtoul], stored in an [unsigned int]. *)
Definition scan_u (s : list Z) : option (Z * list Z) :=
  let s := skip_space s in
  let '(neg, s) :=
    match s with
    | c :: s' => if c =? 45 then (true, s') else if c =? 43 then (false, s') else (false, s)
    | [] => (false, s)
    end in
  let '(ds, rest) := span_digits s in
  match ds with
  | [] => None
  | _ =>
      let v := digits_value ds in
      let ul := if 2 ^ 64 - 1 <? v then 2 ^ 64 - 1
                else if (neg : bool) then wrap64 (- v) else v in
      Some (wrap32 ul, rest)
  end.

(** [sscanf(s, "%u.%u...", ...)] with [n] conversions: the values assigned. *)
Fixpoint scan_dotted (n : nat) (s : list Z) : list Z :=
  match n with
  | O => []
  | S n =>
      match scan_u s with
      | None => []
      | Some (v, rest) =>
          v :: match rest with
               | c :: rest => if c =? 46 then scan_dotted n rest else []
               | [] => []
               end
      end
  end.

Definition convert_ip_from_str_to_int (ip_addr : list Z) : Z :=
  match scan_dotted 4 ip_addr with
  | [a; b; c; d] =>
      if (255 <? a) || (255 <? b) || (255 <? c) || (255 <? d) then 0
      else le_decode [a; b; c; d]
  | _ => 0
  end.

(** The conversion [%u] of [sprintf]: at most ten digits for 32 bits. *)
Fixpoint print_u_digits (fuel : nat) (v : Z) (acc : list Z) : list Z :=
  match fuel with
  | O => acc
  | S fuel =>
      let acc := 48 + v mod 10 :: acc in
      if v / 10 =? 0 then acc else print_u_digits fuel (v / 10) acc
  end.
Definition print_u (v : Z) : list Z := print_u_digits 10 v [].

Definition convert_ip_from_int_to_str (ip_addr : Z) : list Z :=
  print_u (Z.land ip_addr 0xff) ++ [46] ++
  print_u (Z.land (Z.shiftr ip_addr 8) 0xff) ++ [46] ++
  print_u (Z.land (Z.shiftr ip_addr 16) 0xff) ++ [46] ++
  print_u (Z.land (Z.shiftr ip_addr 24) 0xff).

(** ** Masks

    [(1<<mask) - 1] on an [int]: undefined for a negative [mask], from 32 on
    (the shift), and for 31 (the shift and the subtraction overflow). *)
Definition low_mask (mask : Z) : res Z :=
  if (0 <=? mask) && (mask <=? 30) then Ok (Z.shiftl 1 mask - 1) else Err ShiftUB.

Definition apply_mask (prefix : list Z) (mask : Z) : res (list Z) :=
  let ip := convert_ip_from_str_to_int prefix in
  let? m := low_mask mask in
  Ok (convert_ip_from_int_to_str (Z.land ip m)).

(** ** MAC addresses *)

Definition layer2_fill_with_broadcast_mac : list Z := [255; 255; 255; 255; 255; 255].

Definition IS_MAC_BROADCAST_ADDR (mac : list Z) : bool :=
  match mac with
  | [a; b; c; d; e; f] =>
      (a =? 0xff) && (b =? 0xff) && (c =? 0xff) && (d =? 0xff) && (e =? 0xff) && (f =? 0xff)
  | _ => false
  end.

(** ** The Internet checksum *)

(** [for (i = ...; i < size/2; i++) result += NTOHS(ptr[i])], with [n]
    iterations left; [result] is a [u32]. *)
Fixpoint checksum_loop (b : list Z) (ptr : Z) (n : nat) (i result : Z) : res Z :=
  match n with
  | O => Ok result
  | S n =>
      let? w := rd16 b (ptr + 2 * i) in
      checksum_loop b ptr n (i + 1) (wrap32 (result + NTOHS w))
  end.

Definition fold_carry (result : Z) : Z :=
  wrap32 (Z.land result 0xffff + Z.shiftr result 16).

Definition calc_checksum_16 (b : list Z) (buff size : Z) : res Z :=
  let? result := checksum_loop b buff (Z.to_nat (size / 2)) 0 0 in
  let? result :=
    if Z.land size 1 =? 1 then
      let? c := rd8 b (buff + size - 1) in
      Ok (wrap32 (result + Z.shiftl c 8))
    else Ok result in
  let result := fold_carry result in
  let result := fold_carry result in
  Ok (Z.land (Z.lnot result) 0xffff).

(** ** Lemmas on byte order *)

Lemma land_shifted_ones z j k :
  0 <= j → 0 <= k → Z.land z (Z.shiftl (Z.ones j) k) = ((z / 2 ^ k) mod 2 ^ j) * 2 ^ k.
Proof.
  intros. rewrite <- Z.land_ones, <- Z.shiftr_div_pow2, <- Z.shiftl_mul_pow2 by lia.
  apply Z.bits_inj'. intros i Hi. rewrite Z.land_spec.
  destruct (decide (i < k)).
  - rewrite !Z.shiftl_spec_low by lia. apply andb_false_r.
  - rewrite !Z.shiftl_spec_high by lia. rewrite Z.land_spec, Z.shiftr_spec by lia.
    f_equal. f_equal. lia.
Qed.

Lemma HTONS_swap a b : is_u8 a → is_u8 b → HTONS (a + 256 * b) = b + 256 * a.
Proof.
  intros Ha Hb. unfold HTONS. rewrite land_255, shiftr_div, shiftl_mul by lia. zdiv.
Qed.

Lemma HTONL_swap a b c d :
  is_u8 a → is_u8 b → is_u8 c → is_u8 d →
  HTONL (le_decode [a; b; c; d]) = le_decode [d; c; b; a].
Proof.
  intros. unfold HTONL. cbn [le_decode].
  change 0xff00 with (Z.shiftl (Z.ones 8) 8).
  change 0xff0000 with (Z.shiftl (Z.ones 8) 16).
  change 0xff000000 with (Z.shiftl (Z.ones 8) 24).
  rewrite !land_shifted_ones, !shiftr_div, !shiftl_mul by lia. zdiv.
Qed.

(** A u32 is the little-endian value of four bytes. *)
Lemma u32_octets v :
  is_u32 v → ∃ a b c d, is_u8 a ∧ is_u8 b ∧ is_u8 c ∧ is_u8 d ∧ v = le_decode [a; b; c; d].
Proof.
  intros Hv. pose proof (le_encode_bytes 4 v) as Hb. pose proof (le_decode_encode 4 v) as Hd.
  cbn [le_encode] in *. rewrite !Forall_cons in Hb.
  destruct Hb as (H1 & H2 & H3 & H4 & _).
  eexists _, _, _, _. split_and!; [exact H1|exact H2|exact H3|exact H4|]. rewrite Hd. symmetry. apply Z.mod_small, Hv.
Qed.

Lemma u16_octets v : is_u16 v → ∃ a b, is_u8 a ∧ is_u8 b ∧ v = a + 256 * b.
Proof.
  intros Hv. exists (v mod 256), (v / 256). unfold is_u8, is_u16 in *.
  split_and!; zdiv.
Qed.

Lemma HTONS_u16 v : is_u16 v → is_u16 (HTONS v).
Proof.
  intros (a & b & Ha & Hb & ->)%u16_octets. rewrite HTONS_swap by done.
  unfold is_u8, is_u16 in *. lia.
Qed.

Lemma HTONS_involutive v : is_u16 v → NTOHS (HTONS v) = v.
Proof.
  intros (a & b & Ha & Hb & ->)%u16_octets. unfold NTOHS. by rewrite !HTONS_swap.
Qed.

Lemma HTONL_involutive v : is_u32 v → NTOHL (HTONL v) = v.
Proof.
  intros (a & b & c & d & ? & ? & ? & ? & ->)%u32_octets. unfold NTOHL.
  by rewrite !HTONL_swap.
Qed.

Lemma HTONL_u32 v : is_u32 v → is_u32 (HTONL v).
Proof.
  intros (a & b & c & d & ? & ? & ? & ? & ->)%u32_octets. rewrite HTONL_swap by done.
  unfold is_u8, is_u32 in *. cbn [le_decode]. lia.
Qed.

#[export] Hint Resolve HTONS_u16 HTONL_u32 : cprog.

(** ** Addresses as text: the round trip *)

Definition digit_head (s : list Z) : bool :=
  match s with c :: _ => isdigit c | [] => false end.

Lemma span_digits_app ds s :
  forallb isdigit ds = true → digit_head s = false → span_digits (ds ++ s) = (ds, s).
Proof.
  induction ds as [|d ds IH]; simpl; intros Hd Hs.
  - destruct s as [|c s]; simpl in *; [done|]. by rewrite Hs.
  - apply andb_prop in Hd as [Hd1 Hd2]. by rewrite Hd1, IH.
Qed.

(** What [print_u] writes for an octet: digits, at least one, with that value. *)
Lemma print_u_octet n :
  0 <= n < 256 →
  forallb isdigit (print_u n) = true ∧ digits_value (print_u n) = n ∧
  digit_head (print_u n) = true.
Proof.
  intros Hn.
  assert (Forall (λ n, forallb isdigit (print_u n) = true ∧ digits_value (print_u n) = n ∧
                       digit_head (print_u n) = true) (seqZ 0 256)) as Hall.
  { apply (bool_decide_unpack _). vm_compute. exact I. }
  rewrite Forall_forall in Hall. apply Hall. apply elem_of_seqZ. lia.
Qed.

Lemma scan_print_u n s :
  0 <= n < 256 → digit_head s = false → scan_u (print_u n ++ s) = Some (n, s).
Proof.
  intros Hn Hs. destruct (print_u_octet n Hn) as (Hd & Hv & Hh).
  destruct (print_u n) as [|d ds] eqn:E; [done|]. unfold scan_u. simpl skip_space.
  simpl in Hh. unfold isdigit in Hh.
  replace (isspace d) with false by (unfold isspace; zbool; simpl in *; lia || done).
  replace (d =? 45) with false by (zbool; simpl in *; lia || done).
  replace (d =? 43) with false by (zbool; simpl in *; lia || done).
  change (d :: ds ++ s) with ((d :: ds) ++ s). rewrite span_digits_app by done.
  rewrite Hv. cbv zeta. replace (2 ^ 64 - 1 <? n) with false by (zbool; lia || done).
  by rewrite wrap32_id by (unfold is_u32; lia).
Qed.

Lemma octets_land v a b c d :
  is_u8 a → is_u8 b → is_u8 c → is_u8 d → v = le_decode [a; b; c; d] →
  Z.land v 0xff = a ∧ Z.land (Z.shiftr v 8) 0xff = b ∧
  Z.land (Z.shiftr v 16) 0xff = c ∧ Z.land (Z.shiftr v 24) 0xff = d.
Proof.
  intros ???? ->. cbn [le_decode]. rewrite !land_255, !shiftr_div by lia.
  split_and!; zdiv.
Qed.

(** C33. Parsing the dotted text that convert_ip_from_int_to_str prints gives the address
    back, for every 32-bit address. *)
Theorem ip_text_roundtrip ip :
  0 <= ip < 2 ^ 32 →
  convert_ip_from_str_to_int (convert_ip_from_int_to_str ip) = ip.
Proof.
  intros (a & b & c & d & Ha & Hb & Hc & Hd & ->)%u32_octets.
  unfold convert_ip_from_int_to_str.
  destruct (octets_land _ a b c d Ha Hb Hc Hd eq_refl) as (-> & -> & -> & ->).
  unfold is_u8 in *. unfold convert_ip_from_str_to_int.
  rewrite <- (app_nil_r (print_u d)).
  cbn [scan_dotted]. rewrite !scan_print_u by done || lia. cbn [app].
  change (46 =? 46) with true. cbv iota beta.
  rewrite !scan_print_u by done || lia.
  zbool; lia || done.
Qed.

Lemma ip_text_roundtrip_witness :
  convert_ip_from_int_to_str 0x0259a8c0 = cstr "192.168.89.2" ∧
  convert_ip_from_str_to_int (convert_ip_from_int_to_str 0x0259a8c0) = 0x0259a8c0.
Proof. split; [reflexivity|]. apply (ip_text_roundtrip 0x0259a8c0). lia. Defined.

(** ** The checksum of RFC 1071

    The 16-bit big-endian words of the data, an odd last byte padded with zero
    on the right, added with end-around carry and complemented. *)

Fixpoint be_words (bs : list Z) : list Z :=
  match bs with
  | a :: b :: bs => 256 * a + b :: be_words bs
  | [a] => [256 * a]
  | [] => []
  end.

Definition onec_add (x y : Z) : Z :=
  let s := x + y in if 0xffff <? s then s - 0xffff else s.

Definition onec_sum (bs : list Z) : Z := fold_left onec_add (be_words bs) 0.

Definition rfc1071 (bs : list Z) : Z := 0xffff - onec_sum bs.

(** The sum without carries, and the representative in [1, 0xffff] (0 for 0)
    of its class modulo 0xffff. *)
Definition be_sum (bs : list Z) : Z := fold_right Z.add 0 (be_words bs).
Definition fold16 (s : Z) : Z := if s =? 0 then 0 else (s - 1) mod 0xffff + 1.

Lemma list_ind2 {A} (P : list A → Prop) :
  P [] → (∀ a, P [a]) → (∀ a b l, P l → P (a :: b :: l)) → ∀ l, P l.
Proof.
  intros H0 H1 H2 l. enough (P l ∧ ∀ a, P (a :: l)) by naive_solver.
  induction l as [|a l IH]; naive_solver.
Qed.

Lemma be_words_u16 bs : Forall is_u8 bs → Forall is_u16 (be_words bs).
Proof.
  induction bs as [|a|a b bs IH] using list_ind2; simpl; rewrite ?Forall_cons; unfold is_u8, is_u16 in *.
  - done.
  - intros [? _]. split; [lia|done].
  - intros (? & ? & ?). split; [lia|auto].
Qed.

Lemma be_sum_nonneg bs : Forall is_u8 bs → 0 <= be_sum bs.
Proof.
  intros H%be_words_u16. unfold be_sum.
  induction H; simpl; unfold is_u16 in *; lia.
Qed.

Lemma be_sum_bound bs :
  Forall is_u8 bs → be_sum bs <= 65535 * ((Z.of_nat (length bs) + 1) / 2).
Proof.
  unfold be_sum. induction bs as [|a|a b bs IH] using list_ind2; simpl be_words; simpl fold_right;
    rewrite ?Forall_cons; unfold is_u8 in *.
  - done.
  - intros [? _]. change ((Z.of_nat (length [a]) + 1) / 2) with 1. lia.
  - intros (? & ? & ?%IH). cbn [length]. rewrite !Nat2Z.inj_succ. zdiv.
Qed.

Lemma be_words_app l1 l2 :
  Nat.even (length l1) = true → be_words (l1 ++ l2) = be_words l1 ++ be_words l2.
Proof.
  induction l1 as [|a|a b l1 IH] using list_ind2; simpl; [done..|].
  intros. by rewrite IH.
Qed.

Lemma be_sum_app l1 l2 :
  Nat.even (length l1) = true → be_sum (l1 ++ l2) = be_sum l1 + be_sum l2.
Proof.
  intros. unfold be_sum. rewrite be_words_app by done.
  induction (be_words l1) as [|w ws IH]; simpl; lia.
Qed.

Lemma fold16_bound s : 0 <= s → 0 <= fold16 s <= 0xffff.
Proof. intros. unfold fold16. zbool; [lia|]. zdiv. Qed.

Lemma fold16_onec s w : 0 <= s → is_u16 w → onec_add (fold16 s) w = fold16 (s + w).
Proof.
  intros Hs Hw. unfold is_u16, onec_add, fold16 in *. zbool; zdiv.
Qed.

Lemma onec_sum_fold16 bs : Forall is_u8 bs → onec_sum bs = fold16 (be_sum bs).
Proof.
  intros Hb%be_words_u16. unfold onec_sum, be_sum.
  enough (∀ s, 0 <= s → fold_left onec_add (be_words bs) (fold16 s)
                      = fold16 (s + fold_right Z.add 0 (be_words bs))) as H
    by (apply (H 0); lia).
  induction Hb as [|w ws Hw _ IH]; intros s Hs; cbn [fold_left fold_right].
  - by rewrite Z.add_0_r.
  - rewrite fold16_onec by done. unfold is_u16 in *. rewrite IH by lia. f_equal. lia.
Qed.

(** Two rounds of [fold_carry] bring any 32-bit sum to 16 bits. *)
Lemma fold_carry_twice s :
  0 <= s < 2 ^ 32 → fold_carry (fold_carry s) = fold16 s.
Proof.
  intros Hs. unfold fold_carry. rewrite !land_65535, !shiftr_div by lia.
  assert (0 <= s mod 65536 + s / 2 ^ 16 < 2 ^ 18) as Hb by zdiv.
  rewrite (wrap32_id (s mod 65536 + _)) by (unfold is_u32; lia).
  unfold fold16. zbool; [subst; done|]. zdiv.
Qed.

(** ** The code computes the reference checksum *)

Lemma slice_two (b : list Z) o :
  0 <= o → o + 2 <= Z.of_nat (length b) →
  ∃ x y, slice o 2 b = [x; y] ∧ b !! Z.to_nat o = Some x ∧ b !! Z.to_nat (o + 1) = Some y.
Proof.
  intros Ho Hl. pose proof (length_slice o 2 b Ho ltac:(lia) Hl) as Hlen.
  pose proof (lookup_slice o 2 b 0 Ho ltac:(lia)) as H0.
  pose proof (lookup_slice o 2 b 1 Ho ltac:(lia)) as H1.
  destruct (slice o 2 b) as [|x [|y [|]]]; simpl in *; try lia.
  exists x, y. split_and!; [done|rewrite H0; f_equal; lia|rewrite H1; f_equal; lia].
Qed.

Lemma checksum_loop_spec b ptr n i r :
  Forall is_u8 b → 0 <= ptr → 0 <= i → 0 <= r →
  ptr + 2 * i + 2 * Z.of_nat n <= Z.of_nat (length b) →
  r + be_sum (slice (ptr + 2 * i) (2 * Z.of_nat n) b) < 2 ^ 32 →
  checksum_loop b ptr n i r = Ok (r + be_sum (slice (ptr + 2 * i) (2 * Z.of_nat n) b)).
Proof.
  intros Hb Hp. revert i r. induction n as [|n IH]; intros i r Hi Hr Hl Hs.
  - simpl. unfold slice at 1. simpl. unfold be_sum. simpl. f_equal. lia.
  - revert Hs. replace (2 * Z.of_nat (S n)) with (2 + 2 * Z.of_nat n) by lia.
    rewrite slice_app_split, be_sum_app by (rewrite ?length_slice by lia; done || lia).
    destruct (slice_two b (ptr + 2 * i)) as (x & y & E & Ex & Ey); [lia..|].
    rewrite E. intros Hs. cbn [checksum_loop]. unfold rd16.
    rewrite rd_le_ok by lia. change (Z.of_nat 2) with 2. rewrite E.
    assert (is_u8 x ∧ is_u8 y) as [Hx Hy].
    { split; eapply Forall_lookup_1; eauto. }
    cbn [rbind le_decode]. rewrite Z.mul_0_r, Z.add_0_r.
    unfold NTOHS. rewrite HTONS_swap by done.
    replace (be_sum [x; y]) with (y + 256 * x) in * by (unfold be_sum; simpl; lia).
    assert (0 <= be_sum (slice (ptr + 2 * i + 2) (2 * Z.of_nat n) b)).
    { by apply be_sum_nonneg, Forall_slice. }
    unfold is_u8 in *. rewrite wrap32_id by (unfold is_u32; lia).
    replace (ptr + 2 * i + 2) with (ptr + 2 * (i + 1)) in * by lia.
    rewrite IH by lia. f_equal. lia.
Qed.

(** The sum that enters the carry folding, for an even and an odd size. *)
Lemma checksum_sum_even b buff n :
  Forall is_u8 b → 0 <= buff → 0 <= n → buff + 2 * n <= Z.of_nat (length b) →
  be_sum (slice buff (2 * n) b) < 2 ^ 32 →
  checksum_loop b buff (Z.to_nat n) 0 0 = Ok (be_sum (slice buff (2 * n) b)).
Proof.
  intros. rewrite (checksum_loop_spec b buff (Z.to_nat n) 0 0);
    rewrite ?Z2Nat.id, ?Z.mul_0_r, ?Z.add_0_r by done; done || lia.
Qed.

Lemma be_sum_slice_odd b buff n :
  Forall is_u8 b → 0 <= buff → 0 <= n → buff + (2 * n + 1) <= Z.of_nat (length b) →
  ∃ x, is_u8 x ∧ rd8 b (buff + 2 * n) = Ok x ∧
    be_sum (slice buff (2 * n + 1) b) = be_sum (slice buff (2 * n) b) + 256 * x.
Proof.
  intros Hb Hp Hn Hl.
  pose proof (length_slice (buff + 2 * n) 1 b ltac:(lia) ltac:(lia) ltac:(lia)) as Hlen.
  pose proof (Forall_slice _ (buff + 2 * n) 1 b Hb) as Hf.
  destruct (slice (buff + 2 * n) 1 b) as [|x [|]] eqn:E; simpl in Hlen; try lia.
  apply Forall_cons in Hf as [Hx _]. exists x. split_and!; [done| |].
  - unfold rd8. rewrite rd_le_ok by lia. change (Z.of_nat 1) with 1. rewrite E. cbn [le_decode]. f_equal. lia.
  - rewrite slice_app_split, E, be_sum_app by
      (lia || (rewrite length_slice by lia; apply Nat.even_spec; exists (Z.to_nat n); lia)).
    unfold be_sum at 2. cbn [be_words fold_right]. lia.
Qed.

Lemma checksum_fold s :
  0 <= s < 2 ^ 32 → Z.land (Z.lnot (fold_carry (fold_carry s))) 0xffff = 0xffff - fold16 s.
Proof.
  intros Hs. rewrite fold_carry_twice by done. pose proof (fold16_bound s ltac:(lia)).
  rewrite land_65535. unfold Z.lnot. zdiv.
Qed.

Lemma calc_checksum_16_spec b buff size :
  Forall is_u8 b → 0 <= buff → 0 <= size <= 2 ^ 17 → buff + size <= Z.of_nat (length b) →
  calc_checksum_16 b buff size = Ok (rfc1071 (slice buff size b)).
Proof.
  intros Hb Hp Hs Hl.
  pose proof (Forall_slice _ buff size b Hb) as Hsl.
  assert (0 <= be_sum (slice buff size b) < 2 ^ 32) as Hsum.
  { split; [by apply be_sum_nonneg|].
    pose proof (be_sum_bound _ Hsl) as H. rewrite length_slice in H by lia. zdiv. }
  unfold rfc1071. rewrite onec_sum_fold16 by done. unfold calc_checksum_16.
  replace (Z.land size 1) with (size mod 2) by (symmetry; apply (land_ones_mod size 1); lia).
  destruct (Z.eqb_spec (size mod 2) 1) as [Ho|He].
  - set (n := size / 2). assert (size = 2 * n + 1) as Esz by (subst n; zdiv).
    assert (0 <= n) by lia. rewrite Esz in *.
    destruct (be_sum_slice_odd b buff n) as (x & Hx & Ex & Es); [done..|lia|].
    assert (0 <= be_sum (slice buff (2 * n) b)) by by apply be_sum_nonneg, Forall_slice.
    unfold is_u8 in Hx. rewrite checksum_sum_even by (done || lia). cbn [rbind].
    replace (buff + (2 * n + 1) - 1) with (buff + 2 * n) by lia. rewrite Ex. cbn [rbind].
    rewrite shiftl_mul, wrap32_id by (unfold is_u32; lia).
    replace (be_sum _ + x * 2 ^ 8) with (be_sum (slice buff (2 * n + 1) b)) by lia.
    by rewrite checksum_fold.
  - set (n := size / 2). assert (size = 2 * n) as Esz by (subst n; zdiv).
    rewrite Esz in *. rewrite checksum_sum_even by (done || lia). cbn [rbind].
    by rewrite checksum_fold.
Qed.

(** C30. calc_checksum_16 computes the checksum of RFC 1071 (one's complement sum with end-
    around carry) of the bytes it is given, for any length up to 2^17 bytes, odd lengths
    included: the two foldings are enough. *)
Theorem calc_checksum_16_rfc1071 b buff size :
  Forall is_u8 b → 0 <= buff → 0 <= size <= 2 ^ 17 → buff + size <= Z.of_nat (length b) →
  calc_checksum_16 b buff size = Ok (rfc1071 (slice buff size b)).
Proof. apply calc_checksum_16_spec. Qed.

(** An odd number of bytes, with two carries to fold. *)
Lemma calc_checksum_16_rfc1071_witness :
  calc_checksum_16 [7; 255; 255; 255; 254; 1; 2; 9] 1 5 = Ok (rfc1071 [255; 255; 255; 254; 1]) ∧
  rfc1071 [255; 255; 255; 254; 1] = 0xff00.
Proof.
  split; [|reflexivity].
  apply (calc_checksum_16_rfc1071 [7; 255; 255; 255; 254; 1; 2; 9] 1 5); [|simpl; lia..].
  apply (bool_decide_unpack _). vm_compute. exact I.
Defined.

(** Storing the checksum in its field: the data then verifies exactly when the
    field was 0 (or 0xffff) when the checksum was computed. *)
Lemma rfc1071_zero_iff bs : Forall is_u8 bs → rfc1071 bs = 0 ↔ 0 < be_sum bs ∧ be_sum bs mod 0xffff = 0.
Proof.
  intros Hb. pose proof (be_sum_nonneg _ Hb). unfold rfc1071.
  rewrite onec_sum_fold16 by done. unfold fold16. zbool; zdiv.
Qed.

Lemma rfc1071_store pre x y post :
  Nat.even (length pre) = true → Forall is_u8 (pre ++ [x; y] ++ post) →
  0 < be_sum pre + be_sum post →
  let c := rfc1071 (pre ++ [x; y] ++ post) in
  rfc1071 (pre ++ [c / 256; c mod 256] ++ post) = 0 ↔ 256 * x + y = 0 ∨ 256 * x + y = 0xffff.
Proof.
  intros He Hb Hpos c.
  apply Forall_app in Hb as Hb'. destruct Hb' as [Hpre Hb']. apply Forall_app in Hb' as [Hxy Hpost].
  apply Forall_cons in Hxy as [Hx Hy]. apply Forall_cons in Hy as [Hy _].
  assert (∀ u v, be_sum (pre ++ [u; v] ++ post) = be_sum pre + (256 * u + v) + be_sum post) as Hs.
  { intros. rewrite !be_sum_app by done. unfold be_sum at 2. cbn [be_words fold_right]. lia. }
  assert (c = 0xffff - fold16 (be_sum pre + (256 * x + y) + be_sum post)) as Ec.
  { unfold c, rfc1071. by rewrite onec_sum_fold16, Hs. }
  pose proof (be_sum_nonneg _ Hpre). pose proof (be_sum_nonneg _ Hpost). unfold is_u8 in Hx, Hy.
  pose proof (fold16_bound (be_sum pre + (256 * x + y) + be_sum post) ltac:(lia)).
  assert (Forall is_u8 (pre ++ [c / 256; c mod 256] ++ post)).
  { rewrite !Forall_app, !Forall_cons. split_and!; auto; unfold is_u8; zdiv. }
  rewrite rfc1071_zero_iff, Hs by done.
  replace (256 * (c / 256) + c mod 256) with c by zdiv. rewrite Ec. clear Ec Hs.
  set (s := be_sum pre + be_sum post) in *.
  replace (be_sum pre + (256 * x + y) + be_sum post) with (s + (256 * x + y)) in * by lia.
  replace (be_sum pre + (0xffff - fold16 (s + (256 * x + y))) + be_sum post)
    with (s + (0xffff - fold16 (s + (256 * x + y)))) by lia.
  unfold fold16 in *. destruct (Z.eqb_spec (s + (256 * x + y)) 0); zdiv.
Qed.

(** ** Masks and network prefixes

    The first [mask] bits of an address in network order, as a prefix length
    is written after the slash of a CIDR block. *)
Definition cidr_prefix (mask ip : Z) : Z :=
  HTONL (Z.land (HTONL ip) (2 ^ 32 - 2 ^ (32 - mask))).

Lemma low_mask_spec mask :
  low_mask mask = if decide (0 <= mask <= 30) then Ok (2 ^ mask - 1) else Err ShiftUB.
Proof.
  unfold low_mask. case_decide; zbool; try lia; [|done..].
  by rewrite Z.shiftl_1_l.
Qed.

Lemma cidr_prefix_octets a b c d :
  is_u8 a → is_u8 b → is_u8 c → is_u8 d →
  cidr_prefix 0 (le_decode [a; b; c; d]) = 0 ∧
  cidr_prefix 8 (le_decode [a; b; c; d]) = le_decode [a; 0; 0; 0] ∧
  cidr_prefix 16 (le_decode [a; b; c; d]) = le_decode [a; b; 0; 0] ∧
  cidr_prefix 24 (le_decode [a; b; c; d]) = le_decode [a; b; c; 0].
Proof.
  intros. unfold cidr_prefix. rewrite HTONL_swap by done.
  assert (is_u8 0) by (unfold is_u8; lia).
  change (2 ^ 32 - 2 ^ (32 - 0)) with 0.
  change (2 ^ 32 - 2 ^ (32 - 8)) with (Z.shiftl (Z.ones 8) 24).
  change (2 ^ 32 - 2 ^ (32 - 16)) with (Z.shiftl (Z.ones 16) 16).
  change (2 ^ 32 - 2 ^ (32 - 24)) with (Z.shiftl (Z.ones 24) 8).
  rewrite Z.land_0_r, !land_shifted_ones by lia.
  replace ((le_decode [d; c; b; a] / 2 ^ 24) mod 2 ^ 8 * 2 ^ 24)
    with (le_decode [0; 0; 0; a]) by (cbn [le_decode]; zdiv).
  replace ((le_decode [d; c; b; a] / 2 ^ 16) mod 2 ^ 16 * 2 ^ 16)
    with (le_decode [0; 0; b; a]) by (cbn [le_decode]; zdiv).
  replace ((le_decode [d; c; b; a] / 2 ^ 8) mod 2 ^ 24 * 2 ^ 8)
    with (le_decode [0; c; b; a]) by (cbn [le_decode]; zdiv).
  rewrite !HTONL_swap by done. done.
Qed.

Lemma low_mask_octets mask ip :
  mask ∈ [0; 8; 16; 24] → is_u32 ip → Z.land ip (2 ^ mask - 1) = cidr_prefix mask ip.
Proof.
  intros Hm (a & b & c & d & Ha & Hb & Hc & Hd & ->)%u32_octets.
  destruct (cidr_prefix_octets a b c d) as (C0 & C8 & C16 & C24); [done..|].
  rewrite land_ones_mod by set_solver by lia.
  repeat (apply elem_of_cons in Hm as [->|Hm]); [..|by apply elem_of_nil in Hm].
  - by rewrite C0, Z.mod_1_r.
  - rewrite C8. cbn [le_decode]. zdiv.
  - rewrite C16. cbn [le_decode]. zdiv.
  - rewrite C24. cbn [le_decode]. zdiv.
Qed.

(** C39. The mask (1 << n) - 1 selects the network prefix of length n of an address exactly
    when n is a multiple of 8. *)
Theorem low_mask_is_prefix_iff_octets mask m :
  low_mask mask = Ok m →
  (∀ ip, 0 <= ip < 2 ^ 32 → Z.land ip m = cidr_prefix mask ip) ↔ mask mod 8 = 0.
Proof.
  rewrite low_mask_spec. case_decide as Hm; [|done]. intros [= <-]. split.
  - intros H. specialize (H (2 ^ 32 - 1) ltac:(lia)).
    assert (Forall (λ mask, Z.land (2 ^ 32 - 1) (2 ^ mask - 1) = cidr_prefix mask (2 ^ 32 - 1) →
                            mask mod 8 = 0) (seqZ 0 31)) as Hall.
    { apply (bool_decide_unpack _). vm_compute. exact I. }
    rewrite Forall_forall in Hall. apply Hall; [|done]. apply elem_of_seqZ. lia.
  - intros H8 ip Hip. apply low_mask_octets; [|done].
    assert (mask = 0 ∨ mask = 8 ∨ mask = 16 ∨ mask = 24) as [->|[->|[->| ->]]] by zdiv;
      set_solver.
Qed.

(** A mask of 20 bits keeps the wrong bits of the third octet. *)
Lemma low_mask_is_prefix_iff_octets_witness :
  low_mask 20 = Ok 0xfffff ∧
  ((∀ ip, 0 <= ip < 2 ^ 32 → Z.land ip 0xfffff = cidr_prefix 20 ip) ↔ 20 mod 8 = 0).
Proof. split; [reflexivity|]. by apply (low_mask_is_prefix_iff_octets 20 0xfffff). Defined.
