(* ===== verification/Skbuff.v ===== *)
(** * skbuff.h: socket buffers

    A buffer is its memory block together with the pointers into it, which are
    offsets from [head].  [skb_push] and the other operations move the pointers
    first and assert afterwards, as the code does.  The invariant [skb_wf] says
    that the pointers delimit the payload and that [len] is its length; every
    operation preserves it or stops at its assertion, and which of the two
    happens depends on the room that is left and on nothing else. *)
From S2P Require Import Prelude Cmonad.

(** The position of the variable-size field and the size of the structure on a
    64-bit machine: eleven words before [head], and [head] padded to a word. *)
Definition SKB_HEAD_OFFSET : Z := 88.
Definition SKB_SIZEOF : Z := 96.

Record sk_buff := mk_skb {
  skb_intf : option positive;
  skb_ethernet_hdr : option Z;
  skb_ip_hdr : option Z;
  skb_tcp_hdr : option Z;
  skb_udp_hdr : option Z;
  skb_len : Z;
  skb_data : Z;
  skb_tail : Z;
  skb_end : Z;
  skb_head : list Z;    (* the memory from [head] to the end of the allocation *)
}.

(** Assignments to one field. *)
Definition skb_set_intf (i : option positive) (s : sk_buff) : sk_buff :=
  mk_skb i (skb_ethernet_hdr s) (skb_ip_hdr s) (skb_tcp_hdr s) (skb_udp_hdr s)
    (skb_len s) (skb_data s) (skb_tail s) (skb_end s) (skb_head s).
Definition skb_set_ethernet_hdr (h : option Z) (s : sk_buff) : sk_buff :=
  mk_skb (skb_intf s) h (skb_ip_hdr s) (skb_tcp_hdr s) (skb_udp_hdr s)
    (skb_len s) (skb_data s) (skb_tail s) (skb_end s) (skb_head s).
Definition skb_set_ip_hdr (h : option Z) (s : sk_buff) : sk_buff :=
  mk_skb (skb_intf s) (skb_ethernet_hdr s) h (skb_tcp_hdr s) (skb_udp_hdr s)
    (skb_len s) (skb_data s) (skb_tail s) (skb_end s) (skb_head s).
Definition skb_set_tcp_hdr (h : option Z) (s : sk_buff) : sk_buff :=
  mk_skb (skb_intf s) (skb_ethernet_hdr s) (skb_ip_hdr s) h (skb_udp_hdr s)
    (skb_len s) (skb_data s) (skb_tail s) (skb_end s) (skb_head s).
Definition skb_set_udp_hdr (h : option Z) (s : sk_buff) : sk_buff :=
  mk_skb (skb_intf s) (skb_ethernet_hdr s) (skb_ip_hdr s) (skb_tcp_hdr s) h
    (skb_len s) (skb_data s) (skb_tail s) (skb_end s) (skb_head s).
Definition skb_set_window (l d t : Z) (s : sk_buff) : sk_buff :=
  mk_skb (skb_intf s) (skb_ethernet_hdr s) (skb_ip_hdr s) (skb_tcp_hdr s) (skb_udp_hdr s)
    l d t (skb_end s) (skb_head s).
Definition skb_set_head (h : list Z) (s : sk_buff) : sk_buff :=
  mk_skb (skb_intf s) (skb_ethernet_hdr s) (skb_ip_hdr s) (skb_tcp_hdr s) (skb_udp_hdr s)
    (skb_len s) (skb_data s) (skb_tail s) (skb_end s) h.

(** ** The operations of skbuff.h *)

Definition alloc_skb (size : Z) : sk_buff := {|
  skb_intf := None; skb_ethernet_hdr := None; skb_ip_hdr := None;
  skb_tcp_hdr := None; skb_udp_hdr := None;
  skb_len := 0; skb_data := 0; skb_tail := 0; skb_end := size;
  skb_head := replicate (Z.to_nat (size + SKB_SIZEOF - 1 - SKB_HEAD_OFFSET)) 0;
|}.

Definition skb_reserve (size : Z) : M sk_buff unit :=
  modify (λ s, skb_set_window (skb_len s) (skb_data s + size) (skb_tail s + size) s) ;;;
  let* s := get in
  assert_ (skb_tail s <=? skb_end s).

Definition skb_push (size : Z) : M sk_buff Z :=
  modify (λ s, skb_set_window (wrap64 (skb_len s + size)) (skb_data s - size) (skb_tail s) s) ;;;
  let* s := get in
  assert_ (0 <=? skb_data s) ;;;
  ret (skb_data s).

Definition skb_pull (size : Z) : M sk_buff Z :=
  modify (λ s, skb_set_window (wrap64 (skb_len s - size)) (skb_data s + size) (skb_tail s) s) ;;;
  let* s := get in
  assert_ (skb_data s <=? skb_tail s) ;;;
  ret (skb_data s).

Definition skb_put (size : Z) : M sk_buff Z :=
  let* tmp := gets skb_tail in
  modify (λ s, skb_set_window (wrap64 (skb_len s + size)) (skb_data s) (skb_tail s + size) s) ;;;
  let* s := get in
  assert_ (skb_tail s <=? skb_end s) ;;;
  ret tmp.

Definition skb_headroom (s : sk_buff) : Z := skb_data s.
Definition skb_tailroom (s : sk_buff) : Z := skb_end s - skb_tail s.

(** Memory accesses through a header pointer of the buffer. *)
Definition s_rdn (o n : Z) : M sk_buff (list Z) := λ s, lift (rdn (skb_head s) o n) s.
Definition s_rd8 (o : Z) : M sk_buff Z := λ s, lift (rd8 (skb_head s) o) s.
Definition s_rd16 (o : Z) : M sk_buff Z := λ s, lift (rd16 (skb_head s) o) s.
Definition s_rd32 (o : Z) : M sk_buff Z := λ s, lift (rd32 (skb_head s) o) s.

Definition s_wrn (o : Z) (bs : list Z) : M sk_buff unit := λ s,
  match wrn (skb_head s) o bs with
  | Ok h => Ok (tt, skb_set_head h s)
  | Err f => Err f
  end.
Definition s_wr8 (o v : Z) : M sk_buff unit := s_wrn o (le_encode 1 v).
Definition s_wr16 (o v : Z) : M sk_buff unit := s_wrn o (le_encode 2 v).
Definition s_wr32 (o v : Z) : M sk_buff unit := s_wrn o (le_encode 4 v).

(** ** The invariant *)

Record skb_wf (s : sk_buff) : Prop := {
  wf_data : 0 <= skb_data s;
  wf_tail : skb_data s <= skb_tail s <= skb_end s;
  wf_len : skb_len s = skb_tail s - skb_data s;
  wf_end : skb_end s < 2 ^ 63;
  wf_head : Z.of_nat (length (skb_head s)) = skb_end s + 7;
  wf_bytes : Forall is_u8 (skb_head s);
}.

#[export] Instance skb_wf_dec s : Decision (skb_wf s).
Proof.
  refine (cast_if (decide (0 <= skb_data s ∧ skb_data s <= skb_tail s <= skb_end s ∧
    skb_len s = skb_tail s - skb_data s ∧ skb_end s < 2 ^ 63 ∧
    Z.of_nat (length (skb_head s)) = skb_end s + 7 ∧ Forall is_u8 (skb_head s))));
    [by destruct_and!; split|by intros []; intuition].
Defined.

(** The bytes of the packet. *)
Definition skb_payload (s : sk_buff) : list Z := slice (skb_data s) (skb_len s) (skb_head s).

Lemma alloc_skb_wf size : 0 <= size < 2 ^ 63 → skb_wf (alloc_skb size).
Proof.
  intros. split; simpl; try lia.
  - rewrite length_replicate. unfold SKB_SIZEOF, SKB_HEAD_OFFSET. lia.
  - apply Forall_replicate. unfold is_u8. lia.
Qed.

Section SkbRules.
Context (s : sk_buff) (Hwf : skb_wf s).
Implicit Types E : fault → Prop.

Let Hd := wf_data _ Hwf.
Let Ht := wf_tail _ Hwf.
Let Hl := wf_len _ Hwf.
Let He := wf_end _ Hwf.

(** Moving the window inside the block keeps the invariant. *)
Lemma skb_window_wf l d t :
  0 <= d → d <= t <= skb_end s → l = t - d → skb_wf (skb_set_window l d t s).
Proof. intros. destruct Hwf. split; simpl; auto. Qed.

Lemma skb_reserve_spec size :
  0 <= size →
  skb_reserve size s =
    if decide (size <= skb_tailroom s)
    then Ok (tt, skb_set_window (skb_len s) (skb_data s + size) (skb_tail s + size) s)
    else Err AssertFail.
Proof.
  intros. unfold skb_reserve, bind, modify, get, assert_, skb_tailroom. simpl.
  case_decide; zbool; done || lia.
Qed.

Lemma skb_push_spec size :
  0 <= size →
  skb_push size s =
    if decide (size <= skb_headroom s)
    then Ok (skb_data s - size,
             skb_set_window (skb_len s + size) (skb_data s - size) (skb_tail s) s)
    else Err AssertFail.
Proof.
  intros. unfold skb_push, bind, modify, get, assert_, skb_headroom. simpl.
  case_decide; zbool; try done; try lia.
  unfold ret. rewrite Hl. unfold wrap64. rewrite Z.mod_small by lia. done.
Qed.

Lemma skb_pull_spec size :
  0 <= size →
  skb_pull size s =
    if decide (size <= skb_len s)
    then Ok (skb_data s + size,
             skb_set_window (skb_len s - size) (skb_data s + size) (skb_tail s) s)
    else Err AssertFail.
Proof.
  intros. unfold skb_pull, bind, modify, get, assert_. simpl.
  case_decide; zbool; try done; try lia.
  unfold ret. rewrite Hl in *. unfold wrap64. rewrite Z.mod_small by lia. done.
Qed.

Lemma skb_put_spec size :
  0 <= size →
  skb_put size s =
    if decide (size <= skb_tailroom s)
    then Ok (skb_tail s,
             skb_set_window (skb_len s + size) (skb_data s) (skb_tail s + size) s)
    else Err AssertFail.
Proof.
  intros. unfold skb_put, bind, modify, get, gets, assert_, skb_tailroom. simpl.
  case_decide; zbool; try done; try lia.
  unfold ret. rewrite Hl. unfold wrap64. rewrite Z.mod_small by lia. done.
Qed.

Lemma skb_wrn_wf o bs h :
  Forall is_u8 bs → wrn (skb_head s) o bs = Ok h → skb_wf (skb_set_head h s).
Proof.
  intros Hb E. pose proof (length_wrn _ _ _ _ E) as El. destruct Hwf. split; simpl; auto.
  - by rewrite El.
  - unfold wrn in E. zbool; simplify_eq. by apply Forall_splice.
Qed.
End SkbRules.

(** ** Programs of buffer operations *)

Inductive skb_op :=
  | SReserve (n : Z) | SPush (n : Z) | SPull (n : Z) | SPut (n : Z)
  | SWrite (o : Z) (bs : list Z).

Definition run_skb_op (o : skb_op) : M sk_buff unit :=
  match o with
  | SReserve n => skb_reserve n
  | SPush n => skb_push n ;;; ret tt
  | SPull n => skb_pull n ;;; ret tt
  | SPut n => skb_put n ;;; ret tt
  | SWrite o bs => s_wrn o bs
  end.

Fixpoint run_skb_ops (os : list skb_op) : M sk_buff unit :=
  match os with
  | [] => ret tt
  | o :: os => run_skb_op o ;;; run_skb_ops os
  end.

Definition skb_op_ok (o : skb_op) : Prop :=
  match o with
  | SReserve n | SPush n | SPull n | SPut n => 0 <= n
  | SWrite _ bs => Forall is_u8 bs
  end.

#[export] Instance skb_op_ok_dec o : Decision (skb_op_ok o).
Proof. destruct o; simpl; apply _. Defined.

(** What an operation leaves alone: the block, its size and its end. *)
Definition skb_same_block (s s' : sk_buff) : Prop :=
  skb_end s' = skb_end s ∧ length (skb_head s') = length (skb_head s).

Lemma run_skb_op_wf o s :
  skb_wf s → skb_op_ok o →
  wp (run_skb_op o) (λ _ s', skb_wf s' ∧ skb_same_block s s')
     (λ f, f = AssertFail ∨ f = OutOfBounds) s.
Proof.
  intros Hwf Ho. pose proof Hwf as [Hd Ht Hl He Hh Hb].
  destruct o as [n|n|n|n|o bs]; simpl in *; unfold wp, bind.
  - rewrite skb_reserve_spec by done. unfold skb_tailroom. case_decide; [|by left].
    split; [|done]. apply skb_window_wf; lia || done.
  - rewrite skb_push_spec by done. unfold skb_headroom. case_decide; [|by left].
    split; [|done]. apply skb_window_wf; lia || done.
  - rewrite skb_pull_spec by done. case_decide; [|by left].
    split; [|done]. apply skb_window_wf; lia || done.
  - rewrite skb_put_spec by done. unfold skb_tailroom. case_decide; [|by left].
    split; [|done]. apply skb_window_wf; lia || done.
  - unfold s_wrn. destruct (wrn (skb_head s) o bs) as [h|f] eqn:E.
    + split; [by apply (skb_wrn_wf s Hwf o bs)|]. split; [done|]. exact (length_wrn _ _ _ _ E).
    + right. unfold wrn in E. zbool; simplify_eq; done.
Qed.

(** C34. Any program of reserve, push, pull, put and writes on a new buffer that returns
    leaves a well-formed buffer, with head room, payload and tail room adding up to its
    size. *)
Theorem skb_ops_preserve_wf size os s' :
  0 <= size < 2 ^ 63 → Forall skb_op_ok os →
  run_skb_ops os (alloc_skb size) = Ok (tt, s') →
  skb_wf s' ∧ skb_headroom s' + skb_len s' + skb_tailroom s' = size.
Proof.
  intros Hs Hos. pose proof (alloc_skb_wf _ Hs) as Hwf.
  pose proof (eq_refl : skb_end (alloc_skb size) = size) as Hend. revert Hwf Hend.
  generalize (alloc_skb size) as s.
  induction Hos as [|o os Ho _ IH]; intros s Hwf Hend E; simpl in E.
  - unfold ret in E. simplify_eq. split; [done|]. destruct Hwf.
    unfold skb_headroom, skb_tailroom. lia.
  - pose proof (run_skb_op_wf o s Hwf Ho) as Hr. unfold wp in Hr. unfold bind in E.
    destruct (run_skb_op o s) as [[[] s1]|]; [|done]. destruct Hr as [Hwf1 [He _]].
    eapply IH; [done|congruence|done].
Qed.

Lemma skb_ops_preserve_wf_witness :
  let os := [SReserve 60; SPut 8; SWrite 60 [1; 2; 3; 4; 5; 6; 7; 8]; SPush 20; SPull 22] in
  ∃ s', run_skb_ops os (alloc_skb 114) = Ok (tt, s') ∧ skb_payload s' = [3; 4; 5; 6; 7; 8] ∧
        skb_wf s' ∧ skb_headroom s' + skb_len s' + skb_tailroom s' = 114.
Proof.
  intros os. eexists. split; [vm_compute; reflexivity|]. split; [reflexivity|].
  apply (skb_ops_preserve_wf 114 os); [lia| |vm_compute; reflexivity].
  apply (bool_decide_unpack _). vm_compute. exact I.
Defined.
