(* ===== verification/World.v ===== *)
(** * The state of the program

    The structures of the program that are allocated on the heap, one finite
    map from pointers to values per structure, and the static variables of
    its source files.  A [struct list_head] field that links an object into a
    list is not a field here: the list is kept as a sequence of pointers at its
    head ([Dlist] shows that this is what list.h implements).  Pointers are
    never reused, so that a freed object can be told from a live one.

    The operating system is a parameter: each system call is a function of the
    history of system calls and of its arguments. *)
From S2P Require Import Prelude Cmonad Skbuff.
From stdpp Require Export gmap.
#[local] Open Scope Z_scope.

Abbreviation ptr := positive.

(** ** Structures *)

Inductive comm_type := CT_NONE | CT_UDP | CT_TUNTAP.

#[export] Instance comm_type_eq_dec : EqDecision comm_type.
Proof. solve_decision. Defined.

(** The two values of [comm->ops]. *)
Inductive comm_ops := udp_comm_ops | tuntap_comm_ops.

Record comm := mk_comm {
  comm_kind : comm_type;
  comm_fd : Z;
  comm_port : Z;
  comm_op : option comm_ops;
}.

Record intf_nw_prop := mk_intf_nw_prop {
  p_tcp_socks : list ptr;             (* tcp_socks_manager.socks *)
  p_udp_socks : list ptr;             (* udp_socks_manager.socks *)
  p_mac_addr : list Z;
  p_is_ip_addr_config : bool;
  p_ip_addr : Z;
  p_mask : Z;
}.

Record intf := mk_intf {
  if_name : list Z;
  if_node : ptr;
  if_link : option ptr;
  if_nw : intf_nw_prop;
  if_comm : comm;
}.

Record link := mk_link {
  l_intf1 : ptr;
  l_intf2 : ptr;
  l_cost : Z;
}.

Record rt_entry := mk_rt_entry {
  rt_dst : Z;
  rt_mask : Z;
  rt_next : Z;
  rt_intf : ptr;
}.

Record arp_entry := mk_arp_entry {
  arp_ip : Z;
  arp_mac : list Z;
  arp_intf : ptr;
  arp_resolved : bool;
  arp_pending : list ptr;             (* pending_pkts *)
}.

Record mac_table_entry := mk_mac_table_entry {
  mt_mac : list Z;
  mt_intf : ptr;
}.

Record node_nw_prop := mk_node_nw_prop {
  n_is_lb_addr_config : bool;
  n_lb_addr : Z;
  n_arp_table : list ptr;
  n_mac_table : list mac_table_entry;
  n_rt_table : list rt_entry;
}.

Record node := mk_node {
  n_name : list Z;
  n_intfs : list (option ptr);
  n_nw : node_nw_prop;
}.

Record graph := mk_graph {
  g_name : list Z;
  g_nodes : list ptr;
}.

Record udp_sock := mk_udp_sock {
  us_bound : bool;
  us_node : ptr;
  us_intf : option ptr;
  us_local_port : Z;
  us_rx_skb : list ptr;
}.

Record tcp_sock := mk_tcp_sock {
  ts_bound : bool;
  ts_listening : bool;
  ts_node : ptr;
  ts_local_ip : Z;
  ts_intf : option ptr;
  ts_local_port : Z;
  ts_conns : list ptr;
  ts_closed_conns : list ptr;
}.

(** The handler a connection's [state] field points to. *)
Inductive tcp_handle := handle_syn_sent_state | handle_estab_state.

#[export] Instance tcp_handle_eq_dec : EqDecision tcp_handle.
Proof. solve_decision. Defined.

Record tcp_connection_sock := mk_tcp_connection_sock {
  tc_parent : ptr;
  tc_state : tcp_handle;
  tc_remote_ip : Z;
  tc_remote_port : Z;
  tc_snt_una : Z;
  tc_snt_nxt : Z;
  tc_snt_wnd : Z;
  tc_snt_iss : Z;
  tc_rcv_nxt : Z;
  tc_rcv_wnd : Z;
  tc_rcv_irs : Z;
  tc_rx_skb : list ptr;
  tc_tx_skb : list ptr;
}.

(** ** The operating system *)

(** What the program prints, as far as it tells something about its state. *)
Inductive message :=
  | ReceivedPing (node intf : list Z)
  | ReceivedPong (node intf : list Z)
  | UnknownIpProtocol
  | NoMatchingRoute
  | UnmatchedArpReply
  | GotNewConnection
  | ClosingConnection
  | SocketNotAvailable
  | ErrorWhileSending
  | PacketReceived (node intf bytes : list Z)
  | ErrorReceiving (n : Z)
  | EpollWaitError
  | PacketDropped.

Inductive event :=
  | ESocket (fd : Z)
  | EBind (fd port r : Z)
  | EOpenTun (fd : Z)
  | EIoctlTun (fd : Z) (name : list Z) (r : Z)
  | EClose (fd : Z)
  | ESendto (fd port : Z) (bytes : list Z) (r : Z)
  | EWrite (fd : Z) (bytes : list Z) (r : Z)
  | EEpollCreate (r : Z)
  | EEpollAdd (epollfd fd r : Z)
  | ESendCallback (bytes : list Z) (i : ptr)
  | EReceiveCallback (bytes : list Z) (i : ptr)
  | EPrint (m : message).

Class Os := {
  os_socket : list event → Z;
  os_bind : list event → Z → Z → Z;
  os_open_tun : list event → Z;
  os_ioctl_tun : list event → Z → list Z → Z;
  os_sendto : list event → Z → Z → list Z → Z;
  os_write : list event → Z → list Z → Z;
  os_epoll_create : list event → Z;
  os_epoll_add : list event → Z → Z → Z;
}.

(** ** The state *)

Record world := mk_world {
  w_graphs : gmap ptr graph;
  w_nodes : gmap ptr node;
  w_intfs : gmap ptr intf;
  w_links : gmap ptr link;
  w_skbs : gmap ptr sk_buff;
  w_arps : gmap ptr arp_entry;
  w_udps : gmap ptr udp_sock;
  w_tcps : gmap ptr tcp_sock;
  w_conns : gmap ptr tcp_connection_sock;
  w_next : ptr;                            (* the next pointer malloc returns *)
  w_udp_fds : list (option ptr);           (* udp.c: fd_to_sock *)
  w_tcp_fds : list (option ptr);           (* tcp.c: fd_to_sock *)
  w_conn_fds : list (option ptr);          (* tcp.c: fd_conn_to_sock *)
  w_fd_to_comm : gmap Z ptr;               (* comm.c: fd_to_comm_map *)
  w_ip_forward_enable : bool;              (* ip.c *)
  w_next_udp_port : Z;                     (* comm_udp.c *)
  w_send_callback : bool;                  (* comm.c: whether one is set *)
  w_receive_callback : bool;
  w_trace : list event;
}.

Abbreviation W A := (M world A).

Definition MAX_UDP_SOCKS : nat := 8.
Definition MAX_TCP_SOCKS : nat := 8.
Definition MAX_TCP_CONN_SOCKS : nat := 8.

Definition init_world : world := {|
  w_graphs := ∅; w_nodes := ∅; w_intfs := ∅; w_links := ∅; w_skbs := ∅; w_arps := ∅;
  w_udps := ∅; w_tcps := ∅; w_conns := ∅; w_next := 1%positive;
  w_udp_fds := replicate MAX_UDP_SOCKS None;
  w_tcp_fds := replicate MAX_TCP_SOCKS None;
  w_conn_fds := replicate MAX_TCP_CONN_SOCKS None;
  w_fd_to_comm := ∅; w_ip_forward_enable := true; w_next_udp_port := 40000;
  w_send_callback := false; w_receive_callback := false; w_trace := [];
|}.

(** ** Heaps *)

(** The map in which the objects of a type live. *)
Class Heap (A : Type) := {
  hget : world → gmap ptr A;
  hset : gmap ptr A → world → world;
}.

Definition set_graphs (x : gmap ptr graph) (w : world) : world :=
  mk_world x (w_nodes w) (w_intfs w) (w_links w) (w_skbs w) (w_arps w) (w_udps w) (w_tcps w)
    (w_conns w) (w_next w) (w_udp_fds w) (w_tcp_fds w) (w_conn_fds w) (w_fd_to_comm w)
    (w_ip_forward_enable w) (w_next_udp_port w) (w_send_callback w) (w_receive_callback w)
    (w_trace w).
Definition set_nodes (x : gmap ptr node) (w : world) : world :=
  mk_world (w_graphs w) x (w_intfs w) (w_links w) (w_skbs w) (w_arps w) (w_udps w)
    (w_tcps w) (w_conns w) (w_next w) (w_udp_fds w) (w_tcp_fds w) (w_conn_fds w)
    (w_fd_to_comm w) (w_ip_forward_enable w) (w_next_udp_port w) (w_send_callback w)
    (w_receive_callback w) (w_trace w).
Definition set_intfs (x : gmap ptr intf) (w : world) : world :=
  mk_world (w_graphs w) (w_nodes w) x (w_links w) (w_skbs w) (w_arps w) (w_udps w)
    (w_tcps w) (w_conns w) (w_next w) (w_udp_fds w) (w_tcp_fds w) (w_conn_fds w)
    (w_fd_to_comm w) (w_ip_forward_enable w) (w_next_udp_port w) (w_send_callback w)
    (w_receive_callback w) (w_trace w).
Definition set_links (x : gmap ptr link) (w : world) : world :=
  mk_world (w_graphs w) (w_nodes w) (w_intfs w) x (w_skbs w) (w_arps w) (w_udps w)
    (w_tcps w) (w_conns w) (w_next w) (w_udp_fds w) (w_tcp_fds w) (w_conn_fds w)
    (w_fd_to_comm w) (w_ip_forward_enable w) (w_next_udp_port w) (w_send_callback w)
    (w_receive_callback w) (w_trace w).
Definition set_skbs (x : gmap ptr sk_buff) (w : world) : world :=
  mk_world (w_graphs w) (w_nodes w) (w_intfs w) (w_links w) x (w_arps w) (w_udps w)
    (w_tcps w) (w_conns w) (w_next w) (w_udp_fds w) (w_tcp_fds w) (w_conn_fds w)
    (w_fd_to_comm w) (w_ip_forward_enable w) (w_next_udp_port w) (w_send_callback w)
    (w_receive_callback w) (w_trace w).
Definition set_arps (x : gmap ptr arp_entry) (w : world) : world :=
  mk_world (w_graphs w) (w_nodes w) (w_intfs w) (w_links w) (w_skbs w) x (w_udps w)
    (w_tcps w) (w_conns w) (w_next w) (w_udp_fds w) (w_tcp_fds w) (w_conn_fds w)
    (w_fd_to_comm w) (w_ip_forward_enable w) (w_next_udp_port w) (w_send_callback w)
    (w_receive_callback w) (w_trace w).
Definition set_udps (x : gmap ptr udp_sock) (w : world) : world :=
  mk_world (w_graphs w) (w_nodes w) (w_intfs w) (w_links w) (w_skbs w) (w_arps w) x
    (w_tcps w) (w_conns w) (w_next w) (w_udp_fds w) (w_tcp_fds w) (w_conn_fds w)
    (w_fd_to_comm w) (w_ip_forward_enable w) (w_next_udp_port w) (w_send_callback w)
    (w_receive_callback w) (w_trace w).
Definition set_tcps (x : gmap ptr tcp_sock) (w : world) : world :=
  mk_world (w_graphs w) (w_nodes w) (w_intfs w) (w_links w) (w_skbs w) (w_arps w) (w_udps w)
    x (w_conns w) (w_next w) (w_udp_fds w) (w_tcp_fds w) (w_conn_fds w) (w_fd_to_comm w)
    (w_ip_forward_enable w) (w_next_udp_port w) (w_send_callback w) (w_receive_callback w)
    (w_trace w).
Definition set_conns (x : gmap ptr tcp_connection_sock) (w : world) : world :=
  mk_world (w_graphs w) (w_nodes w) (w_intfs w) (w_links w) (w_skbs w) (w_arps w) (w_udps w)
    (w_tcps w) x (w_next w) (w_udp_fds w) (w_tcp_fds w) (w_conn_fds w) (w_fd_to_comm w)
    (w_ip_forward_enable w) (w_next_udp_port w) (w_send_callback w) (w_receive_callback w)
    (w_trace w).
Definition set_next (x : ptr) (w : world) : world :=
  mk_world (w_graphs w) (w_nodes w) (w_intfs w) (w_links w) (w_skbs w) (w_arps w) (w_udps w)
    (w_tcps w) (w_conns w) x (w_udp_fds w) (w_tcp_fds w) (w_conn_fds w) (w_fd_to_comm w)
    (w_ip_forward_enable w) (w_next_udp_port w) (w_send_callback w) (w_receive_callback w)
    (w_trace w).
Definition set_udp_fds (x : list (option ptr)) (w : world) : world :=
  mk_world (w_graphs w) (w_nodes w) (w_intfs w) (w_links w) (w_skbs w) (w_arps w) (w_udps w)
    (w_tcps w) (w_conns w) (w_next w) x (w_tcp_fds w) (w_conn_fds w) (w_fd_to_comm w)
    (w_ip_forward_enable w) (w_next_udp_port w) (w_send_callback w) (w_receive_callback w)
    (w_trace w).
Definition set_tcp_fds (x : list (option ptr)) (w : world) : world :=
  mk_world (w_graphs w) (w_nodes w) (w_intfs w) (w_links w) (w_skbs w) (w_arps w) (w_udps w)
    (w_tcps w) (w_conns w) (w_next w) (w_udp_fds w) x (w_conn_fds w) (w_fd_to_comm w)
    (w_ip_forward_enable w) (w_next_udp_port w) (w_send_callback w) (w_receive_callback w)
    (w_trace w).
Definition set_conn_fds (x : list (option ptr)) (w : world) : world :=
  mk_world (w_graphs w) (w_nodes w) (w_intfs w) (w_links w) (w_skbs w) (w_arps w) (w_udps w)
    (w_tcps w) (w_conns w) (w_next w) (w_udp_fds w) (w_tcp_fds w) x (w_fd_to_comm w)
    (w_ip_forward_enable w) (w_next_udp_port w) (w_send_callback w) (w_receive_callback w)
    (w_trace w).
Definition set_fd_to_comm (x : gmap Z ptr) (w : world) : world :=
  mk_world (w_graphs w) (w_nodes w) (w_intfs w) (w_links w) (w_skbs w) (w_arps w) (w_udps w)
    (w_tcps w) (w_conns w) (w_next w) (w_udp_fds w) (w_tcp_fds w) (w_conn_fds w) x
    (w_ip_forward_enable w) (w_next_udp_port w) (w_send_callback w) (w_receive_callback w)
    (w_trace w).
Definition set_ip_forward_enable (x : bool) (w : world) : world :=
  mk_world (w_graphs w) (w_nodes w) (w_intfs w) (w_links w) (w_skbs w) (w_arps w) (w_udps w)
    (w_tcps w) (w_conns w) (w_next w) (w_udp_fds w) (w_tcp_fds w) (w_conn_fds w)
    (w_fd_to_comm w) x (w_next_udp_port w) (w_send_callback w) (w_receive_callback w)
    (w_trace w).
Definition set_next_udp_port (x : Z) (w : world) : world :=
  mk_world (w_graphs w) (w_nodes w) (w_intfs w) (w_links w) (w_skbs w) (w_arps w) (w_udps w)
    (w_tcps w) (w_conns w) (w_next w) (w_udp_fds w) (w_tcp_fds w) (w_conn_fds w)
    (w_fd_to_comm w) (w_ip_forward_enable w) x (w_send_callback w) (w_receive_callback w)
    (w_trace w).
Definition set_send_callback (x : bool) (w : world) : world :=
  mk_world (w_graphs w) (w_nodes w) (w_intfs w) (w_links w) (w_skbs w) (w_arps w) (w_udps w)
    (w_tcps w) (w_conns w) (w_next w) (w_udp_fds w) (w_tcp_fds w) (w_conn_fds w)
    (w_fd_to_comm w) (w_ip_forward_enable w) (w_next_udp_port w) x (w_receive_callback w)
    (w_trace w).
Definition set_receive_callback (x : bool) (w : world) : world :=
  mk_world (w_graphs w) (w_nodes w) (w_intfs w) (w_links w) (w_skbs w) (w_arps w) (w_udps w)
    (w_tcps w) (w_conns w) (w_next w) (w_udp_fds w) (w_tcp_fds w) (w_conn_fds w)
    (w_fd_to_comm w) (w_ip_forward_enable w) (w_next_udp_port w) (w_send_callback w) x
    (w_trace w).
Definition set_trace (x : list event) (w : world) : world :=
  mk_world (w_graphs w) (w_nodes w) (w_intfs w) (w_links w) (w_skbs w) (w_arps w) (w_udps w)
    (w_tcps w) (w_conns w) (w_next w) (w_udp_fds w) (w_tcp_fds w) (w_conn_fds w)
    (w_fd_to_comm w) (w_ip_forward_enable w) (w_next_udp_port w) (w_send_callback w)
    (w_receive_callback w) x.

#[export] Instance heap_graphs : Heap graph := { hget := w_graphs; hset := set_graphs }.
#[export] Instance heap_nodes : Heap node := { hget := w_nodes; hset := set_nodes }.
#[export] Instance heap_intfs : Heap intf := { hget := w_intfs; hset := set_intfs }.
#[export] Instance heap_links : Heap link := { hget := w_links; hset := set_links }.
#[export] Instance heap_skbs : Heap sk_buff := { hget := w_skbs; hset := set_skbs }.
#[export] Instance heap_arps : Heap arp_entry := { hget := w_arps; hset := set_arps }.
#[export] Instance heap_udps : Heap udp_sock := { hget := w_udps; hset := set_udps }.
#[export] Instance heap_tcps : Heap tcp_sock := { hget := w_tcps; hset := set_tcps }.
#[export] Instance heap_conns : Heap tcp_connection_sock := { hget := w_conns; hset := set_conns }.

(** The laws a heap obeys; they hold for every structure of the program. *)
Class HeapLaws A `{Heap A} : Prop := {
  hget_hset m w : hget (hset m w) = m;
  hset_hset m m' w : hset m (hset m' w) = hset m w;
  hset_hget w : hset (hget w) w = w;
  w_next_hset m w : w_next (hset m w) = w_next w;
}.

#[export] Instance heap_graphs_laws : HeapLaws graph.
Proof. by split; intros; try destruct w. Qed.
#[export] Instance heap_nodes_laws : HeapLaws node.
Proof. by split; intros; try destruct w. Qed.
#[export] Instance heap_intfs_laws : HeapLaws intf.
Proof. by split; intros; try destruct w. Qed.
#[export] Instance heap_links_laws : HeapLaws link.
Proof. by split; intros; try destruct w. Qed.
#[export] Instance heap_skbs_laws : HeapLaws sk_buff.
Proof. by split; intros; try destruct w. Qed.
#[export] Instance heap_arps_laws : HeapLaws arp_entry.
Proof. by split; intros; try destruct w. Qed.
#[export] Instance heap_udps_laws : HeapLaws udp_sock.
Proof. by split; intros; try destruct w. Qed.
#[export] Instance heap_tcps_laws : HeapLaws tcp_sock.
Proof. by split; intros; try destruct w. Qed.
#[export] Instance heap_conns_laws : HeapLaws tcp_connection_sock.
Proof. by split; intros; try destruct w. Qed.

Section HeapOps.
Context {A : Type} `{Heap A}.

(** [*p] *)
Definition load (p : ptr) : W A := λ w,
  match hget w !! p with
  | Some a => Ok (a, w)
  | None => Err Dangling
  end.

(** [*p = a] *)
Definition store (p : ptr) (a : A) : W unit := λ w,
  match hget w !! p with
  | Some _ => Ok (tt, hset (<[p := a]> (hget w)) w)
  | None => Err Dangling
  end.

(** An assignment to a field of [*p]. *)
Definition update (p : ptr) (f : A → A) : W unit :=
  let* a := load p in store p (f a).

(** [calloc], with the initial value of the object. *)
Definition alloc (a : A) : W ptr := λ w,
  let p := w_next w in
  Ok (p, hset (<[p := a]> (hget w)) (set_next (Pos.succ p) w)).

(** [free] *)
Definition dealloc (p : ptr) : W unit := λ w,
  match hget w !! p with
  | Some _ => Ok (tt, hset (delete p (hget w)) w)
  | None => Err Dangling
  end.
End HeapOps.

(** A computation on a buffer, run on the buffer [k] points to. *)
Definition on_skb {A} (k : ptr) (m : M sk_buff A) : W A :=
  let* s := load k in
  match m s with
  | Ok (a, s') => store k s' ;;; ret a
  | Err f => raise f
  end.

Definition free_skb (k : ptr) : W unit := dealloc (A := sk_buff) k.

(** The history of the system calls. *)
Definition emit (e : event) : W unit := modify (λ w, set_trace (w_trace w ++ [e]) w).
Definition print (m : message) : W unit := emit (EPrint m).

(** ** Rules *)

Section HeapRules.
Context {A : Type} `{HeapLaws A}.
Implicit Types E : fault → Prop.

Lemma wp_load p (a : A) Q E w : hget w !! p = Some a → Q a w → wp (load p) Q E w.
Proof. intros Hp HQ. unfold wp, load. by rewrite Hp. Qed.

Lemma wp_load_inv p Q E w :
  (∀ a : A, hget w !! p = Some a → Q a w) → (hget w !! p = None → E Dangling) →
  wp (load p) Q E w.
Proof. intros H1 H2. unfold wp, load. destruct (hget w !! p) eqn:?; auto. Qed.

Lemma wp_store p (a : A) Q E w :
  is_Some (hget w !! p) → Q tt (hset (<[p := a]> (hget w)) w) → wp (store p a) Q E w.
Proof. intros [? Hp] HQ. unfold wp, store. by rewrite Hp. Qed.

Lemma wp_update p f (a : A) Q E w :
  hget w !! p = Some a → Q tt (hset (<[p := f a]> (hget w)) w) → wp (update p f) Q E w.
Proof.
  intros Hp HQ. apply wp_bind, (wp_load _ a); [done|]. apply wp_store; [by eexists|done].
Qed.

Lemma wp_alloc (a : A) Q E w :
  Q (w_next w) (hset (<[w_next w := a]> (hget w)) (set_next (Pos.succ (w_next w)) w)) →
  wp (alloc a) Q E w.
Proof. done. Qed.

Lemma wp_dealloc p (a : A) Q E w :
  hget w !! p = Some a → Q tt (hset (delete p (hget w)) w) → wp (dealloc p) Q E w.
Proof. intros Hp HQ. unfold wp, dealloc. by rewrite Hp. Qed.
End HeapRules.

Lemma wp_on_skb {A} k (m : M sk_buff A) s Q E w :
  w_skbs w !! k = Some s →
  wp m (λ a s', Q a (set_skbs (<[k := s']> (w_skbs w)) w)) E s →
  wp (on_skb k m) Q E w.
Proof.
  intros Hk Hm. apply wp_bind, (wp_load _ s); [done|]. unfold wp in Hm.
  destruct (m s) as [[a s']|f].
  - apply wp_bind, wp_store; [by eexists|]. by apply wp_ret.
  - by apply wp_raise.
Qed.

Lemma wp_emit e Q E w : Q tt (set_trace (w_trace w ++ [e]) w) → wp (emit e) Q E w.
Proof. done. Qed.
Lemma wp_print m Q E w : Q tt (set_trace (w_trace w ++ [EPrint m]) w) → wp (print m) Q E w.
Proof. done. Qed.

(** [mstep] for the statements of this file as well. *)
Ltac wstep :=
  first [ mstep
        | lazymatch goal with
          | |- wp (emit _) _ _ _ => apply wp_emit
          | |- wp (print _) _ _ _ => apply wp_print
          end; cbv beta ].
Ltac wsteps := repeat wstep.

(** A read-only computation on a buffer leaves the state as it is. *)
Lemma set_skbs_id w k s : w_skbs w !! k = Some s → set_skbs (<[k := s]> (w_skbs w)) w = w.
Proof. intros. rewrite insert_id by done. by destruct w. Qed.
