(* ===== verification/Topology.v ===== *)
(** * graph.h: the inline functions on interfaces, links and nodes

    Neighbours over a link, free slots, and lookups by name. *)
From S2P Require Import Prelude Cmonad World.
#[local] Open Scope Z_scope.

Definition MAX_IF_NAME_SIZE : nat := 15.
Definition MAX_TOPO_NAME_SIZE : nat := 32.
Definition MAX_NODE_NAME_SIZE : nat := 32.
Definition MAX_INTFS_PER_NODE : nat := 4.

(** [strncpy] into a zeroed array of [n + 1] characters, as a C string, and
    [strncmp(a, b, n) == 0]. *)
Definition strncpy (n : nat) (src : list Z) : list Z := take n src.
Definition strncmp_eq (n : nat) (a b : list Z) : bool := bool_decide (take n a = take n b).

Definition get_nbr_if (i : ptr) : W (option ptr) :=
  let* it := load (A := intf) i in
  match if_link it with
  | None => ret None
  | Some l =>
      let* lk := load (A := link) l in
      ret (Some (if bool_decide (i = l_intf1 lk) then l_intf2 lk else l_intf1 lk))
  end.

Definition get_nbr_node (i : ptr) : W (option ptr) :=
  let* nbr := get_nbr_if i in
  match nbr with
  | Some j => let* jt := load (A := intf) j in ret (Some (if_node jt))
  | None => ret None
  end.

Fixpoint available_slot_from (i : Z) (slots : list (option ptr)) : Z :=
  match slots with
  | [] => -1
  | None :: _ => i
  | Some _ :: slots => available_slot_from (i + 1) slots
  end.

Definition get_node_intf_available_slot (nd : node) : Z := available_slot_from 0 (n_intfs nd).

(** The loops over [node->intfs] that return the first interface satisfying a
    test; empty slots are skipped. *)
Fixpoint first_intf (test : intf → W bool) (slots : list (option ptr)) : W (option ptr) :=
  match slots with
  | [] => ret None
  | None :: slots => first_intf test slots
  | Some i :: slots =>
      let* it := load (A := intf) i in
      let* b := test it in
      if b then ret (Some i) else first_intf test slots
  end.

Definition get_node_if_by_name (n : ptr) (if_name_ : list Z) : W (option ptr) :=
  let* nd := load (A := node) n in
  first_intf (λ it, ret (strncmp_eq MAX_IF_NAME_SIZE (if_name it) if_name_)) (n_intfs nd).

Fixpoint first_node (node_name : list Z) (nodes : list ptr) : W (option ptr) :=
  match nodes with
  | [] => ret None
  | n :: nodes =>
      let* nd := load (A := node) n in
      if strncmp_eq MAX_NODE_NAME_SIZE (n_name nd) node_name then ret (Some n)
      else first_node node_name nodes
  end.

Definition get_node_by_node_name (g : ptr) (node_name : list Z) : W (option ptr) :=
  let* gr := load (A := graph) g in
  first_node node_name (g_nodes gr).

(** ** Assignments to fields of nested structures *)

Definition if_set_comm (c : comm) (it : intf) : intf :=
  mk_intf (if_name it) (if_node it) (if_link it) (if_nw it) c.
Definition if_set_nw (p : intf_nw_prop) (it : intf) : intf :=
  mk_intf (if_name it) (if_node it) (if_link it) p (if_comm it).

Definition p_set_ip (ip mask : Z) (p : intf_nw_prop) : intf_nw_prop :=
  mk_intf_nw_prop (p_tcp_socks p) (p_udp_socks p) (p_mac_addr p) true ip mask.
Definition p_set_mac (mac : list Z) (p : intf_nw_prop) : intf_nw_prop :=
  mk_intf_nw_prop (p_tcp_socks p) (p_udp_socks p) mac (p_is_ip_addr_config p)
    (p_ip_addr p) (p_mask p).
Definition p_set_udp_socks (l : list ptr) (p : intf_nw_prop) : intf_nw_prop :=
  mk_intf_nw_prop (p_tcp_socks p) l (p_mac_addr p) (p_is_ip_addr_config p)
    (p_ip_addr p) (p_mask p).
Definition p_set_tcp_socks (l : list ptr) (p : intf_nw_prop) : intf_nw_prop :=
  mk_intf_nw_prop l (p_udp_socks p) (p_mac_addr p) (p_is_ip_addr_config p)
    (p_ip_addr p) (p_mask p).

Definition n_set_intfs (l : list (option ptr)) (nd : node) : node :=
  mk_node (n_name nd) l (n_nw nd).
Definition n_set_nw (p : node_nw_prop) (nd : node) : node :=
  mk_node (n_name nd) (n_intfs nd) p.

Definition n_set_lb (ip : Z) (p : node_nw_prop) : node_nw_prop :=
  mk_node_nw_prop true ip (n_arp_table p) (n_mac_table p) (n_rt_table p).
Definition n_set_arp_table (l : list ptr) (p : node_nw_prop) : node_nw_prop :=
  mk_node_nw_prop (n_is_lb_addr_config p) (n_lb_addr p) l (n_mac_table p) (n_rt_table p).
Definition n_set_mac_table (l : list mac_table_entry) (p : node_nw_prop) : node_nw_prop :=
  mk_node_nw_prop (n_is_lb_addr_config p) (n_lb_addr p) (n_arp_table p) l (n_rt_table p).
Definition n_set_rt_table (l : list rt_entry) (p : node_nw_prop) : node_nw_prop :=
  mk_node_nw_prop (n_is_lb_addr_config p) (n_lb_addr p) (n_arp_table p) (n_mac_table p) l.

(** The accessor macros of net.h. *)
Definition IF_MAC (it : intf) : list Z := p_mac_addr (if_nw it).
Definition IF_IP (it : intf) : Z := p_ip_addr (if_nw it).
Definition IS_INTF_L3_MODE (it : intf) : bool := p_is_ip_addr_config (if_nw it).

(** ** Lemmas *)

(** [available_slot_from] finds the first empty slot, or gives -1. *)
Lemma available_slot_from_spec i slots :
  available_slot_from i slots = -1 ∧ Forall is_Some slots ∨
  ∃ n, available_slot_from i slots = i + Z.of_nat n ∧ slots !! n = Some None ∧
       Forall is_Some (take n slots).
Proof.
  revert i. induction slots as [|[p|] slots IH]; intros i; simpl.
  - left. by split; [|constructor].
  - destruct (IH (i + 1)) as [[E H]|(n & E & Hn & Hf)].
    + left. split; [done|]. constructor; [by eexists|done].
    + right. exists (S n). split; [lia|]. split; [done|]. simpl. constructor; [by eexists|done].
  - right. exists O. split; [lia|]. split; [done|]. constructor.
Qed.

(** The interface found by [first_intf], for a test that only reads. *)
Lemma first_intf_spec (f : intf → bool) (test : intf → W bool) slots w :
  (∀ it, test it w = Ok (f it, w)) →
  (∀ i, Some i ∈ slots → is_Some (w_intfs w !! i)) →
  ∃ r, first_intf test slots w = Ok (r, w) ∧
    match r with
    | Some i => ∃ it, Some i ∈ slots ∧ w_intfs w !! i = Some it ∧ f it = true
    | None => ∀ i it, Some i ∈ slots → w_intfs w !! i = Some it → f it = false
    end.
Proof.
  intros Ht. induction slots as [|[i|] slots IH]; intros Hs; simpl.
  - eexists. split; [done|]. set_solver.
  - destruct (Hs i ltac:(set_solver)) as [it Hi].
    unfold bind at 1, load. cbn [hget heap_intfs]. rewrite Hi. unfold bind. rewrite Ht.
    destruct (f it) eqn:Ef.
    + eexists. split; [done|]. exists it. set_solver.
    + destruct IH as (r & -> & Hr); [set_solver|]. eexists. split; [done|].
      destruct r as [j|].
      * destruct Hr as (jt & ? & ? & ?). exists jt. set_solver.
      * intros j jt [?|?]%elem_of_cons Hj; [by simplify_eq|by eauto].
  - destruct IH as (r & -> & Hr); [set_solver|]. eexists. split; [done|].
    destruct r as [j|]; [destruct Hr as (jt & ? & ? & ?); exists jt; set_solver|set_solver].
Qed.
