(* ===== verification/Comm.v ===== *)
(** * comm.c, comm_udp.c, comm_tuntap.c: the communication layer

    Every interface has a [comm] with the operations of a UDP socket (a link of
    the simulated topology) or of a TAP device.  The system calls are those of
    the class [Os] and leave an event in the history.  The receiving thread is
    in [Stack]. *)
From S2P Require Import Prelude Cmonad Skbuff World Topology.
#[local] Open Scope Z_scope.

Definition MAX_COMMS : Z := 1024.
Definition RECV_BUFFER_SIZE : Z := 2048.
Definition RECV_RESERVED_HEAD_ROOM : Z := 4.

(** ** The table from file descriptors to interfaces *)

Definition set_fd_comm (fd : Z) (c : option ptr) : W bool :=
  if (fd <? 0) || (MAX_COMMS <=? fd) then ret false else
  modify (λ w, set_fd_to_comm (partial_alter (λ _, c) fd (w_fd_to_comm w)) w) ;;;
  ret true.

Definition fd_to_comm (fd : Z) : W (option ptr) :=
  if (fd <? 0) || (MAX_COMMS <=? fd) then ret None else
  gets (λ w, w_fd_to_comm w !! fd).

Definition update_comm (i : ptr) (f : comm → comm) : W unit :=
  update (A := intf) i (λ it, if_set_comm (f (if_comm it)) it).

Definition comm_set_fd (fd : Z) (c : comm) : comm :=
  mk_comm (comm_kind c) fd (comm_port c) (comm_op c).
Definition comm_set_port (port : Z) (c : comm) : comm :=
  mk_comm (comm_kind c) (comm_fd c) port (comm_op c).
Definition comm_set_ops (ct : comm_type) (o : option comm_ops) (c : comm) : comm :=
  mk_comm ct (comm_fd c) (comm_port c) o.

Section Comm.
Context `{Os}.

(** ** System calls *)

Definition sys_socket : W Z :=
  let* h := gets w_trace in
  let fd := os_socket h in emit (ESocket fd) ;;; ret fd.
Definition sys_bind (fd port : Z) : W Z :=
  let* h := gets w_trace in
  let r := os_bind h fd port in emit (EBind fd port r) ;;; ret r.
Definition sys_sendto (fd port : Z) (bytes : list Z) : W Z :=
  let* h := gets w_trace in
  let r := os_sendto h fd port bytes in emit (ESendto fd port bytes r) ;;; ret r.
Definition sys_write (fd : Z) (bytes : list Z) : W Z :=
  let* h := gets w_trace in
  let r := os_write h fd bytes in emit (EWrite fd bytes r) ;;; ret r.
Definition sys_open_tun : W Z :=
  let* h := gets w_trace in
  let fd := os_open_tun h in emit (EOpenTun fd) ;;; ret fd.
Definition sys_epoll_create : W Z :=
  let* h := gets w_trace in
  let r := os_epoll_create h in emit (EEpollCreate r) ;;; ret r.
Definition sys_epoll_add (epollfd fd : Z) : W Z :=
  let* h := gets w_trace in
  let r := os_epoll_add h epollfd fd in emit (EEpollAdd epollfd fd r) ;;; ret r.
Definition sys_ioctl_tun (fd : Z) (name : list Z) : W Z :=
  let* h := gets w_trace in
  let r := os_ioctl_tun h fd name in emit (EIoctlTun fd name r) ;;; ret r.

(** ** comm_udp.c *)

Definition get_next_udp_port : W Z :=
  let* p := gets w_next_udp_port in
  modify (set_next_udp_port (wrap16 (p + 1))) ;;; ret p.

(** The loop until [bind] succeeds; each port number is tried once. *)
Fixpoint bind_loop (fuel : nat) (i : ptr) (fd : Z) : W unit :=
  match fuel with
  | O => raise OutOfFuel
  | S fuel =>
      let* port := get_next_udp_port in
      update_comm i (comm_set_port port) ;;;
      let* r := sys_bind fd port in
      if r =? 0 then ret tt else bind_loop fuel i fd
  end.

Definition udp_init_comm (i : ptr) : W bool :=
  let* fd := sys_socket in
  update_comm i (comm_set_fd fd) ;;;
  bind_loop (Z.to_nat (2 ^ 16)) i fd ;;;
  set_fd_comm fd (Some i).

Definition udp_destroy_comm (i : ptr) : W bool :=
  let* it := load (A := intf) i in
  let fd := comm_fd (if_comm it) in
  (if fd =? 0 then ret tt else
   set_fd_comm fd None ;;;
   emit (EClose fd) ;;;
   update_comm i (comm_set_fd 0) ;;;
   update_comm i (comm_set_port 0)) ;;;
  ret true.

(** The results [false] and [true] of a function that returns [ssize_t]. *)
Definition udp_send_bytes (i : ptr) (bytes : list Z) : W Z :=
  let* it := load (A := intf) i in
  let* nbr := get_nbr_if i in
  let not_available := print SocketNotAvailable ;;; ret 0 in
  match nbr with
  | None => not_available
  | Some j =>
      let* jt := load (A := intf) j in
      if (comm_port (if_comm jt) =? 0) || (comm_fd (if_comm it) =? 0)
      then not_available
      else
        let* nsent := sys_sendto (comm_fd (if_comm it)) (comm_port (if_comm jt)) bytes in
        if nsent <? 0 then print ErrorWhileSending ;;; ret 0 else ret 1
  end.

(** ** comm_tuntap.c *)

Definition tun_alloc (name : list Z) : W Z :=
  let* fd := sys_open_tun in
  if fd <? 0 then ret (-1) else
  let* err := sys_ioctl_tun fd name in
  if err <? 0 then ret err else ret fd.

Definition tuntap_init_comm (i : ptr) : W bool :=
  let* it := load (A := intf) i in
  let* fd := tun_alloc (if_name it) in
  update_comm i (comm_set_fd fd) ;;;
  if fd <? 0 then ret false else set_fd_comm fd (Some i).

Definition tuntap_destroy_comm (i : ptr) : W bool :=
  let* it := load (A := intf) i in
  let fd := comm_fd (if_comm it) in
  (if fd =? 0 then ret tt else
   set_fd_comm fd None ;;;
   emit (EClose fd) ;;;
   update_comm i (comm_set_fd 0)) ;;;
  ret true.

Definition tuntap_send_bytes (i : ptr) (bytes : list Z) : W Z :=
  let* it := load (A := intf) i in
  sys_write (comm_fd (if_comm it)) bytes.

(** ** comm.c *)

Definition init_comm (i : ptr) (ct : comm_type) : W bool :=
  match ct with
  | CT_UDP => update_comm i (comm_set_ops CT_UDP (Some udp_comm_ops)) ;;; udp_init_comm i
  | CT_TUNTAP =>
      update_comm i (comm_set_ops CT_TUNTAP (Some tuntap_comm_ops)) ;;; tuntap_init_comm i
  | CT_NONE => raise ExitFailure
  end.

Definition destroy_comm (i : ptr) : W bool :=
  let* it := load (A := intf) i in
  let* ops := nonnull (comm_op (if_comm it)) in
  match ops with
  | udp_comm_ops => udp_destroy_comm i
  | tuntap_comm_ops => tuntap_destroy_comm i
  end.

Definition send_bytes_out (bytes : list Z) (i : ptr) : W Z :=
  let* cb := gets w_send_callback in
  (if (cb : bool) then emit (ESendCallback bytes i) else ret tt) ;;;
  let* it := load (A := intf) i in
  let* ops := nonnull (comm_op (if_comm it)) in
  match ops with
  | udp_comm_ops => udp_send_bytes i bytes
  | tuntap_comm_ops => tuntap_send_bytes i bytes
  end.

(** The bytes of the packet: [skb->len] bytes from [skb->data]. *)
Definition skb_bytes (k : ptr) : W (list Z) :=
  let* s := load (A := sk_buff) k in
  lift (rdn (skb_head s) (skb_data s) (skb_len s)).

Definition send_pkt_out (i k : ptr) : W bool :=
  let* bytes := skb_bytes k in
  let* result := send_bytes_out bytes i in
  let ok := 0 <=? result in
  (if ok then free_skb k else ret tt) ;;;
  ret ok.

Fixpoint flood_slots (exempted : option ptr) (bytes : list Z) (rc : bool)
    (slots : list (option ptr)) : W bool :=
  match slots with
  | [] => ret rc
  | None :: slots => flood_slots exempted bytes rc slots
  | Some i :: slots =>
      if bool_decide (Some i = exempted) then flood_slots exempted bytes rc slots else
      let* r := send_bytes_out bytes i in
      flood_slots exempted bytes (rc || (r <? 0)) slots
  end.

Definition send_bytes_flood (n : ptr) (exempted : option ptr) (bytes : list Z) : W bool :=
  let* nd := load (A := node) n in
  flood_slots exempted bytes false (n_intfs nd).

Definition send_pkt_flood (n : ptr) (exempted : option ptr) (k : ptr) : W bool :=
  let* bytes := skb_bytes k in
  let* ok := send_bytes_flood n exempted bytes in
  (if (ok : bool) then free_skb k else ret tt) ;;;
  ret ok.

Definition set_send_callback_ (cb : bool) : W unit := modify (set_send_callback cb).
Definition set_receive_callback_ (cb : bool) : W unit := modify (set_receive_callback cb).
End Comm.
