(* ===== verification/Ethernet.v ===== *)
(** * ethernet.c: framing

    The destination filter and the transmission of a packet in an Ethernet
    frame.  [ethernet_input], which dispatches to ARP and IP, is in [Stack]. *)
From S2P Require Import Prelude Cmonad Utils Skbuff World Topology Comm.
#[local] Open Scope Z_scope.

Definition MAC_ADDR_SIZE : Z := 6.
Definition IP_ADDR_SIZE : Z := 4.
Definition ETH_PROTO_IP : Z := 0x0800.
Definition ETH_PROTO_ARP : Z := 0x0806.
Definition ETH_HDR_SIZE : Z := 14.
Definition BUFF_HEADROOM : Z := 60.
Definition BUFF_TAILROOM : Z := 46.

(** The fields of [struct ethernet_hdr]. *)
Definition eth_dst_mac : Z := 0.
Definition eth_src_mac : Z := 6.
Definition eth_type : Z := 12.

(** Room for a header in front of a payload at the offset [pkt], cleared; and the
    place of the checksum behind the payload of a frame.  No other file of the
    program uses them. *)
Definition wrap_eth_hdr_with_payload (pkt : Z) : M sk_buff Z :=
  let p := pkt - ETH_HDR_SIZE in
  s_wrn p (replicate (Z.to_nat ETH_HDR_SIZE) 0) ;;;
  ret p.
Definition ETH_FCS (hdr payload_size : Z) : Z := hdr + ETH_HDR_SIZE + payload_size.

(** [hdr] is an offset in the buffer [k]. *)
Definition ethernet_input_qualify (i k : ptr) (hdr : Z) : W bool :=
  let* dst := on_skb k (s_rdn (hdr + eth_dst_mac) MAC_ADDR_SIZE) in
  let* it := load (A := intf) i in
  ret (bool_decide (dst = IF_MAC it) || IS_MAC_BROADCAST_ADDR dst).

Section Ethernet.
Context `{Os}.

Definition ethernet_output (i : ptr) (mac : list Z) (proto : Z) (k : ptr) : W bool :=
  let* it := load (A := intf) i in
  on_skb k (
    let* hdr := skb_push ETH_HDR_SIZE in
    s_wrn (hdr + eth_dst_mac) mac ;;;
    s_wrn (hdr + eth_src_mac) (IF_MAC it) ;;;
    s_wr16 (hdr + eth_type) (HTONS proto) ;;;
    let* len := gets skb_len in
    if len <? 60 then skb_put (60 - len) ;;; ret tt else ret tt) ;;;
  send_pkt_out i k.
End Ethernet.

(** The header is cleared and nothing else; the payload starts behind it. *)
Lemma wrap_eth_hdr_clears pkt s :
  ETH_HDR_SIZE <= pkt <= Z.of_nat (length (skb_head s)) →
  ∃ h, wrap_eth_hdr_with_payload pkt s = Ok (pkt - ETH_HDR_SIZE, skb_set_head h s) ∧
    slice (pkt - ETH_HDR_SIZE) ETH_HDR_SIZE h = replicate 14 0 ∧
    ∀ o n, 0 <= o → o + n <= pkt - ETH_HDR_SIZE ∨ pkt <= o → slice o n h = slice o n (skb_head s).
Proof.
  unfold ETH_HDR_SIZE. intros Hp. assert (length (replicate (Z.to_nat 14) (0 : Z)) = 14%nat) as Hl by done.
  unfold wrap_eth_hdr_with_payload, ETH_HDR_SIZE, bind, s_wrn. rewrite wrn_ok by lia. eexists. split; [reflexivity|].
  split; [apply (slice_splice_eq _ (replicate (Z.to_nat 14) 0)); lia|]. intros o n Ho Hd. apply slice_splice_ne; lia.
Qed.
