(* ===== verification/Arp.v ===== *)
(** * arp.c: address resolution

    The ARP table of a node, the requests and replies, and the packets that
    wait for an address.  A [struct arp_hdr] pointer is a buffer and an offset
    in it. *)
From S2P Require Import Prelude Cmonad Utils Skbuff World Topology Comm Ethernet.
#[local] Open Scope Z_scope.

Definition ARP_OP_REQUEST : Z := 1.
Definition ARP_OP_REPLY : Z := 2.
Definition ARP_PROTO_ETH : Z := 1.
Definition ARP_PROTO_IP : Z := 0x0800.
Definition ARP_HDR_SIZE : Z := 28.

(** The fields of [struct arp_hdr]. *)
Definition arp_hw_type : Z := 0.
Definition arp_proto_type : Z := 2.
Definition arp_hw_addr_len : Z := 4.
Definition arp_proto_addr_len : Z := 5.
Definition arp_opcode : Z := 6.
Definition arp_sender_hw_addr : Z := 8.
Definition arp_sender_proto_addr : Z := 14.
Definition arp_target_hw_addr : Z := 18.
Definition arp_target_proto_addr : Z := 24.

Definition arp_set_mac (mac : list Z) (e : arp_entry) : arp_entry :=
  mk_arp_entry (arp_ip e) mac (arp_intf e) (arp_resolved e) (arp_pending e).
Definition arp_set_resolved (e : arp_entry) : arp_entry :=
  mk_arp_entry (arp_ip e) (arp_mac e) (arp_intf e) true (arp_pending e).
Definition arp_set_pending (l : list ptr) (e : arp_entry) : arp_entry :=
  mk_arp_entry (arp_ip e) (arp_mac e) (arp_intf e) (arp_resolved e) l.

(** ** The ARP table *)

Fixpoint arp_lookup_from (ip : Z) (entries : list ptr) : W (option ptr) :=
  match entries with
  | [] => ret None
  | e :: entries =>
      let* en := load (A := arp_entry) e in
      if arp_ip en =? ip then ret (Some e) else arp_lookup_from ip entries
  end.

(** The table is the one of the node [n]. *)
Definition arp_table_lookup (n : ptr) (ip : Z) : W (option ptr) :=
  let* nd := load (A := node) n in
  arp_lookup_from ip (n_arp_table (n_nw nd)).

Definition arp_table_entry_add (n e : ptr) : W bool :=
  update (A := node) n (λ nd, n_set_nw (n_set_arp_table (e :: n_arp_table (n_nw nd)) (n_nw nd)) nd) ;;;
  ret true.

Definition init_arp_entry (ip : Z) (i : ptr) : arp_entry :=
  mk_arp_entry ip [0; 0; 0; 0; 0; 0] i false [].

Section Arp.
Context `{Os}.

(** ** Requests *)

(** The header both functions build, in a new buffer. *)
Definition fill_arp_hdr (opcode : Z) (it : intf) (target_hw : list Z) (target_ip : Z)
    : M sk_buff unit :=
  skb_reserve BUFF_HEADROOM ;;;
  let* hdr := skb_push ARP_HDR_SIZE in
  s_wr16 (hdr + arp_hw_type) (HTONS ARP_PROTO_ETH) ;;;
  s_wr16 (hdr + arp_proto_type) (HTONS ARP_PROTO_IP) ;;;
  s_wr8 (hdr + arp_hw_addr_len) MAC_ADDR_SIZE ;;;
  s_wr8 (hdr + arp_proto_addr_len) IP_ADDR_SIZE ;;;
  s_wr16 (hdr + arp_opcode) (HTONS opcode) ;;;
  s_wrn (hdr + arp_sender_hw_addr) (IF_MAC it) ;;;
  s_wr32 (hdr + arp_sender_proto_addr) (IF_IP it) ;;;
  s_wrn (hdr + arp_target_hw_addr) target_hw ;;;
  s_wr32 (hdr + arp_target_proto_addr) target_ip.

Definition send_arp_broadcast_request (i : ptr) (ip : Z) : W unit :=
  let* k := alloc (alloc_skb (BUFF_HEADROOM + BUFF_TAILROOM + ARP_HDR_SIZE)) in
  let* it := load (A := intf) i in
  on_skb k (fill_arp_hdr ARP_OP_REQUEST it [0; 0; 0; 0; 0; 0] ip) ;;;
  let* ok := ethernet_output i layer2_fill_with_broadcast_mac ETH_PROTO_ARP k in
  if (ok : bool) then ret tt else free_skb k.

Definition send_arp_reply_msg (i k' : ptr) (shdr : Z) : W unit :=
  let* k := alloc (alloc_skb (BUFF_HEADROOM + BUFF_TAILROOM + ARP_HDR_SIZE)) in
  let* it := load (A := intf) i in
  let* shw := on_skb k' (s_rdn (shdr + arp_sender_hw_addr) MAC_ADDR_SIZE) in
  let* sip := on_skb k' (s_rd32 (shdr + arp_sender_proto_addr)) in
  on_skb k (fill_arp_hdr ARP_OP_REPLY it shw sip) ;;;
  ethernet_output i shw ETH_PROTO_ARP k ;;;
  ret tt.

Definition process_arp_broadcast_request (i k : ptr) (hdr : Z) : W bool :=
  let* it := load (A := intf) i in
  let* target := on_skb k (s_rd32 (hdr + arp_target_proto_addr)) in
  if negb (IF_IP it =? target) then ret false else
  send_arp_reply_msg i k hdr ;;;
  ret true.

(** ** Replies *)

(** The loop over the pending packets of the entry [e]. *)
Fixpoint send_pending (e : ptr) (pkts : list ptr) : W unit :=
  match pkts with
  | [] => ret tt
  | k :: pkts =>
      update (A := arp_entry) e (λ en, arp_set_pending (list_remove k (arp_pending en)) en) ;;;
      let* s := load (A := sk_buff) k in
      let* i := nonnull (skb_intf s) in
      let* en := load (A := arp_entry) e in
      let* result := ethernet_output i (arp_mac en) ETH_PROTO_IP k in
      (if (result : bool) then ret tt else free_skb k) ;;;
      send_pending e pkts
  end.

Definition arp_table_update_from_arp_reply (n k : ptr) (hdr : Z) (i : ptr) : W unit :=
  let* sip := on_skb k (s_rd32 (hdr + arp_sender_proto_addr)) in
  let* r := arp_table_lookup n sip in
  match r with
  | None => print UnmatchedArpReply
  | Some e =>
      update (A := arp_entry) e arp_set_resolved ;;;
      let* mac := on_skb k (s_rdn (hdr + arp_sender_hw_addr) MAC_ADDR_SIZE) in
      update (A := arp_entry) e (arp_set_mac mac) ;;;
      let* en := load (A := arp_entry) e in
      send_pending e (arp_pending en)
  end.

Definition process_arp_reply_msg (i k : ptr) (hdr : Z) : W bool :=
  let* it := load (A := intf) i in
  arp_table_update_from_arp_reply (if_node it) k hdr i ;;;
  ret true.

Definition arp_input (k : ptr) : W bool :=
  let* s := load (A := sk_buff) k in
  if skb_len s <? ARP_HDR_SIZE then ret false else
  let hdr := skb_data s in
  let* opcode := on_skb k (s_rd16 (hdr + arp_opcode)) in
  let* ok :=
    if opcode =? HTONS ARP_OP_REQUEST then
      let* i := nonnull (skb_intf s) in process_arp_broadcast_request i k hdr
    else if opcode =? HTONS ARP_OP_REPLY then
      let* i := nonnull (skb_intf s) in process_arp_reply_msg i k hdr
    else ret false in
  (if (ok : bool) then free_skb k else ret tt) ;;;
  ret ok.
End Arp.
