(* ===== verification/Route.v ===== *)
(** * ip.c: the routing table

    The routes of a node, the longest-prefix lookup with its default route, and
    the test for local addresses. *)
From S2P Require Import Prelude Cmonad Utils Skbuff World Topology.
#[local] Open Scope Z_scope.

Definition MASK_IP (ip mask : Z) : res Z :=
  let? m := low_mask mask in Ok (Z.land ip m).
Definition INT_IP_MASKED := MASK_IP.

Definition IP_NET_EQ (ip1 ip2 mask : Z) : res bool :=
  let? a := INT_IP_MASKED ip1 mask in
  let? b := INT_IP_MASKED ip2 mask in
  Ok (a =? b).

Definition rt_table_add_route (n : ptr) (dst mask next : Z) (i : ptr) : W unit :=
  update (A := node) n (λ nd,
    n_set_nw (n_set_rt_table (mk_rt_entry dst mask next i :: n_rt_table (n_nw nd)) (n_nw nd)) nd).

(** The loop of [rt_lookup_lpm]. *)
Fixpoint rt_lookup_from (ip : Z) (routes : list rt_entry)
    (max_entry default_entry : option rt_entry) (max_mask : Z) : res (option rt_entry) :=
  match routes with
  | [] => Ok (match max_entry with Some e => Some e | None => default_entry end)
  | entry :: routes =>
      if rt_dst entry =? 0 then rt_lookup_from ip routes max_entry (Some entry) max_mask
      else
        let? eq := IP_NET_EQ ip (rt_dst entry) (rt_mask entry) in
        if (eq : bool) && (max_mask <? rt_mask entry)
        then rt_lookup_from ip routes (Some entry) default_entry (rt_mask entry)
        else rt_lookup_from ip routes max_entry default_entry max_mask
  end.

Definition rt_lookup_lpm (routes : list rt_entry) (ip : Z) : res (option rt_entry) :=
  rt_lookup_from ip routes None None 0.

(** Any interface of the node has the address, configured or not. *)
Definition is_ip_local (n : ptr) (ip : Z) : W bool :=
  let* nd := load (A := node) n in
  let* r := first_intf (λ it, ret (IF_IP it =? ip)) (n_intfs nd) in
  ret (bool_decide (is_Some r)).
