(* ===== verification/Ip.v ===== *)
(** * ip.c: the IP layer

    Header, checksum, output, routing of outgoing packets and forwarding.  The
    delivery of a packet to the protocols above IP is an argument [deliver] of
    the functions that need it (it is [ip_input], which calls the protocols,
    which call [ip_output] again: the cycle is closed in [Stack]).  The class
    [IpLayer] is what the protocols see of this file. *)
From S2P Require Import Prelude Cmonad Utils Skbuff World Topology Comm Ethernet Arp Route.
#[local] Open Scope Z_scope.

Definition IP_PROTO_ICMP : Z := 1.
Definition IP_PROTO_TCP : Z := 6.
Definition IP_PROTO_UDP : Z := 17.
Definition IP_HDR_SIZE : Z := 20.

(** The fields of [struct ip_hdr]; the first byte holds [hlen] in its low and
    [ver] in its high half. *)
Definition ip_ver_hlen : Z := 0.
Definition ip_total_len : Z := 2.
Definition ip_ttl : Z := 8.
Definition ip_proto : Z := 9.
Definition ip_hcksum : Z := 10.
Definition ip_src_ip : Z := 12.
Definition ip_dst_ip : Z := 16.

(** What the protocols above IP use. *)
Class IpLayer := {
  ip_output : ptr → Z → Z → ptr → W bool;
}.

(** ** Header checksum *)

(** [calc_checksum_16] on the bytes of a buffer. *)
Definition s_calc_checksum (hdr size : Z) : M sk_buff Z := λ s,
  lift (calc_checksum_16 (skb_head s) hdr size) s.

Definition calc_ip_hcksum (hdr : Z) : M sk_buff Z :=
  let* b := s_rd8 (hdr + ip_ver_hlen) in
  s_calc_checksum hdr (Z.land b 0x0f * 4).

Definition fill_ip_hcksum (hdr : Z) : M sk_buff unit :=
  let* c := calc_ip_hcksum hdr in
  s_wr16 (hdr + ip_hcksum) (HTONS c).

Definition check_ip_hcksum (hdr : Z) : M sk_buff bool :=
  let* c := calc_ip_hcksum hdr in
  ret (c =? 0).

Definition init_ip_hdr (hdr : Z) : M sk_buff unit :=
  s_wrn hdr (replicate 20 0) ;;;
  (let* b := s_rd8 (hdr + ip_ver_hlen) in
   s_wr8 (hdr + ip_ver_hlen) (Z.lor (Z.land b 0x0f) (Z.shiftl 4 4))) ;;;
  (let* b := s_rd8 (hdr + ip_ver_hlen) in
   s_wr8 (hdr + ip_ver_hlen) (Z.lor (Z.land b 0xf0) 5)) ;;;
  s_wr8 (hdr + ip_ttl) 64.

Definition set_ip_forward (val : bool) : W unit := modify (set_ip_forward_enable val).

Section Ip.
Context `{Os} (deliver : ptr → W bool).

(** ** Output *)

(** The entry for the next hop, made when there is none. *)
Definition find_or_add_arp_entry (n : ptr) (target_ip : Z) (i : ptr) : W ptr :=
  let* r := arp_table_lookup n target_ip in
  match r with
  | Some e => ret e
  | None =>
      let* e := alloc (init_arp_entry target_ip i) in
      arp_table_entry_add n e ;;;
      ret e
  end.

(** From the choice of the next hop on. *)
Definition ip_transmit (n : ptr) (entry : rt_entry) (dst : Z) (k : ptr) : W bool :=
  let* target_ip :=
    if rt_next entry =? 0 then
      arp_table_lookup n dst ;;;
      ret dst
    else ret (rt_next entry) in
  let* s := load (A := sk_buff) k in
  let* i := nonnull (skb_intf s) in
  let* e := find_or_add_arp_entry n target_ip i in
  let* en := load (A := arp_entry) e in
  if negb (arp_resolved en) then
    update (A := arp_entry) e (λ en, arp_set_pending (k :: arp_pending en) en) ;;;
    send_arp_broadcast_request i target_ip ;;;
    ret true
  else ethernet_output i (arp_mac en) ETH_PROTO_IP k.

Definition ip_postroute (n k : ptr) : W bool :=
  let* s := load (A := sk_buff) k in
  let hdr := skb_data s in
  let* dst := on_skb k (s_rd32 (hdr + ip_dst_ip)) in
  let* nd := load (A := node) n in
  let* r := lift (rt_lookup_lpm (n_rt_table (n_nw nd)) dst) in
  match r with
  | None => print NoMatchingRoute ;;; ret false
  | Some entry =>
      if match skb_intf s with
         | Some i => negb (bool_decide (i = rt_intf entry))
         | None => false
         end
      then ret false
      else
        on_skb k (modify (skb_set_intf (Some (rt_intf entry)))) ;;;
        let* it := load (A := intf) (rt_intf entry) in
        on_skb k (s_wr32 (hdr + ip_src_ip) (IF_IP it)) ;;;
        on_skb k (fill_ip_hcksum hdr) ;;;
        let* local := is_ip_local n dst in
        if (local : bool) then deliver k else ip_transmit n entry dst k
  end.

Definition ip_output_with (n : ptr) (ip proto : Z) (k : ptr) : W bool :=
  on_skb k (
    let* hdr := skb_push IP_HDR_SIZE in
    init_ip_hdr hdr ;;;
    s_wr32 (hdr + ip_dst_ip) ip ;;;
    s_wr8 (hdr + ip_proto) proto ;;;
    let* len := gets skb_len in
    s_wr16 (hdr + ip_total_len) (HTONS len)) ;;;
  ip_postroute n k.

(** ** Forwarding *)

Definition ip_forward (k : ptr) : W bool :=
  let* enabled := gets w_ip_forward_enable in
  if negb enabled then ret false else
  let* s := load (A := sk_buff) k in
  let hdr := skb_data s in
  let* ttl := on_skb k (s_rd8 (hdr + ip_ttl)) in
  if ttl =? 0 then ret false else
  on_skb k (s_wr8 (hdr + ip_ttl) (ttl - 1)) ;;;
  if ttl - 1 =? 0 then ret false else
  let* i := nonnull (skb_intf s) in
  let* it := load (A := intf) i in
  on_skb k (modify (skb_set_intf None)) ;;;
  ip_postroute (if_node it) k.

Definition ip_preroute (k : ptr) : W bool :=
  let* s := load (A := sk_buff) k in
  let hdr := skb_data s in
  let* i := nonnull (skb_intf s) in
  let* it := load (A := intf) i in
  let* dst := on_skb k (s_rd32 (hdr + ip_dst_ip)) in
  let* local := is_ip_local (if_node it) dst in
  if (local : bool) then deliver k else ip_forward k.
End Ip.
