(* ===== verification/Icmp.v ===== *)
(** * icmp.c: echo requests and replies *)
From S2P Require Import Prelude Cmonad Utils Skbuff World Topology Comm Ethernet Arp Route Ip.
#[local] Open Scope Z_scope.

Definition ICMP_ECHO_REQUEST_TYPE : Z := 8.
Definition ICMP_ECHO_REQUEST_CODE : Z := 0.
Definition ICMP_ECHO_REPLY_TYPE : Z := 0.
Definition ICMP_ECHO_REPLY_CODE : Z := 0.
Definition ICMP_HDR_SIZE : Z := 4.

(** The fields of [struct icmp_hdr]. *)
Definition icmp_type : Z := 0.
Definition icmp_code : Z := 1.
Definition icmp_cksum : Z := 2.
Definition icmp_rest : Z := 4.

Definition calc_icmp_cksum (hdr size : Z) : M sk_buff Z := s_calc_checksum hdr size.

Definition fill_icmp_cksum (hdr size : Z) : M sk_buff unit :=
  let* c := calc_icmp_cksum hdr size in
  s_wr16 (hdr + icmp_cksum) (HTONS c).

Definition check_icmp_cksum (hdr size : Z) : M sk_buff bool :=
  let* c := calc_icmp_cksum hdr size in
  ret (c =? 0).

(** The message [icmp_out] builds in a new buffer. *)
Definition build_icmp (type code : Z) (payload : list Z) : M sk_buff unit :=
  skb_reserve BUFF_HEADROOM ;;;
  let* hdr := skb_put (ICMP_HDR_SIZE + Z.of_nat (length payload)) in
  s_wr8 (hdr + icmp_type) type ;;;
  s_wr8 (hdr + icmp_code) code ;;;
  (if Z.of_nat (length payload) =? 0 then ret tt else s_wrn (hdr + icmp_rest) payload) ;;;
  let* len := gets skb_len in
  fill_icmp_cksum hdr len.

Section Icmp.
Context `{IpLayer}.

Definition icmp_out (n : ptr) (ip type code : Z) (payload : list Z) : W bool :=
  let* k := alloc (alloc_skb (BUFF_HEADROOM + BUFF_TAILROOM + ICMP_HDR_SIZE
                              + Z.of_nat (length payload))) in
  on_skb k (build_icmp type code payload) ;;;
  let* result := ip_output n ip IP_PROTO_ICMP k in
  (if (result : bool) then ret tt else free_skb k) ;;;
  ret result.

Definition ping (n : ptr) (ip_addr : list Z) : W bool :=
  icmp_out n (convert_ip_from_str_to_int ip_addr)
    ICMP_ECHO_REQUEST_TYPE ICMP_ECHO_REQUEST_CODE [].

(** The names of the interface a packet came in by and of its node. *)
Definition skb_names (s : sk_buff) : W (list Z * list Z) :=
  let* i := nonnull (skb_intf s) in
  let* it := load (A := intf) i in
  let* nd := load (A := node) (if_node it) in
  ret (n_name nd, if_name it).

Definition icmp_input (k : ptr) : W bool :=
  let* s := load (A := sk_buff) k in
  let hdr := skb_data s in
  if skb_len s <? ICMP_HDR_SIZE then ret false else
  let* type := on_skb k (s_rd8 (hdr + icmp_type)) in
  let* code := on_skb k (s_rd8 (hdr + icmp_code)) in
  (if (type =? ICMP_ECHO_REQUEST_TYPE) && (code =? ICMP_ECHO_REQUEST_CODE) then
     let* (node_name, intf_name) := skb_names s in
     print (ReceivedPing node_name intf_name) ;;;
     let* i := nonnull (skb_intf s) in
     let* it := load (A := intf) i in
     let* ip_hdr := nonnull (skb_ip_hdr s) in
     let* src := on_skb k (s_rd32 (ip_hdr + ip_src_ip)) in
     let* rest := on_skb k (s_rdn (hdr + icmp_rest) (skb_len s - ICMP_HDR_SIZE)) in
     icmp_out (if_node it) src ICMP_ECHO_REPLY_TYPE ICMP_ECHO_REQUEST_CODE rest ;;;
     ret tt
   else if (type =? ICMP_ECHO_REPLY_TYPE) && (code =? ICMP_ECHO_REPLY_CODE) then
     let* (node_name, intf_name) := skb_names s in
     print (ReceivedPong node_name intf_name)
   else ret tt) ;;;
  free_skb k ;;;
  ret true.
End Icmp.
