(* ===== verification/Udp.v ===== *)
(** * udp.c: UDP sockets *)
From S2P Require Import Prelude Cmonad Utils Skbuff World Topology Comm Ethernet Arp Route Ip.
#[local] Open Scope Z_scope.

Definition MAX_UDP_PAYLOAD : Z := 1446.
Definition UDP_HDR_SIZE : Z := 8.

(** The fields of [struct udp_hdr]. *)
Definition udp_src_port : Z := 0.
Definition udp_dst_port : Z := 2.
Definition udp_total_len : Z := 4.

Definition us_set_rx (l : list ptr) (u : udp_sock) : udp_sock :=
  mk_udp_sock (us_bound u) (us_node u) (us_intf u) (us_local_port u) l.
Definition us_set_bound (i : ptr) (port : Z) (u : udp_sock) : udp_sock :=
  mk_udp_sock true (us_node u) (Some i) port (us_rx_skb u).

(** ** Descriptors *)

(** [fd_to_sock[sockfd]] when [is_good_udp_sock(sockfd)]. *)
Definition good_fd (max : nat) (fds : list (option ptr)) (sockfd : Z) : option ptr :=
  if (sockfd <? 0) || (Z.of_nat max <=? sockfd) then None
  else match fds !! Z.to_nat sockfd with
       | Some (Some u) => Some u
       | _ => None
       end.

Definition is_good_udp_sock (sockfd : Z) : W (option ptr) :=
  gets (λ w, good_fd MAX_UDP_SOCKS (w_udp_fds w) sockfd).

(** ** The sockets bound to an interface *)

Fixpoint udp_find_from (port : Z) (socks : list ptr) : W (option ptr) :=
  match socks with
  | [] => ret None
  | u :: socks =>
      let* us := load (A := udp_sock) u in
      if us_local_port us =? port then ret (Some u) else udp_find_from port socks
  end.

(** The manager is the one of the interface [i]. *)
Definition udp_socks_manager_find (i : ptr) (port : Z) : W (option ptr) :=
  let* it := load (A := intf) i in
  udp_find_from port (p_udp_socks (if_nw it)).

(** The first interface of the node, in L3 mode, that has the address. *)
Definition _get_matching_interface (n : ptr) (ip : Z) : W (option ptr) :=
  let* nd := load (A := node) n in
  first_intf (λ it, ret (IS_INTF_L3_MODE it && (ip =? IF_IP it))) (n_intfs nd).

(** ** Input *)

Definition udp_input (k : ptr) : W bool :=
  let* s := load (A := sk_buff) k in
  let hdr := skb_data s in
  let* i := nonnull (skb_intf s) in
  let* dst_port := on_skb k (s_rd16 (hdr + udp_dst_port)) in
  let* sock := udp_socks_manager_find i (NTOHS dst_port) in
  on_skb k (modify (skb_set_udp_hdr (Some hdr))) ;;;
  match sock with
  | None => ret false
  | Some u =>
      on_skb k (skb_pull UDP_HDR_SIZE) ;;;
      update (A := udp_sock) u (λ us, us_set_rx (k :: us_rx_skb us) us) ;;;
      ret true
  end.

(** ** The socket interface *)

Definition udp_socket (n : ptr) : W Z :=
  let* fds := gets w_udp_fds in
  let i := available_slot_from 0 fds in
  if i <? 0 then ret (-1) else
  let* u := alloc (mk_udp_sock false n None 0 []) in
  modify (λ w, set_udp_fds (<[Z.to_nat i := Some u]> (w_udp_fds w)) w) ;;;
  ret i.

Definition udp_close (sockfd : Z) : W Z :=
  let* good := is_good_udp_sock sockfd in
  match good with
  | None => ret (-1)
  | Some u =>
      modify (λ w, set_udp_fds (<[Z.to_nat sockfd := None]> (w_udp_fds w)) w) ;;;
      let* us := load (A := udp_sock) u in
      (if us_bound us then
         let* i := nonnull (us_intf us) in
         update (A := intf) i (λ it,
           if_set_nw (p_set_udp_socks (list_remove u (p_udp_socks (if_nw it))) (if_nw it)) it)
       else ret tt) ;;;
      dealloc (A := udp_sock) u ;;;
      ret 0
  end.

Definition udp_bind (sockfd ip port : Z) : W Z :=
  let* good := is_good_udp_sock sockfd in
  match good with
  | None => ret (-1)
  | Some u =>
      let* us := load (A := udp_sock) u in
      if us_bound us then ret (-1) else
      let* r := _get_matching_interface (us_node us) ip in
      match r with
      | None => ret (-1)
      | Some i =>
          update (A := udp_sock) u (us_set_bound i port) ;;;
          update (A := intf) i (λ it,
            if_set_nw (p_set_udp_socks (u :: p_udp_socks (if_nw it)) (if_nw it)) it) ;;;
          ret 0
      end
  end.

(** What a call to [udp_recvfrom] gives back: its result, the bytes copied to
    the caller's buffer, and the values stored through [ip] and [port]. *)
Record recv_result := mk_recv_result {
  rr_ret : Z;
  rr_bytes : list Z;
  rr_ip : option Z;
  rr_port : option Z;
}.

Definition recv_error : recv_result := mk_recv_result (-1) [] None None.

(** Copying at most [size] bytes of the packet to the caller. *)
Definition s_take (size : Z) : M sk_buff (list Z) :=
  let* s := get in
  let final_size := MIN (skb_len s) size in
  let* bytes := s_rdn (skb_data s) final_size in
  skb_pull final_size ;;;
  ret bytes.

(** [ip] and [port] tell whether the pointers are not NULL. *)
Definition udp_recvfrom (sockfd size : Z) (ip port : bool) : W recv_result :=
  let* good := is_good_udp_sock sockfd in
  match good with
  | None => ret recv_error
  | Some u =>
      let* us := load (A := udp_sock) u in
      if negb (us_bound us) then ret recv_error else
      match last (us_rx_skb us) with
      | None => ret recv_error
      | Some k =>
          let* bytes := on_skb k (s_take size) in
          let* s := load (A := sk_buff) k in
          let* oip :=
            if ip then
              let* ip_hdr := nonnull (skb_ip_hdr s) in
              let* v := on_skb k (s_rd32 (ip_hdr + ip_src_ip)) in ret (Some v)
            else ret None in
          let* oport :=
            if port then
              let* udp_hdr := nonnull (skb_udp_hdr s) in
              let* v := on_skb k (s_rd16 (udp_hdr + udp_src_port)) in ret (Some (NTOHS v))
            else ret None in
          (if skb_len s =? 0 then
             update (A := udp_sock) u (λ us, us_set_rx (list_remove k (us_rx_skb us)) us) ;;;
             free_skb k
           else ret tt) ;;;
          ret (mk_recv_result (Z.of_nat (length bytes)) bytes oip oport)
      end
  end.

(** The datagram [udp_out] builds in a new buffer. *)
Definition build_udp (src_port dst_port : Z) (buff : list Z) : M sk_buff unit :=
  skb_reserve BUFF_HEADROOM ;;;
  let* hdr := skb_put UDP_HDR_SIZE in
  let* p := skb_put (Z.of_nat (length buff)) in
  s_wrn p buff ;;;
  s_wr16 (hdr + udp_src_port) (HTONS src_port) ;;;
  s_wr16 (hdr + udp_dst_port) (HTONS dst_port) ;;;
  let* len := gets skb_len in
  s_wr16 (hdr + udp_total_len) (HTONS len).

Section Udp.
Context `{IpLayer}.

Definition udp_out (u : ptr) (buff : list Z) (ip port : Z) : W bool :=
  let* k := alloc (alloc_skb (BUFF_HEADROOM + BUFF_TAILROOM + UDP_HDR_SIZE
                              + Z.of_nat (length buff))) in
  let* us := load (A := udp_sock) u in
  on_skb k (build_udp (us_local_port us) port buff) ;;;
  on_skb k (modify (skb_set_intf (us_intf us))) ;;;
  let* i := nonnull (us_intf us) in
  let* it := load (A := intf) i in
  ip_output (if_node it) ip IP_PROTO_UDP k.

(** The buffer holds at least the bytes that are sent. *)
Definition udp_sendto (sockfd : Z) (buff : list Z) (ip port : Z) : W Z :=
  let* good := is_good_udp_sock sockfd in
  match good with
  | None => ret (-1)
  | Some u =>
      let* us := load (A := udp_sock) u in
      if negb (us_bound us) then ret (-1) else
      let buff := take (Z.to_nat MAX_UDP_PAYLOAD) buff in
      let* result := udp_out u buff ip port in
      if negb result then ret (-1) else ret (Z.of_nat (length buff))
  end.
End Udp.
