(* ===== verification/Tcp.v ===== *)
(** * tcp.c: passive TCP connections

    Listening sockets, the connections they own, the handlers of the two
    connection states, and the descriptors of sockets and connections. *)
From S2P Require Import Prelude Cmonad Utils Skbuff World Topology Comm Ethernet Arp Route Ip Udp.
#[local] Open Scope Z_scope.

Definition MAX_TCP_PAYLOAD : Z := 1446.
Definition TCP_HDR_SIZE : Z := 20.
Definition TCP_WINDOW_SIZE : Z := 1500.
Definition PSEUDO_IP_HDR_SIZE : Z := 12.

(** The fields of [struct tcp_hdr]; byte 12 holds [hlen] in its high half. *)
Definition tcp_src_port : Z := 0.
Definition tcp_dst_port : Z := 2.
Definition tcp_seq : Z := 4.
Definition tcp_ack : Z := 8.
Definition tcp_hlen : Z := 12.
Definition tcp_flags : Z := 13.
Definition tcp_wnd_sz : Z := 14.
Definition tcp_cksum : Z := 16.

(** The bits of [struct tcp_flags]. *)
Definition FLAG_FIN : Z := 0x01.
Definition FLAG_SYN : Z := 0x02.
Definition FLAG_RST : Z := 0x04.
Definition FLAG_ACK : Z := 0x10.
Definition has_flag (flags f : Z) : bool := negb (Z.land flags f =? 0).

(** ** Checksum *)

(** The pseudo header is written over the 12 bytes before the TCP header and
    these are restored afterwards. *)
Definition calc_tcp_cksum (hdr size src_ip dst_ip : Z) : M sk_buff Z :=
  let pip_hdr := hdr - PSEUDO_IP_HDR_SIZE in
  let* backup := s_rdn pip_hdr PSEUDO_IP_HDR_SIZE in
  s_wr32 pip_hdr src_ip ;;;
  s_wr32 (pip_hdr + 4) dst_ip ;;;
  s_wr8 (pip_hdr + 8) 0 ;;;
  s_wr8 (pip_hdr + 9) IP_PROTO_TCP ;;;
  s_wr16 (pip_hdr + 10) (HTONS size) ;;;
  let* result := s_calc_checksum (hdr - PSEUDO_IP_HDR_SIZE) (size + PSEUDO_IP_HDR_SIZE) in
  s_wrn pip_hdr backup ;;;
  ret result.

Definition fill_tcp_cksum (hdr size src_ip dst_ip : Z) : M sk_buff unit :=
  let* c := calc_tcp_cksum hdr size src_ip dst_ip in
  s_wr16 (hdr + tcp_cksum) (HTONS c).

Definition check_tcp_cksum (hdr size src_ip dst_ip : Z) : M sk_buff bool :=
  let* c := calc_tcp_cksum hdr size src_ip dst_ip in
  ret (c =? 0).

(** ** Descriptors and lookups *)

Definition is_good_tcp_sock (sockfd : Z) : W (option ptr) :=
  gets (λ w, good_fd MAX_TCP_SOCKS (w_tcp_fds w) sockfd).
Definition is_good_tcp_connection_sock (sockfd : Z) : W (option ptr) :=
  gets (λ w, good_fd MAX_TCP_CONN_SOCKS (w_conn_fds w) sockfd).

Fixpoint tcp_find_from (port : Z) (socks : list ptr) : W (option ptr) :=
  match socks with
  | [] => ret None
  | t :: socks =>
      let* ts := load (A := tcp_sock) t in
      if ts_local_port ts =? port then ret (Some t) else tcp_find_from port socks
  end.

Definition tcp_socks_manager_find (i : ptr) (port : Z) : W (option ptr) :=
  let* it := load (A := intf) i in
  tcp_find_from port (p_tcp_socks (if_nw it)).

Fixpoint conn_find_from (ip port : Z) (conns : list ptr) : W (option ptr) :=
  match conns with
  | [] => ret None
  | c :: conns =>
      let* cn := load (A := tcp_connection_sock) c in
      if (tc_remote_port cn =? port) && (tc_remote_ip cn =? ip) then ret (Some c)
      else conn_find_from ip port conns
  end.

Definition find_matching_connection (t : ptr) (remote_ip remote_port : Z) : W (option ptr) :=
  let* ts := load (A := tcp_sock) t in
  conn_find_from remote_ip remote_port (ts_conns ts).

(** Assignments to the fields of a connection and of a socket. *)
Definition tc_set_state (h : tcp_handle) (c : tcp_connection_sock) : tcp_connection_sock :=
  mk_tcp_connection_sock (tc_parent c) h (tc_remote_ip c) (tc_remote_port c) (tc_snt_una c)
    (tc_snt_nxt c) (tc_snt_wnd c) (tc_snt_iss c) (tc_rcv_nxt c) (tc_rcv_wnd c) (tc_rcv_irs c)
    (tc_rx_skb c) (tc_tx_skb c).
Definition tc_set_snt_nxt (v : Z) (c : tcp_connection_sock) : tcp_connection_sock :=
  mk_tcp_connection_sock (tc_parent c) (tc_state c) (tc_remote_ip c) (tc_remote_port c)
    (tc_snt_una c) v (tc_snt_wnd c) (tc_snt_iss c) (tc_rcv_nxt c) (tc_rcv_wnd c) (tc_rcv_irs c)
    (tc_rx_skb c) (tc_tx_skb c).
Definition tc_set_rcv_nxt (v : Z) (c : tcp_connection_sock) : tcp_connection_sock :=
  mk_tcp_connection_sock (tc_parent c) (tc_state c) (tc_remote_ip c) (tc_remote_port c)
    (tc_snt_una c) (tc_snt_nxt c) (tc_snt_wnd c) (tc_snt_iss c) v (tc_rcv_wnd c) (tc_rcv_irs c)
    (tc_rx_skb c) (tc_tx_skb c).
Definition tc_set_rx (l : list ptr) (c : tcp_connection_sock) : tcp_connection_sock :=
  mk_tcp_connection_sock (tc_parent c) (tc_state c) (tc_remote_ip c) (tc_remote_port c)
    (tc_snt_una c) (tc_snt_nxt c) (tc_snt_wnd c) (tc_snt_iss c) (tc_rcv_nxt c) (tc_rcv_wnd c)
    (tc_rcv_irs c) l (tc_tx_skb c).

Definition ts_set_conns (l closed : list ptr) (t : tcp_sock) : tcp_sock :=
  mk_tcp_sock (ts_bound t) (ts_listening t) (ts_node t) (ts_local_ip t) (ts_intf t)
    (ts_local_port t) l closed.
Definition ts_set_bound (i : ptr) (ip port : Z) (t : tcp_sock) : tcp_sock :=
  mk_tcp_sock true (ts_listening t) (ts_node t) ip (Some i) port (ts_conns t)
    (ts_closed_conns t).
Definition ts_set_listening (t : tcp_sock) : tcp_sock :=
  mk_tcp_sock (ts_bound t) true (ts_node t) (ts_local_ip t) (ts_intf t)
    (ts_local_port t) (ts_conns t) (ts_closed_conns t).

Section Tcp.
Context `{IpLayer}.

(** ** Output *)

(** The header fields that are set before the window is checked... *)
Definition build_tcp_ports (src_port dst_port : Z) : M sk_buff Z :=
  skb_reserve BUFF_HEADROOM ;;;
  let* hdr := skb_put TCP_HDR_SIZE in
  s_wr16 (hdr + tcp_src_port) (HTONS src_port) ;;;
  s_wr16 (hdr + tcp_dst_port) (HTONS dst_port) ;;;
  ret hdr.

(** ... and after it, with the payload. *)
Definition build_tcp_rest (hdr : Z) (cn : tcp_connection_sock) (flags : Z) (buff : list Z)
    : M sk_buff unit :=
  s_wr32 (hdr + tcp_seq) (HTONL (tc_snt_nxt cn)) ;;;
  s_wr32 (hdr + tcp_ack) (HTONL (tc_rcv_nxt cn)) ;;;
  s_wr8 (hdr + tcp_flags) flags ;;;
  s_wr16 (hdr + tcp_wnd_sz) (HTONS (tc_rcv_wnd cn)) ;;;
  (let* b := s_rd8 (hdr + tcp_hlen) in
   s_wr8 (hdr + tcp_hlen) (Z.lor (Z.land b 0x0f) (Z.shiftl 5 4))) ;;;
  if Z.of_nat (length buff) =? 0 then ret tt else
    let* p := skb_put (Z.of_nat (length buff)) in
    s_wrn p buff.

(** The window test returns [-1] from a function of type [bool]. *)
Definition tcp_out (c : ptr) (buff : list Z) (flags : Z) : W bool :=
  let size := Z.of_nat (length buff) in
  let* k := alloc (alloc_skb (BUFF_HEADROOM + BUFF_TAILROOM + TCP_HDR_SIZE + size)) in
  let* cn := load (A := tcp_connection_sock) c in
  let* ts := load (A := tcp_sock) (tc_parent cn) in
  on_skb k (modify (skb_set_intf (ts_intf ts))) ;;;
  let* hdr := on_skb k (build_tcp_ports (ts_local_port ts) (tc_remote_port cn)) in
  if wrap32 (tc_snt_una cn + tc_snt_wnd cn) <? tc_snt_nxt cn + size then ret true else
  on_skb k (build_tcp_rest hdr cn flags buff) ;;;
  (if size =? 0 then ret tt else
   update (A := tcp_connection_sock) c (λ cn, tc_set_snt_nxt (wrap32 (tc_snt_nxt cn + size)) cn)) ;;;
  (if has_flag flags FLAG_SYN then
     update (A := tcp_connection_sock) c (λ cn, tc_set_snt_nxt (wrap32 (tc_snt_nxt cn + 1)) cn)
   else ret tt) ;;;
  (if has_flag flags FLAG_FIN then
     update (A := tcp_connection_sock) c (λ cn, tc_set_snt_nxt (wrap32 (tc_snt_nxt cn + 1)) cn)
   else ret tt) ;;;
  on_skb k (let* len := gets skb_len in
            fill_tcp_cksum hdr len (ts_local_ip ts) (tc_remote_ip cn)) ;;;
  let* i := nonnull (ts_intf ts) in
  let* it := load (A := intf) i in
  ip_output (if_node it) (tc_remote_ip cn) IP_PROTO_TCP k.

(** ** Connection states *)

Definition close_connection (c : ptr) : W bool :=
  print ClosingConnection ;;;
  tcp_out c [] (Z.lor FLAG_ACK FLAG_RST) ;;;
  let* cn := load (A := tcp_connection_sock) c in
  update (A := tcp_sock) (tc_parent cn) (λ ts,
    ts_set_conns (list_remove c (ts_conns ts)) (c :: list_remove c (ts_closed_conns ts)) ts) ;;;
  ret true.

Definition handle_estab (c k : ptr) : W bool :=
  let* s := load (A := sk_buff) k in
  let hdr := skb_data s in
  let* cn := load (A := tcp_connection_sock) c in
  let* seq := on_skb k (s_rd32 (hdr + tcp_seq)) in
  if NTOHL seq =? tc_rcv_nxt cn then
    let* flags := on_skb k (s_rd8 (hdr + tcp_flags)) in
    if has_flag flags FLAG_RST then close_connection c
    else if has_flag flags FLAG_FIN then
      update c (tc_set_rcv_nxt (wrap32 (tc_rcv_nxt cn + 1))) ;;;
      close_connection c
    else
      on_skb k (skb_pull TCP_HDR_SIZE) ;;;
      let* s := load (A := sk_buff) k in
      update c (tc_set_rcv_nxt (wrap32 (tc_rcv_nxt cn + skb_len s))) ;;;
      update c (λ cn, tc_set_rx (k :: tc_rx_skb cn) cn) ;;;
      ret true
  else ret false.

Definition handle_syn_sent (c k : ptr) : W bool :=
  let* s := load (A := sk_buff) k in
  let hdr := skb_data s in
  let* flags := on_skb k (s_rd8 (hdr + tcp_flags)) in
  let* cn := load (A := tcp_connection_sock) c in
  let* seq := on_skb k (s_rd32 (hdr + tcp_seq)) in
  (if has_flag flags FLAG_ACK && negb (has_flag flags FLAG_SYN)
      && (NTOHL seq =? tc_rcv_nxt cn)
   then update c (tc_set_state handle_estab_state)
   else ret tt) ;;;
  ret false.

(** The connection object for a SYN. *)
Definition new_connection (t : ptr) (src_ip src_port wnd_sz seq : Z) : tcp_connection_sock :=
  mk_tcp_connection_sock t handle_syn_sent_state src_ip (NTOHS src_port)
    0 0 (NTOHS wnd_sz) 0 (wrap32 (NTOHL seq + 1)) TCP_WINDOW_SIZE seq [] [].

Definition handle_new_connection (t k : ptr) : W bool :=
  print GotNewConnection ;;;
  let* s := load (A := sk_buff) k in
  let hdr := skb_data s in
  let* ip_hdr := nonnull (skb_ip_hdr s) in
  let* src_ip := on_skb k (s_rd32 (ip_hdr + ip_src_ip)) in
  let* src_port := on_skb k (s_rd16 (hdr + tcp_src_port)) in
  let* wnd_sz := on_skb k (s_rd16 (hdr + tcp_wnd_sz)) in
  let* seq := on_skb k (s_rd32 (hdr + tcp_seq)) in
  let* c := alloc (new_connection t src_ip src_port wnd_sz seq) in
  update (A := tcp_sock) t (λ ts, ts_set_conns (c :: ts_conns ts) (ts_closed_conns ts) ts) ;;;
  tcp_out c [] (Z.lor FLAG_SYN FLAG_ACK) ;;;
  ret false.

Definition tcp_input (k : ptr) : W bool :=
  let* s := load (A := sk_buff) k in
  let hdr := skb_data s in
  let* i := nonnull (skb_intf s) in
  let* dst_port := on_skb k (s_rd16 (hdr + tcp_dst_port)) in
  let* sock := tcp_socks_manager_find i (NTOHS dst_port) in
  match sock with
  | None => ret false
  | Some t =>
      let* ip_hdr := nonnull (skb_ip_hdr s) in
      let* src_ip := on_skb k (s_rd32 (ip_hdr + ip_src_ip)) in
      let* src_port := on_skb k (s_rd16 (hdr + tcp_src_port)) in
      let* conn := find_matching_connection t src_ip (NTOHS src_port) in
      match conn with
      | Some c =>
          let* cn := load (A := tcp_connection_sock) c in
          match tc_state cn with
          | handle_estab_state => handle_estab c k
          | handle_syn_sent_state => handle_syn_sent c k
          end
      | None =>
          let* ts := load (A := tcp_sock) t in
          let* flags := on_skb k (s_rd8 (hdr + tcp_flags)) in
          if ts_listening ts && has_flag flags FLAG_SYN && negb (has_flag flags FLAG_ACK)
          then handle_new_connection t k
          else ret false
      end
  end.

(** ** The socket interface *)

Definition tcp_socket (n : ptr) : W Z :=
  let* fds := gets w_tcp_fds in
  let i := available_slot_from 0 fds in
  if i <? 0 then ret (-1) else
  let* t := alloc (mk_tcp_sock false false n 0 None 0 [] []) in
  modify (λ w, set_tcp_fds (<[Z.to_nat i := Some t]> (w_tcp_fds w)) w) ;;;
  ret i.

Definition tcp_close (sockfd : Z) : W Z :=
  let* good := is_good_tcp_sock sockfd in
  match good with
  | None => ret (-1)
  | Some t =>
      modify (λ w, set_tcp_fds (<[Z.to_nat sockfd := None]> (w_tcp_fds w)) w) ;;;
      let* ts := load (A := tcp_sock) t in
      (if ts_bound ts then
         let* i := nonnull (ts_intf ts) in
         update (A := intf) i (λ it,
           if_set_nw (p_set_tcp_socks (list_remove t (p_tcp_socks (if_nw it))) (if_nw it)) it)
       else ret tt) ;;;
      dealloc (A := tcp_sock) t ;;;
      ret 0
  end.

Definition tcp_bind (sockfd ip port : Z) : W Z :=
  let* good := is_good_tcp_sock sockfd in
  match good with
  | None => ret (-1)
  | Some t =>
      let* ts := load (A := tcp_sock) t in
      if ts_bound ts then ret (-1) else
      let* r := _get_matching_interface (ts_node ts) ip in
      match r with
      | None => ret (-1)
      | Some i =>
          update (A := tcp_sock) t (ts_set_bound i ip port) ;;;
          update (A := intf) i (λ it,
            if_set_nw (p_set_tcp_socks (t :: p_tcp_socks (if_nw it)) (if_nw it)) it) ;;;
          ret 0
      end
  end.

Definition tcp_listen (sockfd : Z) : W Z :=
  let* good := is_good_tcp_sock sockfd in
  match good with
  | None => ret (-1)
  | Some t =>
      let* ts := load (A := tcp_sock) t in
      if negb (ts_bound ts) then ret (-1) else
      update t ts_set_listening ;;;
      ret 0
  end.

(** The result, and the address and port stored through the pointers. *)
Definition accept_result : Type := Z * option (Z * Z).

Fixpoint accept_from (conns : list ptr) : W accept_result :=
  match conns with
  | [] => ret (-1, None)
  | c :: conns =>
      let* cn := load (A := tcp_connection_sock) c in
      if bool_decide (tc_state cn = handle_estab_state) then
        let* fds := gets w_conn_fds in
        let i := available_slot_from 0 fds in
        if i <? 0 then ret (-1, None) else
        modify (λ w, set_conn_fds (<[Z.to_nat i := Some c]> (w_conn_fds w)) w) ;;;
        ret (i, Some (tc_remote_ip cn, tc_remote_port cn))
      else accept_from conns
  end.

Definition tcp_accept (sockfd : Z) : W accept_result :=
  let* good := is_good_tcp_sock sockfd in
  match good with
  | None => ret (-1, None)
  | Some t =>
      let* ts := load (A := tcp_sock) t in
      if negb (ts_listening ts) then ret (-1, None) else accept_from (ts_conns ts)
  end.

(** [fd_conn_to_sock[connfd]] when it is an established connection. *)
Definition estab_connection (connfd : Z) : W (option ptr) :=
  let* good := is_good_tcp_connection_sock connfd in
  match good with
  | None => ret None
  | Some c =>
      let* cn := load (A := tcp_connection_sock) c in
      ret (if bool_decide (tc_state cn = handle_estab_state) then Some c else None)
  end.

(** The result and the bytes copied to the caller's buffer. *)
Definition tcp_recv (connfd size : Z) : W (Z * list Z) :=
  let* conn := estab_connection connfd in
  match conn with
  | None => ret (-1, [])
  | Some c =>
      let* cn := load (A := tcp_connection_sock) c in
      match last (tc_rx_skb cn) with
      | None => ret (-1, [])
      | Some k =>
          let* bytes := on_skb k (s_take size) in
          let* s := load (A := sk_buff) k in
          (if skb_len s =? 0 then
             update c (λ cn, tc_set_rx (list_remove k (tc_rx_skb cn)) cn) ;;;
             free_skb k
           else ret tt) ;;;
          ret (Z.of_nat (length bytes), bytes)
      end
  end.

Definition tcp_send (connfd : Z) (buff : list Z) : W Z :=
  let* conn := estab_connection connfd in
  match conn with
  | None => ret (-1)
  | Some c =>
      let buff := take (Z.to_nat MAX_TCP_PAYLOAD) buff in
      let* result := tcp_out c buff FLAG_ACK in
      if negb result then ret (-1) else ret (Z.of_nat (length buff))
  end.
End Tcp.
