(* ===== verification/Stack.v ===== *)
(** * The protocol stack: ip_input, ethernet_input, switch.c, pkt_receive and the receiving thread

    [ip_input] dispatches to ICMP, TCP and UDP, which send packets through
    [ip_output], which delivers a packet for a local address with [ip_input]
    again.  The model follows this recursion with fuel; two levels are enough,
    because the packets that are sent carry no [ip_hdr] pointer and a packet
    without one makes the protocols send nothing ([StackSafe]). *)
From S2P Require Import Prelude Cmonad Utils Skbuff World Topology Comm Ethernet Arp Route Ip.
From S2P Require Import Icmp Udp Tcp.
#[local] Open Scope Z_scope.

(** ** switch.c *)

Definition switch_input (k : ptr) : W bool := ret false.

Section Stack.
Context `{Os}.

(** ** ip_input *)

Definition ip_input_body `{L : IpLayer} (k : ptr) : W bool :=
  let* s := load (A := sk_buff) k in
  let hdr := skb_data s in
  let* proto := on_skb k (s_rd8 (hdr + ip_proto)) in
  if proto =? IP_PROTO_ICMP then
    on_skb k (skb_pull IP_HDR_SIZE) ;;;
    icmp_input k
  else if proto =? IP_PROTO_TCP then
    on_skb k (skb_pull IP_HDR_SIZE ;;; modify (λ s, skb_set_tcp_hdr (Some (skb_data s)) s)) ;;;
    tcp_input k
  else if proto =? IP_PROTO_UDP then
    on_skb k (skb_pull IP_HDR_SIZE ;;; modify (λ s, skb_set_udp_hdr (Some (skb_data s)) s)) ;;;
    udp_input k
  else
    print UnknownIpProtocol ;;;
    ret false.

Fixpoint ip_input_fuel (fuel : nat) (k : ptr) : W bool :=
  match fuel with
  | O => raise OutOfFuel
  | S fuel =>
      ip_input_body (L := {| ip_output := ip_output_with (ip_input_fuel fuel) |}) k
  end.

Definition STACK_FUEL : nat := 2.
Definition ip_input : ptr → W bool := ip_input_fuel STACK_FUEL.

(** The IP layer the protocols run on. *)
#[export] Instance ip_layer : IpLayer := { ip_output := ip_output_with ip_input }.

(** ** ethernet_input *)

Definition ethernet_input (k : ptr) : W bool :=
  let* s := load (A := sk_buff) k in
  let hdr := skb_data s in
  on_skb k (modify (skb_set_ethernet_hdr (Some hdr))) ;;;
  if skb_len s <? ETH_HDR_SIZE then ret false else
  let* i := nonnull (skb_intf s) in
  let* ok := ethernet_input_qualify i k hdr in
  if negb ok then ret false else
  let* type := on_skb k (s_rd16 (hdr + eth_type)) in
  if type =? HTONS ETH_PROTO_ARP then
    on_skb k (skb_pull ETH_HDR_SIZE) ;;;
    arp_input k
  else if type =? HTONS ETH_PROTO_IP then
    on_skb k (skb_pull ETH_HDR_SIZE ;;; modify (λ s, skb_set_ip_hdr (Some (skb_data s)) s)) ;;;
    ip_preroute ip_input k
  else ret false.

(** ** comm.c: reception *)

Definition pkt_receive (k : ptr) : W bool :=
  let* s := load (A := sk_buff) k in
  let* cb := gets w_receive_callback in
  let* i := nonnull (skb_intf s) in
  (if (cb : bool) then
     let* bytes := skb_bytes k in emit (EReceiveCallback bytes i)
   else ret tt) ;;;
  let* it := load (A := intf) i in
  if IS_INTF_L3_MODE it then ethernet_input k else switch_input k.

(** What the receiving system call does with the buffer it is given: an error
    or the end of file, or the bytes of a frame, cut to the room there is. *)
Inductive received :=
  | RecvError (n : Z)
  | RecvFrame (bytes : list Z).

Definition received_bytes (size : Z) (r : received) : list Z :=
  match r with
  | RecvError _ => []
  | RecvFrame bytes => take (Z.to_nat size) bytes
  end.
Definition received_count (size : Z) (r : received) : Z :=
  match r with
  | RecvError n => n
  | RecvFrame _ => Z.of_nat (length (received_bytes size r))
  end.

(** The operations [recv_bytes] of the two kinds of [comm]: what they return and
    the bytes they leave at the start of the buffer. *)
Definition udp_recv_bytes (i : ptr) (size : Z) (r : received) : W (Z * list Z) :=
  (if 0 <=? received_count size r then
     let* it := load (A := intf) i in
     let* nd := load (A := node) (if_node it) in
     print (PacketReceived (n_name nd) (if_name it) (received_bytes size r))
   else ret tt) ;;;
  ret (received_count size r, received_bytes size r).

Definition tuntap_recv_bytes (i : ptr) (size : Z) (r : received) : W (Z * list Z) :=
  ret (received_count size r, received_bytes size r).

(** The body of the loop of [recv_task] for one ready descriptor. *)
Definition recv_one (fd : Z) (r : received) : W unit :=
  let* comm := gets (λ w, w_fd_to_comm w !! fd) in
  match comm with
  | None => ret tt
  | Some i =>
      let* k := alloc (alloc_skb RECV_BUFFER_SIZE) in
      on_skb k (skb_reserve RECV_RESERVED_HEAD_ROOM ;;; modify (skb_set_intf (Some i))) ;;;
      let* s := load (A := sk_buff) k in
      let* it := load (A := intf) i in
      let* ops := nonnull (comm_op (if_comm it)) in
      let* (nrecv, bytes) := match ops with
                              | udp_comm_ops => udp_recv_bytes i (skb_tailroom s) r
                              | tuntap_comm_ops => tuntap_recv_bytes i (skb_tailroom s) r
                              end in
      if nrecv <=? 0 then
        print (ErrorReceiving nrecv) ;;;
        free_skb k
      else
        on_skb k (s_wrn (skb_data s) bytes ;;; skb_put nrecv) ;;;
        let* ok := pkt_receive k in
        if (ok : bool) then ret tt else
        print PacketDropped ;;;
        free_skb k
  end.

(** The descriptors that [epoll_wait] reports, and what reading each gives. *)
Fixpoint recv_events (events : list (Z * received)) : W unit :=
  match events with
  | [] => ret tt
  | (fd, r) :: events => recv_one fd r ;;; recv_events events
  end.

(** One round of the loop: [epoll_wait] fails, or reports some descriptors. *)
Inductive round :=
  | EpollFails
  | EpollEvents (events : list (Z * received)).

Definition recv_round (r : round) : W unit :=
  match r with
  | EpollFails => print EpollWaitError
  | EpollEvents events => recv_events events
  end.

Fixpoint recv_rounds (rounds : list round) : W unit :=
  match rounds with
  | [] => ret tt
  | r :: rounds => recv_round r ;;; recv_rounds rounds
  end.

(** The descriptors that have a [comm] when the thread starts are added to the
    ones that it waits for. *)
Fixpoint register_comms (epollfd : Z) (fds : list Z) : W unit :=
  match fds with
  | [] => ret tt
  | fd :: fds =>
      let* comm := gets (λ w, w_fd_to_comm w !! fd) in
      match comm with
      | Some _ =>
          let* r := sys_epoll_add epollfd fd in
          if r =? -1 then raise ExitFailure else register_comms epollfd fds
      | None => register_comms epollfd fds
      end
  end.

Definition recv_setup : W unit :=
  let* epollfd := sys_epoll_create in
  if epollfd =? -1 then raise ExitFailure else
  register_comms epollfd (seqZ 0 MAX_COMMS).

(** The thread, for the rounds it makes until it finds [want_quit_recv_task] set. *)
Definition recv_task (rounds : list round) : W unit :=
  recv_setup ;;; recv_rounds rounds.
End Stack.
