(* ===== verification/Net.v ===== *)
(** * net.c: network properties of nodes and interfaces *)
From S2P Require Import Prelude Cmonad Utils Skbuff World Topology Route.
#[local] Open Scope Z_scope.

(** [None] when the text is not an address, or is 0.0.0.0. *)
Definition get_raw_ip_addr (ip_addr : list Z) : option Z :=
  let ip_num := convert_ip_from_str_to_int ip_addr in
  if ip_num =? 0 then None else Some ip_num.

Definition node_set_loopback_address (n : ptr) (ip_addr : list Z) : W bool :=
  match get_raw_ip_addr ip_addr with
  | None => ret false
  | Some ip =>
      update (A := node) n (λ nd, n_set_nw (n_set_lb ip (n_nw nd)) nd) ;;;
      ret true
  end.

Definition node_set_intf_ip_addr (n : ptr) (name ip_addr : list Z) (mask : Z) : W bool :=
  let* r := get_node_if_by_name n name in
  match r with
  | None => ret false
  | Some i =>
      let ip := convert_ip_from_str_to_int ip_addr in
      if ip =? 0 then ret false else
      update (A := intf) i (λ it, if_set_nw (p_set_ip ip mask (if_nw it)) it) ;;;
      let* dst := lift (MASK_IP ip mask) in
      rt_table_add_route n dst mask 0 i ;;;
      ret true
  end.

(** Plain [char]s are signed; the product is converted to [uint64_t]. *)
Definition hashcode (name : list Z) : Z :=
  fold_left (λ result c, wrap64 (result * wrap64 (sign8 c * 31))) name 7.

Definition interface_assign_mac_address (i : ptr) : W unit :=
  let* it := load (A := intf) i in
  let* nd := load (A := node) (if_node it) in
  let code := wrap64 (hashcode (n_name nd) * hashcode (if_name it)) in
  update i (λ it, if_set_nw (p_set_mac (le_encode 6 code) (if_nw it)) it).

Definition _get_matching_subnet_interface (n : ptr) (ip : Z) : W (option ptr) :=
  let* nd := load (A := node) n in
  first_intf (λ it,
    if IS_INTF_L3_MODE it then
      let* m := lift (low_mask (p_mask (if_nw it))) in
      ret (Z.land ip m =? Z.land (IF_IP it) m)
    else ret false) (n_intfs nd).

Definition get_matching_subnet_interface (n : ptr) (ip_addr : list Z) : W (option ptr) :=
  _get_matching_subnet_interface n (convert_ip_from_str_to_int ip_addr).

(** The lists of the tables and of the sockets start empty. *)
Definition init_udp_socks_manager : list ptr := [].
Definition init_tcp_socks_manager : list ptr := [].
Definition init_arp_table : list ptr := [].
Definition init_rt_table : list rt_entry := [].
Definition init_mac_table : list mac_table_entry := [].

Definition init_intf_nw_prop : intf_nw_prop :=
  mk_intf_nw_prop init_udp_socks_manager init_tcp_socks_manager [0; 0; 0; 0; 0; 0] false 0 0.

Definition init_node_nw_prop : node_nw_prop :=
  mk_node_nw_prop false 0 init_arp_table init_mac_table init_rt_table.

(** Every entry is unlinked and freed; MAC entries and routes are values of
    their lists, so that unlinking all of them is what freeing them does. *)
Fixpoint free_arp_entries (entries : list ptr) : W unit :=
  match entries with
  | [] => ret tt
  | e :: entries => dealloc (A := arp_entry) e ;;; free_arp_entries entries
  end.

Definition destroy_arp_table (n : ptr) : W unit :=
  let* nd := load (A := node) n in
  free_arp_entries (n_arp_table (n_nw nd)) ;;;
  update n (λ nd, n_set_nw (n_set_arp_table [] (n_nw nd)) nd).

Definition destroy_mac_table (n : ptr) : W unit :=
  update n (λ nd, n_set_nw (n_set_mac_table [] (n_nw nd)) nd).

Definition destroy_rt_table (n : ptr) : W unit :=
  update n (λ nd, n_set_nw (n_set_rt_table [] (n_nw nd)) nd).

Definition destroy_node_nw_prop (n : ptr) : W unit :=
  destroy_arp_table n ;;;
  destroy_mac_table n ;;;
  destroy_rt_table n.
