(* ===== verification/Graph.v ===== *)
(** * graph.c: graphs, nodes, links and interfaces *)
From S2P Require Import Prelude Cmonad Utils Skbuff World Topology Comm Route Net.
#[local] Open Scope Z_scope.

Definition create_new_graph (name : list Z) : W ptr :=
  alloc (mk_graph (strncpy MAX_TOPO_NAME_SIZE name) []).

Definition create_graph_node (g : ptr) (node_name : list Z) : W ptr :=
  let* n := alloc (mk_node (strncpy MAX_NODE_NAME_SIZE node_name)
                           (replicate MAX_INTFS_PER_NODE None) init_node_nw_prop) in
  update (A := graph) g (λ gr, mk_graph (g_name gr) (n :: g_nodes gr)) ;;;
  ret n.

Section Graph.
Context `{Os}.

(** The assertion compares a [size_t] with -1, that is, the result of the
    slot search. *)
Definition init_interface (i : ptr) (name : list Z) (n : ptr) (l : option ptr)
    (ct : comm_type) : W unit :=
  update (A := intf) i (λ it, mk_intf (strncpy MAX_IF_NAME_SIZE name) n l (if_nw it) (if_comm it)) ;;;
  let* nd := load (A := node) n in
  let slot := get_node_intf_available_slot nd in
  assert_ (negb (slot =? -1)) ;;;
  update (A := node) n (λ nd, n_set_intfs (<[Z.to_nat slot := Some i]> (n_intfs nd)) nd) ;;;
  update (A := intf) i (if_set_nw init_intf_nw_prop) ;;;
  interface_assign_mac_address i ;;;
  init_comm i ct ;;;
  ret tt.

(** A zeroed interface; its [node] pointer is set by [init_interface]. *)
Definition calloc_intf (n : ptr) : intf :=
  mk_intf [] n None init_intf_nw_prop (mk_comm CT_NONE 0 0 None).

Definition insert_link_between_two_nodes (node1 node2 : ptr)
    (from_ifname to_ifname : list Z) (cost : Z) : W unit :=
  let* i1 := alloc (calloc_intf node1) in
  let* i2 := alloc (calloc_intf node2) in
  let* l := alloc (mk_link i1 i2 cost) in
  init_interface i1 from_ifname node1 (Some l) CT_UDP ;;;
  init_interface i2 to_ifname node2 (Some l) CT_UDP.

Definition insert_tuntap_interface (n : ptr) (name : list Z) : W unit :=
  let* i := alloc (calloc_intf n) in
  init_interface i name n None CT_TUNTAP.

Definition destroy_interface (i : ptr) : W unit :=
  let* it := load (A := intf) i in
  let ct := comm_kind (if_comm it) in
  destroy_comm i ;;;
  if bool_decide (ct = CT_TUNTAP) then dealloc (A := intf) i else ret tt.

(** [if (node->intfs[i] && node->intfs[i]->link == link) node->intfs[i] = NULL] *)
Definition clear_slot (n l : ptr) (idx : nat) : W unit :=
  let* nd := load (A := node) n in
  match n_intfs nd !! idx with
  | Some (Some i) =>
      let* it := load (A := intf) i in
      if bool_decide (if_link it = Some l)
      then update n (λ nd, n_set_intfs (<[idx := None]> (n_intfs nd)) nd)
      else ret tt
  | _ => ret tt
  end.

Fixpoint clear_slots (n1 n2 l : ptr) (idxs : list nat) : W unit :=
  match idxs with
  | [] => ret tt
  | idx :: idxs => clear_slot n1 l idx ;;; clear_slot n2 l idx ;;; clear_slots n1 n2 l idxs
  end.

(** Freeing a link frees the two interfaces that are part of it. *)
Definition destroy_link (l : ptr) : W unit :=
  let* lk := load (A := link) l in
  let* it1 := load (A := intf) (l_intf1 lk) in
  let* it2 := load (A := intf) (l_intf2 lk) in
  clear_slots (if_node it1) (if_node it2) l (seq 0 MAX_INTFS_PER_NODE) ;;;
  destroy_interface (l_intf1 lk) ;;;
  destroy_interface (l_intf2 lk) ;;;
  dealloc (A := intf) (l_intf1 lk) ;;;
  dealloc (A := intf) (l_intf2 lk) ;;;
  dealloc (A := link) l.

Fixpoint destroy_slots (n : ptr) (idxs : list nat) : W unit :=
  match idxs with
  | [] => ret tt
  | idx :: idxs =>
      let* nd := load (A := node) n in
      match n_intfs nd !! idx with
      | Some (Some i) =>
          let* it := load (A := intf) i in
          match if_link it with
          | Some l => destroy_link l
          | None => destroy_interface i
          end
      | _ => ret tt
      end ;;;
      destroy_slots n idxs
  end.

(** Unlinking the node from the list of its graph. *)
Definition unlink_node (n : ptr) : W unit :=
  modify (λ w, set_graphs ((λ gr, mk_graph (g_name gr) (list_remove n (g_nodes gr)))
                           <$> w_graphs w) w).

Definition destroy_node (n : ptr) : W unit :=
  unlink_node n ;;;
  destroy_slots n (seq 0 MAX_INTFS_PER_NODE) ;;;
  destroy_node_nw_prop n ;;;
  dealloc (A := node) n.

Fixpoint destroy_nodes (nodes : list ptr) : W unit :=
  match nodes with
  | [] => ret tt
  | n :: nodes => destroy_node n ;;; destroy_nodes nodes
  end.

Definition destroy_graph (g : ptr) : W unit :=
  let* gr := load (A := graph) g in
  destroy_nodes (g_nodes gr) ;;;
  dealloc (A := graph) g.
End Graph.
