(* ===== verification/Dump.v ===== *)
(** * The printed views: dump_hex, dump_nw_graph and the tables

    The text that the dump functions write to the standard output, as the list
    of its characters; the functions walk over the graph and its tables and
    change nothing.  [dump_hex] prints what it is given in a form from which it
    can be read back. *)
From S2P Require Import Prelude Cmonad Utils Skbuff World Topology Net.
From stdpp Require Import strings.
#[local] Open Scope Z_scope.

(** ** Conversions of printf *)

Definition hex_digit (d : Z) : Z := if d <? 10 then 48 + d else 87 + d.
(** [%02x] of a byte, [%hu], [%u] and [%lu]. *)
Definition print_02x (b : Z) : list Z := [hex_digit (b / 16); hex_digit (b mod 16)].
Definition print_hu (v : Z) : list Z := print_u (wrap16 v).
Definition print_uint (v : Z) : list Z := print_u (wrap32 v).
Definition print_lu (v : Z) : list Z := print_u_digits 20 (wrap64 v) [].

Definition newline : list Z := [10].
Definition tab : list Z := [9].

(** ** utils.c: dump_hex *)

Definition hex_cell (b : Z) : list Z := print_02x b ++ cstr " ".
Definition dump_row (row : list Z) : list Z :=
  flat_map hex_cell row ++ cstr "| " ++ row ++ newline.

Definition dump_hex (bytes : list Z) : list Z :=
  let size := length bytes in
  let rest := drop (size / 16 * 16) bytes in
  flat_map (λ i, dump_row (take 16 (drop (i * 16) bytes))) (seq 0 (size / 16)) ++
  flat_map hex_cell rest ++
  (if (size mod 16 =? 0)%nat then [] else flat_map (λ _, cstr "   ") (seq 0 (16 - size mod 16))) ++
  cstr "| " ++ rest.

(** ** The tables *)

(** Printing one thing after the other. *)
Definition then_print (m1 m2 : W (list Z)) : W (list Z) :=
  let* t1 := m1 in let* t2 := m2 in ret (t1 ++ t2).
#[local] Infix "+>" := then_print (at level 60, right associativity).
Definition puts (t : list Z) : W (list Z) := ret t.

(** The sequence of the texts of the elements of a list. *)
Fixpoint print_each {A} (f : A → W (list Z)) (l : list A) : W (list Z) :=
  match l with
  | [] => puts []
  | x :: l => f x +> print_each f l
  end.

Definition print_mac (mac : list Z) : list Z :=
  match mac with
  | [] => []
  | b :: mac => print_02x b ++ flat_map (λ b, cstr ":" ++ print_02x b) mac
  end.

Definition dump_udp_socks_manager (socks : list ptr) : W (list Z) :=
  puts (cstr "UDP Sockets: ") +>
  print_each (λ u, let* us := load (A := udp_sock) u in ret (print_hu (us_local_port us) ++ cstr " ")) socks +>
  puts newline.

Definition dump_tcp_socks_manager (socks : list ptr) : W (list Z) :=
  puts (cstr "TCP Sockets: ") +>
  print_each (λ t, let* ts := load (A := tcp_sock) t in ret (print_hu (ts_local_port ts) ++ cstr " ")) socks +>
  puts newline.

(** The pending packets are numbered from 0. *)
Fixpoint dump_pending (npacket : Z) (pkts : list ptr) : W (list Z) :=
  match pkts with
  | [] => puts []
  | k :: pkts =>
      (let* s := load (A := sk_buff) k in
       let* i := nonnull (skb_intf s) in
       let* it := load (A := intf) i in
       ret (tab ++ tab ++ cstr "Pending packet " ++ print_lu npacket ++ cstr " to " ++ if_name it ++ newline)) +>
      dump_pending (npacket + 1) pkts
  end.

Definition dump_arp_table (entries : list ptr) : W (list Z) :=
  puts (cstr "ARP Table" ++ newline) +>
  print_each (λ e,
    let* en := load (A := arp_entry) e in
    let* it := load (A := intf) (arp_intf en) in
    puts (tab ++ cstr "entry ip: " ++ convert_ip_from_int_to_str (arp_ip en) ++ cstr ", mac: " ++
          print_mac (arp_mac en) ++ cstr ", intf: " ++ if_name it ++ newline) +>
    dump_pending 0 (arp_pending en)) entries.

(** The prefix length is a [char]; it is converted to [unsigned int]. *)
Definition dump_rt_table (routes : list rt_entry) : W (list Z) :=
  puts (cstr "RT Table" ++ newline) +>
  print_each (λ entry,
    let* it := load (A := intf) (rt_intf entry) in
    ret (tab ++ cstr "dst: " ++ convert_ip_from_int_to_str (rt_dst entry) ++ cstr "/" ++
         print_uint (rt_mask entry) ++ cstr ", next: " ++ convert_ip_from_int_to_str (rt_next entry) ++
         cstr ", intf: " ++ if_name it ++ newline)) routes.

(** ** graph.c *)

Definition dump_intf_nw_prop (prop : intf_nw_prop) : W (list Z) :=
  puts (cstr "mac: " ++ print_mac (p_mac_addr prop) ++ cstr ", ip: ") +>
  puts (if negb (p_is_ip_addr_config prop) then cstr "Not configured" ++ newline
        else convert_ip_from_int_to_str (p_ip_addr prop) ++ cstr "/" ++ print_uint (p_mask prop) ++ newline) +>
  puts tab +> dump_udp_socks_manager (p_udp_socks prop) +>
  puts tab +> dump_tcp_socks_manager (p_tcp_socks prop).

Definition dump_interface (i : ptr) : W (list Z) :=
  let* it := load (A := intf) i in
  puts (tab ++ cstr "Interface: " ++ if_name it ++ cstr ", ") +>
  (match if_link it with
   | None => puts []
   | Some l =>
       let* r := get_nbr_node i in
       let* n := nonnull r in
       let* nd := load (A := node) n in
       let* lk := load (A := link) l in
       ret (cstr " nbr: " ++ n_name nd ++ cstr ", cost: " ++ print_uint (l_cost lk) ++ cstr ", ")
   end) +>
  dump_intf_nw_prop (if_nw it).

Definition dump_node (n : ptr) : W (list Z) :=
  let* nd := load (A := node) n in
  puts (cstr "Node name: " ++ n_name nd) +>
  puts (if n_is_lb_addr_config (n_nw nd)
        then cstr ", loopback ip: " ++ convert_ip_from_int_to_str (n_lb_addr (n_nw nd)) else []) +>
  puts newline +>
  print_each (λ slot, match slot with Some i => dump_interface i | None => puts [] end) (n_intfs nd) +>
  dump_arp_table (n_arp_table (n_nw nd)) +>
  dump_rt_table (n_rt_table (n_nw nd)).

Definition dump_nw_graph (g : ptr) : W (list Z) :=
  let* gr := load (A := graph) g in
  puts (cstr "Graph name: " ++ g_name gr ++ newline) +>
  print_each dump_node (g_nodes gr).
