(* ===== verification/Scenario.v ===== *)
(** * A concrete operating system

    The system calls under which the concrete states of the witnesses and the
    tests of the program are executed. *)
From S2P Require Import Prelude World.
#[local] Open Scope Z_scope.

(** Descriptors are numbered from 3, and every call succeeds. *)
Definition count_fds (h : list event) : Z :=
  fold_right (λ e n, match e with ESocket _ | EOpenTun _ => n + 1 | _ => n end) 0 h.

#[export] Instance test_os : Os := {
  os_socket h := 3 + count_fds h;
  os_bind _ _ _ := 0;
  os_open_tun h := 3 + count_fds h;
  os_ioctl_tun _ _ _ := 0;
  os_sendto _ _ _ bytes := Z.of_nat (length bytes);
  os_write _ _ bytes := Z.of_nat (length bytes);
  os_epoll_create h := 3 + count_fds h;
  os_epoll_add _ _ _ := 0;
}.
