(* ===== verification/Invariant.v ===== *)
(** * The global invariant

    [wf] says that the pointers of the program's structures lead to live
    objects, that descriptors and tables agree with the objects they name, and
    that every buffer waiting in a queue (the packets pending on an ARP entry,
    the receive queues of sockets and connections) is live, well formed and in
    that queue only.  A buffer in no queue is [owned] by the code that holds
    its pointer.  [evolves] is what the processing of a packet may change.

    The parts of [wf] are predicates on the fields of the state they depend on,
    so that a change of another field leaves them untouched by conversion. *)
From S2P Require Import Prelude Cmonad Utils Skbuff World Topology Comm.
#[local] Open Scope Z_scope.

(** ** Queues *)

Inductive qid := QArp (e : ptr) | QUdp (u : ptr) | QConn (c : ptr).

#[export] Instance qid_eq_dec : EqDecision qid.
Proof. solve_decision. Defined.

Definition queue (arps : gmap ptr arp_entry) (udps : gmap ptr udp_sock)
    (conns : gmap ptr tcp_connection_sock) (q : qid) : list ptr :=
  match q with
  | QArp e => default [] (arp_pending <$> arps !! e)
  | QUdp u => default [] (us_rx_skb <$> udps !! u)
  | QConn c => default [] (tc_rx_skb <$> conns !! c)
  end.

Definition queue_of (w : world) : qid → list ptr := queue (w_arps w) (w_udps w) (w_conns w).

Definition queued (w : world) (k : ptr) : Prop := ∃ q, k ∈ queue_of w q.

(** A packet with the room that framing and the IP header need. *)
Definition sendable (s : sk_buff) : Prop := 14 <= skb_data s ∧ skb_data s + 60 <= skb_end s.

(** An optional header pointer with [n] bytes behind it. *)
Definition hdr_in (s : sk_buff) (n : Z) (h : option Z) : Prop :=
  ∀ o, h = Some o → 0 <= o ∧ o + n <= Z.of_nat (length (skb_head s)).

(** What holds of a buffer in each kind of queue. *)
Definition queued_ok (intfs : gmap ptr intf) (q : qid) (s : sk_buff) : Prop :=
  skb_wf s ∧
  match q with
  | QArp _ => sendable s ∧ ∃ i, skb_intf s = Some i ∧ is_Some (intfs !! i)
  | QUdp _ => hdr_in s 20 (skb_ip_hdr s) ∧ hdr_in s 8 (skb_udp_hdr s) ∧ is_Some (skb_udp_hdr s)
  | QConn _ => True
  end.

Record qs_wf (intfs : gmap ptr intf) (skbs : gmap ptr sk_buff) (Q : qid → list ptr) : Prop := {
  q_nodup q : NoDup (Q q);
  q_disj q1 q2 k : k ∈ Q q1 → k ∈ Q q2 → q1 = q2;
  q_ok q k : k ∈ Q q → ∃ s, skbs !! k = Some s ∧ queued_ok intfs q s;
}.

(** ** Topology, tables and sockets *)

(** The part of a node that does not change while packets are processed. *)
Definition n_static (nd : node) : list (option ptr) * list rt_entry :=
  (n_intfs nd, n_rt_table (n_nw nd)).
Definition topo (w : world) : gmap ptr (list (option ptr) * list rt_entry) :=
  n_static <$> w_nodes w.
Definition tables (w : world) : gmap ptr (list ptr) :=
  (λ nd, n_arp_table (n_nw nd)) <$> w_nodes w.

Record static_wf (ns : gmap ptr (list (option ptr) * list rt_entry)) (intfs : gmap ptr intf)
    (links : gmap ptr link) (cm : gmap Z ptr) : Prop := {
  st_node_intf n sl rt i :
    ns !! n = Some (sl, rt) → Some i ∈ sl → ∃ it, intfs !! i = Some it ∧ if_node it = n;
  st_node_route n sl rt r :
    ns !! n = Some (sl, rt) → r ∈ rt → is_Some (intfs !! rt_intf r) ∧ 0 <= rt_mask r <= 30;
  st_intf_node i it : intfs !! i = Some it → is_Some (ns !! if_node it);
  st_intf_link i it l :
    intfs !! i = Some it → if_link it = Some l →
    ∃ lk, links !! l = Some lk ∧ is_Some (intfs !! l_intf1 lk) ∧ is_Some (intfs !! l_intf2 lk);
  st_intf_mac i it : intfs !! i = Some it → length (IF_MAC it) = 6%nat ∧ Forall is_u8 (IF_MAC it);
  st_intf_op i it : intfs !! i = Some it → is_Some (comm_op (if_comm it));
  st_comm fd i : cm !! fd = Some i → is_Some (intfs !! i);
}.

Record arp_wf (ts : gmap ptr (list ptr)) (arps : gmap ptr arp_entry) : Prop := {
  aw_table n l e : ts !! n = Some l → e ∈ l → is_Some (arps !! e);
  aw_nodup n l : ts !! n = Some l → NoDup l;
  aw_disj n1 n2 l1 l2 e : ts !! n1 = Some l1 → ts !! n2 = Some l2 → e ∈ l1 → e ∈ l2 → n1 = n2;
  aw_mac e en : arps !! e = Some en → length (arp_mac en) = 6%nat ∧ Forall is_u8 (arp_mac en);
}.

Record udp_wf (ns : gmap ptr (list (option ptr) * list rt_entry)) (intfs : gmap ptr intf)
    (udps : gmap ptr udp_sock) (fds : list (option ptr)) : Prop := {
  uw_socks i it u :
    intfs !! i = Some it → u ∈ p_udp_socks (if_nw it) →
    ∃ us, udps !! u = Some us ∧ us_bound us = true ∧ us_intf us = Some i;
  uw_socks_nodup i it : intfs !! i = Some it → NoDup (p_udp_socks (if_nw it));
  uw_intf u us :
    udps !! u = Some us → us_bound us = true → ∃ i, us_intf us = Some i ∧ is_Some (intfs !! i);
  uw_node u us : udps !! u = Some us → is_Some (ns !! us_node us);
  uw_fd j u : fds !! j = Some (Some u) → is_Some (udps !! u);
  uw_fd_inj j1 j2 u : fds !! j1 = Some (Some u) → fds !! j2 = Some (Some u) → j1 = j2;
  uw_fds : length fds = MAX_UDP_SOCKS;
}.

Record tcp_wf (ns : gmap ptr (list (option ptr) * list rt_entry)) (intfs : gmap ptr intf)
    (tcps : gmap ptr tcp_sock) (conns : gmap ptr tcp_connection_sock)
    (fds cfds : list (option ptr)) : Prop := {
  tw_socks i it t :
    intfs !! i = Some it → t ∈ p_tcp_socks (if_nw it) →
    ∃ ts, tcps !! t = Some ts ∧ ts_bound ts = true ∧ ts_intf ts = Some i;
  tw_socks_nodup i it : intfs !! i = Some it → NoDup (p_tcp_socks (if_nw it));
  tw_intf t ts :
    tcps !! t = Some ts → ts_bound ts = true → ∃ i, ts_intf ts = Some i ∧ is_Some (intfs !! i);
  tw_node t ts : tcps !! t = Some ts → is_Some (ns !! ts_node ts);
  tw_conns t ts c :
    tcps !! t = Some ts → c ∈ ts_conns ts → ∃ cn, conns !! c = Some cn ∧ tc_parent cn = t;
  tw_parent c cn :
    conns !! c = Some cn → ∃ ts, tcps !! tc_parent cn = Some ts ∧ ts_bound ts = true;
  tw_fd j t : fds !! j = Some (Some t) → is_Some (tcps !! t);
  tw_fd_inj j1 j2 t : fds !! j1 = Some (Some t) → fds !! j2 = Some (Some t) → j1 = j2;
  tw_cfd j c : cfds !! j = Some (Some c) → is_Some (conns !! c);
  tw_fds : length fds = MAX_TCP_SOCKS;
  tw_cfds : length cfds = MAX_TCP_CONN_SOCKS;
}.

(** Pointers from [next] on have not been handed out. *)
Definition unused {A} (next : ptr) (m : gmap ptr A) : Prop :=
  ∀ p, (next <= p)%positive → m !! p = None.

Definition fresh_wf (next : ptr) (graphs : gmap ptr graph) (nodes : gmap ptr node)
    (intfs : gmap ptr intf) (links : gmap ptr link) (skbs : gmap ptr sk_buff)
    (arps : gmap ptr arp_entry) (udps : gmap ptr udp_sock) (tcps : gmap ptr tcp_sock)
    (conns : gmap ptr tcp_connection_sock) : Prop :=
  unused next graphs ∧ unused next nodes ∧ unused next intfs ∧ unused next links ∧
  unused next skbs ∧ unused next arps ∧ unused next udps ∧ unused next tcps ∧ unused next conns.

Definition wf (w : world) : Prop :=
  static_wf (topo w) (w_intfs w) (w_links w) (w_fd_to_comm w) ∧
  arp_wf (tables w) (w_arps w) ∧
  udp_wf (topo w) (w_intfs w) (w_udps w) (w_udp_fds w) ∧
  tcp_wf (topo w) (w_intfs w) (w_tcps w) (w_conns w) (w_tcp_fds w) (w_conn_fds w) ∧
  qs_wf (w_intfs w) (w_skbs w) (queue_of w) ∧
  fresh_wf (w_next w) (w_graphs w) (w_nodes w) (w_intfs w) (w_links w) (w_skbs w) (w_arps w)
    (w_udps w) (w_tcps w) (w_conns w).

Lemma wf_static w : wf w → static_wf (topo w) (w_intfs w) (w_links w) (w_fd_to_comm w).
Proof. by intros (? & ?). Qed.
Lemma wf_arp w : wf w → arp_wf (tables w) (w_arps w).
Proof. by intros (? & ? & ?). Qed.
Lemma wf_udp w : wf w → udp_wf (topo w) (w_intfs w) (w_udps w) (w_udp_fds w).
Proof. by intros (? & ? & ? & ?). Qed.
Lemma wf_tcp w :
  wf w → tcp_wf (topo w) (w_intfs w) (w_tcps w) (w_conns w) (w_tcp_fds w) (w_conn_fds w).
Proof. by intros (? & ? & ? & ? & ?). Qed.
Lemma wf_qs w : wf w → qs_wf (w_intfs w) (w_skbs w) (queue_of w).
Proof. by intros (? & ? & ? & ? & ? & ?). Qed.
Lemma wf_fresh w : wf w →
  fresh_wf (w_next w) (w_graphs w) (w_nodes w) (w_intfs w) (w_links w) (w_skbs w) (w_arps w)
    (w_udps w) (w_tcps w) (w_conns w).
Proof. by intros (? & ? & ? & ? & ? & ?). Qed.

#[export] Hint Resolve wf_static wf_arp wf_udp wf_tcp wf_qs wf_fresh : cprog.

(** ** Owned buffers *)

Definition owned (w : world) (k : ptr) (s : sk_buff) : Prop :=
  w_skbs w !! k = Some s ∧ skb_wf s ∧ ¬ queued w k.

Lemma owned_lookup w k s : owned w k s → w_skbs w !! k = Some s.
Proof. by intros (? & _). Qed.
Lemma owned_skb_wf w k s : owned w k s → skb_wf s.
Proof. by intros (_ & ? & _). Qed.

Lemma queued_alloc w k : wf w → queued w k → is_Some (w_skbs w !! k).
Proof. intros H%wf_qs [q Hq]. destruct (q_ok _ _ _ H _ _ Hq) as (s & ? & _). eauto. Qed.

Lemma fresh_not_queued w k : wf w → (w_next w <= k)%positive → ¬ queued w k.
Proof.
  intros Hw Hk Hq. destruct (queued_alloc _ _ Hw Hq) as [s Hs].
  destruct (wf_fresh _ Hw) as (_ & _ & _ & _ & Hf & _). by rewrite Hf in Hs.
Qed.

(** The local addresses of a node, as [is_ip_local] tests them. *)
Definition local_ip (w : world) (n : ptr) (ip : Z) : Prop :=
  ∃ sl rt i it, topo w !! n = Some (sl, rt) ∧ Some i ∈ sl ∧ w_intfs w !! i = Some it ∧ IF_IP it = ip.

(** Every entry of [arps'] is one of [arps] with the same interface, or has an
    interface that exists. *)
Definition arps_from (intfs : gmap ptr intf) (arps arps' : gmap ptr arp_entry) : Prop :=
  ∀ e en', arps' !! e = Some en' →
    (∃ en, arps !! e = Some en ∧ arp_intf en = arp_intf en') ∨ is_Some (intfs !! arp_intf en').

Lemma arps_from_refl intfs arps : arps_from intfs arps arps.
Proof. intros e en He. left. eauto. Qed.
Lemma arps_from_trans intfs arps1 arps2 arps3 :
  arps_from intfs arps1 arps2 → arps_from intfs arps2 arps3 → arps_from intfs arps1 arps3.
Proof.
  intros H1 H2 e en3 [(en2 & He & E2)|?]%H2; [|by right]. destruct (H1 _ _ He) as [(en1 & ? & E1)|Hi]; [left|right].
  - exists en1. split; congruence.
  - by rewrite <- E2.
Qed.
Lemma arps_from_insert intfs arps e en en' :
  arps !! e = Some en → arp_intf en' = arp_intf en → arps_from intfs arps (<[e := en']> arps).
Proof. intros He E e1 en1. rewrite lookup_insert. case_decide; [|left; eauto]. intros [= <-]. subst. left. eauto. Qed.
Lemma arps_from_new intfs arps e en :
  is_Some (intfs !! arp_intf en) → arps_from intfs arps (<[e := en]> arps).
Proof. intros Hi e1 en1. rewrite lookup_insert. case_decide; [|left; eauto]. intros [= <-]. by right. Qed.
#[export] Hint Resolve arps_from_refl arps_from_insert arps_from_new : cprog.

(** ** What processing a packet may change

    [X] is the buffer being processed; every other owned buffer is kept. *)
Record evolves (X : option ptr) (w w' : world) : Prop := {
  ev_intfs : w_intfs w' = w_intfs w;
  ev_topo : topo w' = topo w;
  ev_cm : w_fd_to_comm w' = w_fd_to_comm w;
  ev_links : w_links w' = w_links w;
  ev_graphs : w_graphs w' = w_graphs w;
  ev_arps : arps_from (w_intfs w) (w_arps w) (w_arps w');
  ev_conns c cn :
    w_conns w !! c = Some cn → ∃ cn', w_conns w' !! c = Some cn' ∧ tc_parent cn' = tc_parent cn;
  ev_tcps t : is_Some (w_tcps w !! t) → is_Some (w_tcps w' !! t);
  ev_udps u : is_Some (w_udps w !! u) → is_Some (w_udps w' !! u);
  ev_owned k s : Some k ≠ X → owned w k s → owned w' k s;
}.

Lemma evolves_refl X w : evolves X w w.
Proof. split; eauto with cprog. Qed.

Lemma evolves_trans X w1 w2 w3 : evolves X w1 w2 → evolves X w2 w3 → evolves X w1 w3.
Proof.
  intros [] []. split; [congruence..| | | | |]; eauto.
  { eapply arps_from_trans; [done|by rewrite <- ev_intfs0]. }
  intros c cn (cn1 & H1 & E1)%ev_conns0. destruct (ev_conns1 _ _ H1) as (cn2 & ? & ?).
  exists cn2. split; congruence.
Qed.

Lemma evolves_local X w w' n ip : evolves X w w' → local_ip w' n ip → local_ip w n ip.
Proof. intros He. pose proof (ev_intfs _ _ _ He) as Hi. pose proof (ev_topo _ _ _ He) as Ht. unfold local_ip. by rewrite Hi, Ht. Qed.

#[export] Hint Resolve evolves_refl evolves_trans : cprog.

(** ** Preservation by changes of one heap *)

Lemma wf_trace w t : wf w → wf (set_trace t w).
Proof. done. Qed.

(** Buffers that are in no queue may change in any way. *)
Lemma wf_skbs w m :
  wf w → (∀ k, queued w k → m !! k = w_skbs w !! k) → unused (w_next w) m → wf (set_skbs m w).
Proof.
  intros (Hst & Ha & Hu & Ht & Hq & Hf) Hm Hun. split_and!; try done.
  - destruct Hq as [Hnd Hd Hok]. split; [done..|]. intros q k Hk.
    destruct (Hok q k Hk) as (s & Hs & ?). exists s. split; [|done].
    simpl. rewrite Hm; [done|]. by exists q.
  - unfold fresh_wf in *. cbn. tauto.
Qed.

Lemma unused_insert {A} next (m : gmap ptr A) k a :
  unused next m → is_Some (m !! k) → unused next (<[k := a]> m).
Proof.
  intros Hu [b Hb] p Hp. rewrite lookup_insert_ne; [by apply Hu|].
  intros ->. by rewrite (Hu p Hp) in Hb.
Qed.
Lemma unused_delete {A} next (m : gmap ptr A) k : unused next m → unused next (delete k m).
Proof. intros Hu p Hp. destruct (decide (p = k)) as [->|];
  [apply lookup_delete_eq|by rewrite lookup_delete_ne, Hu]. Qed.
Lemma unused_alloc {A} next (m : gmap ptr A) a :
  unused next m → unused (Pos.succ next) (<[next := a]> m).
Proof. intros Hu p Hp. rewrite lookup_insert_ne by lia. apply Hu. lia. Qed.
Lemma unused_succ {A} next (m : gmap ptr A) : unused next m → unused (Pos.succ next) m.
Proof. intros Hu p Hp. apply Hu. lia. Qed.

#[export] Hint Resolve unused_insert unused_delete unused_alloc unused_succ : cprog.

Lemma wf_unused_skbs w : wf w → unused (w_next w) (w_skbs w).
Proof. intros H%wf_fresh. unfold fresh_wf in H. tauto. Qed.

(** The buffer being processed is changed, or freed. *)
Lemma owned_update w k s s' :
  wf w → owned w k s → skb_wf s' →
  let w' := set_skbs (<[k := s']> (w_skbs w)) w in
  wf w' ∧ owned w' k s' ∧ evolves (Some k) w w'.
Proof.
  intros Hw (Hk & Hs & Hq) Hs' w'. split_and!.
  - apply wf_skbs; [done| |].
    + intros k' Hk'. apply lookup_insert_ne. by intros <-.
    + apply unused_insert; [by apply wf_unused_skbs|by eexists].
  - split_and!; [apply lookup_insert_eq|done|done].
  - split; eauto with cprog. intros k' s1 Hne (H1 & H2 & H3). split_and!; [|done|done].
    simpl. rewrite lookup_insert_ne; [done|congruence].
Qed.

Lemma owned_free w k s :
  wf w → owned w k s →
  let w' := set_skbs (delete k (w_skbs w)) w in
  wf w' ∧ evolves (Some k) w w'.
Proof.
  intros Hw (Hk & Hs & Hq) w'. split.
  - apply wf_skbs; [done| |].
    + intros k' Hk'. apply lookup_delete_ne. by intros <-.
    + by apply unused_delete, wf_unused_skbs.
  - split; eauto with cprog. intros k' s1 Hne (H1 & H2 & H3). split_and!; [|done|done].
    simpl. rewrite lookup_delete_ne; [done|congruence].
Qed.

(** A new buffer is owned, and nothing else changes. *)
Lemma owned_alloc w s :
  wf w → skb_wf s →
  let k := w_next w in
  let w' := set_skbs (<[k := s]> (w_skbs w)) (set_next (Pos.succ k) w) in
  wf w' ∧ owned w' k s ∧ evolves None w w'.
Proof.
  intros Hw Hs k w'. assert (¬ queued w k) as Hk by by apply fresh_not_queued.
  assert (w_skbs w !! k = None) as Hnone by by apply wf_unused_skbs.
  split_and!.
  - destruct Hw as (Hst & Ha & Hu & Ht & Hq & Hf). split_and!; try done.
    + destruct Hq as [Hnd Hd Hok]. split; [done..|]. intros q k' Hk'.
      destruct (Hok q k' Hk') as (s' & Hs' & ?). exists s'. split; [|done].
      simpl. rewrite lookup_insert_ne; [done|congruence].
    + unfold fresh_wf in *. cbn. destruct_and!. split_and!; auto with cprog.
  - split_and!; [apply lookup_insert_eq|done|done].
  - split; eauto with cprog. intros k' s1 _ (H1 & H2 & H3). split_and!; [|done|done].
    simpl. rewrite lookup_insert_ne; [done|congruence].
Qed.

(** The exempt buffer of a frame may be one that did not exist before. *)
Lemma evolves_fresh w w1 w2 k :
  evolves None w w1 → w_skbs w !! k = None → evolves (Some k) w1 w2 → evolves None w w2.
Proof.
  intros H1 Hk H2. pose proof H1 as []. pose proof H2 as []. split; [congruence..| | | | |]; eauto.
  - eapply arps_from_trans; [done|by rewrite <- ev_intfs0].
  - intros c cn (cn1 & E1 & P1)%ev_conns0. destruct (ev_conns1 _ _ E1) as (cn2 & ? & ?).
    exists cn2. split; congruence.
  - intros k' s _ Ho. apply ev_owned1; [|by apply ev_owned0].
    intros [= <-]. destruct Ho as (Ho & _). congruence.
Qed.

(** A buffer that nobody owns needs no exemption. *)
Lemma evolves_unowned w w' k :
  evolves (Some k) w w' → (∀ s, ¬ owned w k s) → evolves None w w'.
Proof.
  intros [] Hk. split; eauto. intros k' s _ Ho. apply ev_owned0; [|done].
  intros [= <-]. by eapply Hk.
Qed.

Lemma evolves_weaken X w w' : evolves None w w' → evolves X w w'.
Proof. intros []. split; eauto. Qed.

Lemma evolves_trace X w t : evolves X w (set_trace t w).
Proof. split; eauto with cprog. Qed.

#[export] Hint Resolve evolves_weaken evolves_trace : cprog.

(** ** Changes of queues *)

Lemma qs_push intfs skbs Q Q' q k s :
  qs_wf intfs skbs Q → (∀ q, k ∉ Q q) → skbs !! k = Some s → queued_ok intfs q s →
  (∀ q', Q' q' = if decide (q' = q) then k :: Q q' else Q q') → qs_wf intfs skbs Q'.
Proof.
  intros [Hnd Hd Hok] Hk Hs Hqk HQ. split.
  - intros q'. rewrite HQ. case_decide; [|done]. by apply NoDup_cons.
  - intros q1 q2 k'. rewrite !HQ. repeat case_decide; subst; rewrite ?elem_of_cons; [done| | |].
    + intros [->|?] ?; [by exfalso; eapply Hk|by eapply Hd].
    + intros ? [->|?]; [by exfalso; eapply Hk|by eapply Hd].
    + by apply Hd.
  - intros q' k'. rewrite HQ. case_decide; [|by apply Hok]. subst.
    intros [->|?]%elem_of_cons; [by eexists|by apply Hok].
Qed.

Lemma qs_remove intfs skbs Q Q' q k :
  qs_wf intfs skbs Q →
  (∀ q', Q' q' = if decide (q' = q) then list_remove k (Q q') else Q q') →
  qs_wf intfs skbs Q' ∧ (k ∈ Q q → ∀ q', k ∉ Q' q').
Proof.
  intros [Hnd Hd Hok] HQ.
  assert (∀ q' k', k' ∈ Q' q' → k' ∈ Q q') as Hsub.
  { intros q' k'. rewrite HQ. case_decide; [|done].
    intros (? & _)%elem_of_list_remove; done. }
  split; [split|].
  - intros q'. rewrite HQ. case_decide; auto with cprog.
  - intros q1 q2 k' ?%Hsub ?%Hsub. by eapply Hd.
  - intros q' k' ?%Hsub. by apply Hok.
  - intros Hk q' Hk'. pose proof (Hsub _ _ Hk'). assert (q' = q) as -> by by eapply Hd.
    rewrite HQ, decide_True in Hk' by done. by apply elem_of_list_remove in Hk' as [_ ?].
Qed.

(** The queue of an object after the object is replaced. *)
Lemma queue_insert_arp arps udps conns e en q :
  queue (<[e := en]> arps) udps conns q =
    if decide (q = QArp e) then arp_pending en else queue arps udps conns q.
Proof.
  destruct q as [e'| |]; cbn [queue]; [|by rewrite decide_False..].
  rewrite lookup_insert. repeat case_decide; simplify_eq; done.
Qed.
Lemma queue_insert_udp arps udps conns u us q :
  queue arps (<[u := us]> udps) conns q =
    if decide (q = QUdp u) then us_rx_skb us else queue arps udps conns q.
Proof.
  destruct q as [|u'|]; cbn [queue]; [by rewrite decide_False| |by rewrite decide_False].
  rewrite lookup_insert. repeat case_decide; simplify_eq; done.
Qed.
Lemma queue_insert_conn arps udps conns c cn q :
  queue arps udps (<[c := cn]> conns) q =
    if decide (q = QConn c) then tc_rx_skb cn else queue arps udps conns q.
Proof.
  destruct q as [| |c']; cbn [queue]; [by rewrite decide_False..|].
  rewrite lookup_insert. repeat case_decide; simplify_eq; done.
Qed.

(** The queue of a live object, and an object with the same queue. *)
Lemma queue_arp_Some arps udps conns e en :
  arps !! e = Some en → queue arps udps conns (QArp e) = arp_pending en.
Proof. intros H. simpl. by rewrite H. Qed.
Lemma queue_udp_Some arps udps conns u us :
  udps !! u = Some us → queue arps udps conns (QUdp u) = us_rx_skb us.
Proof. intros H. simpl. by rewrite H. Qed.
Lemma queue_conn_Some arps udps conns c cn :
  conns !! c = Some cn → queue arps udps conns (QConn c) = tc_rx_skb cn.
Proof. intros H. simpl. by rewrite H. Qed.

Lemma queue_of_arps w m : queue_of (set_arps m w) = queue m (w_udps w) (w_conns w).
Proof. reflexivity. Qed.
Lemma queue_of_udps w m : queue_of (set_udps m w) = queue (w_arps w) m (w_conns w).
Proof. reflexivity. Qed.
Lemma queue_of_conns w m : queue_of (set_conns m w) = queue (w_arps w) (w_udps w) m.
Proof. reflexivity. Qed.

Lemma qs_ext intfs skbs Q Q' :
  qs_wf intfs skbs Q → (∀ q, Q' q = Q q) → qs_wf intfs skbs Q'.
Proof.
  intros [Hnd Hd Hok] HQ. split.
  - intros q. by rewrite HQ.
  - intros q1 q2 k. rewrite !HQ. apply Hd.
  - intros q k. rewrite HQ. apply Hok.
Qed.

(** [evolves] for a change of the queues in which no other buffer is queued. *)
Lemma evolves_queues X w w' :
  w_intfs w' = w_intfs w → topo w' = topo w → w_fd_to_comm w' = w_fd_to_comm w →
  w_links w' = w_links w → w_graphs w' = w_graphs w → w_skbs w' = w_skbs w →
  arps_from (w_intfs w) (w_arps w) (w_arps w') →
  (∀ c cn, w_conns w !! c = Some cn →
     ∃ cn', w_conns w' !! c = Some cn' ∧ tc_parent cn' = tc_parent cn) →
  (∀ t, is_Some (w_tcps w !! t) → is_Some (w_tcps w' !! t)) →
  (∀ u, is_Some (w_udps w !! u) → is_Some (w_udps w' !! u)) →
  (∀ q k, k ∈ queue_of w' q → Some k = X ∨ queued w k) →
  evolves X w w'.
Proof.
  intros ? ? ? ? ? Hs Ha Hc Ht Hu Hq. split; auto.
  intros k s Hne (Hk & Hwf & Hnq). split_and!; [by rewrite Hs|done|].
  intros [q [?|?]%Hq]; done.
Qed.

Lemma insert_is_Some {A} (m : gmap ptr A) k (a : A) k' :
  is_Some (m !! k') → is_Some (<[k := a]> m !! k').
Proof. intros. rewrite lookup_insert. case_decide; eauto. Qed.

(** The parent relation of connections after one connection is replaced. *)
Lemma conns_insert_parent (conns : gmap ptr tcp_connection_sock) c cn cn' :
  conns !! c = Some cn → tc_parent cn' = tc_parent cn →
  ∀ d dn, conns !! d = Some dn →
    ∃ dn', <[c := cn']> conns !! d = Some dn' ∧ tc_parent dn' = tc_parent dn.
Proof.
  intros Hc Hp d dn Hd. rewrite lookup_insert. case_decide; subst; [|by eexists].
  eexists. split; [done|]. congruence.
Qed.

#[export] Hint Resolve insert_is_Some conns_insert_parent : cprog.

Ltac queue_change :=
  apply evolves_queues;
  [done|try done|done|done|done|done|cbn; try by eauto with cprog|cbn; try by eauto with cprog|cbn; try by eauto with cprog
  |cbn; try by eauto with cprog|].

(** *** ARP entries *)

Lemma wf_arps w e en en' :
  wf w → w_arps w !! e = Some en →
  length (arp_mac en') = 6%nat → Forall is_u8 (arp_mac en') →
  qs_wf (w_intfs w) (w_skbs w) (queue (<[e := en']> (w_arps w)) (w_udps w) (w_conns w)) →
  wf (set_arps (<[e := en']> (w_arps w)) w).
Proof.
  intros (Hst & [Htb Hnd Hdj Hmac] & Hu & Ht & Hq & Hf) He H6 Hb Hq'. split_and!; try done.
  - split; [|done|done|].
    + intros n l e' Hn He'. by apply insert_is_Some, (Htb n l).
    + intros e' en1. cbn. rewrite lookup_insert. case_decide; [|apply Hmac].
      by intros [= <-].
  - unfold fresh_wf in *. cbn. destruct_and!. split_and!; auto.
    apply unused_insert; eauto.
Qed.

Lemma wf_arps_same w e en en' X :
  wf w → w_arps w !! e = Some en →
  length (arp_mac en') = 6%nat → Forall is_u8 (arp_mac en') →
  arp_pending en' = arp_pending en → arp_intf en' = arp_intf en →
  let w' := set_arps (<[e := en']> (w_arps w)) w in
  wf w' ∧ evolves X w w' ∧ (∀ q, queue_of w' q = queue_of w q).
Proof.
  intros Hw He H6 Hb Hp Hin w'.
  assert (∀ q, queue_of w' q = queue_of w q) as HQ.
  { intros q. unfold queue_of. cbn. rewrite queue_insert_arp. case_decide; [|done].
    subst. by rewrite (queue_arp_Some _ _ _ _ en). }
  split_and!; [| |done].
  - apply (wf_arps _ _ en); auto. by eapply qs_ext; [apply wf_qs|].
  - apply evolves_queues; cbn; eauto with cprog. intros q k Hk. right. exists q. by rewrite <- HQ.
Qed.

(** A packet waits for an address. *)
Lemma wf_push_arp w e en k s i :
  wf w → w_arps w !! e = Some en → owned w k s → sendable s →
  skb_intf s = Some i → is_Some (w_intfs w !! i) →
  let en' := mk_arp_entry (arp_ip en) (arp_mac en) (arp_intf en) (arp_resolved en)
               (k :: arp_pending en) in
  let w' := set_arps (<[e := en']> (w_arps w)) w in
  wf w' ∧ evolves (Some k) w w'.
Proof.
  intros Hw He (Hk & Hs & Hnq) Hsend Hi Hlive en' w'.
  destruct (aw_mac _ _ (wf_arp _ Hw) _ _ He) as [H6 Hb].
  assert (∀ q, queue_of w' q = if decide (q = QArp e) then k :: queue_of w q else queue_of w q) as HQ.
  { intros q. unfold queue_of. cbn. rewrite queue_insert_arp. case_decide; [|done].
    subst. by rewrite (queue_arp_Some _ _ _ _ en). }
  split.
  - apply (wf_arps _ _ en); auto. eapply (qs_push _ _ _ _ (QArp e) k s); [by apply wf_qs| |done| |done].
    + intros q Hin. apply Hnq. by exists q.
    + split; [done|]. eauto.
  - apply evolves_queues; cbn; eauto with cprog. intros q k'. rewrite HQ. case_decide; [|by right; exists q].
    intros [->|?]%elem_of_cons; [by left|right; by exists q].
Qed.

(** A pending packet is taken out to be sent: it is owned again. *)
Lemma wf_remove_arp w e en k :
  wf w → w_arps w !! e = Some en → k ∈ arp_pending en →
  let en' := mk_arp_entry (arp_ip en) (arp_mac en) (arp_intf en) (arp_resolved en)
               (list_remove k (arp_pending en)) in
  let w' := set_arps (<[e := en']> (w_arps w)) w in
  wf w' ∧ evolves (Some k) w w' ∧
  ∃ s i, owned w' k s ∧ sendable s ∧ skb_intf s = Some i ∧ is_Some (w_intfs w !! i).
Proof.
  intros Hw He Hk en' w'.
  destruct (aw_mac _ _ (wf_arp _ Hw) _ _ He) as [H6 Hb].
  assert (k ∈ queue_of w (QArp e)) as Hkq.
  { unfold queue_of. by rewrite (queue_arp_Some _ _ _ _ en). }
  assert (∀ q, queue_of w' q = if decide (q = QArp e) then list_remove k (queue_of w q)
                               else queue_of w q) as HQ.
  { intros q. unfold queue_of. cbn. rewrite queue_insert_arp. case_decide; [|done].
    subst. by rewrite (queue_arp_Some _ _ _ _ en). }
  destruct (qs_remove _ _ _ _ (QArp e) k (wf_qs _ Hw) HQ) as [Hq' Hnq].
  destruct (q_ok _ _ _ (wf_qs _ Hw) _ _ Hkq) as (s & Hs & Hswf & Hsend & i & Hi & Hlive).
  split_and!.
  - by apply (wf_arps _ _ en).
  - apply evolves_queues; cbn; eauto with cprog. intros q k'. rewrite HQ. case_decide; [|by right; exists q].
    intros (? & _)%elem_of_list_remove; [|by apply (q_nodup _ _ _ (wf_qs _ Hw))].
    right. by exists q.
  - exists s, i. split_and!; auto. split_and!; [done..|].
    intros [q Hq]. by eapply Hnq.
Qed.

(** *** UDP sockets *)

Lemma wf_udps w u us us' :
  wf w → w_udps w !! u = Some us →
  us_bound us' = us_bound us → us_intf us' = us_intf us → us_node us' = us_node us →
  qs_wf (w_intfs w) (w_skbs w) (queue (w_arps w) (<[u := us']> (w_udps w)) (w_conns w)) →
  wf (set_udps (<[u := us']> (w_udps w)) w).
Proof.
  intros (Hst & Ha & [] & Ht & Hq & Hf) Hu Hb Hi Hn Hq'. split_and!; try done.
  - split; cbn; auto with cprog.
    + intros i it v Hit Hv. destruct (uw_socks0 _ _ _ Hit Hv) as (vs & Hvs & ? & ?).
      rewrite lookup_insert. case_decide; subst; [|by exists vs].
      simplify_eq. eexists. split; [done|]. split; congruence.
    + intros v vs. rewrite lookup_insert. case_decide; subst; [|by apply uw_intf0].
      intros [= <-]. rewrite Hb, Hi. exact (uw_intf0 _ _ Hu).
    + intros v vs. rewrite lookup_insert. case_decide; subst; [|by apply uw_node0].
      intros [= <-]. rewrite Hn. exact (uw_node0 _ _ Hu).
    + intros j v Hj. eauto with cprog.
  - unfold fresh_wf in *. cbn. destruct_and!. split_and!; auto.
    apply unused_insert; eauto.
Qed.
Lemma evolves_udps X w u us us' :
  w_udps w !! u = Some us →
  (∀ k, k ∈ us_rx_skb us' → Some k = X ∨ k ∈ us_rx_skb us) →
  evolves X w (set_udps (<[u := us']> (w_udps w)) w).
Proof.
  intros Hu Hk. queue_change.
  intros q k. rewrite queue_of_udps, queue_insert_udp. case_decide; subst.
  - intros [?|?]%Hk; [by left|]. right. exists (QUdp u).
    unfold queue_of. by rewrite (queue_udp_Some _ _ _ _ us).
  - right. by exists q.
Qed.

(** A datagram is queued on a socket. *)
Lemma wf_push_udp w u us k s :
  wf w → w_udps w !! u = Some us → owned w k s →
  hdr_in s 20 (skb_ip_hdr s) → hdr_in s 8 (skb_udp_hdr s) → is_Some (skb_udp_hdr s) →
  let us' := mk_udp_sock (us_bound us) (us_node us) (us_intf us) (us_local_port us)
               (k :: us_rx_skb us) in
  let w' := set_udps (<[u := us']> (w_udps w)) w in
  wf w' ∧ evolves (Some k) w w'.
Proof.
  intros Hw Hu (Hk & Hs & Hnq) Hip Hudp Hsome us' w'. split.
  - apply (wf_udps _ _ us); try done.
    eapply (qs_push _ _ _ _ (QUdp u) k s); [by apply wf_qs| |done|done|].
    + intros q Hin. apply Hnq. by exists q.
    + intros q. rewrite queue_insert_udp. case_decide; [|done].
      subst. unfold queue_of. by rewrite (queue_udp_Some _ _ _ _ us).
  - apply (evolves_udps _ _ _ us); [done|]. cbn. intros k' [->|?]%elem_of_cons; auto.
Qed.

(** A datagram that has been read is taken out of the queue. *)
Lemma wf_remove_udp w u us k :
  wf w → w_udps w !! u = Some us → k ∈ us_rx_skb us →
  let us' := mk_udp_sock (us_bound us) (us_node us) (us_intf us) (us_local_port us)
               (list_remove k (us_rx_skb us)) in
  let w' := set_udps (<[u := us']> (w_udps w)) w in
  wf w' ∧ evolves (Some k) w w' ∧ ∃ s, owned w' k s.
Proof.
  intros Hw Hu Hk us' w'.
  assert (k ∈ queue_of w (QUdp u)) as Hkq.
  { unfold queue_of. by rewrite (queue_udp_Some _ _ _ _ us). }
  assert (∀ q, queue_of w' q = if decide (q = QUdp u) then list_remove k (queue_of w q)
                               else queue_of w q) as HQ.
  { intros q. unfold queue_of. cbn. rewrite queue_insert_udp. case_decide; [|done].
    subst. by rewrite (queue_udp_Some _ _ _ _ us). }
  destruct (qs_remove _ _ _ _ (QUdp u) k (wf_qs _ Hw) HQ) as [Hq' Hnq].
  destruct (q_ok _ _ _ (wf_qs _ Hw) _ _ Hkq) as (s & Hs & Hswf & _).
  split_and!.
  - by apply (wf_udps _ _ us).
  - apply (evolves_udps _ _ _ us); [done|]. cbn. intros k' (? & _)%elem_of_list_remove; [by right|].
    pose proof (q_nodup _ _ _ (wf_qs _ Hw) (QUdp u)) as Hnd.
    unfold queue_of in Hnd. by rewrite (queue_udp_Some _ _ _ _ us) in Hnd.
  - exists s. split_and!; [done..|]. intros [q Hq]. by eapply Hnq.
Qed.

(** A queued packet is changed where it is. *)
Lemma wf_queued_update w q k s s' :
  wf w → k ∈ queue_of w q → w_skbs w !! k = Some s → queued_ok (w_intfs w) q s' →
  wf (set_skbs (<[k := s']> (w_skbs w)) w).
Proof.
  intros (Hst & Ha & Hu & Ht & Hq & Hf) Hk Hs Hs'. split_and!; try done.
  - destruct Hq as [Hnd Hd Hok]. split; [done..|]. intros q' k' Hk'.
    cbn. rewrite lookup_insert. case_decide; subst; [|by apply Hok].
    exists s'. split; [done|]. by replace q' with q by by eapply Hd.
  - unfold fresh_wf in *. cbn. destruct_and!. split_and!; auto. apply unused_insert; eauto.
Qed.

(** *** TCP sockets and connections *)

Lemma wf_conns w c cn cn' :
  wf w → w_conns w !! c = Some cn → tc_parent cn' = tc_parent cn →
  qs_wf (w_intfs w) (w_skbs w) (queue (w_arps w) (w_udps w) (<[c := cn']> (w_conns w))) →
  wf (set_conns (<[c := cn']> (w_conns w)) w).
Proof.
  intros (Hst & Ha & Hu & [] & Hq & Hf) Hc Hp Hq'. split_and!; try done.
  - split; cbn; auto with cprog.
    + intros t ts d Ht Hd. destruct (tw_conns0 _ _ _ Ht Hd) as (dn & Hdn & <-).
      by eapply conns_insert_parent.
    + intros d dn. rewrite lookup_insert. case_decide; subst; [|by apply tw_parent0].
      intros [= <-]. rewrite Hp. exact (tw_parent0 _ _ Hc).
    + intros j d Hj. eauto with cprog.
  - unfold fresh_wf in *. cbn. destruct_and!. split_and!; auto. apply unused_insert; eauto.
Qed.

Lemma evolves_conns X w c cn cn' :
  w_conns w !! c = Some cn → tc_parent cn' = tc_parent cn →
  (∀ k, k ∈ tc_rx_skb cn' → Some k = X ∨ k ∈ tc_rx_skb cn) →
  evolves X w (set_conns (<[c := cn']> (w_conns w)) w).
Proof.
  intros Hc Hp Hk. queue_change.
  intros q k. rewrite queue_of_conns, queue_insert_conn. case_decide; subst.
  - intros [?|?]%Hk; [by left|]. right. exists (QConn c).
    unfold queue_of. by rewrite (queue_conn_Some _ _ _ _ cn).
  - right. by exists q.
Qed.

(** A change of a connection that keeps its queue. *)
Lemma wf_conns_same w c cn cn' X :
  wf w → w_conns w !! c = Some cn → tc_parent cn' = tc_parent cn →
  tc_rx_skb cn' = tc_rx_skb cn →
  let w' := set_conns (<[c := cn']> (w_conns w)) w in
  wf w' ∧ evolves X w w'.
Proof.
  intros Hw Hc Hp Hrx w'. split.
  - apply (wf_conns _ _ cn); auto. eapply qs_ext; [by apply wf_qs|].
    intros q. rewrite queue_insert_conn. case_decide; [|done]. subst.
    unfold queue_of. by rewrite (queue_conn_Some _ _ _ _ cn).
  - apply (evolves_conns _ _ _ cn); auto. intros k. rewrite Hrx. by right.
Qed.

(** A segment is queued on a connection. *)
Lemma wf_push_conn w c cn cn' k s :
  wf w → w_conns w !! c = Some cn → owned w k s →
  tc_parent cn' = tc_parent cn → tc_rx_skb cn' = k :: tc_rx_skb cn →
  let w' := set_conns (<[c := cn']> (w_conns w)) w in
  wf w' ∧ evolves (Some k) w w'.
Proof.
  intros Hw Hc (Hk & Hs & Hnq) Hp Hrx w'. split.
  - apply (wf_conns _ _ cn); try done.
    eapply (qs_push _ _ _ _ (QConn c) k s); [by apply wf_qs| |done|by split|].
    + intros q Hin. apply Hnq. by exists q.
    + intros q. rewrite queue_insert_conn. case_decide; [|done].
      subst. unfold queue_of. by rewrite (queue_conn_Some _ _ _ _ cn).
  - apply (evolves_conns _ _ _ cn); [done..|]. rewrite Hrx. intros k' [->|?]%elem_of_cons; auto.
Qed.

Lemma wf_remove_conn w c cn cn' k :
  wf w → w_conns w !! c = Some cn → k ∈ tc_rx_skb cn →
  tc_parent cn' = tc_parent cn → tc_rx_skb cn' = list_remove k (tc_rx_skb cn) →
  let w' := set_conns (<[c := cn']> (w_conns w)) w in
  wf w' ∧ evolves (Some k) w w' ∧ ∃ s, owned w' k s.
Proof.
  intros Hw Hc Hk Hp Hrx w'.
  assert (k ∈ queue_of w (QConn c)) as Hkq.
  { unfold queue_of. by rewrite (queue_conn_Some _ _ _ _ cn). }
  assert (∀ q, queue_of w' q = if decide (q = QConn c) then list_remove k (queue_of w q)
                               else queue_of w q) as HQ.
  { intros q. unfold queue_of. cbn. rewrite queue_insert_conn. case_decide; [|done].
    subst. by rewrite (queue_conn_Some _ _ _ _ cn). }
  destruct (qs_remove _ _ _ _ (QConn c) k (wf_qs _ Hw) HQ) as [Hq' Hnq].
  destruct (q_ok _ _ _ (wf_qs _ Hw) _ _ Hkq) as (s & Hs & Hswf & _).
  split_and!.
  - by apply (wf_conns _ _ cn).
  - apply (evolves_conns _ _ _ cn); [done..|]. rewrite Hrx.
    intros k' (? & _)%elem_of_list_remove; [by right|].
    pose proof (q_nodup _ _ _ (wf_qs _ Hw) (QConn c)) as Hnd.
    unfold queue_of in Hnd. by rewrite (queue_conn_Some _ _ _ _ cn) in Hnd.
  - exists s. split_and!; [done..|]. intros [q Hq]. by eapply Hnq.
Qed.

(** The lists of connections of a socket change. *)
Lemma wf_tcps_conns w t ts l closed X :
  wf w → w_tcps w !! t = Some ts →
  (∀ c, c ∈ l → ∃ cn, w_conns w !! c = Some cn ∧ tc_parent cn = t) →
  let ts' := mk_tcp_sock (ts_bound ts) (ts_listening ts) (ts_node ts) (ts_local_ip ts)
               (ts_intf ts) (ts_local_port ts) l closed in
  let w' := set_tcps (<[t := ts']> (w_tcps w)) w in
  wf w' ∧ evolves X w w'.
Proof.
  intros (Hst & Ha & Hu & [] & Hq & Hf) Hts Hl ts' w'. split; [split_and!; try done|].
  - split; cbn; auto with cprog.
    + intros i it t1 Hit Ht1. destruct (tw_socks0 _ _ _ Hit Ht1) as (ts1 & H1 & ? & ?).
      rewrite lookup_insert. case_decide; subst; [|by exists ts1]. simplify_eq.
      by eexists.
    + intros t1 ts1. rewrite lookup_insert. case_decide; subst; [|by apply tw_intf0].
      intros [= <-]. by apply (tw_intf0 _ _ Hts).
    + intros t1 ts1. rewrite lookup_insert. case_decide; subst; [|by apply tw_node0].
      intros [= <-]. by apply (tw_node0 _ _ Hts).
    + intros t1 ts1 c. rewrite lookup_insert. case_decide; subst; [|by apply tw_conns0].
      intros [= <-]. apply Hl.
    + intros c cn (ts1 & H1 & H2)%tw_parent0. rewrite lookup_insert.
      case_decide; subst; [|by exists ts1]. simplify_eq. by eexists.
    + intros j t1 Hj. eauto with cprog.
  - unfold fresh_wf in *. cbn. destruct_and!. split_and!; auto. apply unused_insert; eauto.
  - queue_change. intros q k Hk. right. by exists q.
Qed.

(** A new connection of a socket. *)
Lemma wf_new_conn w t ts cn X :
  wf w → w_tcps w !! t = Some ts → ts_bound ts = true → tc_parent cn = t → tc_rx_skb cn = [] →
  let c := w_next w in
  let w' := set_conns (<[c := cn]> (w_conns w)) (set_next (Pos.succ c) w) in
  wf w' ∧ evolves X w w'.
Proof.
  intros (Hst & Ha & Hu & [] & Hq & Hf) Hts Hb Hp Hrx c w'.
  assert (w_conns w !! c = None) as Hc.
  { unfold fresh_wf in Hf. destruct_and!. eauto using Pos.le_refl. }
  assert (∀ q, queue_of w' q = queue_of w q) as HQ.
  { intros q. unfold queue_of. cbn. rewrite queue_insert_conn. case_decide; [|done].
    subst. simpl. by rewrite Hc, Hrx. }
  assert (∀ d dn, w_conns w !! d = Some dn → w_conns w' !! d = Some dn) as Hmono.
  { intros d dn Hd. cbn. rewrite lookup_insert_ne; [done|congruence]. }
  split; [split_and!; try done|].
  - split; cbn; auto with cprog.
    + intros t1 ts1 d Ht1 Hd. destruct (tw_conns0 _ _ _ Ht1 Hd) as (dn & Hdn & ?).
      exists dn. split; [by apply Hmono|done].
    + intros d dn. rewrite lookup_insert. case_decide; subst; [|by apply tw_parent0].
      intros [= <-]. by exists ts.
    + intros j d Hj. eauto with cprog.
  - by eapply qs_ext.
  - unfold fresh_wf in *. cbn. destruct_and!. split_and!; auto with cprog.
  - queue_change. intros q k. rewrite HQ. right. by exists q.
Qed.

(** *** ARP tables *)

Lemma topo_insert w n nd nd' :
  w_nodes w !! n = Some nd → n_static nd' = n_static nd →
  topo (set_nodes (<[n := nd']> (w_nodes w)) w) = topo w.
Proof.
  intros Hn Hs. unfold topo. cbn. rewrite fmap_insert, Hs.
  apply insert_id. by rewrite lookup_fmap, Hn.
Qed.

(** A new entry in the table of a node. *)
Lemma arp_wf_cons ts arps n l e en :
  arp_wf ts arps → ts !! n = Some l → arps !! e = None →
  length (arp_mac en) = 6%nat → Forall is_u8 (arp_mac en) →
  arp_wf (<[n := e :: l]> ts) (<[e := en]> arps).
Proof.
  intros [Htb Hnd Hdj Hmac] Hn He H6 Hb.
  assert (∀ n' l', ts !! n' = Some l' → e ∉ l') as Hfr.
  { intros n' l' Hn' Hin. destruct (Htb _ _ _ Hn' Hin). congruence. }
  split.
  - intros n' l' e'. rewrite lookup_insert. case_decide.
    + intros [= <-] [->|He']%elem_of_cons; [rewrite lookup_insert_eq; eauto|].
      by apply insert_is_Some, (Htb n l).
    + intros Hn' He'. by apply insert_is_Some, (Htb n' l').
  - intros n' l'. rewrite lookup_insert. case_decide; [|apply Hnd].
    intros [= <-]. apply NoDup_cons. split; [by eapply Hfr|by eapply Hnd].
  - intros n1 n2 l1 l2 e'. rewrite !lookup_insert. do 2 case_decide; subst; intros E1 E2; simplify_eq; try done.
    + intros [->|H1]%elem_of_cons H2; [by destruct (Hfr _ _ E2)|by eapply Hdj].
    + intros H1 [->|H2]%elem_of_cons; [by destruct (Hfr _ _ E1)|by eapply Hdj].
    + by eapply Hdj.
  - intros e' en'. rewrite lookup_insert. case_decide; [|apply Hmac]. by intros [= <-].
Qed.

Lemma wf_new_arp w n nd en X :
  wf w → w_nodes w !! n = Some nd →
  length (arp_mac en) = 6%nat → Forall is_u8 (arp_mac en) → arp_pending en = [] →
  is_Some (w_intfs w !! arp_intf en) →
  let e := w_next w in
  let nd' := n_set_nw (n_set_arp_table (e :: n_arp_table (n_nw nd)) (n_nw nd)) nd in
  let w1 := set_arps (<[e := en]> (w_arps w)) (set_next (Pos.succ e) w) in
  let w' := set_nodes (<[n := nd']> (w_nodes w)) w1 in
  wf w' ∧ evolves X w w' ∧ w_arps w' !! e = Some en.
Proof.
  intros (Hst & Ha & Hu & Ht & Hq & Hf) Hn H6 Hb Hp Hin e nd' w1 w'.
  assert (w_arps w !! e = None) as He.
  { unfold fresh_wf in Hf. destruct_and!. eauto using Pos.le_refl. }
  assert (∀ q, queue_of w' q = queue_of w q) as HQ.
  { intros q. unfold queue_of. cbn. rewrite queue_insert_arp. case_decide; [|done].
    subst. simpl. by rewrite He, Hp. }
  assert (topo w' = topo w) as Htopo by by apply (topo_insert w1 n nd nd').
  split_and!; [split_and!|..].
  - by rewrite Htopo.
  - unfold tables. cbn. rewrite fmap_insert. apply arp_wf_cons; try done.
    unfold tables. by rewrite lookup_fmap, Hn.
  - by rewrite Htopo.
  - by rewrite Htopo.
  - by eapply qs_ext.
  - unfold fresh_wf in *. cbn. destruct_and!. split_and!; auto with cprog.
  - queue_change. intros q k. rewrite HQ. right. by exists q.
  - apply lookup_insert_eq.
Qed.
