(* ===== verification/GraphInv.v ===== *)
(** * The shape of the graph

    [graph_wf X] says that the interfaces of a node are in its slots, each in one
    of them, that an interface with a link is one of the two ends of it and a
    UDP interface while one without is a TAP device, that the descriptor table
    leads to interfaces with that descriptor, and that every node is in one graph.
    [X] lists the interfaces that are still being built.  The entry of
    descriptor 0 is left out, since interfaces are never unregistered from it.  The lemmas follow the
    construction of interfaces step by step. *)
From S2P Require Import Prelude Cmonad Utils Skbuff World Topology Comm Net Graph Invariant.
#[local] Open Scope Z_scope.

(** The state while the interface [i] is being initialised. *)
Definition ist (w : world) (i : ptr) (it : intf) (ns : gmap ptr node) (cm : gmap Z ptr)
    (port : Z) (tr : list event) : world :=
  set_trace tr (set_next_udp_port port (set_fd_to_comm cm (set_nodes ns
    (set_intfs (<[i := it]> (w_intfs w)) w)))).

(** What a freshly initialised interface looks like. *)
Record fresh_intf (n : ptr) (l : option ptr) (it : intf) : Prop := {
  fi_node : if_node it = n;
  fi_link : if_link it = l;
  fi_mac : length (IF_MAC it) = 6%nat ∧ Forall is_u8 (IF_MAC it);
  fi_udp : p_udp_socks (if_nw it) = [];
  fi_tcp : p_tcp_socks (if_nw it) = [];
}.

Lemma fresh_intf_comm n l it c : fresh_intf n l it → fresh_intf n l (if_set_comm c it).
Proof. intros []. by split. Qed.

(** The descriptor table with the entry of a new interface, if there was room. *)
Definition entered (cm cm' : gmap Z ptr) (i : ptr) (it : intf) : Prop :=
  cm' = cm ∨ 0 <= comm_fd (if_comm it) < MAX_COMMS ∧ cm' = <[comm_fd (if_comm it) := i]> cm.

Lemma entered_lookup cm cm' i it fd j :
  entered cm cm' i it → cm' !! fd = Some j →
  cm !! fd = Some j ∨ j = i ∧ fd = comm_fd (if_comm it) ∧ 0 <= fd < MAX_COMMS.
Proof.
  intros [->|[? ->]]; [by left|]. rewrite lookup_insert. case_decide; [|by left].
  intros [= <-]. subst. by right.
Qed.

(** A [comm] of kind [ct] with operations. *)
Definition comm_of (ct : comm_type) (c : comm) : Prop := comm_kind c = ct ∧ is_Some (comm_op c).
(** The node with the interface in a slot that was free. *)
Definition with_slot (j : nat) (i : ptr) (nd : node) : node := n_set_intfs (<[j := Some i]> (n_intfs nd)) nd.

Lemma with_slot_elem j i nd k :
  Some k ∈ n_intfs (with_slot j i nd) → Some k ∈ n_intfs nd ∨ k = i.
Proof.
  intros [x Hx]%list_elem_of_lookup_1. apply list_lookup_insert_Some in Hx as [(_ & [= ->] & _)|[_ Hx]];
    [by right|left]. by eapply list_elem_of_lookup_2.
Qed.

(** ** The invariant *)

Definition is_end (i : ptr) (lk : link) : Prop := i = l_intf1 lk ∨ i = l_intf2 lk.

(** The link and the kind of an interface agree. *)
Definition end_ok (links : gmap ptr link) (i : ptr) (it : intf) : Prop :=
  match if_link it with
  | Some l => comm_of CT_UDP (if_comm it) ∧ ∃ lk, links !! l = Some lk ∧ is_end i lk
  | None => comm_of CT_TUNTAP (if_comm it)
  end.

Record graph_wf (X : list ptr) (w : world) : Prop := {
  gw_length n nd : w_nodes w !! n = Some nd → length (n_intfs nd) = MAX_INTFS_PER_NODE;
  gw_inj n nd j1 j2 i : w_nodes w !! n = Some nd →
    n_intfs nd !! j1 = Some (Some i) → n_intfs nd !! j2 = Some (Some i) → j1 = j2;
  gw_slot n nd i : w_nodes w !! n = Some nd → Some i ∈ n_intfs nd →
    i ∉ X ∧ ∃ it, w_intfs w !! i = Some it ∧ if_node it = n;
  gw_home i it : w_intfs w !! i = Some it → i ∉ X →
    ∃ nd, w_nodes w !! if_node it = Some nd ∧ Some i ∈ n_intfs nd;
  gw_end i it : w_intfs w !! i = Some it → i ∉ X → end_ok (w_links w) i it;
  gw_link l lk : w_links w !! l = Some lk → l_intf1 lk ≠ l_intf2 lk ∧
    ∀ i, is_end i lk → ∃ it, w_intfs w !! i = Some it ∧ (i ∉ X → if_link it = Some l);
  gw_comm fd i : w_fd_to_comm w !! fd = Some i → fd ≠ 0 →
    i ∉ X ∧ 0 <= fd < MAX_COMMS ∧ ∃ it, w_intfs w !! i = Some it ∧ comm_fd (if_comm it) = fd;
  gw_graph g gr : w_graphs w !! g = Some gr →
    NoDup (g_nodes gr) ∧ ∀ n, n ∈ g_nodes gr → is_Some (w_nodes w !! n);
  gw_disj g1 g2 gr1 gr2 n : w_graphs w !! g1 = Some gr1 → w_graphs w !! g2 = Some gr2 →
    n ∈ g_nodes gr1 → n ∈ g_nodes gr2 → g1 = g2;
}.

(** What the invariant looks at. *)
Definition ishape (it : intf) : ptr * option ptr * comm := (if_node it, if_link it, if_comm it).

Record same_graph (w w' : world) : Prop := {
  sg_nodes : n_intfs <$> w_nodes w' = n_intfs <$> w_nodes w;
  sg_intfs : ishape <$> w_intfs w' = ishape <$> w_intfs w;
  sg_links : w_links w' = w_links w;
  sg_comms : w_fd_to_comm w' = w_fd_to_comm w;
  sg_graphs : w_graphs w' = w_graphs w;
}.

Lemma same_graph_refl w : same_graph w w.
Proof. by split. Qed.
Lemma same_graph_trans w1 w2 w3 : same_graph w1 w2 → same_graph w2 w3 → same_graph w1 w3.
Proof. intros [] []. split; congruence. Qed.
Lemma same_graph_sym w1 w2 : same_graph w1 w2 → same_graph w2 w1.
Proof. intros []. by split. Qed.

Lemma fmap_lookup_eq {A B} (f : A → B) (m m' : gmap ptr A) k a :
  f <$> m' = f <$> m → m !! k = Some a → ∃ a', m' !! k = Some a' ∧ f a' = f a.
Proof.
  intros E Hk. apply (f_equal (.!! k)) in E. rewrite !lookup_fmap, Hk in E. cbn in E.
  apply fmap_Some in E as (a' & ? & ?). by exists a'.
Qed.

Lemma graph_wf_same X w w' : same_graph w w' → graph_wf X w → graph_wf X w'.
Proof.
  intros Hs [G1 G2 G3 G4 G5 G6 G7 G8 G9]. pose proof (same_graph_sym _ _ Hs) as [Hn' Hi' _ _ _].
  destruct Hs as [Hn Hi Hl Hc Hg].
  assert (∀ n nd, w_nodes w' !! n = Some nd → ∃ nd0, w_nodes w !! n = Some nd0 ∧ n_intfs nd0 = n_intfs nd) as Bn
    by (intros n nd; by apply fmap_lookup_eq).
  assert (∀ i it, w_intfs w !! i = Some it → ∃ it', w_intfs w' !! i = Some it' ∧ ishape it' = ishape it) as Fi
    by (intros i it; by apply fmap_lookup_eq).
  assert (∀ i it, w_intfs w' !! i = Some it → ∃ it0, w_intfs w !! i = Some it0 ∧ ishape it0 = ishape it) as Bi
    by (intros i it; by apply fmap_lookup_eq).
  split.
  - intros n nd (nd0 & ? & <-)%Bn. eauto.
  - intros n nd j1 j2 i (nd0 & ? & <-)%Bn. eauto.
  - intros n nd i (nd0 & ? & <-)%Bn Hin. destruct (G3 _ _ _ H Hin) as (? & it & (it' & ? & [=])%Fi & ?).
    split; [done|]. exists it'. split; congruence.
  - intros i it (it0 & Hi0 & [= <- _ _])%Bi HX. destruct (G4 _ _ Hi0 HX) as (nd & Hnd & Hin).
    destruct (fmap_lookup_eq _ _ _ _ _ Hn Hnd) as (nd' & ? & E). exists nd'. split; [done|]. by rewrite E.
  - intros i it (it0 & Hi0 & [= _ E1 E2])%Bi HX. specialize (G5 _ _ Hi0 HX). unfold end_ok in *.
    by rewrite Hl, <- E1, <- E2.
  - rewrite Hl. intros l lk Hlk. destruct (G6 _ _ Hlk) as [? Hends]. split; [done|].
    intros i (it & (it' & ? & [= _ E _])%Fi & Hlink)%Hends. exists it'. split; [done|]. rewrite E. done.
  - rewrite Hc. intros fd i Hfd H0. destruct (G7 _ _ Hfd H0) as (? & ? & it & (it' & ? & [= _ _ E])%Fi & ?).
    split; [done|]. split; [done|]. exists it'. split; [done|]. by rewrite E.
  - rewrite Hg. intros g gr Hgr. destruct (G8 _ _ Hgr) as [? Hlive]. split; [done|].
    intros n [nd Hnd]%Hlive. destruct (fmap_lookup_eq _ _ _ _ _ Hn Hnd) as (nd' & ? & _). by exists nd'.
  - rewrite Hg. exact G9.
Qed.

Lemma graph_wf_ext X X' w : (∀ i, i ∈ X ↔ i ∈ X') → graph_wf X w → graph_wf X' w.
Proof. intros E []. split; try done; intros *; rewrite <- ?E; eauto. setoid_rewrite <- E. eauto. Qed.

(** ** Building interfaces *)

Lemma graph_wf_alloc_intf X w i it k :
  graph_wf X w → w_intfs w !! i = None →
  graph_wf (i :: X) (set_intfs (<[i := it]> (w_intfs w)) (set_next k w)).
Proof.
  intros [G1 G2 G3 G4 G5 G6 G7 G8 G9] Hi.
  assert (∀ j jt, w_intfs w !! j = Some jt → j ≠ i ∧ <[i := it]> (w_intfs w) !! j = Some jt) as Hold.
  { intros j jt Hj. assert (j ≠ i) by congruence. by rewrite lookup_insert_ne. }
  assert (∀ j jt, <[i := it]> (w_intfs w) !! j = Some jt → j ∉ i :: X → w_intfs w !! j = Some jt ∧ j ∉ X) as Hnew.
  { intros j jt Hj [Hne HX]%not_elem_of_cons. by rewrite lookup_insert_ne in Hj. }
  split; cbn; try done.
  - intros n nd j Hn Hj. destruct (G3 _ _ _ Hn Hj) as (HX & jt & [? ?]%Hold & ?).
    split; [by apply not_elem_of_cons|]. by exists jt.
  - intros j jt Hj HX. destruct (Hnew _ _ Hj HX). eauto.
  - intros j jt Hj HX. destruct (Hnew _ _ Hj HX). eauto.
  - intros l lk Hl. destruct (G6 _ _ Hl) as [? Hends]. split; [done|].
    intros j (jt & [? ?]%Hold & Hx)%Hends. exists jt. split; [done|]. intros [_ ?]%not_elem_of_cons. auto.
  - intros fd j Hj Hfd. destruct (G7 _ _ Hj Hfd) as (HX & ? & jt & [? ?]%Hold & ?).
    split; [by apply not_elem_of_cons|]. split; [done|]. by exists jt.
Qed.

Lemma graph_wf_alloc_link X w l lk k :
  graph_wf X w → w_links w !! l = None → l_intf1 lk ≠ l_intf2 lk →
  (∀ i, is_end i lk → i ∈ X ∧ is_Some (w_intfs w !! i)) →
  graph_wf X (set_links (<[l := lk]> (w_links w)) (set_next k w)).
Proof.
  intros [G1 G2 G3 G4 G5 G6 G7 G8 G9] Hl Hne Hends. split; cbn; try done.
  - intros i it Hi HX. specialize (G5 _ _ Hi HX). unfold end_ok in *. destruct (if_link it) as [l'|]; [|done].
    destruct G5 as (? & lk' & ? & ?). split; [done|]. exists lk'. split; [|done].
    rewrite lookup_insert_ne; [done|congruence].
  - intros l' lk'. rewrite lookup_insert. case_decide; [|apply G6]. intros [= <-]. split; [done|].
    intros i [HX [it Hi]]%Hends. exists it. split; [done|]. by intros ?.
Qed.

(** The interface is put in a slot of its node and gets its link. *)
Lemma graph_wf_init X w i n l ct nd j it cm port tr :
  graph_wf (i :: X) w → i ∉ X → is_Some (w_intfs w !! i) → w_nodes w !! n = Some nd →
  n_intfs nd !! j = Some None → fresh_intf n l it → comm_of ct (if_comm it) →
  entered (w_fd_to_comm w) cm i it →
  match l with
  | Some l => ct = CT_UDP ∧ ∃ lk, w_links w !! l = Some lk ∧ is_end i lk
  | None => ct = CT_TUNTAP
  end →
  (∀ l' lk, w_links w !! l' = Some lk → is_end i lk → l = Some l') →
  graph_wf X (ist w i it (<[n := with_slot j i nd]> (w_nodes w)) cm port tr).
Proof.
  intros [G1 G2 G3 G4 G5 G6 G7 G8 G9] HiX [it0 Hi0] Hn Hj Hf Hct Hcm Hl Hl'.
  pose proof (fi_node _ _ _ Hf) as Enode. pose proof (fi_link _ _ _ Hf) as Elink.
  assert (∀ m md, <[n := with_slot j i nd]> (w_nodes w) !! m = Some md →
    ∃ md0, w_nodes w !! m = Some md0 ∧
      n_intfs md = if decide (m = n) then <[j := Some i]> (n_intfs md0) else n_intfs md0) as Hnodes.
  { intros m md. rewrite lookup_insert. case_decide; subst.
    - intros [= <-]. exists nd. by rewrite decide_True.
    - intros Hm. exists md. by rewrite decide_False. }
  assert (∀ m, is_Some (w_nodes w !! m) → is_Some (<[n := with_slot j i nd]> (w_nodes w) !! m)) as Hlive
    by (intros m; apply insert_is_Some).
  assert (∀ m md k, w_nodes w !! m = Some md → n_intfs md !! k = Some (Some i) → False) as Hfree.
  { intros m md k Hm Hk%list_elem_of_lookup_2. destruct (G3 _ _ _ Hm Hk) as [[]%not_elem_of_cons _]. done. }
  pose proof (lookup_lt_Some _ _ _ Hj) as Hlt.
  assert (∀ k kt, k ≠ i → w_intfs w !! k = Some kt → <[i := it]> (w_intfs w) !! k = Some kt) as Hint
    by (intros; by rewrite lookup_insert_ne).
  split; cbn.
  - intros m md (md0 & Hm & ->)%Hnodes. case_decide; rewrite ?length_insert; eauto.
  - intros m md j1 j2 k (md0 & Hm & E)%Hnodes. rewrite E. case_decide as Hd; [|by eapply G2].
    subst m. assert (md0 = nd) as -> by congruence. rewrite !list_lookup_insert_Some.
    intros [(<- & [= <-] & _)|[? H1]] [(<- & ? & _)|[? H2]]; try done; simplify_eq; try (by exfalso; eauto).
    by eapply G2.
  - intros m md k (md0 & Hm & E)%Hnodes Hk. rewrite E in Hk.
    assert (Some k ∈ n_intfs md0 ∨ m = n ∧ k = i) as [Hold|[-> ->]].
    { case_decide as Hd; [|by left]. destruct (with_slot_elem j i md0 k Hk); [by left|by right]. }
    + destruct (G3 _ _ _ Hm Hold) as ([Hne HX]%not_elem_of_cons & kt & ? & ?). split; [done|].
      exists kt. auto.
    + split; [done|]. exists it. by rewrite lookup_insert_eq.
  - intros k kt Hk HX. destruct (decide (k = i)) as [->|Hne].
    + rewrite lookup_insert_eq in Hk. injection Hk as <-. rewrite Enode, lookup_insert_eq.
      eexists. split; [done|]. cbn. apply list_elem_of_lookup_2 with j. by apply list_lookup_insert_eq.
    + rewrite lookup_insert_ne in Hk by done.
      destruct (G4 k kt Hk) as (md & Hm & Hin); [by apply not_elem_of_cons|].
      destruct (decide (if_node kt = n)) as [E|E].
      * rewrite E, lookup_insert_eq. rewrite E in Hm. assert (md = nd) as -> by congruence.
        eexists. split; [done|]. cbn. apply list_elem_of_lookup_1 in Hin as [x Hx].
        apply list_elem_of_lookup_2 with x. rewrite list_lookup_insert_ne; [done|congruence].
      * rewrite lookup_insert_ne by done. by exists md.
  - intros k kt Hk HX. destruct (decide (k = i)) as [->|Hne].
    + rewrite lookup_insert_eq in Hk. injection Hk as <-. unfold end_ok. rewrite Elink.
      destruct l; [|by subst]. by destruct Hl as [-> ?].
    + rewrite lookup_insert_ne in Hk by done. apply G5; [done|by apply not_elem_of_cons].
  - intros l' lk Hlk. destruct (G6 _ _ Hlk) as [? Hends]. split; [done|]. intros k Hk.
    destruct (decide (k = i)) as [->|Hne].
    + exists it. rewrite lookup_insert_eq. split; [done|]. intros _. rewrite Elink. by eapply Hl'.
    + destruct (Hends k Hk) as (kt & ? & Hx). exists kt. split; [auto|]. intros HX. apply Hx. by apply not_elem_of_cons.
  - intros fd k Hk Hfd. destruct (entered_lookup _ _ _ _ _ _ Hcm Hk) as [Hold|(-> & -> & Hr)].
    + destruct (G7 _ _ Hold Hfd) as ([Hne HX]%not_elem_of_cons & ? & kt & ? & ?). split; [done|]. split; [done|]. exists kt. auto.
    + split; [done|]. split; [done|]. exists it. by rewrite lookup_insert_eq.
  - intros g gr Hg. destruct (G8 _ _ Hg). split; [done|]. auto.
  - done.
Qed.

(** A new graph, and a new node in a graph. *)
Lemma graph_wf_new_graph X w g gr k :
  graph_wf X w → w_graphs w !! g = None → g_nodes gr = [] →
  graph_wf X (set_graphs (<[g := gr]> (w_graphs w)) (set_next k w)).
Proof.
  intros [G1 G2 G3 G4 G5 G6 G7 G8 G9] Hg Hgr. split; cbn; try done.
  - intros g' gr'. rewrite lookup_insert. case_decide; [|apply G8]. intros [= <-]. rewrite Hgr.
    split; [constructor|set_solver].
  - intros g1 g2 gr1 gr2 n. rewrite !lookup_insert. do 2 case_decide; subst; intros E1 E2; simplify_eq;
      rewrite ?Hgr; solve [set_solver | by eapply G9].
Qed.

Lemma graph_wf_new_node X w g gr n nd k :
  graph_wf X w → w_graphs w !! g = Some gr → w_nodes w !! n = None →
  n_intfs nd = replicate MAX_INTFS_PER_NODE None →
  graph_wf X (set_graphs (<[g := mk_graph (g_name gr) (n :: g_nodes gr)]> (w_graphs w))
    (set_nodes (<[n := nd]> (w_nodes w)) (set_next k w))).
Proof.
  intros [G1 G2 G3 G4 G5 G6 G7 G8 G9] Hg Hn Hnd.
  assert (∀ m md, <[n := nd]> (w_nodes w) !! m = Some md → w_nodes w !! m = Some md ∨
    n_intfs md = replicate MAX_INTFS_PER_NODE None) as Hnew.
  { intros m md. rewrite lookup_insert. case_decide; [intros [= <-]; by right|by left]. }
  assert (∀ g' gr', w_graphs w !! g' = Some gr' → n ∉ g_nodes gr') as Hfresh.
  { intros g' gr' Hg' Hin. destruct (proj2 (G8 _ _ Hg') _ Hin) as [? ?]. congruence. }
  split; cbn.
  - intros m md [Hm| ->]%Hnew; [by eapply G1|]. by rewrite length_replicate.
  - intros m md j1 j2 i [Hm|E]%Hnew; [by eapply G2|]. rewrite E. by intros [? _]%lookup_replicate.
  - intros m md i [Hm|E]%Hnew; [by eapply G3|]. rewrite E. intros Hin%elem_of_replicate_inv. done.
  - intros i it Hi HX. destruct (G4 _ _ Hi HX) as (md & Hm & ?). exists md. rewrite lookup_insert_ne by congruence. done.
  - done.
  - done.
  - done.
  - intros g' gr'. rewrite lookup_insert. case_decide; subst.
    + intros [= <-]. destruct (G8 _ _ Hg) as [? Hl]. cbn. split.
      * apply NoDup_cons. split; [by eapply Hfresh|done].
      * intros m [->|Hm]%elem_of_cons; [rewrite lookup_insert_eq; by eexists|]. by apply insert_is_Some, Hl.
    + intros Hg'. destruct (G8 _ _ Hg') as [? Hl]. split; [done|]. intros m Hm. by apply insert_is_Some, Hl.
  - intros g1 g2 gr1 gr2 m. rewrite !lookup_insert. do 2 case_decide; subst; intros E1 E2; simplify_eq; cbn; try done.
    + intros [->|H1]%elem_of_cons H2; [by destruct (Hfresh _ _ E2)|by eapply G9].
    + intros H1 [->|H2]%elem_of_cons; [by destruct (Hfresh _ _ E1)|by eapply G9].
    + by eapply G9.
Qed.

Lemma graph_wf_init_world : graph_wf [] init_world.
Proof. split; intros *; cbn; rewrite ?lookup_empty; done. Qed.
