(* ===== verification/Frame.v ===== *)
(** * What a computation leaves alone

    [keeps R m] says that a computation that returns has changed the state only
    as the preorder [R] allows.  It is closed under the constructs of the
    programs, so the proof that a function keeps [R] follows its code and needs
    a fact about [R] only where the state is written; the tactic [frame] does
    this walk.  Instances: [placed], what the initialisation of an interface may
    do to the others, and [same_graph] and [arps_kept], what the socket functions
    may do to the graph and the ARP entries. *)
From S2P Require Import Prelude Cmonad Utils Skbuff World Topology Comm Ethernet Arp Route Ip.
From S2P Require Import Icmp Udp Tcp Stack Net Graph Invariant GraphInv.
#[local] Open Scope Z_scope.

Create HintDb keeps.

Section Keeps.
Context {S : Type} (R : relation S) `{!PreOrder R}.

Definition keeps {A} (m : M S A) : Prop := ∀ s, wp m (λ _ s', R s s') (λ _, True) s.

Lemma keeps_ok {A} (m : M S A) s a s' : keeps m → m s = Ok (a, s') → R s s'.
Proof. intros Hm E. specialize (Hm s). unfold wp in Hm. by rewrite E in Hm. Qed.

Lemma wp_keeps {A} (m : M S A) Q s :
  keeps m → (∀ a s', R s s' → Q a s') → wp m Q (λ _, True) s.
Proof. intros Hm HQ. eapply wp_post; [apply Hm|]. exact HQ. Qed.

Lemma keeps_bind {A B} (m : M S A) (k : A → M S B) :
  keeps m → (∀ a, keeps (k a)) → keeps (bind m k).
Proof.
  intros Hm Hk s. apply wp_bind, wp_keeps; [done|]. intros a s1 R1.
  apply wp_keeps; [done|]. intros b s2 R2. by etrans.
Qed.

Lemma keeps_ret {A} (a : A) : keeps (ret a).
Proof. intros s. by apply wp_ret. Qed.

Lemma keeps_raise {A} f : keeps (A := A) (raise f).
Proof. intros s. by apply wp_raise. Qed.

Lemma keeps_gets {A} (f : S → A) : keeps (gets f).
Proof. intros s. by apply wp_gets. Qed.

Lemma keeps_lift {A} (r : res A) : keeps (lift r).
Proof. intros s. apply wp_lift. by destruct r. Qed.

Lemma keeps_modify f : (∀ s, R s (f s)) → keeps (modify f).
Proof. intros Hf s. apply wp_modify, Hf. Qed.

Lemma keeps_assert b : keeps (assert_ b).
Proof. destruct b; [apply keeps_ret|apply keeps_raise]. Qed.

Lemma keeps_nonnull {A} (p : option A) : keeps (nonnull p).
Proof. destruct p; [apply keeps_ret|apply keeps_raise]. Qed.
End Keeps.

Section KeepsHeap.
Context (R : relation world) `{!PreOrder R} {A : Type} `{HeapLaws A}.

Lemma keeps_load p : keeps R (load (A := A) p).
Proof. intros w. by apply wp_load_inv. Qed.

Lemma keeps_store p (a : A) :
  (∀ w, is_Some (hget w !! p) → R w (hset (<[p := a]> (hget w)) w)) → keeps R (store p a).
Proof.
  intros HR w. unfold wp, store. destruct (hget w !! p) eqn:E; [|done]. apply HR. by eexists.
Qed.

Lemma keeps_update p (f : A → A) :
  (∀ w a, hget w !! p = Some a → R w (hset (<[p := f a]> (hget w)) w)) → keeps R (update p f).
Proof.
  intros HR w. unfold update. apply wp_bind, wp_load_inv; [|done]. intros a Ha.
  apply wp_store; [by eexists|]. by apply HR.
Qed.

Lemma keeps_alloc (a : A) :
  (∀ w, R w (hset (<[w_next w := a]> (hget w)) (set_next (Pos.succ (w_next w)) w))) → keeps R (alloc a).
Proof. intros HR w. apply wp_alloc, HR. Qed.

Lemma keeps_dealloc p :
  (∀ w, is_Some (hget w !! p) → R w (hset (delete p (hget w)) w)) → keeps R (dealloc (A := A) p).
Proof. intros HR w. unfold wp, dealloc. destruct (hget w !! p) eqn:E; [|done]. apply HR. by eexists. Qed.
End KeepsHeap.

Lemma keeps_on_skb (R : relation world) `{!PreOrder R} {A} k (m : M sk_buff A) :
  (∀ w s, R w (set_skbs (<[k := s]> (w_skbs w)) w)) → keeps R (on_skb k m).
Proof.
  intros HR. unfold on_skb. apply keeps_bind; [done|by apply (keeps_load R)|]. intros s.
  destruct (m s) as [[a s']|f]; [|by apply keeps_raise].
  apply keeps_bind; [done| |intros _; by apply keeps_ret].
  apply (keeps_store R). intros w _. apply HR.
Qed.

Lemma keeps_first_intf (R : relation world) `{!PreOrder R} test slots :
  (∀ it, keeps R (test it)) → keeps R (first_intf test slots).
Proof.
  intros Ht. induction slots as [|[i|] slots IH]; cbn [first_intf]; [by apply keeps_ret| |done].
  apply keeps_bind; [done|by apply (keeps_load R)|]. intros it.
  apply keeps_bind; [done|done|]. intros []; [by apply keeps_ret|done].
Qed.

(** Walking through a program; [keeps] holds the facts about the statements
    that write. *)
Ltac frame_step :=
  lazymatch goal with
  | |- keeps _ (bind _ _) => apply keeps_bind; [exact _| |intros ?]
  | |- keeps _ (ret _) => apply keeps_ret; exact _
  | |- keeps _ (raise _) => apply keeps_raise
  | |- keeps _ (gets _) => apply keeps_gets; exact _
  | |- keeps _ (lift _) => apply keeps_lift; exact _
  | |- keeps _ (assert_ _) => apply keeps_assert; exact _
  | |- keeps _ (nonnull _) => apply keeps_nonnull; exact _
  | |- keeps _ (load _) => apply keeps_load; exact _
  | |- keeps _ (first_intf _ _) => apply keeps_first_intf; [exact _|intros ?]
  | |- keeps _ (match ?x with _ => _ end) => destruct x
  | |- keeps _ _ => solve [eauto with keeps]
  end.
Ltac frame := repeat (cbv zeta; frame_step).

(** ** Interfaces that keep their place *)

(** The node and the link of an interface; they do not change while its
    addresses and its [comm] are set. *)
Definition place (it : intf) : ptr * option ptr := (if_node it, if_link it).

Definition placed (w w' : world) : Prop :=
  w_links w' = w_links w ∧ ∀ j, place <$> w_intfs w' !! j = place <$> w_intfs w !! j.

#[export] Instance placed_preorder : PreOrder placed.
Proof.
  split; [done|]. intros w1 w2 w3 [L1 I1] [L2 I2]. split; [congruence|]. intros j. by rewrite I2.
Qed.

Lemma placed_update_intf i (f : intf → intf) :
  (∀ it, place (f it) = place it) → keeps placed (update i f).
Proof.
  intros Hf. apply (keeps_update placed). intros w it Hit. cbn in *. split; [done|]. intros j. cbn.
  rewrite lookup_insert. case_decide; [|done]. subst. rewrite Hit. cbn. by rewrite Hf.
Qed.

Lemma placed_update_node n (f : node → node) : keeps placed (update n f).
Proof. apply (keeps_update placed). by split. Qed.
Lemma placed_emit e : keeps placed (emit e).
Proof. apply keeps_modify. by split. Qed.
Lemma placed_set_fd_comm fd c : keeps placed (set_fd_comm fd c).
Proof. unfold set_fd_comm. frame. apply keeps_modify. by split. Qed.
Lemma placed_next_udp_port p : keeps placed (modify (set_next_udp_port p)).
Proof. apply keeps_modify. by split. Qed.
#[export] Hint Resolve placed_update_node placed_emit placed_set_fd_comm placed_next_udp_port : keeps.
#[export] Hint Extern 1 (keeps placed (update _ _)) => apply placed_update_intf; by intros [] : keeps.

(** ** The functions that leave the topology as it is

    What such a function needs of a preorder: it allows changes of the addresses
    and the sockets of an interface, of the tables of a node, and of everything
    that is no part of the topology. *)

Class KeepsTopology (R : relation world) : Prop := {
  kt_preorder :: PreOrder R;
  kt_intf w i it it' : w_intfs w !! i = Some it → ishape it' = ishape it →
    R w (set_intfs (<[i := it']> (w_intfs w)) w);
  kt_node w n nd nd' : w_nodes w !! n = Some nd → n_intfs nd' = n_intfs nd →
    R w (set_nodes (<[n := nd']> (w_nodes w)) w);
  kt_rest w w' : w_graphs w' = w_graphs w → w_nodes w' = w_nodes w → w_intfs w' = w_intfs w →
    w_links w' = w_links w → w_arps w' = w_arps w → w_fd_to_comm w' = w_fd_to_comm w → R w w';
}.

Section SocketFunctions.
Context (R : relation world) `{!KeepsTopology R}.

Lemma kept_on_skb {A} k (m : M sk_buff A) : keeps R (on_skb k m).
Proof. apply keeps_on_skb; [exact _|]. intros. by apply kt_rest. Qed.

Lemma kept_update_intf i (f : intf → intf) : (∀ it, ishape (f it) = ishape it) → keeps R (update i f).
Proof. intros Hf. apply (keeps_update R). intros w it Hit. by apply (kt_intf w i it). Qed.

Lemma kept_update_node n (f : node → node) : (∀ nd, n_intfs (f nd) = n_intfs nd) → keeps R (update n f).
Proof. intros Hf. apply (keeps_update R). intros w nd Hn. by apply (kt_node w n nd). Qed.

(** Writes to the objects that are no part of the topology. *)
Ltac kept_write :=
  lazymatch goal with
  | |- keeps _ (modify _) => apply keeps_modify; intros; by apply kt_rest
  | |- keeps _ (update (A := intf) _ _) => apply kept_update_intf; by intros []
  | |- keeps _ (update (A := node) _ _) => apply kept_update_node; by intros []
  | |- keeps _ (update _ _) => apply (keeps_update R); intros; by apply kt_rest
  | |- keeps _ (alloc _) => apply (keeps_alloc R); intros; by apply kt_rest
  | |- keeps _ (dealloc _) => apply (keeps_dealloc R); intros; by apply kt_rest
  | |- keeps _ (on_skb _ _) => apply kept_on_skb
  end.
#[local] Hint Extern 2 (keeps _ _) => kept_write : keeps.

Lemma kept_matching_intf n ip : keeps R (_get_matching_interface n ip).
Proof. unfold _get_matching_interface. frame. Qed.
#[local] Hint Resolve kept_matching_intf : keeps.

Lemma kept_udp_socket n : keeps R (udp_socket n).
Proof. unfold udp_socket. frame. Qed.
Lemma kept_udp_bind fd ip port : keeps R (udp_bind fd ip port).
Proof. unfold udp_bind, is_good_udp_sock. frame. Qed.
Lemma kept_udp_recvfrom fd size ip port : keeps R (udp_recvfrom fd size ip port).
Proof. unfold udp_recvfrom, is_good_udp_sock, free_skb. frame. Qed.
Lemma kept_udp_close fd : keeps R (udp_close fd).
Proof. unfold udp_close, is_good_udp_sock. frame. Qed.

Lemma kept_tcp_socket n : keeps R (tcp_socket n).
Proof. unfold tcp_socket. frame. Qed.
Lemma kept_tcp_bind fd ip port : keeps R (tcp_bind fd ip port).
Proof. unfold tcp_bind, is_good_tcp_sock. frame. Qed.
Lemma kept_tcp_listen fd : keeps R (tcp_listen fd).
Proof. unfold tcp_listen, is_good_tcp_sock. frame. Qed.
Lemma kept_accept_from conns : keeps R (accept_from conns).
Proof. induction conns as [|c conns IH]; cbn [accept_from]; frame; exact IH. Qed.
#[local] Hint Resolve kept_accept_from : keeps.
Lemma kept_tcp_accept fd : keeps R (tcp_accept fd).
Proof. unfold tcp_accept, is_good_tcp_sock. frame. Qed.
Lemma kept_tcp_recv fd size : keeps R (tcp_recv fd size).
Proof. unfold tcp_recv, estab_connection, is_good_tcp_connection_sock, free_skb. frame. Qed.
Lemma kept_tcp_close fd : keeps R (tcp_close fd).
Proof. unfold tcp_close, is_good_tcp_sock. frame. Qed.

Lemma kept_loopback n ip : keeps R (node_set_loopback_address n ip).
Proof. unfold node_set_loopback_address. frame. Qed.
Lemma kept_intf_ip n name ip mask : keeps R (node_set_intf_ip_addr n name ip mask).
Proof. unfold node_set_intf_ip_addr, get_node_if_by_name, rt_table_add_route. frame. Qed.
Lemma kept_add_route n dst mask next i : keeps R (rt_table_add_route n dst mask next i).
Proof. unfold rt_table_add_route. frame. Qed.
Lemma kept_ip_forward b : keeps R (set_ip_forward b).
Proof. unfold set_ip_forward. frame. Qed.
Lemma kept_callbacks s r : keeps R (set_send_callback_ s ;;; set_receive_callback_ r).
Proof. unfold set_send_callback_, set_receive_callback_. frame. Qed.
End SocketFunctions.

#[export] Hint Resolve kept_udp_socket kept_udp_bind kept_udp_recvfrom kept_udp_close kept_tcp_socket
  kept_tcp_bind kept_tcp_listen kept_tcp_accept kept_tcp_recv kept_tcp_close kept_loopback
  kept_intf_ip kept_add_route kept_ip_forward kept_callbacks : keeps.

(** The graph is kept. *)
#[export] Instance same_graph_keeps : KeepsTopology same_graph.
Proof.
  split; [split; [exact same_graph_refl|exact same_graph_trans]|intros w p a a' Ha E..|].
  - split; try done. cbn. rewrite fmap_insert, E. apply insert_id. by rewrite lookup_fmap, Ha.
  - split; try done. cbn. rewrite fmap_insert, E. apply insert_id. by rewrite lookup_fmap, Ha.
  - intros w w' ? E1 E2 ? _ ?. split; congruence.
Qed.

(** The interfaces of the ARP entries exist. *)
Definition arps_live (w : world) : Prop :=
  ∀ e en, w_arps w !! e = Some en → is_Some (w_intfs w !! arp_intf en).
Definition arps_kept (w w' : world) : Prop := arps_live w → arps_live w'.

Lemma arps_kept_intro w w' :
  w_arps w' = w_arps w → (∀ i, is_Some (w_intfs w !! i) → is_Some (w_intfs w' !! i)) → arps_kept w w'.
Proof. intros E Hi Hl e en. rewrite E. intros He. by eapply Hi, Hl. Qed.

#[export] Instance arps_kept_keeps : KeepsTopology arps_kept.
Proof.
  split; [split|intros w i it it' ? _..|].
  - intros w Hl. exact Hl.
  - intros w1 w2 w3. unfold arps_kept. auto.
  - apply arps_kept_intro; [done|]. intros j. apply insert_is_Some.
  - by apply arps_kept_intro.
  - intros w w' _ _ Ei _ Ea _. apply arps_kept_intro; [done|]. by rewrite Ei.
Qed.

Lemma arps_kept_evolves X w w' : evolves X w w' → arps_kept w w'.
Proof.
  intros He Hl e en Hen. rewrite (ev_intfs _ _ _ He).
  destruct (ev_arps _ _ _ He _ _ Hen) as [(en0 & Hen0 & <-)|?]; [by eapply Hl|done].
Qed.

(** The construction of the graph does not touch the entries either. *)
Section Construction.
Context `{Os}.

Ltac arps_write :=
  lazymatch goal with
  | |- keeps _ (modify _) => apply keeps_modify; intros; by apply arps_kept_intro
  | |- keeps _ (emit _) => apply keeps_modify; intros; by apply arps_kept_intro
  | |- keeps _ (update (A := intf) _ _) =>
      apply (keeps_update arps_kept); intros; apply arps_kept_intro; [done|intros j; apply insert_is_Some]
  | |- keeps _ (update _ _) => apply (keeps_update arps_kept); intros; by apply arps_kept_intro
  | |- keeps _ (alloc (A := intf) _) =>
      apply (keeps_alloc arps_kept); intros; apply arps_kept_intro; [done|intros j; apply insert_is_Some]
  | |- keeps _ (alloc _) => apply (keeps_alloc arps_kept); intros; by apply arps_kept_intro
  end.
#[local] Hint Extern 2 (keeps arps_kept _) => arps_write : keeps.

Lemma arps_kept_bind_loop fuel i fd : keeps arps_kept (bind_loop fuel i fd).
Proof.
  induction fuel as [|fuel IH]; cbn [bind_loop]; [apply keeps_raise|].
  unfold get_next_udp_port, update_comm, sys_bind. frame.
Qed.
#[local] Hint Resolve arps_kept_bind_loop : keeps.

Lemma arps_kept_init_comm i ct : keeps arps_kept (init_comm i ct).
Proof.
  unfold init_comm, udp_init_comm, tuntap_init_comm, tun_alloc, set_fd_comm, sys_socket, sys_open_tun,
    sys_ioctl_tun, update_comm. frame.
Qed.
#[local] Hint Resolve arps_kept_init_comm : keeps.

Lemma arps_kept_init_interface i name n l ct : keeps arps_kept (init_interface i name n l ct).
Proof. unfold init_interface, interface_assign_mac_address. frame. Qed.
#[local] Hint Resolve arps_kept_init_interface : keeps.

Lemma arps_kept_new_graph name : keeps arps_kept (create_new_graph name).
Proof. unfold create_new_graph. frame. Qed.
Lemma arps_kept_new_node g name : keeps arps_kept (create_graph_node g name).
Proof. unfold create_graph_node. frame. Qed.
Lemma arps_kept_link n1 n2 name1 name2 cost :
  keeps arps_kept (insert_link_between_two_nodes n1 n2 name1 name2 cost).
Proof. unfold insert_link_between_two_nodes. frame. Qed.
Lemma arps_kept_tuntap n name : keeps arps_kept (insert_tuntap_interface n name).
Proof. unfold insert_tuntap_interface. frame. Qed.
End Construction.
#[export] Hint Resolve arps_kept_new_graph arps_kept_new_node arps_kept_link arps_kept_tuntap : keeps.

(** What handling packets changes is no part of the graph either. *)
Lemma evolves_same_graph X w w' : evolves X w w' → same_graph w w'.
Proof.
  intros He. split; [|by rewrite (ev_intfs _ _ _ He)|apply He..].
  pose proof (ev_topo _ _ _ He) as Ht. unfold topo in Ht.
  apply (f_equal (fmap (M := gmap ptr) fst)) in Ht. by rewrite <- !map_fmap_compose in Ht.
Qed.
