(* ===== verification/SkbRules.v ===== *)
(** * Rules for computations on a buffer

    [shape s0 s] says that [s] is well formed and agrees with [s0] in everything
    but the bytes of its block.  The rules step through the code that reads and
    writes headers while keeping track of the window and of the header pointers
    only; reads give arbitrary values of their width. *)
From S2P Require Import Prelude Cmonad Utils Skbuff Ip.
#[local] Open Scope Z_scope.

Record shape (s0 s : sk_buff) : Prop := {
  sh_wf : skb_wf s;
  sh_intf : skb_intf s = skb_intf s0;
  sh_ip : skb_ip_hdr s = skb_ip_hdr s0;
  sh_udp : skb_udp_hdr s = skb_udp_hdr s0;
  sh_len : skb_len s = skb_len s0;
  sh_data : skb_data s = skb_data s0;
  sh_tail : skb_tail s = skb_tail s0;
  sh_end : skb_end s = skb_end s0;
}.

Lemma shape_refl s : skb_wf s → shape s s.
Proof. by split. Qed.

(** The window of the description is that of a well-formed buffer. *)
Lemma shape_window s0 s :
  shape s0 s →
  0 <= skb_data s0 ∧ skb_data s0 <= skb_tail s0 <= skb_end s0 ∧
  skb_len s0 = skb_tail s0 - skb_data s0 ∧ skb_end s0 < 2 ^ 63 ∧
  Z.of_nat (length (skb_head s)) = skb_end s0 + 7.
Proof. intros [[] ? ? ? <- <- <- <-]. auto. Qed.

Lemma shape_head s0 s h :
  shape s0 s → length h = length (skb_head s) → Forall is_u8 h → shape s0 (skb_set_head h s).
Proof. intros [[] ? ? ? ? ? ? ?] El ?. split; try done. split; simpl; auto. by rewrite El. Qed.

Section Rules.
Context (s0 s : sk_buff) (Hs : shape s0 s) (E : fault → Prop).

Lemma wp_s_rdn o n Q :
  0 <= o → 0 <= n → o + n <= skb_end s0 + 7 →
  (∀ bs, length bs = Z.to_nat n → Forall is_u8 bs → Q bs s) → wp (s_rdn o n) Q E s.
Proof.
  intros ? ? ? HQ. destruct (shape_window _ _ Hs) as (? & ? & ? & ? & Hl).
  unfold s_rdn, wp. rewrite rdn_ok by lia. cbn.
  destruct Hs as [[]]. apply HQ; [apply length_slice; lia|by apply Forall_slice].
Qed.

Lemma wp_s_rd_le n o Q :
  0 <= o → o + Z.of_nat n <= skb_end s0 + 7 →
  (∀ v, 0 <= v < 256 ^ Z.of_nat n → Q v s) → wp (λ s, lift (rd_le n (skb_head s) o) s) Q E s.
Proof.
  intros ? ? HQ. destruct (shape_window _ _ Hs) as (? & ? & ? & ? & Hl).
  unfold wp. rewrite rd_le_ok by lia. cbn. apply HQ. destruct Hs as [[]].
  pose proof (le_decode_bound _ (Forall_slice _ o (Z.of_nat n) _ wf_bytes)) as Hb.
  by rewrite length_slice, Nat2Z.id in Hb by lia.
Qed.

Lemma wp_s_rd8 o Q :
  0 <= o → o + 1 <= skb_end s0 + 7 → (∀ v, is_u8 v → Q v s) → wp (s_rd8 o) Q E s.
Proof. apply (wp_s_rd_le 1). Qed.
Lemma wp_s_rd16 o Q :
  0 <= o → o + 2 <= skb_end s0 + 7 → (∀ v, is_u16 v → Q v s) → wp (s_rd16 o) Q E s.
Proof. apply (wp_s_rd_le 2). Qed.
Lemma wp_s_rd32 o Q :
  0 <= o → o + 4 <= skb_end s0 + 7 → (∀ v, is_u32 v → Q v s) → wp (s_rd32 o) Q E s.
Proof. apply (wp_s_rd_le 4). Qed.

Lemma wp_s_wrn o bs Q :
  0 <= o → o + Z.of_nat (length bs) <= skb_end s0 + 7 → Forall is_u8 bs →
  (∀ s', shape s0 s' → Q tt s') → wp (s_wrn o bs) Q E s.
Proof.
  intros ? ? ? HQ. destruct (shape_window _ _ Hs) as (? & ? & ? & ? & Hl).
  unfold s_wrn, wp. rewrite wrn_ok by lia. apply HQ, shape_head; [done| |].
  - apply length_splice; lia.
  - destruct Hs as [[]]. by apply Forall_splice.
Qed.

(** The same, keeping track of what is written. *)
Lemma wp_s_wrn_full o bs Q :
  0 <= o → o + Z.of_nat (length bs) <= skb_end s0 + 7 → Forall is_u8 bs →
  (∀ s', shape s0 s' → wrn (skb_head s) o bs = Ok (skb_head s') → Q tt s') →
  wp (s_wrn o bs) Q E s.
Proof.
  intros ? ? ? HQ. destruct (shape_window _ _ Hs) as (? & ? & ? & ? & Hl).
  unfold s_wrn, wp. rewrite wrn_ok by lia. apply HQ; [apply shape_head; [done| |]|].
  - apply length_splice; lia.
  - destruct Hs as [[]]. by apply Forall_splice.
  - by rewrite wrn_ok by lia.
Qed.

Lemma wp_s_wr8 o v Q :
  0 <= o → o + 1 <= skb_end s0 + 7 → (∀ s', shape s0 s' → Q tt s') → wp (s_wr8 o v) Q E s.
Proof. intros. apply wp_s_wrn; auto using le_encode_bytes. Qed.
Lemma wp_s_wr16 o v Q :
  0 <= o → o + 2 <= skb_end s0 + 7 → (∀ s', shape s0 s' → Q tt s') → wp (s_wr16 o v) Q E s.
Proof. intros. apply wp_s_wrn; auto using le_encode_bytes. Qed.
Lemma wp_s_wr32 o v Q :
  0 <= o → o + 4 <= skb_end s0 + 7 → (∀ s', shape s0 s' → Q tt s') → wp (s_wr32 o v) Q E s.
Proof. intros. apply wp_s_wrn; auto using le_encode_bytes. Qed.

Lemma shape_set_window l d t :
  0 <= d → d <= t <= skb_end s0 → l = t - d →
  shape (skb_set_window l d t s0) (skb_set_window l d t s).
Proof.
  intros. destruct Hs as [? ? ? ? ? ? ? He]. split; try done.
  apply skb_window_wf; [done..| |done]. by rewrite He.
Qed.

Lemma wp_skb_reserve n Q :
  0 <= n → skb_tail s0 + n <= skb_end s0 →
  (∀ s', shape (skb_set_window (skb_len s0) (skb_data s0 + n) (skb_tail s0 + n) s0) s' →
         Q tt s') →
  wp (skb_reserve n) Q E s.
Proof.
  intros ? ? HQ. destruct (shape_window _ _ Hs) as (? & ? & ? & ? & Hl).
  destruct Hs as [Hwf ? ? ? El Ed Et Ee].
  unfold wp. rewrite skb_reserve_spec by done. unfold skb_tailroom. rewrite decide_True by lia.
  apply HQ. rewrite El, Ed, Et. apply shape_set_window; lia.
Qed.

Lemma wp_skb_push n Q :
  0 <= n <= skb_data s0 →
  (∀ s', shape (skb_set_window (skb_len s0 + n) (skb_data s0 - n) (skb_tail s0) s0) s' →
         Q (skb_data s0 - n) s') →
  wp (skb_push n) Q E s.
Proof.
  intros ? HQ. destruct (shape_window _ _ Hs) as (? & ? & ? & ? & Hl).
  destruct Hs as [Hwf ? ? ? El Ed Et Ee].
  unfold wp. rewrite skb_push_spec by done || lia. unfold skb_headroom.
  rewrite decide_True by lia. rewrite El, Ed, Et. apply HQ, shape_set_window; lia.
Qed.

Lemma wp_skb_pull n Q :
  0 <= n →
  (n <= skb_len s0 →
   ∀ s', shape (skb_set_window (skb_len s0 - n) (skb_data s0 + n) (skb_tail s0) s0) s' →
         Q (skb_data s0 + n) s') →
  (skb_len s0 < n → E AssertFail) →
  wp (skb_pull n) Q E s.
Proof.
  intros ? HQ HE. destruct (shape_window _ _ Hs) as (? & ? & ? & ? & Hl).
  destruct Hs as [Hwf ? ? ? El Ed Et Ee].
  unfold wp. rewrite skb_pull_spec by done || lia. rewrite El, Ed, Et.
  case_decide; [|apply HE; lia]. apply HQ; [done|]. apply shape_set_window; lia.
Qed.

Lemma wp_skb_put n Q :
  0 <= n → skb_tail s0 + n <= skb_end s0 →
  (∀ s', shape (skb_set_window (skb_len s0 + n) (skb_data s0) (skb_tail s0 + n) s0) s' →
         Q (skb_tail s0) s') →
  wp (skb_put n) Q E s.
Proof.
  intros ? ? HQ. destruct (shape_window _ _ Hs) as (? & ? & ? & ? & Hl).
  destruct Hs as [Hwf ? ? ? El Ed Et Ee].
  unfold wp. rewrite skb_put_spec by done || lia. unfold skb_tailroom.
  rewrite decide_True by lia. rewrite El, Ed, Et. apply HQ, shape_set_window; lia.
Qed.

Lemma wp_s_calc_checksum o n Q :
  0 <= o → 0 <= n <= 2 ^ 17 → o + n <= skb_end s0 + 7 →
  (∀ c, Q c s) → wp (s_calc_checksum o n) Q E s.
Proof.
  intros ? ? ? HQ. destruct (shape_window _ _ Hs) as (? & ? & ? & ? & Hl).
  destruct Hs as [[]]. unfold s_calc_checksum, wp. rewrite calc_checksum_16_spec by done || lia.
  apply HQ.
Qed.
End Rules.

(** A field that was written, and a field that a write did not reach. *)
Lemma rd32_written h o v h' : wrn h o (le_encode 4 v) = Ok h' → rd32 h' o = Ok (wrap32 v).
Proof.
  intros Hw. unfold rd32, rd_le. rewrite (rdn_wrn_eq h o (le_encode 4 v) h' (Z.of_nat 4)) by done.
  by rewrite le_decode_encode.
Qed.
Lemma rd32_untouched h o bs h' o' :
  wrn h o bs = Ok h' → o' + 4 <= o ∨ o + Z.of_nat (length bs) <= o' → rd32 h' o' = rd32 h o'.
Proof. intros Hw Hd. unfold rd32, rd_le. by rewrite (rdn_wrn_ne _ _ _ _ _ _ Hw) by lia. Qed.

(** Reading a field and keeping its value. *)
Lemma wp_s_rd32_full s o Q E :
  (∀ v, rd32 (skb_head s) o = Ok v → is_u32 v → Q v s) →
  skb_wf s → 0 <= o → o + 4 <= skb_end s + 7 → wp (s_rd32 o) Q E s.
Proof.
  intros HQ Hwf ? ?. pose proof Hwf as []. unfold wp, s_rd32.
  assert (rd32 (skb_head s) o = Ok (le_decode (slice o 4 (skb_head s)))) as Hr by (apply (rd_le_ok 4); lia).
  rewrite Hr. apply HQ; [done|].
  pose proof (le_decode_bound _ (Forall_slice _ o 4 _ wf_bytes)) as Hb.
  by rewrite length_slice in Hb by lia.
Qed.

(** Assignments to the pointer fields. *)
Lemma shape_set_intf s0 s i : shape s0 s → shape (skb_set_intf i s0) (skb_set_intf i s).
Proof. intros [[] ? ? ? ? ? ? ?]. by split. Qed.
Lemma shape_set_ip_hdr s0 s h : shape s0 s → shape (skb_set_ip_hdr h s0) (skb_set_ip_hdr h s).
Proof. intros [[] ? ? ? ? ? ? ?]. by split. Qed.
Lemma shape_set_udp_hdr s0 s h : shape s0 s → shape (skb_set_udp_hdr h s0) (skb_set_udp_hdr h s).
Proof. intros [[] ? ? ? ? ? ? ?]. by split. Qed.
Lemma shape_set_tcp_hdr s0 s h : shape s0 s → shape s0 (skb_set_tcp_hdr h s).
Proof. intros [[] ? ? ? ? ? ? ?]. by split. Qed.
Lemma shape_set_ethernet_hdr s0 s h : shape s0 s → shape s0 (skb_set_ethernet_hdr h s).
Proof. intros [[] ? ? ? ? ? ? ?]. by split. Qed.

(** The size of the current packet. *)
Lemma wp_gets_len s0 s Q E :
  shape s0 s → Q (skb_len s0) s → wp (gets skb_len) Q E s.
Proof. intros [? ? ? ? El]. unfold wp, gets. by rewrite El. Qed.

(** One statement on a buffer: [sstep] finds the rule, and [lia] the bounds. *)
Ltac sbound := cbn in *; repeat match goal with H : shape _ _ |- _ =>
  apply shape_window in H; cbn in H end; lia.

Ltac srule H :=
  lazymatch goal with
  | |- wp (s_rdn _ _) _ _ _ => eapply (wp_s_rdn _ _ H)
  | |- wp (s_rd8 _) _ _ _ => eapply (wp_s_rd8 _ _ H)
  | |- wp (s_rd16 _) _ _ _ => eapply (wp_s_rd16 _ _ H)
  | |- wp (s_rd32 _) _ _ _ => eapply (wp_s_rd32 _ _ H)
  | |- wp (s_wrn _ _) _ _ _ => eapply (wp_s_wrn _ _ H)
  | |- wp (s_wr8 _ _) _ _ _ => eapply (wp_s_wr8 _ _ H)
  | |- wp (s_wr16 _ _) _ _ _ => eapply (wp_s_wr16 _ _ H)
  | |- wp (s_wr32 _ _) _ _ _ => eapply (wp_s_wr32 _ _ H)
  | |- wp (skb_reserve _) _ _ _ => eapply (wp_skb_reserve _ _ H)
  | |- wp (skb_push _) _ _ _ => eapply (wp_skb_push _ _ H)
  | |- wp (skb_pull _) _ _ _ => eapply (wp_skb_pull _ _ H)
  | |- wp (skb_put _) _ _ _ => eapply (wp_skb_put _ _ H)
  | |- wp (gets skb_len) _ _ _ => eapply (wp_gets_len _ _ _ _ H)
  | |- wp (s_calc_checksum _ _) _ _ _ => eapply (wp_s_calc_checksum _ _ H)
  end.
