(* ===== verification/LinkSafe.v ===== *)
(** * Sending keeps the invariant: comm.c and ethernet.c

    A computation that changes the buffer [k] and the history of system calls
    only ([only_skb]), the rule for code that works on an owned buffer, and the
    contract of the functions that take a packet over: they end in a
    well-formed state, and when they return [false] the packet is still there,
    owned by the caller. *)
From S2P Require Import Prelude Cmonad Utils Skbuff World Topology Comm Ethernet Ip Invariant.
From S2P Require Import SkbRules.
#[local] Open Scope Z_scope.

Definition only_skb (k : ptr) (w w' : world) : Prop :=
  ∃ t m, w' = set_trace t (set_skbs m w) ∧ ∀ k', k' ≠ k → m !! k' = w_skbs w !! k'.

Lemma only_skb_refl k w : only_skb k w w.
Proof. exists (w_trace w), (w_skbs w). split; [by destruct w|done]. Qed.

Lemma only_skb_trace k w w' t : only_skb k w w' → only_skb k w (set_trace t w').
Proof. intros (t1 & m & -> & Hm). by exists t, m. Qed.

Lemma only_skb_trans k w1 w2 w3 : only_skb k w1 w2 → only_skb k w2 w3 → only_skb k w1 w3.
Proof.
  intros (t1 & m1 & -> & H1) (t2 & m2 & -> & H2). exists t2, m2. split; [done|].
  intros k' Hk. rewrite H2 by done. cbn. by apply H1.
Qed.

Lemma only_skb_wf k w w' s :
  wf w → owned w k s → only_skb k w w' → wf w' ∧ evolves (Some k) w w' ∧ ¬ queued w' k.
Proof.
  intros Hw (Hk & Hs & Hnq) (t & m & -> & Hm). split_and!; [| |done].
  - apply wf_trace, wf_skbs; [done| |].
    + intros k' Hq. apply Hm. by intros ->.
    + intros p Hp. destruct (decide (p = k)) as [->|Hne].
      * by rewrite (wf_unused_skbs _ Hw k Hp) in Hk.
      * rewrite Hm by done. by apply wf_unused_skbs.
  - split; eauto with cprog. intros k' s1 Hne (H1 & H2 & H3). split_and!; [|done|done].
    cbn. rewrite Hm; [done|]. by intros ->.
Qed.

Lemma only_skb_owned k w w' s s' :
  wf w → owned w k s → only_skb k w w' → w_skbs w' !! k = Some s' → skb_wf s' → owned w' k s'.
Proof. intros Hw Ho Hok Hk Hs'. by destruct (only_skb_wf _ _ _ _ Hw Ho Hok) as (_ & _ & ?). Qed.

(** Code on an owned buffer. *)
Lemma wp_own {A} k (m : M sk_buff A) s Q E w :
  wf w → owned w k s →
  wp m (λ a s', skb_wf s' ∧
        ∀ w', wf w' → owned w' k s' → evolves (Some k) w w' → only_skb k w w' → Q a w') E s →
  wp (on_skb k m) Q E w.
Proof.
  intros Hw Ho Hm. apply (wp_on_skb _ _ s); [by apply owned_lookup|].
  eapply wp_mono; [exact Hm| |done]. cbv beta. intros a s' [Hs' HQ].
  destruct (owned_update w k s s' Hw Ho Hs') as (? & ? & ?).
  apply HQ; [done..|]. exists (w_trace w), (<[k := s']> (w_skbs w)). split; [by destruct w|].
  intros k' Hk. by rewrite lookup_insert_ne.
Qed.

(** Code that only reads the buffer. *)
Lemma wp_own_read {A} k (m : M sk_buff A) s Q E w :
  w_skbs w !! k = Some s → wp m (λ a s', s' = s ∧ Q a w) E s → wp (on_skb k m) Q E w.
Proof.
  intros Hk Hm. apply (wp_on_skb _ _ s); [done|].
  eapply wp_mono; [exact Hm| |done]. cbv beta. intros a s' [-> HQ]. by rewrite set_skbs_id.
Qed.

(** The contract of the functions that take a packet over. *)
Definition consumed (k : ptr) (w : world) (r : bool) (w' : world) : Prop :=
  wf w' ∧ evolves (Some k) w w' ∧ (r = false → ∃ s', owned w' k s').

Lemma consumed_trans k w w1 r w2 :
  evolves (Some k) w w1 → consumed k w1 r w2 → consumed k w r w2.
Proof. intros H1 (? & ? & ?). split_and!; eauto with cprog. Qed.

Lemma consumed_false k w w' s : wf w' → evolves (Some k) w w' → owned w' k s → consumed k w false w'.
Proof. intros. split_and!; eauto. Qed.

Lemma consumed_true k w w' : wf w' → evolves (Some k) w w' → consumed k w true w'.
Proof. intros. by split_and!. Qed.

#[export] Hint Resolve consumed_false consumed_true : cprog.

Lemma wp_consumed_trans k w w1 (m : W bool) E :
  evolves (Some k) w w1 → wp m (consumed k w1) E w1 → wp m (consumed k w) E w1.
Proof. intros H1 H2. eapply wp_mono; [exact H2| |done]. eauto using consumed_trans. Qed.

(** ** comm.c *)

Section Link.
Context `{Os} (E : fault → Prop).

Lemma wf_intf_link w i it l :
  wf w → w_intfs w !! i = Some it → if_link it = Some l →
  ∃ lk, w_links w !! l = Some lk ∧ is_Some (w_intfs w !! l_intf1 lk) ∧
        is_Some (w_intfs w !! l_intf2 lk).
Proof. intros Hw. apply (st_intf_link _ _ _ _ (wf_static _ Hw)). Qed.

Lemma wp_get_nbr_if i it Q w :
  wf w → w_intfs w !! i = Some it →
  (∀ r, (∀ j, r = Some j → is_Some (w_intfs w !! j)) → Q r w) → wp (get_nbr_if i) Q E w.
Proof.
  intros Hw Hi HQ. apply wp_bind, (wp_load _ it); [done|].
  destruct (if_link it) as [l|] eqn:El.
  - destruct (wf_intf_link _ _ _ _ Hw Hi El) as (lk & Hl & H1 & H2).
    apply wp_bind, (wp_load _ lk); [done|]. apply wp_ret, HQ. intros j [= <-].
    by case_bool_decide.
  - apply wp_ret, HQ. done.
Qed.

(** Transmission leaves events in the history and changes nothing else. *)
Lemma wp_send_bytes_out bytes i Q w :
  wf w → is_Some (w_intfs w !! i) → (∀ r t, Q r (set_trace t w)) →
  wp (send_bytes_out bytes i) Q E w.
Proof.
  intros Hw [it Hi] HQ. unfold send_bytes_out. mstep. mstep. mstep.
  set (w1 := if w_send_callback w then set_trace (w_trace w ++ [ESendCallback bytes i]) w else w).
  assert (∃ t, w1 = set_trace t w) as [t Ht].
  { subst w1. destruct (w_send_callback w); [by eexists|]. exists (w_trace w). by destruct w. }
  apply (wp_mono _ (λ _ w2, w2 = w1) _ E E); [|intros _ w2 ->|done].
  { subst w1. by destruct (w_send_callback w). }
  rewrite Ht. clearbody w1. clear Ht w1.
  mstep. apply (wp_load _ it); [done|]. mstep.
  destruct (st_intf_op _ _ _ _ (wf_static _ Hw) _ _ Hi) as [o Eo]. rewrite Eo. mstep.
  assert (wf (set_trace t w)) as Hw' by by apply wf_trace.
  destruct o.
  - unfold udp_send_bytes. mstep. apply (wp_load _ it); [done|]. mstep.
    apply (wp_get_nbr_if _ it); [done..|]. intros r Hr.
    destruct r as [j|]; [|by wsteps; apply HQ].
    destruct (Hr j eq_refl) as [jt Hj]. mstep. apply (wp_load _ jt); [done|].
    destruct (_ || _); [by wsteps; apply HQ|].
    unfold sys_sendto. wsteps. case_match; wsteps; apply HQ.
  - unfold tuntap_send_bytes. mstep. apply (wp_load _ it); [done|].
    unfold sys_write. wsteps. apply HQ.
Qed.

Lemma wp_skb_bytes k s Q w :
  w_skbs w !! k = Some s → skb_wf s → Q (skb_payload s) w → wp (skb_bytes k) Q E w.
Proof.
  intros Hk [] HQ. unfold skb_bytes. mstep. apply (wp_load _ s); [done|].
  apply wp_lift. by rewrite rdn_ok by lia.
Qed.

(** The packet is freed exactly when it is sent. *)
Definition sent (k : ptr) (w : world) (r : bool) (w' : world) : Prop :=
  only_skb k w w' ∧
  if r then w_skbs w' !! k = None else ∃ s', w_skbs w' !! k = Some s' ∧ skb_wf s'.

Lemma sent_consumed k w s r w' : wf w → owned w k s → sent k w r w' → consumed k w r w'.
Proof.
  intros Hw Ho [Hok Hr]. destruct (only_skb_wf _ _ _ _ Hw Ho Hok) as (? & ? & ?).
  split_and!; [done..|]. intros ->. destruct Hr as (s' & ? & ?).
  exists s'. by apply (only_skb_owned k w w' s).
Qed.

Lemma wp_send_pkt_out i k s w :
  wf w → is_Some (w_intfs w !! i) → w_skbs w !! k = Some s → skb_wf s →
  wp (send_pkt_out i k) (sent k w) E w.
Proof.
  intros Hw Hi Hk Hs. unfold send_pkt_out. mstep. apply (wp_skb_bytes _ s); [done..|].
  mstep. apply wp_send_bytes_out; [done..|]. intros r t. mstep.
  destruct (0 <=? r).
  - apply (wp_dealloc _ s); [done|]. mstep. split; [|apply lookup_delete_eq].
    exists t, (delete k (w_skbs w)). split; [done|]. intros k' ?. by apply lookup_delete_ne.
  - mstep. mstep. split; [apply only_skb_trace, only_skb_refl|]. by exists s.
Qed.

(** ** ethernet.c *)

Lemma wp_ethernet_output i mac proto k s w :
  wf w → owned w k s → sendable s → is_Some (w_intfs w !! i) →
  length mac = 6%nat → Forall is_u8 mac →
  wp (ethernet_output i mac proto k) (sent k w) E w.
Proof.
  intros Hw Ho [Hd He] [it Hi] Hmac Hb. unfold ethernet_output.
  destruct (st_intf_mac _ _ _ _ (wf_static _ Hw) _ _ Hi) as [Hl6 Hu8].
  pose proof (shape_refl _ (owned_skb_wf _ _ _ Ho)) as Hsh.
  mstep. apply (wp_load _ it); [done|]. mstep. apply (wp_own _ _ s); [done..|].
  unfold ETH_HDR_SIZE, eth_dst_mac, eth_src_mac, eth_type.
  mstep. srule Hsh; [lia|]. intros s1 H1.
  mstep. srule H1; [sbound|sbound|done|]. intros s2 H2.
  mstep. srule H2; [sbound|sbound|done|]. intros s3 H3.
  mstep. srule H3; [sbound|sbound|]. intros s4 H4.
  assert (∀ s', skb_wf s' → ∀ w', wf w' → owned w' k s' → evolves (Some k) w w' →
            only_skb k w w' → wp (send_pkt_out i k) (sent k w) E w') as Hend.
  { intros s' Hs' w' Hw' Ho' He' Hok'. eapply wp_mono; [apply (wp_send_pkt_out i k s')| |done].
    - done.
    - rewrite (ev_intfs _ _ _ He'). by eexists.
    - by apply owned_lookup.
    - done.
    - intros r w2 [Hok2 Hr]. split; [by eapply only_skb_trans|done]. }
  mstep. srule H4. cbn. destruct (Z.ltb_spec (skb_len s + 14) 60).
  - mstep. srule H4; [sbound|sbound|]. intros s5 H5. mstep.
    split; [apply H5|]. apply Hend, H5.
  - mstep. split; [apply H4|]. apply Hend, H4.
Qed.
End Link.
