(* ===== verification/ArpSafe.v ===== *)
(** * ARP keeps the invariant: arp.c *)
From S2P Require Import Prelude Cmonad Utils Skbuff World Topology Comm Ethernet Arp Ip Invariant.
From S2P Require Import SkbRules LinkSafe.
#[local] Open Scope Z_scope.

Section ArpSafe.
Context `{Os} (E : fault → Prop).

(** A new buffer is owned by the code that allocates it. *)
Lemma wp_alloc_skb size Q w :
  wf w → 0 <= size < 2 ^ 63 →
  (∀ k w', wf w' → owned w' k (alloc_skb size) → evolves None w w' → w_skbs w !! k = None →
           Q k w') →
  wp (alloc (alloc_skb size)) Q E w.
Proof.
  intros Hw Hs HQ. apply wp_alloc.
  destruct (owned_alloc w (alloc_skb size)) as (? & ? & ?); [done|by apply alloc_skb_wf|].
  apply HQ; [done..|]. apply wf_unused_skbs; [done|lia].
Qed.

Lemma topo_node w n x : topo w !! n = Some x → ∃ nd, w_nodes w !! n = Some nd ∧ n_static nd = x.
Proof. unfold topo. rewrite lookup_fmap. intros (nd & ? & ->)%fmap_Some. by exists nd. Qed.

Lemma node_topo w n nd : w_nodes w !! n = Some nd → topo w !! n = Some (n_static nd).
Proof. intros Hn. unfold topo. by rewrite lookup_fmap, Hn. Qed.

Lemma intf_node w i it : wf w → w_intfs w !! i = Some it → ∃ nd, w_nodes w !! if_node it = Some nd.
Proof.
  intros Hw Hi. destruct (st_intf_node _ _ _ _ (wf_static _ Hw) _ _ Hi) as [x Hx].
  destruct (topo_node _ _ _ Hx) as (nd & ? & _). by exists nd.
Qed.

(** ** Requests *)

Lemma wp_fill_arp_hdr opcode it thw tip Q s :
  shape (alloc_skb 134) s →
  length (IF_MAC it) = 6%nat → Forall is_u8 (IF_MAC it) → length thw = 6%nat → Forall is_u8 thw →
  (∀ s', shape (skb_set_window 28 32 60 (alloc_skb 134)) s' → Q tt s') →
  wp (fill_arp_hdr opcode it thw tip) Q E s.
Proof.
  intros H0 Hm1 Hm2 Ht1 Ht2 HQ. unfold fill_arp_hdr, BUFF_HEADROOM, ARP_HDR_SIZE.
  unfold arp_hw_type, arp_proto_type, arp_hw_addr_len, arp_proto_addr_len, arp_opcode,
    arp_sender_hw_addr, arp_sender_proto_addr, arp_target_hw_addr, arp_target_proto_addr.
  mstep. srule H0; [sbound..|]. intros s1 H1.
  mstep. srule H1; [sbound..|]. intros s2 H2.
  mstep. srule H2; [sbound..|]. intros s3 H3.
  mstep. srule H3; [sbound..|]. intros s4 H4.
  mstep. srule H4; [sbound..|]. intros s5 H5.
  mstep. srule H5; [sbound..|]. intros s6 H6.
  mstep. srule H6; [sbound..|]. intros s7 H7.
  mstep. srule H7; [sbound|sbound|done|]. intros s8 H8.
  mstep. srule H8; [sbound..|]. intros s9 H9.
  mstep. srule H9; [sbound|sbound|done|]. intros s10 H10.
  srule H10; [sbound..|]. intros s11 H11. by apply HQ.
Qed.

Lemma arp_skb_sendable s :
  shape (skb_set_window 28 32 60 (alloc_skb 134)) s → sendable s.
Proof. intros []. unfold sendable. simpl in *. lia. Qed.

Lemma wp_send_arp_broadcast_request i ip w :
  wf w → is_Some (w_intfs w !! i) →
  wp (send_arp_broadcast_request i ip) (λ _ w', wf w' ∧ evolves None w w') E w.
Proof.
  intros Hw [it Hi]. unfold send_arp_broadcast_request.
  destruct (st_intf_mac _ _ _ _ (wf_static _ Hw) _ _ Hi) as [Hl6 Hu8].
  mstep. apply wp_alloc_skb; [done|done|]. intros k w1 Hw1 Ho1 He1 Hk.
  mstep. apply (wp_load _ it); [by cbn; rewrite (ev_intfs _ _ _ He1)|].
  mstep. apply (wp_own _ _ (alloc_skb 134)); [done..|].
  assert (Forall is_u8 [0; 0; 0; 0; 0; 0]) by (by repeat constructor).
  apply wp_fill_arp_hdr; [by apply shape_refl, alloc_skb_wf|done..|].
  intros s Hs. split; [apply Hs|]. intros w2 Hw2 Ho2 He2 _.
  mstep. eapply wp_mono; [apply (wp_ethernet_output _ _ _ _ _ s)| |done].
  - done.
  - done.
  - by apply arp_skb_sendable.
  - rewrite (ev_intfs _ _ _ He2), (ev_intfs _ _ _ He1). by eexists.
  - done.
  - repeat constructor; unfold is_u8; lia.
  - intros r w3 Hsent. pose proof (sent_consumed _ _ _ _ _ Hw2 Ho2 Hsent) as (Hw3 & He3 & Ho3).
    assert (evolves None w w3) as He.
    { apply (evolves_fresh _ w1 _ k); [done..|]. by eapply evolves_trans. }
    destruct r; [by mstep|]. destruct (Ho3 eq_refl) as (s3 & Ho).
    apply (wp_dealloc _ s3); [by apply owned_lookup|].
    destruct (owned_free _ _ _ Hw3 Ho) as [? ?]. split; [done|].
    apply (evolves_fresh _ w1 _ k); [done..|]. eauto using evolves_trans.
Qed.

Lemma wp_send_arp_reply_msg i k' s' shdr w :
  wf w → is_Some (w_intfs w !! i) → owned w k' s' → 0 <= shdr → shdr + 28 <= skb_end s' + 7 →
  wp (send_arp_reply_msg i k' shdr) (λ _ w', wf w' ∧ evolves None w w') E w.
Proof.
  intros Hw [it Hi] Ho' Hh1 Hh2. unfold send_arp_reply_msg.
  destruct (st_intf_mac _ _ _ _ (wf_static _ Hw) _ _ Hi) as [Hl6 Hu8].
  pose proof (shape_refl _ (owned_skb_wf _ _ _ Ho')) as Hsh'.
  mstep. apply wp_alloc_skb; [done|done|]. intros k w1 Hw1 Ho1 He1 Hk.
  pose proof (ev_owned _ _ _ He1 k' s' ltac:(done) Ho') as Ho1'.
  mstep. apply (wp_load _ it); [by cbn; rewrite (ev_intfs _ _ _ He1)|].
  unfold arp_sender_hw_addr, arp_sender_proto_addr.
  mstep. apply (wp_own_read _ _ s'); [by apply owned_lookup|].
  srule Hsh'; [lia|done|unfold MAC_ADDR_SIZE; lia|]. intros shw Hlen Hshw. split; [done|].
  mstep. apply (wp_own_read _ _ s'); [by apply owned_lookup|].
  srule Hsh'; [lia|lia|]. intros sip _. split; [done|].
  mstep. apply (wp_own _ _ (alloc_skb 134)); [done..|].
  apply wp_fill_arp_hdr; [by apply shape_refl, alloc_skb_wf|done..|].
  intros s Hs. split; [apply Hs|]. intros w2 Hw2 Ho2 He2 _.
  mstep. eapply wp_mono; [apply (wp_ethernet_output _ _ _ _ _ s)| |done].
  - done.
  - done.
  - by apply arp_skb_sendable.
  - rewrite (ev_intfs _ _ _ He2), (ev_intfs _ _ _ He1). by eexists.
  - done.
  - done.
  - intros r w3 Hsent. pose proof (sent_consumed _ _ _ _ _ Hw2 Ho2 Hsent) as (Hw3 & He3 & Ho3).
    mstep. split; [done|]. apply (evolves_fresh _ w1 _ k); [done..|]. by eapply evolves_trans.
Qed.

(** ** The table *)

Lemma wp_arp_lookup_from ip l Q w :
  (∀ e, e ∈ l → is_Some (w_arps w !! e)) →
  (∀ r, (∀ e, r = Some e → ∃ en, w_arps w !! e = Some en ∧ e ∈ l ∧ arp_ip en = ip) → Q r w) →
  wp (arp_lookup_from ip l) Q E w.
Proof.
  induction l as [|e l IH]; intros Hl HQ; cbn [arp_lookup_from].
  - mstep. by apply HQ.
  - destruct (Hl e) as [en He]; [set_solver|]. mstep. apply (wp_load _ en); [done|].
    destruct (Z.eqb_spec (arp_ip en) ip).
    + mstep. apply HQ. intros ? [= <-]. exists en. set_solver.
    + apply IH; [set_solver|]. intros r Hr. apply HQ. intros e' ->.
      destruct (Hr e' eq_refl) as (en' & ? & ? & ?). exists en'. set_solver.
Qed.

Lemma wp_arp_table_lookup n ip Q w :
  wf w → is_Some (topo w !! n) →
  (∀ r, (∀ e, r = Some e → is_Some (w_arps w !! e)) → Q r w) →
  wp (arp_table_lookup n ip) Q E w.
Proof.
  intros Hw [x (nd & Hn & _)%topo_node] HQ. unfold arp_table_lookup.
  mstep. apply (wp_load _ nd); [done|]. apply wp_arp_lookup_from.
  - intros e. apply (aw_table _ _ (wf_arp _ Hw) n). unfold tables. by rewrite lookup_fmap, Hn.
  - intros r Hr. apply HQ. intros e ->. destruct (Hr e eq_refl) as (en & ? & _). by exists en.
Qed.

(** ** Replies *)

(** Every pending packet leaves the queue; the entry keeps its address. *)
Lemma wp_send_pending e en pkts w :
  wf w → w_arps w !! e = Some en → arp_pending en = pkts →
  wp (send_pending e pkts) (λ _ w', wf w' ∧ evolves None w w' ∧
    w_arps w' !! e = Some (arp_set_pending [] en)) E w.
Proof.
  revert en w. induction pkts as [|k pkts IH]; intros en w Hw He Hp; cbn [send_pending].
  { mstep. split_and!; auto with cprog. rewrite He. f_equal. by destruct en; simpl in *; subst. }
  destruct (wf_remove_arp w e en k) as (Hw1 & He1 & s & i & Ho1 & Hsend & Hi & Hlive);
    [done..|rewrite Hp; set_solver|].
  assert (list_remove k (arp_pending en) = pkts) as Hrest.
  { rewrite Hp. simpl. by rewrite decide_True. }
  rewrite Hrest in *.
  set (en1 := arp_set_pending pkts en) in *.
  mstep. apply (wp_update _ _ en); [done|]. rewrite Hrest. fold en1.
  set (w1 := hset _ w) in *. change (set_arps _ w) with w1 in *.
  assert (w_arps w1 !! e = Some en1) as Hen1 by apply lookup_insert_eq.
  mstep. apply (wp_load _ s); [by apply owned_lookup|]. rewrite Hi. mstep. mstep.
  mstep. apply (wp_load _ en1); [done|]. mstep.
  destruct (aw_mac _ _ (wf_arp _ Hw) _ _ He) as [Hl6 Hu8].
  eapply wp_mono; [by apply (wp_ethernet_output _ _ _ _ _ s)| |done].
  intros r w2 Hsent. cbv beta.
  pose proof (sent_consumed _ _ _ _ _ Hw1 Ho1 Hsent) as (Hw2 & He2 & Ho2).
  destruct Hsent as [Hok Hr].
  assert (∃ w3, wp (if r then ret tt else free_skb k) (λ _ w', w' = w3) E w2 ∧
    wf w3 ∧ evolves (Some k) w2 w3 ∧ w_arps w3 = w_arps w2) as (w3 & Hwp & Hw3 & He3 & Ha3).
  { destruct r.
    - exists w2. split_and!; auto with cprog. by mstep.
    - destruct (Ho2 eq_refl) as (s2 & Ho). destruct (owned_free _ _ _ Hw2 Ho).
      eexists. split_and!; [|done|done|done]. by apply (wp_dealloc _ s2); [apply owned_lookup|]. }
  mstep. eapply wp_mono; [exact Hwp| |done]. cbv beta. intros _ w' ->.
  eapply wp_mono; [apply (IH en1 w3)| |done].
  - done.
  - rewrite Ha3. destruct Hok as (t & m & -> & _). exact Hen1.
  - done.
  - cbv beta. intros _ w4 (Hw4 & He4 & Ha4). split_and!; [done| |done].
    eapply evolves_trans; [|exact He4]. apply (evolves_unowned _ _ k); [eauto using evolves_trans|].
    intros s' (_ & _ & Hnq). apply Hnq. exists (QArp e). unfold queue_of.
    rewrite (queue_arp_Some _ _ _ _ en) by done. rewrite Hp. set_solver.
Qed.

Lemma wp_arp_table_update n k s hdr i w :
  wf w → is_Some (topo w !! n) → owned w k s → 0 <= hdr → hdr + 28 <= skb_end s + 7 →
  wp (arp_table_update_from_arp_reply n k hdr i) (λ _ w', wf w' ∧ evolves None w w') E w.
Proof.
  intros Hw Hn Ho Hh1 Hh2. unfold arp_table_update_from_arp_reply.
  pose proof (shape_refl _ (owned_skb_wf _ _ _ Ho)) as Hsh.
  unfold arp_sender_hw_addr, arp_sender_proto_addr, MAC_ADDR_SIZE.
  mstep. apply (wp_own_read _ _ s); [by apply owned_lookup|]. srule Hsh; [lia..|].
  intros sip _. split; [done|].
  mstep. apply wp_arp_table_lookup; [done..|]. intros [e|] Hr; [|by wsteps; auto with cprog].
  destruct (Hr e eq_refl) as [en He]. destruct (aw_mac _ _ (wf_arp _ Hw) _ _ He) as [Hl6 Hu8].
  mstep. apply (wp_update _ _ en); [done|].
  destruct (wf_arps_same w e en (arp_set_resolved en) None) as (Hw1 & He1 & _); [done..|].
  set (w1 := hset _ w) in *. change (set_arps _ w) with w1 in *.
  pose proof (ev_owned _ _ _ He1 k s ltac:(done) Ho) as Ho1.
  mstep. apply (wp_own_read _ _ s); [by apply owned_lookup|]. srule Hsh; [lia..|].
  intros mac Hmac Hmacb. split; [done|].
  assert (w_arps w1 !! e = Some (arp_set_resolved en)) as Hen1 by apply lookup_insert_eq.
  mstep. apply (wp_update _ _ (arp_set_resolved en)); [done|].
  destruct (wf_arps_same w1 e (arp_set_resolved en) (arp_set_mac mac (arp_set_resolved en)) None)
    as (Hw2 & He2 & _); [done..|].
  set (w2 := hset _ w1) in *. change (set_arps _ w1) with w2 in *.
  assert (w_arps w2 !! e = Some (arp_set_mac mac (arp_set_resolved en))) as Hen2
    by apply lookup_insert_eq.
  mstep. apply (wp_load _ (arp_set_mac mac (arp_set_resolved en))); [done|].
  eapply wp_mono; [by apply (wp_send_pending e (arp_set_mac mac (arp_set_resolved en)))| |done].
  cbv beta. intros _ w3 (? & ? & _). split; eauto with cprog.
Qed.

Lemma wp_arp_input k s i w :
  wf w → owned w k s → skb_intf s = Some i → is_Some (w_intfs w !! i) →
  wp (arp_input k) (consumed k w) E w.
Proof.
  intros Hw Ho Hi [it Hit]. unfold arp_input.
  pose proof (shape_refl _ (owned_skb_wf _ _ _ Ho)) as Hsh.
  destruct (shape_window _ _ Hsh) as (? & ? & ? & ? & ?).
  mstep. apply (wp_load _ s); [by apply owned_lookup|]. unfold ARP_HDR_SIZE.
  destruct (Z.ltb_spec (skb_len s) 28); [mstep; eauto with cprog|].
  unfold arp_opcode. mstep. apply (wp_own_read _ _ s); [by apply owned_lookup|].
  srule Hsh; [lia..|]. intros op _. split; [done|].
  mstep. apply (wp_mono _ (λ _ w', wf w' ∧ evolves None w w') _ E E); [| |done].
  - rewrite Hi. destruct (op =? _); [|destruct (op =? _)].
    + mstep. mstep. unfold process_arp_broadcast_request.
      mstep. apply (wp_load _ it); [done|]. unfold arp_target_proto_addr.
      mstep. apply (wp_own_read _ _ s); [by apply owned_lookup|]. srule Hsh; [lia..|].
      intros tip _. split; [done|].
      destruct (negb _); [mstep; auto with cprog|]. mstep.
      eapply wp_mono; [apply (wp_send_arp_reply_msg i k s)| |done]; [done|by eexists|done|lia|lia|].
      cbv beta. intros. by mstep.
    + mstep. mstep. unfold process_arp_reply_msg. mstep. apply (wp_load _ it); [done|].
      mstep. eapply wp_mono; [apply (wp_arp_table_update _ k s)| |done]; [done| |done|lia|lia|].
      * by apply (st_intf_node _ _ _ _ (wf_static _ Hw) i).
      * cbv beta. intros. by mstep.
    + mstep. auto with cprog.
  - cbv beta. intros r w' [Hw' He]. pose proof (ev_owned _ _ _ He k s ltac:(done) Ho) as Ho'.
    mstep. destruct r.
    + apply (wp_dealloc _ s); [by apply owned_lookup|]. mstep.
      destruct (owned_free _ _ _ Hw' Ho'). eauto using consumed_true with cprog.
    + mstep. mstep. eauto with cprog.
Qed.
End ArpSafe.
