(* ===== verification/IpSafe.v ===== *)
(** * The IP layer keeps the invariant: ip.c

    The contract [IpLayerOk] of [ip_output], against which the protocols are
    verified, and its proof for [ip_output_with] on top of any function that
    delivers a packet sent to an address of the node itself. *)
From S2P Require Import Prelude Cmonad Utils Skbuff World Topology Comm Ethernet Arp Route Ip.
From S2P Require Import Invariant SkbRules LinkSafe ArpSafe.
#[local] Open Scope Z_scope.

(** ** Routing *)

Lemma rt_lookup_from_ok ip routes me de mm :
  (∀ r, r ∈ routes → 0 <= rt_mask r <= 30) →
  ∃ o, rt_lookup_from ip routes me de mm = Ok o ∧
       ∀ e, o = Some e → e ∈ routes ∨ me = Some e ∨ de = Some e.
Proof.
  revert me de mm. induction routes as [|r routes IH]; intros me de mm Hm; cbn [rt_lookup_from].
  - eexists. split; [done|]. destruct me; auto.
  - assert (∀ r', r' ∈ routes → 0 <= rt_mask r' <= 30) as Hm' by (intros; apply Hm; set_solver).
    destruct (rt_dst r =? 0).
    + destruct (IH me (Some r) mm Hm') as (o & -> & Ho). exists o. split; [done|].
      intros e He. destruct (Ho e He) as [?|[?|?]]; simplify_eq; set_solver.
    + unfold IP_NET_EQ, INT_IP_MASKED, MASK_IP. rewrite low_mask_spec.
      rewrite decide_True by (apply Hm; set_solver). cbn [rbind].
      destruct (_ && _).
      * destruct (IH (Some r) de (rt_mask r) Hm') as (o & -> & Ho). exists o. split; [done|].
        intros e He. destruct (Ho e He) as [?|[?|?]]; simplify_eq; set_solver.
      * destruct (IH me de mm Hm') as (o & -> & Ho). exists o. split; [done|].
        intros e He. destruct (Ho e He) as [?|[?|?]]; simplify_eq; set_solver.
Qed.

Section IpSafe.
Context `{Os} (E : fault → Prop).

Lemma wp_is_ip_local n ip Q w :
  wf w → is_Some (topo w !! n) →
  (∀ b : bool, (b = true ↔ local_ip w n ip) → Q b w) → wp (is_ip_local n ip) Q E w.
Proof.
  intros Hw [x Hx] HQ. destruct (topo_node _ _ _ Hx) as (nd & Hn & <-).
  unfold is_ip_local. mstep. apply (wp_load _ nd); [done|].
  destruct (first_intf_spec (λ it, IF_IP it =? ip) (λ it, ret (IF_IP it =? ip)) (n_intfs nd) w)
    as (r & Hr & Hspec); [done| |].
  { intros i Hi. destruct (st_node_intf _ _ _ _ (wf_static _ Hw) n _ _ i Hx Hi) as (it & ? & _).
    by exists it. }
  mstep. unfold wp at 1. rewrite Hr. mstep. apply HQ. rewrite bool_decide_eq_true.
  destruct r as [i|].
  - split; [|by eexists]. intros _. destruct Hspec as (it & Hi & Hit & He).
    exists (n_intfs nd), (n_rt_table (n_nw nd)), i, it. zbool; done.
  - split; [by intros []|]. intros (sl & rt & i & it & Ht & Hi & Hit & <-).
    rewrite Hx in Ht. unfold n_static in Ht. simplify_eq. specialize (Hspec i it Hi Hit). zbool; done.
Qed.

(** ** Output *)

Lemma wp_find_or_add n ip i Q w :
  wf w → is_Some (topo w !! n) → is_Some (w_intfs w !! i) →
  (∀ e w', wf w' → evolves None w w' → is_Some (w_arps w' !! e) → Q e w') →
  wp (find_or_add_arp_entry n ip i) Q E w.
Proof.
  intros Hw Hn Hi HQ. unfold find_or_add_arp_entry.
  mstep. apply wp_arp_table_lookup; [done..|]. intros [e|] He.
  { mstep. apply HQ; auto with cprog. }
  destruct Hn as [x (nd & Hn & _)%topo_node].
  destruct (wf_new_arp w n nd (init_arp_entry ip i) None) as (Hw' & He' & Ha); try done.
  { by repeat constructor. }
  mstep. apply wp_alloc. unfold arp_table_entry_add. mstep. mstep.
  apply (wp_update _ _ nd); [done|]. mstep. mstep. apply HQ; [done..|by eexists].
Qed.

Lemma wp_ip_transmit n entry dst k s i w :
  wf w → is_Some (topo w !! n) → owned w k s → sendable s →
  skb_intf s = Some i → is_Some (w_intfs w !! i) →
  wp (ip_transmit n entry dst k) (consumed k w) E w.
Proof.
  intros Hw Hn Ho Hsend Hi Hlive. unfold ip_transmit.
  mstep. apply (wp_mono _ (λ _ w', w' = w) _ E E); [| |done].
  { destruct (_ =? _); [|by mstep]. mstep. apply wp_arp_table_lookup; [done..|].
    intros. by mstep. }
  intros target w' ->. mstep. apply (wp_load _ s); [by apply owned_lookup|].
  rewrite Hi. mstep. mstep. mstep. apply wp_find_or_add; [done..|].
  intros e w1 Hw1 He1 [en Hen].
  pose proof (ev_owned _ _ _ He1 k s ltac:(done) Ho) as Ho1.
  assert (is_Some (w_intfs w1 !! i)) as Hlive1 by by rewrite (ev_intfs _ _ _ He1).
  mstep. apply (wp_load _ en); [done|].
  destruct (arp_resolved en); cbn [negb].
  - destruct (aw_mac _ _ (wf_arp _ Hw1) _ _ Hen).
    eapply wp_mono; [by apply (wp_ethernet_output _ _ _ _ _ s)| |done].
    cbv beta. intros r w2 Hs. eapply consumed_trans; [by apply evolves_weaken|].
    by eapply sent_consumed.
  - destruct (wf_push_arp w1 e en k s i) as [Hw2 He2]; [done..|].
    mstep. apply (wp_update _ _ en); [done|].
    mstep. eapply wp_mono; [apply wp_send_arp_broadcast_request| |done].
    + exact Hw2.
    + exact Hlive1.
    + cbv beta. intros _ w3 [Hw3 He3]. mstep. apply consumed_true; [done|].
      eapply evolves_trans; [by apply evolves_weaken|].
      eapply evolves_trans; [exact He2|by apply evolves_weaken].
Qed.

(** What [deliver] must do with a packet of the node to itself. *)
Definition deliver_ok (deliver : ptr → W bool) : Prop := ∀ w k s i,
  wf w → owned w k s → sendable s → skb_ip_hdr s = None →
  skb_intf s = Some i → is_Some (w_intfs w !! i) → E NullDeref → E AssertFail →
  wp (deliver k) (consumed k w) E w.

Context (deliver : ptr → W bool) (Hdel : deliver_ok deliver).

Lemma wp_fill_ip_hcksum hdr s0 s Q :
  shape s0 s → 0 <= hdr → hdr + 60 <= skb_end s0 + 7 →
  (∀ s', shape s0 s' → Q tt s') → wp (fill_ip_hcksum hdr) Q E s.
Proof.
  intros Hs Hh1 Hh2 HQ. unfold fill_ip_hcksum, calc_ip_hcksum, ip_ver_hlen, ip_hcksum.
  mstep. mstep. srule Hs; [lia|lia|]. intros b Hb.
  srule Hs; [lia| | |].
  - rewrite land_15. zdiv.
  - rewrite land_15. zdiv.
  - intros c. srule Hs; [lia|lia|done].
Qed.

Lemma wp_ip_postroute n k s w :
  wf w → is_Some (topo w !! n) → owned w k s → sendable s →
  (∀ dst, rd32 (skb_head s) (skb_data s + 16) = Ok dst → local_ip w n dst →
          skb_ip_hdr s = None ∧ E NullDeref ∧ E AssertFail) →
  wp (ip_postroute deliver n k) (consumed k w) E w.
Proof.
  intros Hw Hn Ho Hsend Hloc. pose proof (owned_skb_wf _ _ _ Ho) as Hwf.
  pose proof (shape_refl _ Hwf) as Hsh. pose proof Hsend as [Hs1 Hs2].
  unfold ip_postroute, ip_dst_ip, ip_src_ip.
  mstep. apply (wp_load _ s); [by apply owned_lookup|].
  mstep. apply (wp_own_read _ _ s); [by apply owned_lookup|].
  apply wp_s_rd32_full; [|done|lia|lia]. intros dst Hdst _. split; [done|].
  destruct Hn as [x Hx]. destruct (topo_node _ _ _ Hx) as (nd & Hnd & <-).
  mstep. apply (wp_load _ nd); [done|].
  assert (∀ r, r ∈ n_rt_table (n_nw nd) → is_Some (w_intfs w !! rt_intf r) ∧ 0 <= rt_mask r <= 30)
    as Hrt by (intros r; apply (st_node_route _ _ _ _ (wf_static _ Hw) n _ _ _ Hx)).
  destruct (rt_lookup_from_ok dst (n_rt_table (n_nw nd)) None None 0) as (o & Eo & Hmem).
  { intros r Hr. by apply Hrt. }
  mstep. apply (wp_lift_ok o); [exact Eo|].
  destruct o as [entry|]; [|wsteps; eauto using consumed_false with cprog].
  destruct (Hrt entry) as [[it Hit] _]; [destruct (Hmem entry eq_refl) as [?|[?|?]]; done|].
  case_match; [mstep; eauto using consumed_false with cprog|].
  mstep. apply (wp_own _ _ s); [done..|]. mstep.
  pose proof (shape_set_intf _ _ (Some (rt_intf entry)) Hsh) as Hsh1.
  split; [apply Hsh1|]. intros w1 Hw1 Ho1 He1 _.
  mstep. apply (wp_load _ it); [by cbn; rewrite (ev_intfs _ _ _ He1)|].
  mstep. eapply wp_own; [done..|]. srule Hsh1; [sbound..|]. intros s2 Hsh2.
  split; [apply Hsh2|]. intros w2 Hw2 Ho2 He2 _.
  mstep. eapply wp_own; [done..|]. eapply wp_fill_ip_hcksum; [exact Hsh2|sbound|sbound|].
  intros s3 Hsh3. split; [apply Hsh3|]. intros w3 Hw3 Ho3 He3 _.
  assert (evolves (Some k) w w3) as He by eauto using evolves_trans.
  assert (is_Some (topo w3 !! n)) as Hn3 by (rewrite (ev_topo _ _ _ He); by eexists).
  assert (sendable s3) as Hsend3 by (destruct Hsh3; unfold sendable; cbn in *; lia).
  assert (skb_intf s3 = Some (rt_intf entry)) as Hi3 by apply Hsh3.
  assert (is_Some (w_intfs w3 !! rt_intf entry)) as Hlive3
    by (rewrite (ev_intfs _ _ _ He); by eexists).
  mstep. apply wp_is_ip_local; [done..|]. intros local Hlocal.
  apply wp_consumed_trans; [done|]. destruct local.
  - destruct (Hloc dst Hdst) as (Hip & ? & ?).
    { eapply evolves_local; [exact He|]. by apply Hlocal. }
    apply (Hdel _ _ s3 (rt_intf entry)); try done. by rewrite (sh_ip _ _ Hsh3).
  - by apply (wp_ip_transmit _ _ _ _ s3 (rt_intf entry)).
Qed.

(** [ip_output] makes the header in the 20 bytes before the payload. *)
Lemma wp_ip_output_with n ip proto k s w :
  wf w → is_Some (topo w !! n) → owned w k s → skb_ip_hdr s = None →
  34 <= skb_data s → skb_data s + 40 <= skb_end s →
  (local_ip w n (wrap32 ip) → E NullDeref ∧ E AssertFail) →
  wp (ip_output_with deliver n ip proto k) (consumed k w) E w.
Proof.
  intros Hw Hn Ho Hip Hd1 Hd2 Hloc. pose proof (shape_refl _ (owned_skb_wf _ _ _ Ho)) as S0.
  unfold ip_output_with, init_ip_hdr, IP_HDR_SIZE, ip_ver_hlen, ip_ttl, ip_dst_ip, ip_proto,
    ip_total_len.
  mstep. apply (wp_own _ _ s); [done..|].
  mstep. srule S0; [lia|]. intros s1 S1.
  mstep. mstep. srule S1; [sbound|cbn; sbound|by repeat constructor|]. intros s2 S2.
  mstep. mstep. srule S2; [sbound..|]. intros b1 _. srule S2; [sbound..|]. intros s3 S3.
  mstep. mstep. srule S3; [sbound..|]. intros b2 _. srule S3; [sbound..|]. intros s4 S4.
  srule S4; [sbound..|]. intros s5 S5.
  mstep. eapply (wp_s_wrn_full _ _ S5); [sbound|cbn; sbound|apply le_encode_bytes|].
  intros s6 S6 Hw6.
  mstep. eapply (wp_s_wrn_full _ _ S6); [sbound|cbn; sbound|apply le_encode_bytes|].
  intros s7 S7 Hw7.
  mstep. srule S7. eapply (wp_s_wrn_full _ _ S7); [sbound|cbn; sbound|apply le_encode_bytes|].
  intros s8 S8 Hw8. split; [apply S8|]. intros w1 Hw1 Ho1 He1 _.
  apply wp_consumed_trans; [done|]. eapply wp_ip_postroute; [done| |done| |].
  - by rewrite (ev_topo _ _ _ He1).
  - destruct S8; unfold sendable; cbn in *; lia.
  - intros dst Hdst Hl. rewrite (sh_ip _ _ S8). split; [done|]. apply Hloc.
    assert (dst = wrap32 ip) as <-; [|by eapply evolves_local].
    rewrite (sh_data _ _ S8) in Hdst. cbn in Hdst.
    rewrite (rd32_untouched _ _ _ _ _ Hw8) in Hdst by (cbn; lia).
    rewrite (rd32_untouched _ _ _ _ _ Hw7) in Hdst by (cbn; lia).
    rewrite (rd32_written _ _ _ _ Hw6) in Hdst. by simplify_eq.
Qed.

(** ** Forwarding *)

Lemma wp_ip_forward k s i it w :
  wf w → owned w k s → sendable s → skb_intf s = Some i → w_intfs w !! i = Some it →
  (∀ dst, rd32 (skb_head s) (skb_data s + 16) = Ok dst → ¬ local_ip w (if_node it) dst) →
  wp (ip_forward deliver k) (consumed k w) E w.
Proof.
  intros Hw Ho Hsend Hi Hit Hloc. pose proof (shape_refl _ (owned_skb_wf _ _ _ Ho)) as S0.
  pose proof Hsend as [Hs1 Hs2]. unfold ip_forward, ip_ttl.
  mstep. mstep. case_match; [mstep; eauto using consumed_false with cprog|].
  mstep. apply (wp_load _ s); [by apply owned_lookup|].
  mstep. apply (wp_own_read _ _ s); [by apply owned_lookup|]. srule S0; [lia..|].
  intros ttl _. split; [done|].
  case_match; [mstep; eauto using consumed_false with cprog|].
  mstep. apply (wp_own _ _ s); [done..|].
  eapply (wp_s_wrn_full _ _ S0); [lia|cbn; lia|apply le_encode_bytes|]. intros s1 S1 Hwr.
  split; [apply S1|]. intros w1 Hw1 Ho1 He1 _. apply wp_consumed_trans; [done|].
  case_match; [mstep; eauto using consumed_false with cprog|].
  rewrite Hi. mstep. mstep. mstep. apply (wp_load _ it); [by cbn; rewrite (ev_intfs _ _ _ He1)|].
  mstep. apply (wp_own _ _ s1); [done..|]. mstep.
  pose proof (shape_set_intf _ _ None S1) as S2.
  split; [apply S2|]. intros w2 Hw2 Ho2 He2 _. apply wp_consumed_trans; [done|].
  assert (evolves (Some k) w w2) as He by by eapply evolves_trans.
  eapply wp_ip_postroute; [done| |done| |].
  - rewrite (ev_topo _ _ _ He). by apply (st_intf_node _ _ _ _ (wf_static _ Hw) i).
  - destruct S2; unfold sendable; cbn in *; lia.
  - intros dst Hdst Hl. destruct (Hloc dst).
    + rewrite (sh_data _ _ S2) in Hdst. cbn in Hdst.
      by rewrite (rd32_untouched _ _ _ _ _ Hwr) in Hdst by (cbn; lia).
    + by eapply evolves_local.
Qed.
End IpSafe.

(** The contract of the IP layer. *)
Class IpLayerOk (L : IpLayer) (E : fault → Prop) : Prop :=
  wp_ip_output n ip proto k s w :
    wf w → is_Some (topo w !! n) → owned w k s → skb_ip_hdr s = None →
    34 <= skb_data s → skb_data s + 40 <= skb_end s →
    (local_ip w n (wrap32 ip) → E NullDeref ∧ E AssertFail) →
    wp (ip_output n ip proto k) (consumed k w) E w.
