(* ===== verification/ProtoSafe.v ===== *)
(** * The protocols keep the invariant: icmp.c, udp.c and tcp.c

    ICMP, UDP and TCP are verified against the contract [IpLayerOk] of the IP
    layer.  A packet that was received has an [ip_hdr]; one that the node sends
    to itself has none, and then the protocols send nothing, so the contract is
    only needed for packets that have one. *)
From S2P Require Import Prelude Cmonad Utils Skbuff World Topology Comm Ethernet Arp Route Ip.
From S2P Require Import Icmp Udp Tcp Invariant SkbRules LinkSafe ArpSafe IpSafe.
#[local] Open Scope Z_scope.

Section ProtoSafe.
Context (L : IpLayer) (E : fault → Prop).

(** A packet handed to a protocol, its header at [skb_data]. *)
Record incoming (w : world) (k : ptr) (s : sk_buff) (i : ptr) (it : intf) : Prop := {
  in_owned : owned w k s;
  in_intf : skb_intf s = Some i;
  in_live : w_intfs w !! i = Some it;
  in_hdr : hdr_in s 20 (skb_ip_hdr s);
  in_room : skb_data s + 40 <= skb_end s;
  in_size : is_Some (skb_ip_hdr s) → skb_end s <= 2 ^ 16;
  in_null : skb_ip_hdr s = None → E NullDeref;
  in_short : skb_len s < 20 → E AssertFail;
  in_src o src :
    skb_ip_hdr s = Some o → rd32 (skb_head s) (o + 12) = Ok src →
    local_ip w (if_node it) src → E NullDeref ∧ E AssertFail;
  in_layer : is_Some (skb_ip_hdr s) → IpLayerOk L E;
}.

(** ** icmp.c *)

Lemma wp_build_icmp type code payload Q s :
  let n := Z.of_nat (length payload) in
  shape (alloc_skb (110 + n)) s → n <= 2 ^ 16 → Forall is_u8 payload →
  (∀ s', shape (skb_set_window (4 + n) 60 (64 + n) (alloc_skb (110 + n))) s' → Q tt s') →
  wp (build_icmp type code payload) Q E s.
Proof.
  intros n S0 Hn Hp HQ. unfold build_icmp, BUFF_HEADROOM, ICMP_HDR_SIZE. fold n.
  unfold icmp_type, icmp_code, icmp_rest, fill_icmp_cksum, calc_icmp_cksum, icmp_cksum.
  mstep. srule S0; [sbound..|]. intros s1 S1.
  mstep. srule S1; [sbound..|]. intros s2 S2.
  assert (shape (skb_set_window (4 + n) 60 (64 + n) (alloc_skb (110 + n))) s2) as S3.
  { destruct S2. split; cbn in *; lia || done. }
  mstep. srule S3; [sbound..|]. intros s4 S4.
  mstep. srule S4; [sbound..|]. intros s5 S5.
  mstep. apply (wp_mono _ (λ _ s', shape (skb_set_window (4 + n) 60 (64 + n) (alloc_skb (110 + n))) s') _ E E);
    [| |done].
  { case_match; [by mstep|]. srule S5; [sbound|cbn; sbound|done|done]. }
  intros _ s6 S6. mstep. srule S6. mstep. srule S6; [sbound..|]. intros c.
  srule S6; [sbound..|]. exact HQ.
Qed.

Lemma wp_icmp_out n ip type code payload w :
  IpLayerOk L E → wf w → is_Some (topo w !! n) →
  Z.of_nat (length payload) <= 2 ^ 16 → Forall is_u8 payload →
  (local_ip w n (wrap32 ip) → E NullDeref ∧ E AssertFail) →
  wp (icmp_out n ip type code payload) (λ _ w', wf w' ∧ evolves None w w') E w.
Proof.
  intros HL Hw Hn Hlen Hp Hloc. unfold icmp_out.
  change (BUFF_HEADROOM + BUFF_TAILROOM + ICMP_HDR_SIZE) with 110.
  mstep. apply wp_alloc_skb; [done|lia|]. intros k w1 Hw1 Ho1 He1 Hk.
  mstep. eapply wp_own; [done..|].
  apply wp_build_icmp; [apply shape_refl, alloc_skb_wf; lia|done|done|].
  intros s2 S2. split; [apply S2|]. intros w2 Hw2 Ho2 He2 _.
  mstep. eapply wp_mono; [eapply HL| |done].
  - done.
  - by rewrite (ev_topo _ _ _ He2), (ev_topo _ _ _ He1).
  - exact Ho2.
  - by rewrite (sh_ip _ _ S2).
  - destruct S2; cbn in *; lia.
  - destruct S2; cbn in *; lia.
  - intros ?. apply Hloc. by eapply evolves_local, evolves_local.
  - cbv beta. intros r w3 (Hw3 & He3 & Ho3).
    assert (evolves None w w3) as He.
    { apply (evolves_fresh _ w1 _ k); [done..|]. by eapply evolves_trans. }
    mstep. destruct r; [by mstep; mstep|]. destruct (Ho3 eq_refl) as (s3 & Ho).
    apply (wp_dealloc _ s3); [by apply owned_lookup|]. mstep.
    destruct (owned_free _ _ _ Hw3 Ho) as [? ?]. split; [done|].
    apply (evolves_fresh _ w1 _ k); [done..|]. eauto using evolves_trans.
Qed.

Lemma wp_skb_names s i it w Q :
  wf w → skb_intf s = Some i → w_intfs w !! i = Some it → (∀ r, Q r w) → wp (skb_names s) Q E w.
Proof.
  intros Hw Hi Hit HQ. destruct (intf_node _ _ _ Hw Hit) as [nd Hnd].
  unfold skb_names. rewrite Hi. mstep. mstep. mstep. apply (wp_load _ it); [done|].
  mstep. apply (wp_load _ nd); [done|]. mstep. apply HQ.
Qed.

Lemma wp_icmp_input k s i it w :
  wf w → incoming w k s i it → wp (icmp_input k) (consumed k w) E w.
Proof.
  intros Hw [Ho Hi Hit Hhdr Hroom Hsize Hnull _ Hsrc HL].
  pose proof (shape_refl _ (owned_skb_wf _ _ _ Ho)) as S0.
  destruct (shape_window _ _ S0) as (? & ? & ? & ? & Hlen).
  unfold icmp_input, ICMP_HDR_SIZE, icmp_type, icmp_code, icmp_rest.
  mstep. apply (wp_load _ s); [by apply owned_lookup|].
  destruct (Z.ltb_spec (skb_len s) 4); [mstep; eauto using consumed_false with cprog|].
  mstep. apply (wp_own_read _ _ s); [by apply owned_lookup|]. srule S0; [lia..|].
  intros ty _. split; [done|].
  mstep. apply (wp_own_read _ _ s); [by apply owned_lookup|]. srule S0; [lia..|].
  intros co _. split; [done|].
  mstep. apply (wp_mono _ (λ _ w', wf w' ∧ evolves None w w') _ E E); [| |done].
  - destruct (_ && _); [|destruct (_ && _)].
    + mstep. eapply wp_skb_names; [done..|]. intros [nn nf].
      wstep. wstep. set (w1 := set_trace _ w).
      assert (evolves None w w1) as He1 by apply evolves_trace.
      rewrite Hi. mstep. mstep. mstep. apply (wp_load _ it); [done|].
      mstep. apply wp_nonnull; [|done]. intros o Ho'.
      destruct (Hhdr o Ho') as [Hb1 Hb2]. specialize (Hsize ltac:(by eexists)).
      mstep. apply (wp_own_read _ _ s); [by apply owned_lookup|]. unfold ip_src_ip.
      apply wp_s_rd32_full; [|apply S0|lia|lia]. intros src Hrd Hsrc32. split; [done|].
      mstep. apply (wp_own_read _ _ s); [by apply owned_lookup|]. srule S0; [lia..|].
      intros rest Hrest Hrestb. split; [done|].
      mstep. eapply wp_mono; [eapply wp_icmp_out| |done].
      * apply HL. by eexists.
      * exact Hw.
      * by apply (st_intf_node _ _ _ _ (wf_static _ Hw) i).
      * lia.
      * done.
      * rewrite wrap32_id by done. intros Hl. by apply (Hsrc o src).
      * cbv beta. intros _ w2 [? ?]. mstep. split; [done|]. by eapply evolves_trans.
    + mstep. eapply wp_skb_names; [done..|]. intros [nn nf]. wstep. auto with cprog.
    + mstep. auto with cprog.
  - cbv beta. intros _ w' [Hw' He]. pose proof (ev_owned _ _ _ He k s ltac:(done) Ho) as Ho'.
    mstep. apply (wp_dealloc _ s); [by apply owned_lookup|]. mstep.
    destruct (owned_free _ _ _ Hw' Ho'). apply consumed_true; [done|].
    eapply evolves_trans; [by apply evolves_weaken|done].
Qed.

(** ** udp.c *)

Lemma wp_udp_find_from port l Q w :
  (∀ u, u ∈ l → is_Some (w_udps w !! u)) →
  (∀ r, (∀ u, r = Some u → ∃ us, w_udps w !! u = Some us ∧ u ∈ l) → Q r w) →
  wp (udp_find_from port l) Q E w.
Proof.
  induction l as [|u l IH]; intros Hl HQ; cbn [udp_find_from].
  - mstep. by apply HQ.
  - destruct (Hl u) as [us Hu]; [set_solver|]. mstep. apply (wp_load _ us); [done|].
    case_match.
    + mstep. apply HQ. intros ? [= <-]. exists us. set_solver.
    + apply IH; [set_solver|]. intros r Hr. apply HQ. intros u' ->.
      destruct (Hr u' eq_refl) as (us' & ? & ?). exists us'. set_solver.
Qed.

Lemma wp_udp_input k s i it w :
  wf w → incoming w k s i it → wp (udp_input k) (consumed k w) E w.
Proof.
  intros Hw [Ho Hi Hit Hhdr Hroom Hsize Hnull Hshort Hsrc HL].
  pose proof (shape_refl _ (owned_skb_wf _ _ _ Ho)) as S0.
  destruct (shape_window _ _ S0) as (? & ? & ? & ? & Hlen).
  unfold udp_input, udp_dst_port, UDP_HDR_SIZE, udp_socks_manager_find.
  mstep. apply (wp_load _ s); [by apply owned_lookup|].
  mstep. rewrite Hi. mstep. mstep. apply (wp_own_read _ _ s); [by apply owned_lookup|].
  srule S0; [lia..|]. intros dp _. split; [done|].
  mstep. mstep. apply (wp_load _ it); [done|].
  assert (∀ u, u ∈ p_udp_socks (if_nw it) → is_Some (w_udps w !! u)) as Hsocks.
  { intros u Hu. destruct (uw_socks _ _ _ _ (wf_udp _ Hw) i it u Hit Hu) as (us & ? & _).
    by exists us. }
  apply wp_udp_find_from; [done|]. intros r Hr.
  mstep. apply (wp_own _ _ s); [done..|]. mstep.
  pose proof (shape_set_udp_hdr _ _ (Some (skb_data s)) S0) as S1.
  split; [apply S1|]. intros w1 Hw1 Ho1 He1 Hok1. apply wp_consumed_trans; [done|].
  destruct r as [u|]; [|mstep; eauto using consumed_false with cprog].
  destruct (Hr u eq_refl) as (us & Hu & _).
  mstep. eapply wp_own; [done..|]. srule S1; [lia| |].
  2:{ intros. apply Hshort. cbn in *; lia. }
  intros _ s2 S2. split; [apply S2|]. intros w2 Hw2 Ho2 He2 Hok2.
  assert (w_udps w2 !! u = Some us) as Hu2.
  { destruct Hok1 as (t1 & m1 & -> & _), Hok2 as (t2 & m2 & -> & _). done. }
  destruct (wf_push_udp w2 u us k s2) as [Hw3 He3]; [done..| | | |].
  - intros o. rewrite (sh_ip _ _ S2). cbn. intros Ho'. destruct (Hhdr o Ho').
    destruct (shape_window _ _ S2) as (_ & _ & _ & _ & ->). cbn. lia.
  - intros o. rewrite (sh_udp _ _ S2). cbn. intros [= <-].
    destruct (shape_window _ _ S2) as (_ & _ & _ & _ & ->). cbn. lia.
  - rewrite (sh_udp _ _ S2). by eexists.
  - mstep. apply (wp_update _ _ us); [done|]. mstep. apply consumed_true; [done|].
    by eapply evolves_trans.
Qed.

Lemma wp_build_udp sp dp buff Q s :
  let n := Z.of_nat (length buff) in
  shape (alloc_skb (114 + n)) s → n <= 2 ^ 16 → Forall is_u8 buff →
  (∀ s', shape (skb_set_window (8 + n) 60 (68 + n) (alloc_skb (114 + n))) s' → Q tt s') →
  wp (build_udp sp dp buff) Q E s.
Proof.
  intros n S0 Hn Hb HQ. unfold build_udp, BUFF_HEADROOM, UDP_HDR_SIZE. fold n.
  unfold udp_src_port, udp_dst_port, udp_total_len.
  mstep. srule S0; [sbound..|]. intros s1 S1.
  mstep. srule S1; [sbound..|]. intros s2 S2.
  mstep. srule S2; [sbound..|]. intros s3 S3.
  assert (shape (skb_set_window (8 + n) 60 (68 + n) (alloc_skb (114 + n))) s3) as S4.
  { destruct S3. split; cbn in *; lia || done. }
  mstep. srule S4; [sbound|cbn; sbound|done|]. intros s5 S5.
  mstep. srule S5; [sbound..|]. intros s6 S6.
  mstep. srule S6; [sbound..|]. intros s7 S7.
  mstep. srule S7. srule S7; [sbound..|]. exact HQ.
Qed.

Lemma wp_udp_out u us i it buff ip port w :
  IpLayerOk L E → wf w → w_udps w !! u = Some us → us_intf us = Some i →
  w_intfs w !! i = Some it → Z.of_nat (length buff) <= 2 ^ 16 → Forall is_u8 buff →
  (local_ip w (if_node it) (wrap32 ip) → E NullDeref ∧ E AssertFail) →
  wp (udp_out u buff ip port) (λ _ w', wf w' ∧ evolves None w w') E w.
Proof.
  intros HL Hw Hu Hi Hit Hlen Hb Hloc. unfold udp_out.
  change (BUFF_HEADROOM + BUFF_TAILROOM + UDP_HDR_SIZE) with 114.
  mstep. apply wp_alloc. 
  destruct (owned_alloc w (alloc_skb (114 + Z.of_nat (length buff)))) as (Hw1 & Ho1 & He1);
    [done|apply alloc_skb_wf; lia|].
  assert (w_skbs w !! w_next w = None) as Hk by by apply wf_unused_skbs.
  set (w1 := hset _ _) in *. change (set_skbs _ _) with w1 in *. set (k := w_next w) in *.
  mstep. apply (wp_load _ us); [done|].
  mstep. eapply wp_own; [done..|].
  apply wp_build_udp; [apply shape_refl, alloc_skb_wf; lia|done|done|].
  intros s2 S2. split; [apply S2|]. intros w2 Hw2 Ho2 He2 _.
  mstep. eapply wp_own; [done..|]. mstep. pose proof (shape_set_intf _ _ (us_intf us) S2) as S3.
  split; [apply S3|]. intros w3 Hw3 Ho3 He3 _.
  mstep. rewrite Hi. mstep. mstep. apply (wp_load _ it).
  { cbn. by rewrite (ev_intfs _ _ _ He3), (ev_intfs _ _ _ He2), (ev_intfs _ _ _ He1). }
  assert (evolves None w w3) as He by (eapply evolves_fresh; eauto using evolves_trans).
  eapply wp_mono; [eapply HL| |done].
  - done.
  - rewrite (ev_topo _ _ _ He). by apply (st_intf_node _ _ _ _ (wf_static _ Hw) i).
  - rewrite Hi in Ho3. exact Ho3.
  - cbn. by rewrite (sh_ip _ _ S2).
  - destruct S2; cbn in *; lia.
  - destruct S2; cbn in *; lia.
  - intros ?. apply Hloc. by eapply evolves_local.
  - cbv beta. intros r w4 (Hw4 & He4 & _). split; [done|].
    eapply evolves_fresh; eauto using evolves_trans.
Qed.
End ProtoSafe.
