(* ===== verification/TcpSafe.v ===== *)
(** * TCP keeps the invariant: tcp.c *)
From S2P Require Import Prelude Cmonad Utils Skbuff World Topology Comm Ethernet Arp Route Ip.
From S2P Require Import Icmp Udp Tcp Invariant SkbRules LinkSafe ArpSafe IpSafe ProtoSafe.
#[local] Open Scope Z_scope.

Section TcpSafe.
Context (L : IpLayer) (E : fault → Prop).

(** ** Segments *)

Lemma wp_calc_tcp_cksum hdr size src dst s0 s Q :
  shape s0 s → 12 <= hdr → 0 <= size <= 2 ^ 16 → hdr + size <= skb_end s0 + 7 →
  (∀ c s', shape s0 s' → Q c s') → wp (calc_tcp_cksum hdr size src dst) Q E s.
Proof.
  intros S0 Hh Hsz Hb HQ. unfold calc_tcp_cksum, PSEUDO_IP_HDR_SIZE.
  mstep. srule S0; [lia..|]. intros backup Hbl Hbb.
  mstep. srule S0; [lia..|]. intros s1 S1.
  mstep. srule S1; [lia..|]. intros s2 S2.
  mstep. srule S2; [lia..|]. intros s3 S3.
  mstep. srule S3; [lia..|]. intros s4 S4.
  mstep. srule S4; [lia..|]. intros s5 S5.
  mstep. srule S5; [lia..|]. intros c.
  mstep. srule S5; [lia|rewrite Hbl; lia|done|]. intros s6 S6. mstep. by apply HQ.
Qed.

Lemma wp_fill_tcp_cksum hdr size src dst s0 s Q :
  shape s0 s → 12 <= hdr → 0 <= size <= 2 ^ 16 → hdr + size <= skb_end s0 + 7 →
  hdr + 18 <= skb_end s0 + 7 →
  (∀ s', shape s0 s' → Q tt s') → wp (fill_tcp_cksum hdr size src dst) Q E s.
Proof.
  intros S0 Hh Hsz Hb Hb2 HQ. unfold fill_tcp_cksum, tcp_cksum.
  mstep. eapply wp_calc_tcp_cksum; [exact S0|lia..|]. intros c s1 S1. srule S1; [lia..|]. done.
Qed.

(** The buffer of a segment with [n] bytes of payload, of which [m] are there. *)
Definition segment (i : option ptr) (n m : Z) : sk_buff :=
  skb_set_window (20 + m) 60 (80 + m) (skb_set_intf i (alloc_skb (126 + n))).

Lemma wp_build_tcp_ports i n sp dp Q s :
  shape (skb_set_intf i (alloc_skb (126 + n))) s → 0 <= n →
  (∀ s', shape (segment i n 0) s' → Q 60 s') → wp (build_tcp_ports sp dp) Q E s.
Proof.
  intros S0 Hn HQ. unfold build_tcp_ports, BUFF_HEADROOM, TCP_HDR_SIZE, tcp_src_port, tcp_dst_port.
  mstep. srule S0; [sbound..|]. intros s1 S1.
  mstep. srule S1; [sbound..|]. intros s2 S2.
  mstep. srule S2; [sbound..|]. intros s3 S3.
  mstep. srule S3; [sbound..|]. intros s4 S4. mstep. by apply HQ.
Qed.

Lemma wp_build_tcp_rest i cn flags buff Q s :
  let n := Z.of_nat (length buff) in
  shape (segment i n 0) s → Forall is_u8 buff →
  (∀ s', shape (segment i n n) s' → Q tt s') → wp (build_tcp_rest 60 cn flags buff) Q E s.
Proof.
  intros n S0 Hb HQ. unfold build_tcp_rest, tcp_seq, tcp_ack, tcp_flags, tcp_wnd_sz, tcp_hlen.
  fold n. unfold segment in *.
  mstep. srule S0; [sbound..|]. intros s1 S1.
  mstep. srule S1; [sbound..|]. intros s2 S2.
  mstep. srule S2; [sbound..|]. intros s3 S3.
  mstep. srule S3; [sbound..|]. intros s4 S4.
  mstep. mstep. srule S4; [sbound..|]. intros b _. srule S4; [sbound..|]. intros s5 S5.
  destruct (Z.eqb_spec n 0) as [Hn|Hn].
  - mstep. apply HQ. by rewrite Hn in *.
  - mstep. srule S5; [sbound..|]. intros s6 S6.
    srule S6; [sbound|cbn; sbound|done|]. exact HQ.
Qed.

(** ** Connections *)

Lemma wp_conn_update c cn f Q w :
  wf w → w_conns w !! c = Some cn → tc_parent (f cn) = tc_parent cn →
  tc_rx_skb (f cn) = tc_rx_skb cn →
  (∀ w', wf w' → evolves None w w' → w_conns w' !! c = Some (f cn) → w_tcps w' = w_tcps w →
         Q tt w') →
  wp (update (A := tcp_connection_sock) c f) Q E w.
Proof.
  intros Hw Hc Hp Hr HQ. apply (wp_update _ _ cn); [done|].
  destruct (wf_conns_same w c cn (f cn) None) as [? ?]; [done..|].
  apply HQ; [done..| |done]. apply lookup_insert_eq.
Qed.

(** The sequence number moves on, or not. *)
Lemma wp_snt_update m v c cn Q w :
  m = ret tt ∨ m = update (A := tcp_connection_sock) c (λ cn, tc_set_snt_nxt (v cn) cn) →
  wf w → w_conns w !! c = Some cn →
  (∀ w' cn', wf w' → evolves None w w' → w_conns w' !! c = Some cn' →
             tc_parent cn' = tc_parent cn → Q tt w') →
  wp m Q E w.
Proof.
  intros [-> | ->] Hw Hc HQ.
  - mstep. by apply (HQ w cn); auto with cprog.
  - eapply wp_conn_update; [done..|]. intros w' ? ? ? _. by eapply HQ.
Qed.

(** The sequence space taken by the data, a SYN and a FIN. *)
Lemma wp_snt_advance {A} c cn size flags (rest : W A) Q w :
  wf w → w_conns w !! c = Some cn →
  (∀ w', wf w' → evolves None w w' → wp rest Q E w') →
  wp ((if size =? 0 then ret tt else
         update (A := tcp_connection_sock) c (λ cn, tc_set_snt_nxt (wrap32 (tc_snt_nxt cn + size)) cn)) ;;;
      (if has_flag flags FLAG_SYN then
         update (A := tcp_connection_sock) c (λ cn, tc_set_snt_nxt (wrap32 (tc_snt_nxt cn + 1)) cn)
       else ret tt) ;;;
      (if has_flag flags FLAG_FIN then
         update (A := tcp_connection_sock) c (λ cn, tc_set_snt_nxt (wrap32 (tc_snt_nxt cn + 1)) cn)
       else ret tt) ;;; rest) Q E w.
Proof.
  intros Hw Hc HQ.
  mstep. eapply wp_snt_update; [case_match; [by left|by right]|done..|]. intros w1 cn1 Hw1 He1 Hc1 _. cbv beta.
  mstep. eapply wp_snt_update; [case_match; [by right|by left]|done..|]. intros w2 cn2 Hw2 He2 Hc2 _.
  mstep. eapply wp_snt_update; [case_match; [by right|by left]|done..|]. intros w3 cn3 Hw3 He3 _ _.
  apply HQ; [done|]. eauto using evolves_trans.
Qed.

Lemma wp_tcp_out c cn buff flags ts i it w :
  IpLayerOk L E → wf w → w_conns w !! c = Some cn →
  w_tcps w !! tc_parent cn = Some ts → ts_intf ts = Some i → w_intfs w !! i = Some it →
  Z.of_nat (length buff) <= 2 ^ 15 → Forall is_u8 buff →
  (local_ip w (if_node it) (wrap32 (tc_remote_ip cn)) → E NullDeref ∧ E AssertFail) →
  wp (tcp_out c buff flags) (λ _ w', wf w' ∧ evolves None w w') E w.
Proof.
  intros HL Hw Hc Hts Hi Hit Hlen Hb Hloc. unfold tcp_out.
  change (BUFF_HEADROOM + BUFF_TAILROOM + TCP_HDR_SIZE) with 126.
  set (n := Z.of_nat (length buff)) in *.
  destruct (owned_alloc w (alloc_skb (126 + n))) as (Hw1 & Ho1 & He1); [done|apply alloc_skb_wf; lia|].
  assert (w_skbs w !! w_next w = None) as Hk by by apply wf_unused_skbs.
  mstep. apply wp_alloc.
  set (w1 := hset _ _) in *. change (set_skbs _ _) with w1 in *. set (k := w_next w) in *.
  mstep. apply (wp_load _ cn); [done|]. mstep. apply (wp_load _ ts); [done|]. rewrite Hi.
  mstep. eapply wp_own; [done..|]. mstep.
  assert (shape (skb_set_intf (Some i) (alloc_skb (126 + n)))
                (skb_set_intf (Some i) (alloc_skb (126 + n)))) as S0
    by (apply shape_set_intf, shape_refl, alloc_skb_wf; lia).
  split; [apply S0|]. intros w2 Hw2 Ho2 He2 Hok2.
  mstep. eapply wp_own; [done..|]. apply (wp_build_tcp_ports (Some i) n); [done|lia|].
  intros s3 S3. split; [apply S3|]. intros w3 Hw3 Ho3 He3 Hok3.
  assert (∀ w', evolves (Some k) w3 w' → evolves None w w') as Hev.
  { intros w' He. eapply (evolves_fresh w w1 w' k); eauto using evolves_trans. }
  case_match; [by mstep; auto using evolves_refl|].
  assert (w_conns w3 !! c = Some cn) as Hc3.
  { destruct Hok2 as (? & ? & -> & _), Hok3 as (? & ? & -> & _). done. }
  mstep. eapply wp_own; [done..|]. apply (wp_build_tcp_rest (Some i)); [done..|].
  intros s4 S4. split; [apply S4|]. intros w4 Hw4 Ho4 He4 Hok4.
  assert (w_conns w4 !! c = Some cn) as Hc4 by by destruct Hok4 as (? & ? & -> & _).
  apply (wp_snt_advance c cn); [done..|]. intros w7 Hw7 He7.
  pose proof (ev_owned _ _ _ He7 k s4 ltac:(done) Ho4) as Ho7.
  mstep. eapply wp_own; [done..|]. mstep. srule S4.
  eapply wp_fill_tcp_cksum; [exact S4|lia|unfold segment; cbn; lia..|].
  intros s8 S8. split; [apply S8|]. intros w8 Hw8 Ho8 He8 _.
  assert (evolves (Some k) w3 w8) as He38 by eauto using evolves_trans, evolves_weaken. pose proof (Hev _ He38) as He'.
  mstep. mstep. mstep. apply (wp_load _ it); [by cbn; rewrite (ev_intfs _ _ _ He')|].
  eapply wp_mono; [eapply HL| |done].
  - done.
  - rewrite (ev_topo _ _ _ He'). by apply (st_intf_node _ _ _ _ (wf_static _ Hw) i).
  - done.
  - by rewrite (sh_ip _ _ S8).
  - rewrite (sh_data _ _ S8). unfold segment. cbn. lia.
  - rewrite (sh_data _ _ S8), (sh_end _ _ S8). unfold segment. cbn. lia.
  - intros ?. apply Hloc. by eapply evolves_local.
  - cbv beta. intros r w9 (Hw9 & He9 & _). split; [done|]. apply Hev. by eapply evolves_trans.
Qed.

(** The socket of a connection, its interface and the node. *)
Lemma wf_conn_parent w c cn :
  wf w → w_conns w !! c = Some cn →
  ∃ ts i it, w_tcps w !! tc_parent cn = Some ts ∧ ts_bound ts = true ∧ ts_intf ts = Some i ∧
             w_intfs w !! i = Some it.
Proof.
  intros Hw Hc. destruct (tw_parent _ _ _ _ _ _ (wf_tcp _ Hw) _ _ Hc) as (ts & Hts & Hb).
  destruct (tw_intf _ _ _ _ _ _ (wf_tcp _ Hw) _ _ Hts Hb) as (i & Hi & [it Hit]).
  by exists ts, i, it.
Qed.

Lemma wp_close_connection c cn ts i it w :
  IpLayerOk L E → wf w → w_conns w !! c = Some cn →
  w_tcps w !! tc_parent cn = Some ts → ts_intf ts = Some i → w_intfs w !! i = Some it →
  (local_ip w (if_node it) (wrap32 (tc_remote_ip cn)) → E NullDeref ∧ E AssertFail) →
  wp (close_connection c) (λ r w', r = true ∧ wf w' ∧ evolves None w w') E w.
Proof.
  intros HL Hw Hc Hts Hi Hit Hloc. unfold close_connection. wstep. wstep.
  mstep. eapply wp_mono; [apply (wp_tcp_out c cn [] _ ts i it)| |done]; try done.
  cbv beta. intros _ w1 [Hw1 He1].
  assert (evolves None w w1) as He by by eapply evolves_trans; [apply evolves_trace|].
  destruct (ev_conns _ _ _ He c cn Hc) as (cn1 & Hc1 & Hp1).
  mstep. apply (wp_load _ cn1); [done|].
  destruct (wf_conn_parent w1 c cn1 Hw1 Hc1) as (ts1 & i1 & it1 & Hts1 & _ & _ & _).
  mstep. apply (wp_update _ _ ts1); [done|]. mstep.
  destruct (wf_tcps_conns w1 (tc_parent cn1) ts1 (list_remove c (ts_conns ts1))
              (c :: list_remove c (ts_closed_conns ts1)) None) as [Hw2 He2]; [done|done| |].
  { intros d Hd. eapply (tw_conns _ _ _ _ _ _ (wf_tcp _ Hw1)); [done|].
    eapply elem_of_sublist; [exact Hd|apply list_remove_sublist]. }
  split_and!; [done|exact Hw2|]. eapply evolves_trans; [exact He|exact He2].
Qed.

(** ** Input *)

Lemma wp_tcp_find_from port l Q w :
  (∀ t, t ∈ l → is_Some (w_tcps w !! t)) →
  (∀ r, (∀ t, r = Some t → t ∈ l) → Q r w) → wp (tcp_find_from port l) Q E w.
Proof.
  induction l as [|t l IH]; intros Hl HQ; cbn [tcp_find_from].
  - mstep. by apply HQ.
  - destruct (Hl t) as [ts Ht]; [set_solver|]. mstep. apply (wp_load _ ts); [done|].
    case_match.
    + mstep. apply HQ. intros ? [= <-]. set_solver.
    + apply IH; [set_solver|]. intros r Hr. apply HQ. intros t' ->.
      specialize (Hr t' eq_refl). set_solver.
Qed.

Lemma wp_conn_find_from ip port l Q w :
  (∀ c, c ∈ l → is_Some (w_conns w !! c)) →
  (∀ r, (∀ c, r = Some c → c ∈ l ∧ ∃ cn, w_conns w !! c = Some cn ∧ tc_remote_ip cn = ip) →
        Q r w) → wp (conn_find_from ip port l) Q E w.
Proof.
  induction l as [|c l IH]; intros Hl HQ; cbn [conn_find_from].
  - mstep. by apply HQ.
  - destruct (Hl c) as [cn Hc]; [set_solver|]. mstep. apply (wp_load _ cn); [done|].
    destruct (_ && _) eqn:Eq.
    + mstep. apply HQ. intros ? [= <-]. split; [set_solver|]. exists cn.
      apply andb_prop in Eq as [_ Eq%Z.eqb_eq]. done.
    + apply IH; [set_solver|]. intros r Hr. apply HQ. intros c' ->.
      destruct (Hr c' eq_refl) as [? ?]. set_solver.
Qed.

Section Handlers.
Context (k : ptr) (s : sk_buff) (i : ptr) (it : intf) (w : world).
Context (Hw : wf w) (Hin : incoming L E w k s i it) (HL : IpLayerOk L E).

(** A connection of a socket bound to the interface, with the sender. *)
Context (c : ptr) (cn : tcp_connection_sock) (ts : tcp_sock).
Context (Hc : w_conns w !! c = Some cn) (Hts : w_tcps w !! tc_parent cn = Some ts).
Context (Hi : ts_intf ts = Some i).
Context (Hloc : local_ip w (if_node it) (wrap32 (tc_remote_ip cn)) → E NullDeref ∧ E AssertFail).

Lemma wp_handle_syn_sent : wp (handle_syn_sent c k) (consumed k w) E w.
Proof.
  destruct Hin as [Ho Hii Hit _ Hroom _ _ _ _ _].
  pose proof (shape_refl _ (owned_skb_wf _ _ _ Ho)) as S0.
  destruct (shape_window _ _ S0) as (? & ? & ? & ? & ?).
  unfold handle_syn_sent, tcp_flags, tcp_seq.
  mstep. apply (wp_load _ s); [by apply owned_lookup|].
  mstep. apply (wp_own_read _ _ s); [by apply owned_lookup|]. srule S0; [lia..|].
  intros flags _. split; [done|].
  mstep. apply (wp_load _ cn); [done|].
  mstep. apply (wp_own_read _ _ s); [by apply owned_lookup|]. srule S0; [lia..|].
  intros seq _. split; [done|].
  mstep. apply (wp_mono _ (λ _ w', wf w' ∧ evolves None w w') _ E E); [| |done].
  - case_match; [|mstep; auto with cprog]. by eapply wp_conn_update.
  - cbv beta. intros _ w' [Hw' He']. mstep. eapply consumed_false; [done|by apply evolves_weaken|].
    by apply (ev_owned _ _ _ He').
Qed.

Lemma wp_handle_estab : wp (handle_estab c k) (consumed k w) E w.
Proof.
  destruct Hin as [Ho Hii Hit _ Hroom _ _ Hshort _ _].
  pose proof (shape_refl _ (owned_skb_wf _ _ _ Ho)) as S0.
  destruct (shape_window _ _ S0) as (? & ? & ? & ? & ?).
  unfold handle_estab, tcp_flags, tcp_seq, TCP_HDR_SIZE.
  mstep. apply (wp_load _ s); [by apply owned_lookup|].
  mstep. apply (wp_load _ cn); [done|].
  mstep. apply (wp_own_read _ _ s); [by apply owned_lookup|]. srule S0; [lia..|].
  intros seq _. split; [done|].
  case_match; [|mstep; eauto using consumed_false with cprog].
  mstep. apply (wp_own_read _ _ s); [by apply owned_lookup|]. srule S0; [lia..|].
  intros flags _. split; [done|].
  destruct (has_flag flags FLAG_RST); [|destruct (has_flag flags FLAG_FIN)].
  - eapply wp_mono; [by apply (wp_close_connection c cn ts i it)| |done]. cbv beta.
    intros r w1 (-> & Hw1 & He1). eauto using consumed_true with cprog.
  - mstep. eapply wp_conn_update; [done..|]. intros w1 Hw1 He1 Hc1 Ht1.
    eapply wp_mono; [apply (wp_close_connection c (tc_set_rcv_nxt (wrap32 (tc_rcv_nxt cn + 1)) cn) ts i it)| |done]; try done.
    + by rewrite Ht1.
    + by rewrite (ev_intfs _ _ _ He1).
    + intros ?. apply Hloc. by eapply evolves_local.
    + cbv beta. intros r w2 (-> & Hw2 & He2). eauto using consumed_true with cprog.
  - mstep. apply (wp_own _ _ s); [done..|]. srule S0; [lia| |].
    2:{ intros. apply Hshort. lia. }
    intros _ s1 S1. split; [apply S1|]. intros w1 Hw1 Ho1 He1 Hok1.
    assert (w_conns w1 !! c = Some cn) as Hc1 by by destruct Hok1 as (? & ? & -> & _).
    mstep. apply (wp_load _ s1); [by apply owned_lookup|].
    mstep. eapply wp_conn_update; [done..|]. intros w2 Hw2 He2 Hc2 _.
    pose proof (ev_owned _ _ _ He2 k s1 ltac:(done) Ho1) as Ho2.
    mstep. set (cn2 := tc_set_rcv_nxt _ cn) in *.
    apply (wp_update _ _ cn2); [done|]. mstep.
    destruct (wf_push_conn w2 c cn2 (tc_set_rx (k :: tc_rx_skb cn2) cn2) k s1) as [Hw3 He3];
      [done..|].
    apply consumed_true; [done|]. eauto using evolves_trans with cprog.
Qed.
End Handlers.

(** A new connection in the list of its socket. *)
Lemma wf_listed_conn w t ts cn :
  wf w → w_tcps w !! t = Some ts → ts_bound ts = true → tc_parent cn = t → tc_rx_skb cn = [] →
  let c := w_next w in
  let w1 := set_conns (<[c := cn]> (w_conns w)) (set_next (Pos.succ c) w) in
  let w2 := set_tcps (<[t := ts_set_conns (c :: ts_conns ts) (ts_closed_conns ts) ts]> (w_tcps w1)) w1 in
  wf w2 ∧ evolves None w w2.
Proof.
  intros Hw Hts Hb Hp Hrx c w1 w2. destruct (wf_new_conn w t ts cn None) as [Hw1 He1]; [done..|].
  destruct (wf_tcps_conns w1 t ts (c :: ts_conns ts) (ts_closed_conns ts) None) as [Hw2 He2]; [done|done| |].
  { intros d [->|Hd]%elem_of_cons.
    - exists cn. split; [apply lookup_insert_eq|done].
    - destruct (tw_conns _ _ _ _ _ _ (wf_tcp _ Hw) t ts d Hts Hd) as (dn & Hdn & Hq).
      destruct (ev_conns _ _ _ He1 d dn Hdn) as (dn' & ? & ?). exists dn'. split; [done|congruence]. }
  split; [exact Hw2|]. eapply evolves_trans; [exact He1|exact He2].
Qed.

Lemma wp_handle_new_connection k s i it t ts w :
  wf w → incoming L E w k s i it → w_tcps w !! t = Some ts → ts_bound ts = true →
  ts_intf ts = Some i → wp (handle_new_connection t k) (consumed k w) E w.
Proof.
  intros Hw [Ho Hii Hit Hhdr Hroom _ Hnull _ Hsrc HL] Hts Hb Hi.
  pose proof (shape_refl _ (owned_skb_wf _ _ _ Ho)) as S0.
  destruct (shape_window _ _ S0) as (? & ? & ? & ? & ?).
  unfold handle_new_connection, tcp_src_port, tcp_wnd_sz, tcp_seq, ip_src_ip.
  wstep. wstep. set (w1 := set_trace _ w).
  mstep. apply (wp_load _ s); [by apply owned_lookup|].
  mstep. apply wp_nonnull; [|done]. intros o Ho'.
  destruct (Hhdr o Ho') as [Hb1 Hb2]. specialize (HL ltac:(by eexists)).
  mstep. apply (wp_own_read _ _ s); [by apply owned_lookup|].
  apply wp_s_rd32_full; [|apply S0|lia|lia]. intros src Hrd Hsrc32. split; [done|].
  mstep. apply (wp_own_read _ _ s); [by apply owned_lookup|]. srule S0; [lia..|].
  intros sp _. split; [done|].
  mstep. apply (wp_own_read _ _ s); [by apply owned_lookup|]. srule S0; [lia..|].
  intros wnd _. split; [done|].
  mstep. apply (wp_own_read _ _ s); [by apply owned_lookup|]. srule S0; [lia..|].
  intros seq _. split; [done|].
  set (cn := new_connection t src sp wnd seq).
  destruct (wf_listed_conn w1 t ts cn) as [Hw3 He3]; [done..|].
  mstep. apply wp_alloc. mstep. apply (wp_update _ _ ts); [done|].
  set (w3 := hset _ (hset _ _)) in *. set (c := w_next w1) in *.
  assert (evolves None w w3) as He by (eapply evolves_trans; [apply evolves_trace|exact He3]).
  mstep. eapply wp_mono; [eapply (wp_tcp_out c cn [] _ _ i it)| |done].
  - done.
  - done.
  - apply lookup_insert_eq.
  - apply lookup_insert_eq.
  - done.
  - done.
  - done.
  - done.
  - cbn. rewrite wrap32_id by done. intros Hl. apply (Hsrc o src); [done..|].
    by eapply evolves_local.
  - cbv beta. intros _ w4 [Hw4 He4]. mstep.
    assert (evolves None w w4) as He' by by eapply evolves_trans.
    eapply consumed_false; [done|by apply evolves_weaken|]. by apply (ev_owned _ _ _ He').
Qed.

Lemma wp_tcp_input k s i it w :
  wf w → incoming L E w k s i it → wp (tcp_input k) (consumed k w) E w.
Proof.
  intros Hw Hin. pose proof Hin as [Ho Hii Hit Hhdr Hroom _ Hnull _ Hsrc HL].
  pose proof (shape_refl _ (owned_skb_wf _ _ _ Ho)) as S0.
  destruct (shape_window _ _ S0) as (? & ? & ? & ? & ?).
  unfold tcp_input, tcp_src_port, tcp_dst_port, tcp_flags, ip_src_ip.
  mstep. apply (wp_load _ s); [by apply owned_lookup|]. rewrite Hii. mstep. mstep.
  mstep. apply (wp_own_read _ _ s); [by apply owned_lookup|]. srule S0; [lia..|].
  intros dp _. split; [done|].
  unfold tcp_socks_manager_find. mstep. mstep. apply (wp_load _ it); [done|].
  apply wp_tcp_find_from.
  { intros t Ht. destruct (tw_socks _ _ _ _ _ _ (wf_tcp _ Hw) i it t Hit Ht) as (ts & ? & _).
    by exists ts. }
  intros [t|] Hr; [|mstep; eauto using consumed_false with cprog].
  destruct (tw_socks _ _ _ _ _ _ (wf_tcp _ Hw) i it t Hit (Hr t eq_refl)) as (ts & Hts & Hb & Hi).
  mstep. apply wp_nonnull; [|done]. intros o Ho'.
  destruct (Hhdr o Ho') as [Hb1 Hb2]. specialize (HL ltac:(by eexists)).
  mstep. apply (wp_own_read _ _ s); [by apply owned_lookup|].
  apply wp_s_rd32_full; [|apply S0|lia|lia]. intros src Hrd Hsrc32. split; [done|].
  mstep. apply (wp_own_read _ _ s); [by apply owned_lookup|]. srule S0; [lia..|].
  intros sp _. split; [done|].
  unfold find_matching_connection. mstep. mstep. apply (wp_load _ ts); [done|].
  assert (∀ c, c ∈ ts_conns ts → ∃ cn, w_conns w !! c = Some cn ∧ tc_parent cn = t) as Hconns
    by (intros c; by apply (tw_conns _ _ _ _ _ _ (wf_tcp _ Hw))).
  apply wp_conn_find_from.
  { intros c Hc. destruct (Hconns c Hc) as (cn & ? & _). by exists cn. }
  intros [c|] Hfound.
  - destruct (Hfound c eq_refl) as (Hin' & cn & Hc & Hrip).
    destruct (Hconns c Hin') as (cn' & Hc' & Hp). simplify_eq.
    assert (local_ip w (if_node it) (wrap32 (tc_remote_ip cn)) → E NullDeref ∧ E AssertFail)
      as Hloc by (rewrite wrap32_id by done; intros; by apply (Hsrc o (tc_remote_ip cn))).
    mstep. apply (wp_load _ cn); [done|]. destruct (tc_state cn).
    + by eapply wp_handle_syn_sent.
    + by apply (wp_handle_estab k s i it w Hw Hin HL c cn ts).
  - mstep. apply (wp_load _ ts); [done|].
    mstep. apply (wp_own_read _ _ s); [by apply owned_lookup|]. srule S0; [lia..|].
    intros flags _. split; [done|].
    case_match; [by eapply wp_handle_new_connection|mstep; eauto using consumed_false with cprog].
Qed.
End TcpSafe.
