(* ===== verification/Packet.v ===== *)
(** * Buffers as byte strings

    [packet s m d p post] is the abstract view of a buffer: the payload is the
    byte string [p], it starts [d] bytes after the head, the bytes after it are
    [post], and the pointer fields are [m].  The operations of skbuff.h and the
    accesses through header pointers are operations on byte strings in this
    view; the rules below step through the code that builds and parses packets
    and keep track of every byte. *)
From S2P Require Import Prelude Cmonad Utils Skbuff World Ip Invariant LinkSafe.
#[local] Open Scope Z_scope.

(** Sums of pointers and sizes in front of payloads. *)
Notation zlen l := (Z.of_nat (length l)).

Record skb_meta := mk_meta {
  m_intf : option positive; m_ethernet : option Z; m_ip : option Z; m_tcp : option Z; m_udp : option Z;
}.
Definition meta (s : sk_buff) : skb_meta :=
  mk_meta (skb_intf s) (skb_ethernet_hdr s) (skb_ip_hdr s) (skb_tcp_hdr s) (skb_udp_hdr s).

Record packet (s : sk_buff) (m : skb_meta) (d : Z) (p post : list Z) : Prop := {
  pk_wf : skb_wf s;
  pk_meta : meta s = m;
  pk_data : skb_data s = d;
  pk_len : skb_len s = zlen p;
  pk_drop : drop (Z.to_nat d) (skb_head s) = p ++ post;
}.

(** ** Facts about the view *)

Lemma drop_splice {A} d o (bs b : list A) :
  0 <= d → 0 <= o → d + o + zlen bs <= zlen b →
  drop (Z.to_nat d) (splice (d + o) bs b) = splice o bs (drop (Z.to_nat d) b).
Proof.
  intros. apply list_eq. intros i. rewrite lookup_drop, !lookup_splice by (rewrite ?length_drop; lia).
  rewrite lookup_drop. repeat case_decide; try lia; f_equal; lia.
Qed.

Lemma splice_app_l {A} o (bs p q : list A) :
  0 <= o → o + zlen bs <= zlen p → splice o bs (p ++ q) = splice o bs p ++ q.
Proof.
  intros. apply list_eq. intros i. rewrite lookup_splice by (rewrite ?length_app; lia).
  destruct (decide (i < length p)%nat).
  - rewrite (lookup_app_l (splice o bs p)) by (rewrite length_splice; lia).
    rewrite (lookup_splice o bs p) by lia. case_decide; [done|]. by rewrite lookup_app_l.
  - rewrite decide_False by lia. rewrite !lookup_app_r by (rewrite ?length_splice; lia).
    by rewrite length_splice by lia.
Qed.

Lemma slice_app_l {A} o n (p q : list A) :
  0 <= o → 0 <= n → o + n <= zlen p → slice o n (p ++ q) = slice o n p.
Proof.
  intros. unfold slice. rewrite drop_app_le by lia. by rewrite take_app_le by (rewrite length_drop; lia).
Qed.

Lemma slice_drop {A} d o n (b : list A) :
  0 <= d → 0 <= o → slice (d + o) n b = slice o n (drop (Z.to_nat d) b).
Proof. intros. unfold slice. by rewrite drop_drop, Z2Nat.inj_add by lia. Qed.

Lemma slice_prefix {A} n (p q : list A) : n = zlen p → slice 0 n (p ++ q) = p.
Proof. intros ->. unfold slice. rewrite drop_0, Nat2Z.id. by apply take_app_length. Qed.

Lemma splice_prefix {A} (bs p q : list A) : length bs = length p → splice 0 bs (p ++ q) = bs ++ q.
Proof.
  intros E. unfold splice. change (Z.to_nat 0) with 0%nat. rewrite take_0, E. cbn.
  by rewrite drop_app_length.
Qed.

Lemma packet_bounds s m d p post :
  packet s m d p post →
  0 <= d ∧ skb_tail s = d + zlen p ∧ skb_end s < 2 ^ 63 ∧ 7 <= zlen post ∧
  zlen (skb_head s) = d + zlen p + zlen post ∧ skb_end s = d + zlen p + zlen post - 7.
Proof.
  intros [[] _ <- Hl Hdrop]. pose proof (f_equal length Hdrop) as E.
  rewrite length_drop, length_app in E. lia.
Qed.

Lemma packet_bytes s m d p post : packet s m d p post → Forall is_u8 p ∧ Forall is_u8 post.
Proof.
  intros [[] _ _ _ Hdrop]. apply Forall_app. rewrite <- Hdrop. by apply Forall_drop.
Qed.

Lemma packet_payload s m d p post : packet s m d p post → skb_payload s = p.
Proof.
  intros Hp. pose proof (packet_bounds _ _ _ _ _ Hp) as (? & _). destruct Hp as [_ _ Hd Hl Hdrop].
  unfold skb_payload. rewrite Hd, Hl. replace d with (d + 0) by lia.
  rewrite slice_drop by lia. rewrite Hdrop. by apply slice_prefix.
Qed.

(** Every well-formed buffer has a view. *)
Lemma wf_packet s :
  skb_wf s → ∃ post, packet s (meta s) (skb_data s) (skb_payload s) post.
Proof.
  intros Hwf. pose proof Hwf as []. exists (drop (Z.to_nat (skb_tail s)) (skb_head s)).
  assert (zlen (skb_payload s) = skb_len s) as El.
  { unfold skb_payload. rewrite length_slice; lia. }
  split; [done..|by rewrite El|]. unfold skb_payload, slice.
  replace (Z.to_nat (skb_tail s)) with (Z.to_nat (skb_data s) + Z.to_nat (skb_len s))%nat by lia.
  by rewrite <- drop_drop, take_drop.
Qed.

Lemma alloc_packet size :
  0 <= size < 2 ^ 63 →
  packet (alloc_skb size) (mk_meta None None None None None) 0 []
    (replicate (Z.to_nat (size + 7)) 0).
Proof.
  intros. split; [by apply alloc_skb_wf|done..|].
  change (replicate (Z.to_nat (size + SKB_SIZEOF - 1 - SKB_HEAD_OFFSET)) 0 =
          replicate (Z.to_nat (size + 7)) 0).
  f_equal. unfold SKB_SIZEOF, SKB_HEAD_OFFSET. lia.
Qed.

(** ** Rules *)

Section Rules.
Context (s : sk_buff) (m : skb_meta) (d : Z) (p post : list Z) (Hp : packet s m d p post).
Context (E : fault → Prop).

Lemma packet_reserve n Q :
  0 <= n → p = [] → n + 7 <= zlen post →
  (∀ s', packet s' m (d + n) [] (drop (Z.to_nat n) post) → Q tt s') →
  wp (skb_reserve n) Q E s.
Proof.
  intros ? -> ? HQ. destruct (packet_bounds _ _ _ _ _ Hp) as (? & Ht & ? & _ & _ & He).
  destruct Hp as [Hwf Hm Hd Hl Hdrop]. cbn in *.
  unfold wp. rewrite skb_reserve_spec by done. unfold skb_tailroom. rewrite decide_True by lia.
  apply HQ. split; cbn; [|done|lia|done|].
  - pose proof Hwf as []. apply skb_window_wf; [done|lia..].
  - rewrite Z2Nat.inj_add by lia. by rewrite <- drop_drop, Hdrop.
Qed.

Lemma packet_push n Q :
  0 <= n <= d →
  (∀ s' junk, packet s' m (d - n) (junk ++ p) post → zlen junk = n → Q (d - n) s') →
  wp (skb_push n) Q E s.
Proof.
  intros ? HQ. destruct (packet_bounds _ _ _ _ _ Hp) as (? & Ht & ? & _ & Hh & He).
  destruct Hp as [Hwf Hm Hd Hl Hdrop].
  unfold wp. rewrite skb_push_spec by done || lia. unfold skb_headroom. rewrite decide_True by lia.
  rewrite Hd. assert (zlen (slice (d - n) n (skb_head s)) = n) as Hj by (rewrite length_slice; lia).
  apply (HQ _ (slice (d - n) n (skb_head s))); [|done]. split; cbn; [|done|done|rewrite length_app; lia|].
  - pose proof Hwf as []. apply skb_window_wf; [done|lia..].
  - rewrite <- app_assoc, <- Hdrop. unfold slice.
    replace (Z.to_nat d) with (Z.to_nat (d - n) + Z.to_nat n)%nat by lia.
    by rewrite <- drop_drop, take_drop.
Qed.

Lemma packet_put n Q :
  0 <= n → n + 7 <= zlen post →
  (∀ s', packet s' m d (p ++ take (Z.to_nat n) post) (drop (Z.to_nat n) post) → Q (d + zlen p) s') →
  wp (skb_put n) Q E s.
Proof.
  intros ? ? HQ. destruct (packet_bounds _ _ _ _ _ Hp) as (? & Ht & ? & _ & Hh & He).
  destruct Hp as [Hwf Hm Hd Hl Hdrop].
  unfold wp. rewrite skb_put_spec by done || lia. unfold skb_tailroom. rewrite decide_True by lia.
  rewrite Ht. apply HQ. split; cbn; [|done|done|rewrite length_app, length_take; lia|].
  - pose proof Hwf as []. apply skb_window_wf; [done|lia..].
  - by rewrite Hdrop, <- app_assoc, take_drop.
Qed.

(** The bytes that are skipped stay in the block. *)
Lemma packet_pull_head n Q :
  0 <= n <= zlen p →
  (∀ s', packet s' m (d + n) (drop (Z.to_nat n) p) post → skb_head s' = skb_head s → Q (d + n) s') →
  wp (skb_pull n) Q E s.
Proof.
  intros ? HQ. destruct (packet_bounds _ _ _ _ _ Hp) as (? & Ht & ? & _ & Hh & He).
  destruct Hp as [Hwf Hm Hd Hl Hdrop].
  unfold wp. rewrite skb_pull_spec by done || lia. rewrite decide_True by lia. rewrite Hd.
  apply HQ; [|done]. split; cbn; [|done|done|rewrite length_drop; lia|].
  - pose proof Hwf as []. apply skb_window_wf; [done|lia..].
  - rewrite Z2Nat.inj_add by lia. rewrite <- drop_drop, Hdrop. by rewrite drop_app_le by lia.
Qed.

Lemma packet_pull n Q :
  0 <= n <= zlen p →
  (∀ s', packet s' m (d + n) (drop (Z.to_nat n) p) post → Q (d + n) s') →
  wp (skb_pull n) Q E s.
Proof. intros ? HQ. apply packet_pull_head; auto. Qed.

(** The value of a field, for reads that come after the header was skipped. *)
Lemma packet_field n a o :
  a = d + o → 0 <= o → o + Z.of_nat n <= zlen p →
  rd_le n (skb_head s) a = Ok (le_decode (slice o (Z.of_nat n) p)).
Proof.
  intros -> ? ?. destruct (packet_bounds _ _ _ _ _ Hp) as (? & Ht & ? & ? & Hh & He).
  rewrite rd_le_ok by lia. by rewrite slice_drop, (pk_drop _ _ _ _ _ Hp), slice_app_l by lia.
Qed.

(** Reads and writes at the offset [o] of the payload, reached by the pointer [a]. *)
Lemma packet_rdn a o n Q :
  a = d + o → 0 <= o → 0 <= n → o + n <= zlen p → Q (slice o n p) s → wp (s_rdn a n) Q E s.
Proof.
  intros -> ? ? ? HQ. destruct (packet_bounds _ _ _ _ _ Hp) as (? & Ht & ? & ? & Hh & He).
  unfold s_rdn, wp. rewrite rdn_ok by lia. cbn.
  rewrite slice_drop, (pk_drop _ _ _ _ _ Hp), slice_app_l by lia. done.
Qed.

Lemma packet_rd_le n a o Q :
  a = d + o → 0 <= o → o + Z.of_nat n <= zlen p → Q (le_decode (slice o (Z.of_nat n) p)) s →
  wp (λ s, lift (rd_le n (skb_head s) a) s) Q E s.
Proof.
  intros -> ? ? HQ. destruct (packet_bounds _ _ _ _ _ Hp) as (? & Ht & ? & ? & Hh & He).
  unfold wp. rewrite rd_le_ok by lia. cbn.
  rewrite slice_drop, (pk_drop _ _ _ _ _ Hp), slice_app_l by lia. done.
Qed.

Lemma packet_rd8 a o Q :
  a = d + o → 0 <= o → o + 1 <= zlen p → Q (le_decode (slice o 1 p)) s → wp (s_rd8 a) Q E s.
Proof. apply (packet_rd_le 1). Qed.
Lemma packet_rd16 a o Q :
  a = d + o → 0 <= o → o + 2 <= zlen p → Q (le_decode (slice o 2 p)) s → wp (s_rd16 a) Q E s.
Proof. apply (packet_rd_le 2). Qed.
Lemma packet_rd32 a o Q :
  a = d + o → 0 <= o → o + 4 <= zlen p → Q (le_decode (slice o 4 p)) s → wp (s_rd32 a) Q E s.
Proof. apply (packet_rd_le 4). Qed.

Lemma packet_wrn a o bs Q :
  a = d + o → 0 <= o → o + zlen bs <= zlen p → Forall is_u8 bs →
  (∀ s', packet s' m d (splice o bs p) post → Q tt s') → wp (s_wrn a bs) Q E s.
Proof.
  intros -> ? ? ? HQ. destruct (packet_bounds _ _ _ _ _ Hp) as (? & Ht & ? & ? & Hh & He).
  destruct Hp as [Hwf Hm Hd Hl Hdrop].
  unfold s_wrn, wp. rewrite wrn_ok by lia. apply HQ. split; cbn; [|done|done| |].
  - eapply (skb_wrn_wf s Hwf (d + o) bs); [done|]. apply wrn_ok; lia.
  - by rewrite length_splice by lia.
  - rewrite drop_splice, Hdrop by lia. by rewrite splice_app_l by lia.
Qed.

Lemma packet_wr8 a o v Q :
  a = d + o → 0 <= o → o + 1 <= zlen p →
  (∀ s', packet s' m d (splice o (le_encode 1 v) p) post → Q tt s') → wp (s_wr8 a v) Q E s.
Proof. intros. eapply packet_wrn; eauto using le_encode_bytes. Qed.
Lemma packet_wr16 a o v Q :
  a = d + o → 0 <= o → o + 2 <= zlen p →
  (∀ s', packet s' m d (splice o (le_encode 2 v) p) post → Q tt s') → wp (s_wr16 a v) Q E s.
Proof. intros. eapply packet_wrn; eauto using le_encode_bytes. Qed.
Lemma packet_wr32 a o v Q :
  a = d + o → 0 <= o → o + 4 <= zlen p →
  (∀ s', packet s' m d (splice o (le_encode 4 v) p) post → Q tt s') → wp (s_wr32 a v) Q E s.
Proof. intros. eapply packet_wrn; eauto using le_encode_bytes. Qed.

Lemma packet_gets_len Q : Q (zlen p) s → wp (gets skb_len) Q E s.
Proof. intros HQ. unfold wp, gets. by rewrite (pk_len _ _ _ _ _ Hp). Qed.

Lemma packet_checksum a o n Q :
  a = d + o → 0 <= o → 0 <= n <= 2 ^ 17 → o + n <= zlen p → Q (rfc1071 (slice o n p)) s →
  wp (s_calc_checksum a n) Q E s.
Proof.
  intros -> ? ? ? HQ. destruct (packet_bounds _ _ _ _ _ Hp) as (? & Ht & ? & ? & Hh & He).
  pose proof (pk_wf _ _ _ _ _ Hp) as [].
  unfold s_calc_checksum, wp. rewrite calc_checksum_16_spec by done || lia. cbn.
  rewrite slice_drop, (pk_drop _ _ _ _ _ Hp), slice_app_l by lia. done.
Qed.
End Rules.

Lemma wp_s_rd32_at s a v Q E : rd32 (skb_head s) a = Ok v → Q v s → wp (s_rd32 a) Q E s.
Proof. intros Hv HQ. unfold wp, s_rd32. by rewrite Hv. Qed.
Lemma wp_s_rd16_at s a v Q E : rd16 (skb_head s) a = Ok v → Q v s → wp (s_rd16 a) Q E s.
Proof. intros Hv HQ. unfold wp, s_rd16. by rewrite Hv. Qed.

(** Assignments to the pointer fields. *)
Definition m_set_intf (i : option positive) (m : skb_meta) : skb_meta :=
  mk_meta i (m_ethernet m) (m_ip m) (m_tcp m) (m_udp m).

Lemma packet_set_intf s m d p post i :
  packet s m d p post → packet (skb_set_intf i s) (m_set_intf i m) d p post.
Proof. intros [[] <- ? ? ?]. by split; [split| | | |]. Qed.

(** Filling a header field by field: [pre] is written, [junk] is not yet. *)
Lemma splice_next {A} (pre junk bs : list A) o :
  zlen pre = o → (length bs <= length junk)%nat →
  splice o bs (pre ++ junk) = (pre ++ bs) ++ drop (length bs) junk.
Proof.
  intros <- Hl. unfold splice. rewrite Nat2Z.id, take_app_length, <- app_assoc.
  by rewrite <- drop_drop, drop_app_length.
Qed.

Lemma packet_fill s m d pre junk post E a bs Q :
  packet s m d (pre ++ junk) post → a = d + zlen pre → (length bs <= length junk)%nat →
  Forall is_u8 bs →
  (∀ s', packet s' m d ((pre ++ bs) ++ drop (length bs) junk) post → Q tt s') →
  wp (s_wrn a bs) Q E s.
Proof.
  intros Hp -> Hl Hb HQ. apply (packet_wrn _ _ _ _ _ Hp _ _ (zlen pre)); [done|lia| |done|].
  - rewrite length_app. lia.
  - intros s' Hs'. apply HQ. by rewrite splice_next in Hs'.
Qed.

Lemma packet_set_ethernet_hdr s m d p post h :
  packet s m d p post →
  packet (skb_set_ethernet_hdr h s) (mk_meta (m_intf m) h (m_ip m) (m_tcp m) (m_udp m)) d p post.
Proof. intros [[] <- ? ? ?]. by split; [split| | | |]. Qed.
Lemma packet_set_ip_hdr s m d p post h :
  packet s m d p post →
  packet (skb_set_ip_hdr h s) (mk_meta (m_intf m) (m_ethernet m) h (m_tcp m) (m_udp m)) d p post.
Proof. intros [[] <- ? ? ?]. by split; [split| | | |]. Qed.
Lemma packet_set_tcp_hdr s m d p post h :
  packet s m d p post →
  packet (skb_set_tcp_hdr h s) (mk_meta (m_intf m) (m_ethernet m) (m_ip m) h (m_udp m)) d p post.
Proof. intros [[] <- ? ? ?]. by split; [split| | | |]. Qed.
Lemma packet_set_udp_hdr s m d p post h :
  packet s m d p post →
  packet (skb_set_udp_hdr h s) (mk_meta (m_intf m) (m_ethernet m) (m_ip m) (m_tcp m) h) d p post.
Proof. intros [[] <- ? ? ?]. by split; [split| | | |]. Qed.

(** Writing behind the payload, as a receiving system call does. *)
Lemma packet_wrn_post s m d p post E a bs Q :
  packet s m d p post → a = d + zlen p → zlen bs <= zlen post → Forall is_u8 bs →
  (∀ s', packet s' m d p (bs ++ drop (length bs) post) → Q tt s') → wp (s_wrn a bs) Q E s.
Proof.
  intros Hp -> ? ? HQ. destruct (packet_bounds _ _ _ _ _ Hp) as (? & Ht & ? & ? & Hh & He).
  destruct Hp as [Hwf Hm Hd Hl Hdrop].
  unfold s_wrn, wp. rewrite wrn_ok by lia. apply HQ. split; cbn; [|done..|].
  - eapply (skb_wrn_wf s Hwf (d + zlen p) bs); [done|]. apply wrn_ok; lia.
  - rewrite drop_splice, Hdrop by lia. by rewrite splice_next, <- app_assoc by lia.
Qed.

(** ** The state while one buffer is worked on *)

Definition with_skb (k : ptr) (s : sk_buff) (w : world) : world :=
  set_skbs (<[k := s]> (w_skbs w)) w.

Lemma with_skb_id k s w : w_skbs w !! k = Some s → with_skb k s w = w.
Proof. apply set_skbs_id. Qed.

Lemma with_skb_twice k s s' w : with_skb k s' (with_skb k s w) = with_skb k s' w.
Proof. unfold with_skb. cbn. by rewrite insert_insert_eq. Qed.

Lemma with_skb_free k s w :
  set_skbs (delete k (w_skbs (with_skb k s w))) (with_skb k s w) = set_skbs (delete k (w_skbs w)) w.
Proof. unfold with_skb. cbn. by rewrite delete_insert_eq. Qed.

Lemma with_skb_owned k s0 s w :
  wf w → owned w k s0 → skb_wf s → wf (with_skb k s w) ∧ owned (with_skb k s w) k s.
Proof. intros Hw Ho Hs. by destruct (owned_update w k s0 s Hw Ho Hs) as (? & ? & _). Qed.

Lemma wp_on_with {A} k (m : M sk_buff A) s Q E w :
  wp m (λ a s', Q a (with_skb k s' w)) E s → wp (on_skb k m) Q E (with_skb k s w).
Proof.
  intros Hm. apply (wp_on_skb _ _ s); [apply lookup_insert_eq|].
  eapply wp_mono; [exact Hm| |done]. cbv beta. intros a s' HQ.
  change (Q a (with_skb k s' (with_skb k s w))). by rewrite with_skb_twice.
Qed.

Lemma wp_read_with {A} k (m : M sk_buff A) s Q E w :
  wp m (λ a s', s' = s ∧ Q a (with_skb k s w)) E s → wp (on_skb k m) Q E (with_skb k s w).
Proof.
  intros Hm. apply wp_on_with. eapply wp_mono; [exact Hm| |done]. by intros a s' [-> HQ].
Qed.

Lemma wp_load_with k s Q E w : Q s (with_skb k s w) → wp (load k) Q E (with_skb k s w).
Proof. apply wp_load, lookup_insert_eq. Qed.
