(* ===== verification/RecvSafe.v ===== *)
(** * Receiving one frame keeps the invariant

    [recv_one] followed from the buffer it allocates: the view of the buffer as a
    byte string when it is handed to [pkt_receive], which the theorems on what
    is received start from, and the invariant in all cases. *)
From S2P Require Import Prelude Cmonad Utils Skbuff World Topology Comm Ethernet Arp Route Ip.
From S2P Require Import Icmp Udp Tcp Stack Invariant SkbRules LinkSafe ArpSafe IpSafe ProtoSafe.
From S2P Require Import TcpSafe StackSafe Packet.
#[local] Open Scope Z_scope.

Definition recv_meta (i : ptr) : skb_meta := mk_meta (Some i) None None None None.

Section RecvSafe.
Context `{Os} (E : fault → Prop).

(** The buffer that [recv_one] makes holds what was received, cut to its room. *)
Lemma wp_recv_buffer fd i it r Q w :
  wf w → w_fd_to_comm w !! fd = Some i → w_intfs w !! i = Some it → received_ok r →
  let k := w_next w in
  let f := received_bytes 2044 r in
  let n := received_count 2044 r in
  let wt t := set_trace (w_trace w ++ t) (set_next (Pos.succ k) w) in
  (n <= 0 → ∀ s t, Forall is_print t → skb_wf s →
     wp (print (ErrorReceiving n) ;;; free_skb k) Q E (with_skb k s (wt t))) →
  (0 < zlen f <= 2044 → ∀ s t, Forall is_print t →
     packet s (recv_meta i) 4 f (replicate (2051 - length f) 0) →
     wp (let* ok := pkt_receive k in
         if (ok : bool) then ret tt else print PacketDropped ;;; free_skb k) Q E (with_skb k s (wt t))) →
  wp (recv_one fd r) Q E w.
Proof.
  intros Hw Hfd Hit Hr k f n wt Herr Hok.
  destruct (st_intf_op _ _ _ _ (wf_static _ Hw) i it Hit) as [op Hop].
  unfold recv_one. mstep. mstep. rewrite Hfd. unfold RECV_BUFFER_SIZE, RECV_RESERVED_HEAD_ROOM.
  mstep. apply wp_alloc.
  set (w0 := set_next (Pos.succ k) w) in *. change (hset _ _) with (with_skb k (alloc_skb 2048) w0).
  mstep. apply wp_on_with. mstep.
  apply (packet_reserve _ _ _ _ _ (alloc_packet 2048 ltac:(lia))); [lia|done|done|].
  intros s0 P0. change (drop _ (replicate _ 0)) with (replicate 2051 0) in P0. mstep.
  apply (packet_set_intf _ _ _ _ _ (Some i)) in P0. set (s1 := skb_set_intf (Some i) s0) in *.
  mstep. apply wp_load_with. mstep. apply (wp_load _ it); [done|]. rewrite Hop. mstep. mstep.
  mstep. apply (wp_recv_op _ op i it); [by destruct (owned_alloc w s1 Hw (pk_wf _ _ _ _ _ P0))|done|].
  intros t Ht. cbv beta match. change (set_trace _ (with_skb k s1 w0)) with (with_skb k s1 (wt t)).
  replace (skb_tailroom s1) with 2044.
  2: { unfold skb_tailroom. destruct (packet_bounds _ _ _ _ _ P0) as (_ & -> & _ & _ & _ & ->).
       rewrite length_replicate. done. }
  fold n f. cbv zeta beta match. destruct (Z.leb_spec n 0) as [Hn|Hn]; [by apply Herr; [..|apply P0]|].
  assert (n = zlen f ∧ zlen f <= 2044 ∧ Forall is_u8 f) as (En & Hf & Hb).
  { subst n f. destruct r as [m|b]; cbn [received_count received_bytes received_ok] in *; [lia|].
    split_and!; [done|rewrite length_take; lia|by apply Forall_take]. }
  rewrite En in *. mstep. apply wp_on_with. rewrite (pk_data _ _ _ _ _ P0). mstep.
  apply (packet_wrn_post _ _ _ _ _ _ _ _ _ P0); [done|rewrite length_replicate; lia|done|].
  intros s2 P2. rewrite drop_replicate in P2.
  apply (packet_put _ _ _ _ _ P2); [lia|rewrite length_app, length_replicate; lia|].
  intros s3 P3. rewrite Nat2Z.id, take_app_length, drop_app_length in P3.
  by apply Hok.
Qed.

(** [pkt_receive] runs the callback, then the stack. *)
Lemma wp_pkt_receive_with k i it s f post Q w :
  w_intfs w !! i = Some it → packet s (recv_meta i) 4 f post →
  wp (if IS_INTF_L3_MODE it then ethernet_input k else switch_input k) Q E
    (with_skb k s (set_trace (w_trace w ++ if w_receive_callback w then [EReceiveCallback f i] else []) w)) →
  wp (pkt_receive k) Q E (with_skb k s w).
Proof.
  intros Hit P HQ. unfold pkt_receive. mstep. apply wp_load_with. mstep. mstep.
  rewrite (f_equal m_intf (pk_meta _ _ _ _ _ P) : skb_intf s = Some i). mstep. mstep. mstep.
  eapply (wp_mono _ (λ _ w', w' = with_skb k s
    (set_trace (w_trace w ++ if w_receive_callback w then [EReceiveCallback f i] else []) w)) _ E E); [| |done].
  { change (w_receive_callback (with_skb k s w)) with (w_receive_callback w). destruct (w_receive_callback w).
    - mstep. unfold skb_bytes. mstep. apply wp_load_with. pose proof (pk_wf _ _ _ _ _ P) as [].
      rewrite rdn_ok by lia. mstep. fold (skb_payload s). rewrite (packet_payload _ _ _ _ _ P). by wsteps.
    - mstep. rewrite app_nil_r. by destruct w. }
  cbv beta. intros _ w' ->. mstep. apply (wp_load _ it); [done|]. exact HQ.
Qed.

(** ** The invariant *)

(** A field of the frame, read from the buffer that holds its first bytes. *)
Lemma rd32_received s m d n b post o src :
  packet s m d (take n b) post → 0 <= o → o + 4 <= zlen (take n b) →
  rd32 (skb_head s) (d + o) = Ok src → rd32 b o = Ok src.
Proof.
  intros P Ho Hl. destruct (packet_bounds _ _ _ _ _ P) as (Hd & _ & _ & _ & Hh & _).
  pose proof (pk_drop _ _ _ _ _ P) as Hdrop. pose proof (length_take b n) as Ht.
  unfold rd32. rewrite !rd_le_ok by lia. rewrite slice_drop, Hdrop, slice_app_l by lia.
  intros [= <-]. by rewrite <- (take_drop n b) at 1; rewrite slice_app_l by lia.
Qed.

(** The buffer and its interface, as [pkt_receive] needs them. *)
Lemma framed_received fd i it r s post w w1 :
  w_fd_to_comm w !! fd = Some i → evolves None w w1 → owned w1 (w_next w) s → w_intfs w !! i = Some it →
  packet s (recv_meta i) 4 (received_bytes 2044 r) post → 0 < zlen (received_bytes 2044 r) →
  zlen post = 2051 - zlen (received_bytes 2044 r) →
  (short_frame r → E AssertFail) → (own_source w fd r → E NullDeref ∧ E AssertFail) →
  framed E w1 (w_next w) s i it.
Proof.
  intros Hfd He Ho Hit P Hf Hpost Hshort Hown. destruct r as [|b]; cbn [received_bytes] in *; [cbn in Hf; lia|].
  destruct (packet_bounds _ _ _ _ _ P) as (_ & _ & _ & _ & _ & Eend). pose proof P as [Hwf Hm Hd Hl _].
  split; rewrite ?Hd, ?Hl, ?Eend; [done|exact (f_equal m_intf Hm)|by rewrite (ev_intfs _ _ _ He)|lia|lia| |].
  - intros Hs. apply Hshort. exists b. split; [done|]. rewrite length_take in Hs. lia.
  - intros src H34 Hrd Hloc. apply Hown. exists b, i, it, src. split_and!; [done..| |by eapply evolves_local].
    apply (rd32_received _ _ 4 _ _ _ 26 _ P); [lia|lia|exact Hrd].
Qed.

Lemma wp_recv_one fd r w :
  wf w → received_ok r →
  (short_frame r → E AssertFail) →
  (own_source w fd r → E NullDeref ∧ E AssertFail) →
  wp (recv_one fd r) (λ _ w', wf w' ∧ evolves None w w') E w.
Proof.
  intros Hw Hr Hshort Hown. destruct (w_fd_to_comm w !! fd) as [i|] eqn:Hfd.
  2: { unfold recv_one. mstep. mstep. rewrite Hfd. mstep. auto with cprog. }
  destruct (st_comm _ _ _ _ (wf_static _ Hw) fd i Hfd) as [it Hit]. set (k := w_next w).
  assert (∀ s t, skb_wf s → let w1 := with_skb k s (set_trace (w_trace w ++ t) (set_next (Pos.succ k) w)) in
    wf w1 ∧ owned w1 k s ∧ evolves None w w1) as Hnew.
  { intros s t Hs. destruct (owned_alloc w s Hw Hs) as (Hw1 & Ho1 & He1).
    split_and!; [by apply (wf_trace (with_skb k s (set_next (Pos.succ k) w)))|exact Ho1|].
    eapply evolves_trans; [exact He1|]. apply (evolves_trace _ (with_skb k s (set_next (Pos.succ k) w)) (w_trace w ++ t)). }
  assert (∀ m s w1, wf w1 → owned w1 k s → evolves None w w1 →
    wp (print m ;;; free_skb k) (λ _ w', wf w' ∧ evolves None w w') E w1) as Hdrop.
  { intros m s w1 Hw1 Ho1 He1. eapply wp_drop_received; [done..|]. intros w2 Hw2 He2. split; [done|].
    eapply evolves_fresh; [exact He1|by apply wf_unused_skbs|exact He2]. }
  apply (wp_recv_buffer fd i it); [done..| |]; cbn zeta.
  - intros _ s t _ Hs. destruct (Hnew s t Hs) as (Hw1 & Ho1 & He1). by eapply Hdrop.
  - intros Hf s t _ P. destruct (Hnew s t (pk_wf _ _ _ _ _ P)) as (Hw1 & Ho1 & He1). mstep.
    eapply wp_mono; [apply (wp_pkt_receive E k s i it); [done|]| |done].
    { eapply framed_received; [done..|lia|rewrite length_replicate; lia|done|done]. }
    cbv beta. intros ok w2 (Hw2 & He2 & Ho2).
    assert (evolves None w w2) as He by (eapply evolves_fresh; [exact He1|by apply wf_unused_skbs|exact He2]).
    destruct ok; [by mstep|]. destruct (Ho2 eq_refl) as (s2 & Ho). by eapply Hdrop.
Qed.
End RecvSafe.
