(* ===== verification/ApiSafe.v ===== *)
(** * The socket interface keeps the invariant

    The calls an application makes on UDP and TCP sockets, and [ping], from any
    well-formed state. *)
From S2P Require Import Prelude Cmonad Utils Skbuff World Topology Comm Ethernet Arp Route Ip.
From S2P Require Import Icmp Udp Tcp Stack Net Graph Invariant SkbRules LinkSafe ArpSafe IpSafe.
From S2P Require Import ProtoSafe TcpSafe StackSafe.
#[local] Open Scope Z_scope.

(** ** Changes of the socket tables *)

Lemma qs_shrink intfs skbs Q Q' :
  qs_wf intfs skbs Q → (∀ q, Q' q = Q q ∨ Q' q = []) → qs_wf intfs skbs Q'.
Proof.
  intros [Hnd Hd Hok] HQ.
  assert (∀ q k, k ∈ Q' q → k ∈ Q q) as Hsub by (intros q k; destruct (HQ q) as [-> | ->]; set_solver).
  split.
  - intros q. destruct (HQ q) as [-> | ->]; [done|constructor].
  - intros q1 q2 k ?%Hsub ?%Hsub. by eapply Hd.
  - intros q k ?%Hsub. by apply Hok.
Qed.

Lemma unused_le {A} n n' (m : gmap ptr A) : unused n m → (n <= n')%positive → unused n' m.
Proof. intros Hu ? p ?. apply Hu. lia. Qed.

(** A table of descriptors after one of them is freed. *)
Lemma freed_slot_inv {A} j (l : list (option A)) j1 v :
  <[j := None]> l !! j1 = Some (Some v) → j1 ≠ j ∧ l !! j1 = Some (Some v).
Proof. rewrite list_lookup_insert_Some. naive_solver. Qed.

(** A change of the UDP sockets and their descriptors. *)
Lemma wf_udp_change w w' :
  wf w → w' = set_udp_fds (w_udp_fds w') (set_udps (w_udps w') (set_next (w_next w') w)) →
  (w_next w <= w_next w')%positive → unused (w_next w') (w_udps w') →
  udp_wf (topo w) (w_intfs w) (w_udps w') (w_udp_fds w') →
  (∀ q, queue_of w' q = queue_of w q ∨ queue_of w' q = []) → wf w'.
Proof.
  intros (Hst & Ha & Hu & Ht & Hq & Hf) Hw' Hn Hun Hu' HQ.
  pose proof (qs_shrink _ _ _ _ Hq HQ) as Hq'. rewrite Hw' in Hq' |- *. split_and!; try done.
  unfold fresh_wf in *. cbn. destruct_and!. split_and!; eauto using unused_le.
Qed.

(** A change of the TCP sockets and of both tables of descriptors. *)
Lemma wf_tcp_change w w' :
  wf w → w' = set_conn_fds (w_conn_fds w') (set_tcp_fds (w_tcp_fds w')
                (set_tcps (w_tcps w') (set_next (w_next w') w))) →
  (w_next w <= w_next w')%positive → unused (w_next w') (w_tcps w') →
  tcp_wf (topo w) (w_intfs w) (w_tcps w') (w_conns w) (w_tcp_fds w') (w_conn_fds w') → wf w'.
Proof.
  intros (Hst & Ha & Hu & Ht & Hq & Hf) -> Hn Hun Ht'. split_and!; try done.
  unfold fresh_wf in *. cbn in *. destruct_and!. split_and!; eauto using unused_le.
Qed.

(** A change of the attributes of an interface. *)
Lemma wf_intf_change w i it it' :
  wf w → w_intfs w !! i = Some it → if_node it' = if_node it → if_link it' = if_link it →
  is_Some (comm_op (if_comm it')) → IF_MAC it' = IF_MAC it →
  (∀ u, u ∈ p_udp_socks (if_nw it') →
     ∃ us, w_udps w !! u = Some us ∧ us_bound us = true ∧ us_intf us = Some i) →
  NoDup (p_udp_socks (if_nw it')) →
  (∀ t, t ∈ p_tcp_socks (if_nw it') →
     ∃ ts, w_tcps w !! t = Some ts ∧ ts_bound ts = true ∧ ts_intf ts = Some i) →
  NoDup (p_tcp_socks (if_nw it')) →
  wf (set_intfs (<[i := it']> (w_intfs w)) w).
Proof.
  intros (Hst & Ha & Hu & Ht & Hq & Hf) Hi Hn Hl Hop Hmac Hus Hund Hts Htnd.
  assert (∀ j, is_Some (w_intfs w !! j) → is_Some (<[i := it']> (w_intfs w) !! j)) as Hmono
    by (intros; by apply insert_is_Some).
  split_and!; try done.
  - destruct Hst as [Sn Sr Si Sl Sm So Sc]. split; cbn.
    + intros n sl rt j Hns Hj. destruct (Sn _ _ _ _ Hns Hj) as (jt & Hjt & <-).
      rewrite lookup_insert. case_decide; subst; [|by exists jt]. simplify_eq. by eexists.
    + intros n sl rt r Hns Hr. destruct (Sr _ _ _ _ Hns Hr). auto.
    + intros j jt. rewrite lookup_insert. case_decide; subst; [|apply Si].
      intros [= <-]. rewrite Hn. by eapply Si.
    + intros j jt l. rewrite lookup_insert. case_decide; subst.
      * intros [= <-]. rewrite Hl. intros Hl'. destruct (Sl _ _ _ Hi Hl') as (lk & ? & ? & ?).
        exists lk. auto.
      * intros Hj Hjl. destruct (Sl _ _ _ Hj Hjl) as (lk & ? & ? & ?). exists lk. auto.
    + intros j jt. rewrite lookup_insert. case_decide; subst; [|apply Sm].
      intros [= <-]. rewrite Hmac. by eapply Sm.
    + intros j jt. rewrite lookup_insert. case_decide; subst; [|apply So]. by intros [= <-].
    + intros fd j Hfd. auto. by eapply Hmono, Sc.
  - destruct Hu as [U1 U2 U3 U4 U5 U6 U7]. split; cbn; try done.
    + intros j jt u. rewrite lookup_insert. case_decide; subst; [|apply U1].
      intros [= <-]. apply Hus.
    + intros j jt. rewrite lookup_insert. case_decide; subst; [|apply U2]. by intros [= <-].
    + intros u us Hu Hb. destruct (U3 _ _ Hu Hb) as (j & ? & ?). exists j. auto.
  - destruct Ht as [T1 T1' T2 T3 T4 T5 T6 T7 T8 T9 T10]. split; cbn; try done.
    + intros j jt t. rewrite lookup_insert. case_decide; subst; [|apply T1].
      intros [= <-]. apply Hts.
    + intros j jt. rewrite lookup_insert. case_decide; subst; [|apply T1']. by intros [= <-].
    + intros t ts Ht Hb. destruct (T2 _ _ Ht Hb) as (j & ? & ?). exists j. auto.
  - destruct Hq as [Hnd Hd Hok]. split; [done..|]. intros q k Hk.
    destruct (Hok q k Hk) as (s & Hs & Hwf & Hqs). exists s. split; [done|]. split; [done|].
    destruct q; try done. destruct Hqs as (? & j & ? & ?). split; [done|]. exists j. auto.
  - unfold fresh_wf in *. cbn. destruct_and!. split_and!; auto. apply unused_insert; eauto.
Qed.

Lemma good_fd_Some max fds fd u :
  good_fd max fds fd = Some u → fds !! Z.to_nat fd = Some (Some u).
Proof. unfold good_fd. intros. repeat case_match; by simplify_eq. Qed.

Section ApiSafe.
Context `{Os} (E : fault → Prop).

(** The first free slot of a table. *)
Lemma available_slot_free l :
  available_slot_from 0 l <? 0 = false → l !! Z.to_nat (available_slot_from 0 l) = Some None.
Proof.
  intros Hs. destruct (available_slot_from_spec 0 l) as [[Hi _]|(n & Hi & Hn & _)].
  - by rewrite Hi in Hs.
  - by rewrite Hi, Z.add_0_l, Nat2Z.id.
Qed.

Lemma wp_get_matching_interface n ip Q w :
  wf w → is_Some (topo w !! n) →
  (∀ r, (∀ i, r = Some i → ∃ it, w_intfs w !! i = Some it ∧ IF_IP it = ip) → Q r w) →
  wp (_get_matching_interface n ip) Q E w.
Proof.
  intros Hw [x Hx] HQ. destruct (topo_node _ _ _ Hx) as (nd & Hn & <-).
  unfold _get_matching_interface. mstep. apply (wp_load _ nd); [done|].
  destruct (first_intf_spec (λ it, IS_INTF_L3_MODE it && (ip =? IF_IP it))
    (λ it, ret (IS_INTF_L3_MODE it && (ip =? IF_IP it))) (n_intfs nd) w) as (r & Hr & Hspec); [done| |].
  { intros i Hi. destruct (st_node_intf _ _ _ _ (wf_static _ Hw) n _ _ i Hx Hi) as (it & ? & _).
    by exists it. }
  unfold wp. rewrite Hr. apply HQ. intros i ->. destruct Hspec as (it & _ & ? & Hb).
  exists it. split; [done|]. apply andb_prop in Hb as [_ Hb%Z.eqb_eq]. done.
Qed.

(** ** UDP *)

Lemma wp_udp_socket n w :
  wf w → is_Some (topo w !! n) → wp (udp_socket n) (λ _ w', wf w') E w.
Proof.
  intros Hw Hn. unfold udp_socket. mstep. mstep. case_match eqn:Hs; [by mstep|].
  apply available_slot_free in Hs. set (j := Z.to_nat _) in *.
  destruct (wf_udp _ Hw) as [U1 U2 U3 U4 U5 U6 U7].
  pose proof (wf_fresh _ Hw) as Hf. unfold fresh_wf in Hf. destruct_and!.
  assert (w_udps w !! w_next w = None) as Hnone by eauto using Pos.le_refl.
  assert (∀ u us, w_udps w !! u = Some us → u ≠ w_next w) as Hne by (intros ? ? ? ->; congruence).
  assert (∀ j1 u, <[j:=Some (w_next w)]> (w_udp_fds w) !! j1 = Some (Some u) →
            j1 = j ∧ u = w_next w ∨ j1 ≠ j ∧ w_udp_fds w !! j1 = Some (Some u)) as Hins.
  { intros j1 u. rewrite list_lookup_insert_Some. naive_solver. }
  mstep. apply wp_alloc. mstep. mstep. mstep. apply (wf_udp_change w); [done|done|cbn; lia| | |].
  - cbn. by apply unused_alloc.
  - split; cbn; try done.
    + intros i it u Hi Hu. destruct (U1 _ _ _ Hi Hu) as (us & Hus & ? & ?). exists us.
      by rewrite lookup_insert_ne by (symmetry; eauto).
    + intros u us. rewrite lookup_insert. case_decide; subst; [by intros [= <-]|apply U3].
    + intros u us. rewrite lookup_insert. case_decide; subst; [by intros [= <-]|apply U4].
    + intros j1 u [[-> ->]|[_ Hj]]%Hins; [rewrite lookup_insert_eq; eauto|].
      apply insert_is_Some. eauto.
    + intros j1 j2 u [[-> ->]|[? Hj1]]%Hins [[-> ?]|[? Hj2]]%Hins; try done; eauto.
      * by destruct (U5 _ _ Hj2) as [us ?%Hne].
      * subst. by destruct (U5 _ _ Hj1) as [us ?%Hne].
    + by rewrite length_insert.
  - intros q. left. unfold queue_of. cbn. rewrite queue_insert_udp. case_decide; [|done].
    subst. simpl. by rewrite Hnone.
Qed.

Lemma wp_udp_bind fd ip port w :
  wf w → wp (udp_bind fd ip port) (λ _ w', wf w') E w.
Proof.
  intros Hw. unfold udp_bind, is_good_udp_sock. mstep. mstep.
  destruct (good_fd _ _ _) as [u|] eqn:Hg; [|by mstep]. apply good_fd_Some in Hg.
  destruct (wf_udp _ Hw) as [U1 U2 U3 U4 U5 U6 U7].
  destruct (U5 _ _ Hg) as [us Hus].
  mstep. apply (wp_load _ us); [done|]. destruct (us_bound us) eqn:Hb; [by mstep|].
  mstep. apply wp_get_matching_interface; [done|by eapply U4|].
  intros [i|] Hr; [|by mstep]. destruct (Hr i eq_refl) as (it & Hit & _).
  assert (∀ j jt, w_intfs w !! j = Some jt → u ∉ p_udp_socks (if_nw jt)) as Hnot.
  { intros j jt Hj Hu. destruct (U1 _ _ _ Hj Hu) as (us' & ? & ? & _). congruence. }
  mstep. apply (wp_update _ _ us); [done|]. cbn. set (w1 := set_udps _ w).
  assert (wf w1) as Hw1.
  { apply (wf_udp_change w); [done|by destruct w|subst w1; cbn; lia| | |].
    - subst w1. cbn. pose proof (wf_fresh _ Hw) as Hf. unfold fresh_wf in Hf. destruct_and!.
      apply unused_insert; eauto.
    - split; subst w1; cbn; try done.
      + intros j jt v Hj Hv. rewrite lookup_insert_ne; [by eapply U1|].
        intros ->. by eapply Hnot.
      + intros v vs. rewrite lookup_insert. case_decide; subst; [|apply U3].
        intros [= <-] _. exists i. by split; [|eexists].
      + intros v vs. rewrite lookup_insert. case_decide; subst; [|apply U4].
        intros [= <-]. by apply (U4 v us).
      + intros j v Hj. apply insert_is_Some. eauto.
    - intros q. left. unfold queue_of, w1. cbn. rewrite queue_insert_udp. case_decide; [|done].
      subst. by rewrite (queue_udp_Some _ _ _ _ us). }
  assert (w_intfs w1 !! i = Some it) as Hit1 by done.
  mstep. apply (wp_update _ _ it); [done|]. mstep.
  apply (wf_intf_change w1 i it); try done.
  - exact (st_intf_op _ _ _ _ (wf_static _ Hw1) i it Hit1).
  - cbn. intros v [->|Hv]%elem_of_cons.
    + eexists. split; [apply lookup_insert_eq|done].
    + destruct (U1 _ _ _ Hit Hv) as (vs & ? & ? & ?). exists vs.
      rewrite lookup_insert_ne; [done|]. intros ->. by eapply Hnot.
  - cbn. constructor; [by eapply Hnot|by eapply U2].
  - cbn. intros t. by apply (tw_socks _ _ _ _ _ _ (wf_tcp _ Hw)).
  - cbn. by apply (tw_socks_nodup _ _ _ _ _ _ (wf_tcp _ Hw) i).
Qed.

(** Closing a socket: its descriptor is freed, it leaves the list of its
    interface, and then it is in no list and can be freed. *)
Lemma wf_udp_fd_freed w j : wf w → wf (set_udp_fds (<[j := None]> (w_udp_fds w)) w).
Proof.
  intros Hw. destruct (wf_udp _ Hw) as [U1 U2 U3 U4 U5 U6 U7].
  apply (wf_udp_change w); [done|by destruct w|done| | |by left].
  - pose proof (wf_fresh _ Hw) as Hf. unfold fresh_wf in Hf. by destruct_and!.
  - split; cbn; try done.
    + intros j1 v [_ ?]%freed_slot_inv. eauto.
    + intros j1 j2 v [_ ?]%freed_slot_inv [_ ?]%freed_slot_inv. eauto.
    + by rewrite length_insert.
Qed.

Lemma wf_udp_freed w u :
  wf w → (∀ i it, w_intfs w !! i = Some it → u ∉ p_udp_socks (if_nw it)) →
  (∀ j, w_udp_fds w !! j ≠ Some (Some u)) → wf (set_udps (delete u (w_udps w)) w).
Proof.
  intros Hw Hnot Hfd. destruct (wf_udp _ Hw) as [V1 V2 V3 V4 V5 V6 V7].
  apply (wf_udp_change w); [done|by destruct w|done| | |].
  - cbn. apply unused_delete. pose proof (wf_fresh _ Hw) as Hf. unfold fresh_wf in Hf. by destruct_and!.
  - split; cbn; try done.
    + intros i it v Hi Hv. rewrite lookup_delete_ne; [by eapply V1|]. intros <-. by eapply Hnot.
    + intros v vs [_ Hv]%lookup_delete_Some. eauto.
    + intros v vs [_ Hv]%lookup_delete_Some. eauto.
    + intros j v Hj. rewrite lookup_delete_ne; [by eapply V5|]. intros <-. by eapply Hfd.
  - intros q. unfold queue_of. cbn. destruct q as [|v|]; cbn; try by left.
    destruct (decide (u = v)) as [->|]; [right; by rewrite lookup_delete_eq|left].
    by rewrite lookup_delete_ne.
Qed.

Lemma wp_udp_unlist u us w Q :
  wf w → w_udps w !! u = Some us →
  (∀ w', wf w' → w_udps w' = w_udps w → w_udp_fds w' = w_udp_fds w →
     (∀ i it, w_intfs w' !! i = Some it → u ∉ p_udp_socks (if_nw it)) → Q tt w') →
  wp (if us_bound us then
        let* i := nonnull (us_intf us) in
        update (A := intf) i (λ it,
          if_set_nw (p_set_udp_socks (list_remove u (p_udp_socks (if_nw it))) (if_nw it)) it)
      else ret tt) Q E w.
Proof.
  intros Hw Hus HQ. destruct (wf_udp _ Hw) as [U1 U2 U3 U4 U5 U6 U7]. destruct (us_bound us) eqn:Hb.
  - destruct (U3 _ _ Hus Hb) as (i & Hi & [it Hit]). rewrite Hi. mstep. mstep.
    apply (wp_update _ _ it); [done|]. cbn. apply HQ; [|done..|].
    + apply (wf_intf_change w i it); try done.
      * exact (st_intf_op _ _ _ _ (wf_static _ Hw) i it Hit).
      * cbn. intros v [Hv _]%elem_of_list_remove; [|by eapply U2]. by apply (U1 i it).
      * cbn. apply list_remove_NoDup. by eapply U2.
      * cbn. intros t. by apply (tw_socks _ _ _ _ _ _ (wf_tcp _ Hw)).
      * cbn. by apply (tw_socks_nodup _ _ _ _ _ _ (wf_tcp _ Hw) i).
    + intros i' it'. cbn. rewrite lookup_insert. case_decide; subst.
      * intros [= <-]. cbn. rewrite elem_of_list_remove by by eapply U2. naive_solver.
      * intros Hi' Hu. destruct (U1 _ _ _ Hi' Hu) as (us' & ? & _ & ?). simplify_eq.
  - mstep. apply HQ; [done..|]. intros i it Hi Hu. destruct (U1 _ _ _ Hi Hu) as (us' & ? & ? & _). congruence.
Qed.

Lemma wp_udp_close fd w : wf w → wp (udp_close fd) (λ _ w', wf w') E w.
Proof.
  intros Hw. unfold udp_close, is_good_udp_sock. mstep. mstep.
  destruct (good_fd _ _ _) as [u|] eqn:Hg; [|by mstep]. apply good_fd_Some in Hg.
  destruct (uw_fd _ _ _ _ (wf_udp _ Hw) _ _ Hg) as [us Hus].
  mstep. mstep. set (w1 := set_udp_fds _ w). assert (wf w1) as Hw1 by by apply wf_udp_fd_freed.
  mstep. apply (wp_load _ us); [done|].
  mstep. apply (wp_udp_unlist u us); [done..|]. intros w2 Hw2 Hu2 Hfd2 Hnot.
  mstep. apply (wp_dealloc _ us); [by cbn; rewrite Hu2|]. mstep. apply wf_udp_freed; [done..|].
  intros j. rewrite Hfd2. intros [Hne Hj]%freed_slot_inv. apply Hne. by eapply (uw_fd_inj _ _ _ _ (wf_udp _ Hw)).
Qed.

(** Taking bytes from a packet that waits in a queue. *)
Lemma wp_take q k s size Q w :
  wf w → k ∈ queue_of w q → w_skbs w !! k = Some s → queued_ok (w_intfs w) q s → 0 <= size →
  (match q with QArp _ => False | _ => True end) →
  (∀ bytes s' w', w' = set_skbs (<[k := s']> (w_skbs w)) w → wf w' → skb_wf s' →
     queued_ok (w_intfs w) q s' → skb_ip_hdr s' = skb_ip_hdr s →
     skb_udp_hdr s' = skb_udp_hdr s → length (skb_head s') = length (skb_head s) →
     skb_end s' = skb_end s → Q bytes w') →
  wp (on_skb k (s_take size)) Q E w.
Proof.
  intros Hw Hk Hs Hqs Hsize Hq HQ. pose proof Hqs as [Hwf _]. pose proof Hwf as [].
  apply (wp_on_skb _ _ s); [done|]. unfold s_take, MIN. mstep. mstep.
  set (n := if skb_len s <? size then skb_len s else size).
  assert (0 <= n <= skb_len s) as Hn by (subst n; case_match; zbool; lia).
  pose proof (shape_refl _ Hwf) as S0.
  mstep. srule S0; [lia..|]. intros bytes _ _.
  mstep. apply wp_skb_pull_exact; [done|lia| |lia]. intros _. mstep.
  set (s' := skb_set_window _ _ _ s).
  assert (skb_wf s') as Hwf' by by apply skb_pull_wf.
  assert (queued_ok (w_intfs w) q s') as Hqs' by (destruct Hqs as [_ Hqs]; split; [done|by destruct q]).
  apply (HQ _ s'); try done. by apply (wf_queued_update w q k s).
Qed.

Lemma wp_udp_recvfrom fd size ip port w :
  wf w → 0 <= size → (ip = true → E NullDeref) →
  wp (udp_recvfrom fd size ip port) (λ _ w', wf w') E w.
Proof.
  intros Hw Hsize HE. unfold udp_recvfrom, is_good_udp_sock. mstep. mstep.
  destruct (good_fd _ _ _) as [u|] eqn:Hg; [|by mstep]. apply good_fd_Some in Hg.
  destruct (uw_fd _ _ _ _ (wf_udp _ Hw) _ _ Hg) as [us Hus].
  mstep. apply (wp_load _ us); [done|]. case_match; [by mstep|].
  destruct (last (us_rx_skb us)) as [k|] eqn:Hlast; [|by mstep].
  apply last_Some_elem_of in Hlast.
  assert (k ∈ queue_of w (QUdp u)) as Hkq.
  { unfold queue_of. by rewrite (queue_udp_Some _ _ _ _ us). }
  destruct (q_ok _ _ _ (wf_qs _ Hw) _ _ Hkq) as (s & Hs & Hqs).
  pose proof Hqs as (_ & Hip & Hudp & [uh Huh]).
  mstep. apply (wp_take (QUdp u) k s); try done.
  intros bytes s' w1 Hw1' Hw1 Hwf' Hqs' Hip' Hudp' Hlen' Hend'.
  assert (w_skbs w1 !! k = Some s') as Hs1 by (subst w1; apply lookup_insert_eq).
  assert (w_udps w1 !! u = Some us) as Hus1 by by subst w1.
  pose proof (shape_refl _ Hwf') as S0. destruct Hwf' as [].
  mstep. apply (wp_load _ s'); [done|].
  mstep. apply (wp_mono _ (λ _ w', w' = w1) _ E E); [| |done].
  { destruct ip; [|by mstep]. mstep. apply wp_nonnull; [|auto]. intros o Ho.
    rewrite Hip' in Ho. destruct (Hip o Ho). rewrite <- Hlen' in *. unfold ip_src_ip.
    mstep. apply (wp_own_read _ _ s'); [done|]. srule S0; [lia..|]. intros. split; [done|]. by mstep. }
  intros oip w' ->. mstep. apply (wp_mono _ (λ _ w', w' = w1) _ E E); [| |done].
  { destruct port; [|by mstep]. rewrite Hudp', Huh. mstep. mstep. mstep.
    destruct (Hudp uh Huh). rewrite <- Hlen' in *. unfold udp_src_port.
    apply (wp_own_read _ _ s'); [done|]. srule S0; [lia..|]. intros. split; [done|]. by mstep. }
  intros oport w' ->. mstep. case_match; [|by mstep; mstep].
  destruct (wf_remove_udp w1 u us k) as (Hw2 & _ & s2 & Ho2); [done..|].
  mstep. apply (wp_update _ _ us); [done|].
  apply (wp_dealloc _ s2); [by apply owned_lookup in Ho2|]. mstep.
  by destruct (owned_free _ _ _ Hw2 Ho2).
Qed.

(** Any call that sends may meet an address of the node itself. *)
Lemma wp_udp_sendto fuel fd buff ip port w :
  wf w → Forall is_u8 buff → E NullDeref → E AssertFail →
  wp (udp_sendto (H := {| ip_output := ip_output_with (ip_input_fuel (S fuel)) |}) fd buff ip port)
    (λ _ w', wf w' ∧ evolves None w w') E w.
Proof.
  intros Hw Hb HN HA. unfold udp_sendto, is_good_udp_sock. mstep. mstep.
  destruct (good_fd _ _ _) as [u|] eqn:Hg; [|mstep; auto with cprog]. apply good_fd_Some in Hg.
  destruct (uw_fd _ _ _ _ (wf_udp _ Hw) _ _ Hg) as [us Hus].
  mstep. apply (wp_load _ us); [done|]. destruct (us_bound us) eqn:Hbd; cbn [negb]; [|mstep; auto with cprog].
  destruct (uw_intf _ _ _ _ (wf_udp _ Hw) _ _ Hus Hbd) as (i & Hi & [it Hit]).
  mstep. eapply wp_mono; [eapply (wp_udp_out _ E u us i it)| |done]; try done.
  - apply ip_layer_ok.
  - rewrite length_take. unfold MAX_UDP_PAYLOAD. lia.
  - by apply Forall_take.
  - cbv beta. intros r w' ?. destruct r; cbn [negb]; by mstep.
Qed.

Lemma wp_ping fuel n ip w :
  wf w → is_Some (topo w !! n) → E NullDeref → E AssertFail →
  wp (ping (H := {| ip_output := ip_output_with (ip_input_fuel (S fuel)) |}) n ip)
    (λ _ w', wf w' ∧ evolves None w w') E w.
Proof.
  intros. unfold ping. apply wp_icmp_out; try done. apply ip_layer_ok.
Qed.
End ApiSafe.
