(* ===== verification/TcpApiSafe.v ===== *)
(** * The TCP socket interface keeps the invariant

    [tcp_close] does so only for a socket without connections: it frees the
    socket, and the connections keep a pointer to it. *)
From S2P Require Import Prelude Cmonad Utils Skbuff World Topology Comm Ethernet Arp Route Ip.
From S2P Require Import Icmp Udp Tcp Stack Net Graph Invariant SkbRules LinkSafe ArpSafe IpSafe.
From S2P Require Import ProtoSafe TcpSafe StackSafe ApiSafe.
#[local] Open Scope Z_scope.

Section TcpApiSafe.
Context `{Os} (E : fault → Prop).

Lemma wf_unused_tcps w : wf w → unused (w_next w) (w_tcps w).
Proof. intros Hf%wf_fresh. unfold fresh_wf in Hf. tauto. Qed.

Lemma wp_tcp_socket n w :
  wf w → is_Some (topo w !! n) → wp (tcp_socket n) (λ _ w', wf w') E w.
Proof.
  intros Hw Hn. unfold tcp_socket. mstep. mstep. case_match eqn:Hs; [by mstep|].
  apply available_slot_free in Hs. set (j := Z.to_nat _) in *.
  destruct (wf_tcp _ Hw) as [T1 T2 T3 T4 T5 T6 T7 T8 T9 T10 T11].
  assert (w_tcps w !! w_next w = None) as Hnone by (apply wf_unused_tcps; [done|lia]).
  assert (∀ t ts, w_tcps w !! t = Some ts → t ≠ w_next w) as Hne by (intros ? ? ? ->; congruence).
  assert (∀ j1 t, <[j:=Some (w_next w)]> (w_tcp_fds w) !! j1 = Some (Some t) →
            j1 = j ∧ t = w_next w ∨ j1 ≠ j ∧ w_tcp_fds w !! j1 = Some (Some t)) as Hins.
  { intros j1 t. rewrite list_lookup_insert_Some. naive_solver. }
  mstep. apply wp_alloc. mstep. mstep. mstep.
  apply (wf_tcp_change w); [done|by destruct w|cbn; lia| |].
  - cbn. apply unused_alloc. exact (wf_unused_tcps _ Hw).
  - split; cbn; try done.
    + intros i it t Hi Ht. destruct (T1 _ _ _ Hi Ht) as (ts & Hts & ? & ?). exists ts.
      by rewrite lookup_insert_ne by (symmetry; eauto).
    + intros t ts. rewrite lookup_insert. case_decide; subst; [by intros [= <-]|apply T3].
    + intros t ts. rewrite lookup_insert. case_decide; subst; [by intros [= <-]|apply T4].
    + intros t ts c. rewrite lookup_insert. case_decide; subst; [|apply T5].
      intros [= <-]. cbn. set_solver.
    + intros c cn Hc. destruct (T6 _ _ Hc) as (ts & ? & ?). exists ts.
      by rewrite lookup_insert_ne by (symmetry; eauto).
    + intros j1 t [[-> ->]|[_ Hj]]%Hins; [rewrite lookup_insert_eq; eauto|].
      apply insert_is_Some. eauto.
    + intros j1 j2 t [[-> ->]|[? Hj1]]%Hins [[-> ?]|[? Hj2]]%Hins; try done; eauto.
      * by destruct (T7 _ _ Hj2) as [ts ?%Hne].
      * subst. by destruct (T7 _ _ Hj1) as [ts ?%Hne].
    + by rewrite length_insert.
Qed.

Lemma wp_tcp_bind fd ip port w :
  wf w → wp (tcp_bind fd ip port) (λ _ w', wf w') E w.
Proof.
  intros Hw. unfold tcp_bind, is_good_tcp_sock. mstep. mstep.
  destruct (good_fd _ _ _) as [t|] eqn:Hg; [|by mstep]. apply good_fd_Some in Hg.
  destruct (wf_tcp _ Hw) as [T1 T2 T3 T4 T5 T6 T7 T8 T9 T10 T11].
  destruct (T7 _ _ Hg) as [ts Hts].
  mstep. apply (wp_load _ ts); [done|]. destruct (ts_bound ts) eqn:Hb; [by mstep|].
  mstep. apply wp_get_matching_interface; [done|by eapply T4|].
  intros [i|] Hr; [|by mstep]. destruct (Hr i eq_refl) as (it & Hit & _).
  assert (∀ j jt, w_intfs w !! j = Some jt → t ∉ p_tcp_socks (if_nw jt)) as Hnot.
  { intros j jt Hj Ht. destruct (T1 _ _ _ Hj Ht) as (ts' & ? & ? & _). congruence. }
  mstep. apply (wp_update _ _ ts); [done|]. cbn. set (w1 := set_tcps _ w).
  assert (wf w1) as Hw1.
  { apply (wf_tcp_change w); [done|by destruct w|subst w1; cbn; lia| |].
    - subst w1. cbn. apply unused_insert; [exact (wf_unused_tcps _ Hw)|by eexists].
    - split; subst w1; cbn; try done.
      + intros j jt v Hj Hv. rewrite lookup_insert_ne; [by eapply T1|].
        intros ->. by eapply Hnot.
      + intros v vs. rewrite lookup_insert. case_decide; subst; [|apply T3].
        intros [= <-] _. exists i. by split; [|eexists].
      + intros v vs. rewrite lookup_insert. case_decide; subst; [|apply T4].
        intros [= <-]. exact (T4 _ _ Hts).
      + intros v vs c. rewrite lookup_insert. case_decide; subst; [|apply T5].
        intros [= <-]. exact (T5 _ _ c Hts).
      + intros c cn Hc. destruct (T6 _ _ Hc) as (ps & ? & ?).
        rewrite lookup_insert. case_decide; subst; [|by exists ps]. by eexists.
      + intros j v Hj. apply insert_is_Some. eauto. }
  assert (w_intfs w1 !! i = Some it) as Hit1 by done.
  mstep. apply (wp_update _ _ it); [done|]. mstep.
  apply (wf_intf_change w1 i it); try done.
  - exact (st_intf_op _ _ _ _ (wf_static _ Hw1) i it Hit1).
  - cbn. intros u. by apply (uw_socks _ _ _ _ (wf_udp _ Hw)).
  - cbn. by apply (uw_socks_nodup _ _ _ _ (wf_udp _ Hw) i).
  - cbn. intros v [->|Hv]%elem_of_cons.
    + eexists. split; [apply lookup_insert_eq|done].
    + destruct (T1 _ _ _ Hit Hv) as (vs & ? & ? & ?). exists vs.
      rewrite lookup_insert_ne; [done|]. intros ->. by eapply Hnot.
  - cbn. constructor; [by eapply Hnot|by eapply T2].
Qed.

Lemma wp_tcp_listen fd w : wf w → wp (tcp_listen fd) (λ _ w', wf w') E w.
Proof.
  intros Hw. unfold tcp_listen, is_good_tcp_sock. mstep. mstep.
  destruct (good_fd _ _ _) as [t|] eqn:Hg; [|by mstep]. apply good_fd_Some in Hg.
  destruct (wf_tcp _ Hw) as [T1 T2 T3 T4 T5 T6 T7 T8 T9 T10 T11].
  destruct (T7 _ _ Hg) as [ts Hts].
  mstep. apply (wp_load _ ts); [done|]. case_match; [by mstep|].
  mstep. apply (wp_update _ _ ts); [done|]. mstep. cbn.
  apply (wf_tcp_change w); [done|by destruct w|cbn; lia| |].
  - cbn. apply unused_insert; [exact (wf_unused_tcps _ Hw)|by eexists].
  - split; cbn; try done.
    + intros i it v Hi Hv. destruct (T1 _ _ _ Hi Hv) as (vs & ? & ? & ?).
      rewrite lookup_insert. case_decide; subst; [|by exists vs]. simplify_eq. by eexists.
    + intros v vs. rewrite lookup_insert. case_decide; subst; [|apply T3].
      intros [= <-]. exact (T3 _ _ Hts).
    + intros v vs. rewrite lookup_insert. case_decide; subst; [|apply T4].
      intros [= <-]. exact (T4 _ _ Hts).
    + intros v vs c. rewrite lookup_insert. case_decide; subst; [|apply T5].
      intros [= <-]. exact (T5 _ _ c Hts).
    + intros c cn Hc. destruct (T6 _ _ Hc) as (ps & ? & ?).
      rewrite lookup_insert. case_decide; subst; [|by exists ps]. simplify_eq. by eexists.
    + intros j v Hj. apply insert_is_Some. eauto.
Qed.

Lemma wf_set_conn_fds w j c :
  wf w → is_Some (w_conns w !! c) → wf (set_conn_fds (<[j := Some c]> (w_conn_fds w)) w).
Proof.
  intros Hw Hc. destruct (wf_tcp _ Hw) as [T1 T2 T3 T4 T5 T6 T7 T8 T9 T10 T11].
  apply (wf_tcp_change w); [done|by destruct w|done|exact (wf_unused_tcps _ Hw)|].
  split; cbn; try done.
  - intros j1 d. rewrite list_lookup_insert_Some. naive_solver.
  - by rewrite length_insert.
Qed.

Lemma wp_accept_from l w :
  wf w → (∀ c, c ∈ l → is_Some (w_conns w !! c)) → wp (accept_from l) (λ _ w', wf w') E w.
Proof.
  intros Hw. induction l as [|c l IH]; intros Hl; cbn [accept_from]; [by mstep|].
  destruct (Hl c) as [cn Hc]; [set_solver|]. mstep. apply (wp_load _ cn); [done|].
  case_match; [|by apply IH; set_solver]. mstep. mstep. case_match; [by mstep|].
  mstep. mstep. mstep. apply wf_set_conn_fds; [done|by eexists].
Qed.

Lemma wp_tcp_accept fd w : wf w → wp (tcp_accept fd) (λ _ w', wf w') E w.
Proof.
  intros Hw. unfold tcp_accept, is_good_tcp_sock. mstep. mstep.
  destruct (good_fd _ _ _) as [t|] eqn:Hg; [|by mstep]. apply good_fd_Some in Hg.
  destruct (tw_fd _ _ _ _ _ _ (wf_tcp _ Hw) _ _ Hg) as [ts Hts].
  mstep. apply (wp_load _ ts); [done|]. case_match; [by mstep|].
  apply wp_accept_from; [done|]. intros c Hc.
  destruct (tw_conns _ _ _ _ _ _ (wf_tcp _ Hw) _ _ _ Hts Hc) as (cn & ? & _). by exists cn.
Qed.

Lemma wp_estab_connection fd Q w :
  wf w → (∀ r, (∀ c, r = Some c → ∃ cn, w_conns w !! c = Some cn) → Q r w) →
  wp (estab_connection fd) Q E w.
Proof.
  intros Hw HQ. unfold estab_connection, is_good_tcp_connection_sock. mstep. mstep.
  destruct (good_fd _ _ _) as [c|] eqn:Hg; [|mstep; by apply HQ]. apply good_fd_Some in Hg.
  destruct (tw_cfd _ _ _ _ _ _ (wf_tcp _ Hw) _ _ Hg) as [cn Hc].
  mstep. apply (wp_load _ cn); [done|]. mstep. apply HQ. case_bool_decide; [|done].
  intros ? [= <-]. by exists cn.
Qed.

Lemma wp_tcp_recv fd size w :
  wf w → 0 <= size → wp (tcp_recv fd size) (λ _ w', wf w') E w.
Proof.
  intros Hw Hsize. unfold tcp_recv. mstep. apply wp_estab_connection; [done|].
  intros [c|] Hr; [|by mstep]. destruct (Hr c eq_refl) as [cn Hc].
  mstep. apply (wp_load _ cn); [done|].
  destruct (last (tc_rx_skb cn)) as [k|] eqn:Hlast; [|by mstep].
  apply last_Some_elem_of in Hlast.
  assert (k ∈ queue_of w (QConn c)) as Hkq.
  { unfold queue_of. by rewrite (queue_conn_Some _ _ _ _ cn). }
  destruct (q_ok _ _ _ (wf_qs _ Hw) _ _ Hkq) as (s & Hs & Hqs).
  mstep. apply (wp_take E (QConn c) k s); try done.
  intros bytes s' w1 Hw1' Hw1 _ _ _ _ _ _.
  mstep. apply (wp_load _ s'); [by subst w1; apply lookup_insert_eq|].
  assert (w_conns w1 !! c = Some cn) as Hc1 by by subst w1.
  mstep. case_match; [|by mstep; mstep].
  destruct (wf_remove_conn w1 c cn (tc_set_rx (list_remove k (tc_rx_skb cn)) cn) k)
    as (Hw2 & _ & s2 & Ho2); [done..|].
  mstep. apply (wp_update _ _ cn); [done|].
  apply (wp_dealloc _ s2); [by apply owned_lookup in Ho2|]. mstep.
  by destruct (owned_free _ _ _ Hw2 Ho2).
Qed.

Lemma wp_tcp_send fuel fd buff w :
  wf w → Forall is_u8 buff → E NullDeref → E AssertFail →
  wp (tcp_send (H := {| ip_output := ip_output_with (ip_input_fuel (S fuel)) |}) fd buff)
    (λ _ w', wf w' ∧ evolves None w w') E w.
Proof.
  intros Hw Hb HN HA. unfold tcp_send. mstep. apply wp_estab_connection; [done|].
  intros [c|] Hr; [|mstep; auto with cprog]. destruct (Hr c eq_refl) as [cn Hc].
  destruct (wf_conn_parent _ _ _ Hw Hc) as (ts & i & it & Hts & _ & Hi & Hit).
  mstep. eapply wp_mono; [eapply (wp_tcp_out _ E c cn _ _ ts i it)| |done]; try done.
  - apply ip_layer_ok.
  - rewrite length_take. unfold MAX_TCP_PAYLOAD. lia.
  - by apply Forall_take.
  - cbv beta. intros r w' ?. destruct r; cbn [negb]; by mstep.
Qed.

(** No connection of the socket is left. *)
Definition no_connections (fd : Z) (w : world) : Prop :=
  ∀ t, good_fd MAX_TCP_SOCKS (w_tcp_fds w) fd = Some t →
       ∀ c cn, w_conns w !! c = Some cn → tc_parent cn ≠ t.

(** Closing a socket, in the same steps as for UDP. *)
Lemma wf_tcp_fd_freed w j : wf w → wf (set_tcp_fds (<[j := None]> (w_tcp_fds w)) w).
Proof.
  intros Hw. destruct (wf_tcp _ Hw) as [T1 T2 T3 T4 T5 T6 T7 T8 T9 T10 T11].
  apply (wf_tcp_change w); [done|by destruct w|done|exact (wf_unused_tcps _ Hw)|].
  split; cbn; try done.
  - intros j1 v [_ ?]%freed_slot_inv. eauto.
  - intros j1 j2 v [_ ?]%freed_slot_inv [_ ?]%freed_slot_inv. eauto.
  - by rewrite length_insert.
Qed.

Lemma wf_tcp_freed w t :
  wf w → (∀ i it, w_intfs w !! i = Some it → t ∉ p_tcp_socks (if_nw it)) →
  (∀ j, w_tcp_fds w !! j ≠ Some (Some t)) → (∀ c cn, w_conns w !! c = Some cn → tc_parent cn ≠ t) →
  wf (set_tcps (delete t (w_tcps w)) w).
Proof.
  intros Hw Hnot Hfd Hc. destruct (wf_tcp _ Hw) as [V1 V2 V3 V4 V5 V6 V7 V8 V9 V10 V11].
  apply (wf_tcp_change w); [done|by destruct w|done| |].
  - cbn. apply unused_delete. exact (wf_unused_tcps _ Hw).
  - split; cbn; try done.
    + intros i it v Hi Hv. rewrite lookup_delete_ne; [by eapply V1|]. intros <-. by eapply Hnot.
    + intros v vs [_ Hv]%lookup_delete_Some. eauto.
    + intros v vs [_ Hv]%lookup_delete_Some. eauto.
    + intros v vs c [_ Hv]%lookup_delete_Some. eauto.
    + intros c cn Hcn. rewrite lookup_delete_ne; [by eapply V6|]. intros Heq. by apply (Hc c cn).
    + intros j v Hj. rewrite lookup_delete_ne; [by eapply V7|]. intros <-. by eapply Hfd.
Qed.

Lemma wp_tcp_unlist t ts w Q :
  wf w → w_tcps w !! t = Some ts →
  (∀ w', wf w' → w_tcps w' = w_tcps w → w_tcp_fds w' = w_tcp_fds w → w_conns w' = w_conns w →
     (∀ i it, w_intfs w' !! i = Some it → t ∉ p_tcp_socks (if_nw it)) → Q tt w') →
  wp (if ts_bound ts then
        let* i := nonnull (ts_intf ts) in
        update (A := intf) i (λ it,
          if_set_nw (p_set_tcp_socks (list_remove t (p_tcp_socks (if_nw it))) (if_nw it)) it)
      else ret tt) Q E w.
Proof.
  intros Hw Hts HQ. destruct (wf_tcp _ Hw) as [T1 T2 T3 T4 T5 T6 T7 T8 T9 T10 T11].
  destruct (ts_bound ts) eqn:Hb.
  - destruct (T3 _ _ Hts Hb) as (i & Hi & [it Hit]). rewrite Hi. mstep. mstep.
    apply (wp_update _ _ it); [done|]. cbn. apply HQ; [|done..|].
    + apply (wf_intf_change w i it); try done.
      * exact (st_intf_op _ _ _ _ (wf_static _ Hw) i it Hit).
      * cbn. intros u. by apply (uw_socks _ _ _ _ (wf_udp _ Hw)).
      * cbn. by apply (uw_socks_nodup _ _ _ _ (wf_udp _ Hw) i).
      * cbn. intros v [Hv _]%elem_of_list_remove; [|by eapply T2]. by apply (T1 i it).
      * cbn. apply list_remove_NoDup. by eapply T2.
    + intros i' it'. cbn. rewrite lookup_insert. case_decide; subst.
      * intros [= <-]. cbn. rewrite elem_of_list_remove by by eapply T2. naive_solver.
      * intros Hi' Ht. destruct (T1 _ _ _ Hi' Ht) as (ts' & ? & _ & ?). simplify_eq.
  - mstep. apply HQ; [done..|]. intros i it Hi Ht. destruct (T1 _ _ _ Hi Ht) as (ts' & ? & ? & _). congruence.
Qed.

Lemma wp_tcp_close fd w :
  wf w → no_connections fd w → wp (tcp_close fd) (λ _ w', wf w') E w.
Proof.
  intros Hw Hnc. unfold tcp_close, is_good_tcp_sock. mstep. mstep.
  destruct (good_fd _ _ _) as [t|] eqn:Hg; [|by mstep]. specialize (Hnc t Hg). apply good_fd_Some in Hg.
  destruct (tw_fd _ _ _ _ _ _ (wf_tcp _ Hw) _ _ Hg) as [ts Hts].
  mstep. mstep. set (w1 := set_tcp_fds _ w). assert (wf w1) as Hw1 by by apply wf_tcp_fd_freed.
  mstep. apply (wp_load _ ts); [done|].
  mstep. apply (wp_tcp_unlist t ts); [done..|]. intros w2 Hw2 Ht2 Hfd2 Hc2 Hnot.
  mstep. apply (wp_dealloc _ ts); [by cbn; rewrite Ht2|]. mstep. apply wf_tcp_freed; [done..| |].
  - intros j. rewrite Hfd2. intros [Hne Hj]%freed_slot_inv. apply Hne.
    by eapply (tw_fd_inj _ _ _ _ _ _ (wf_tcp _ Hw)).
  - intros c cn. rewrite Hc2. by apply Hnc.
Qed.
End TcpApiSafe.
