(* ===== verification/GraphSafe.v ===== *)
(** * Building a topology keeps the invariant: graph.c and net.c *)
From S2P Require Import Prelude Cmonad Utils Skbuff World Topology Comm Ethernet Arp Route Ip.
From S2P Require Import Icmp Udp Tcp Stack Net Graph Invariant GraphInv SkbRules LinkSafe ArpSafe IpSafe.
From S2P Require Import ProtoSafe TcpSafe StackSafe ApiSafe.
#[local] Open Scope Z_scope.

(** ** Extending a state with new objects *)

Record good_intf (w' : world) (it : intf) : Prop := {
  gi_node : is_Some (topo w' !! if_node it);
  gi_link l : if_link it = Some l →
    ∃ lk, w_links w' !! l = Some lk ∧ is_Some (w_intfs w' !! l_intf1 lk) ∧
          is_Some (w_intfs w' !! l_intf2 lk);
  gi_mac : length (IF_MAC it) = 6%nat ∧ Forall is_u8 (IF_MAC it);
  gi_op : is_Some (comm_op (if_comm it));
  gi_udp : p_udp_socks (if_nw it) = [];
  gi_tcp : p_tcp_socks (if_nw it) = [];
}.

Record extends (w w' : world) : Prop := {
  ex_next : (w_next w <= w_next w')%positive;
  ex_intfs i it : w_intfs w !! i = Some it → w_intfs w' !! i = Some it;
  ex_intfs_new i it :
    w_intfs w' !! i = Some it → w_intfs w !! i = Some it ∨ good_intf w' it;
  ex_links l lk : w_links w !! l = Some lk → w_links w' !! l = Some lk;
  ex_topo n : is_Some (topo w !! n) → is_Some (topo w' !! n);
  ex_slots n sl rt i : topo w' !! n = Some (sl, rt) → Some i ∈ sl →
    (∃ sl0 rt0, topo w !! n = Some (sl0, rt0) ∧ Some i ∈ sl0) ∨
    (∃ it, w_intfs w' !! i = Some it ∧ if_node it = n);
  ex_routes n sl rt r : topo w' !! n = Some (sl, rt) → r ∈ rt →
    (∃ sl0 rt0, topo w !! n = Some (sl0, rt0) ∧ r ∈ rt0) ∨
    (is_Some (w_intfs w' !! rt_intf r) ∧ 0 <= rt_mask r <= 30);
  ex_tables n l : tables w' !! n = Some l → l = [] ∨ tables w !! n = Some l;
  ex_cm fd i : w_fd_to_comm w' !! fd = Some i →
    w_fd_to_comm w !! fd = Some i ∨ is_Some (w_intfs w' !! i);
  ex_rest : w_skbs w' = w_skbs w ∧ w_arps w' = w_arps w ∧ w_udps w' = w_udps w ∧
    w_tcps w' = w_tcps w ∧ w_conns w' = w_conns w ∧ w_udp_fds w' = w_udp_fds w ∧
    w_tcp_fds w' = w_tcp_fds w ∧ w_conn_fds w' = w_conn_fds w;
  ex_unused : unused (w_next w') (w_graphs w') ∧ unused (w_next w') (w_nodes w') ∧
    unused (w_next w') (w_intfs w') ∧ unused (w_next w') (w_links w');
}.

Lemma wf_extends w w' : wf w → extends w w' → wf w'.
Proof.
  intros (Hst & Ha & Hu & Ht & Hq & Hf) [Xn Xi Xin Xl Xt Xs Xr Xtb Xc Xrest Xun].
  destruct Xrest as (Es & Ea & Eu & Et & Ec & Euf & Etf & Ecf).
  assert (∀ i, is_Some (w_intfs w !! i) → is_Some (w_intfs w' !! i)) as Xlive.
  { intros i [it Hi]. exists it. auto. }
  assert (queue_of w' = queue_of w) as Eq by (unfold queue_of; by rewrite Ea, Eu, Ec).
  unfold wf. rewrite Es, Ea, Eu, Et, Ec, Euf, Etf, Ecf, Eq. split_and!.
  - destruct Hst as [Sn Sr Si Sl Sm So Sc]. split.
    + intros n sl rt i Hn Hi. destruct (Xs _ _ _ _ Hn Hi) as [(sl0 & rt0 & H1 & H2)|?]; [|done].
      destruct (Sn _ _ _ _ H1 H2) as (it & ? & ?). exists it. auto.
    + intros n sl rt r Hn Hr. destruct (Xr _ _ _ _ Hn Hr) as [(sl0 & rt0 & H1 & H2)|?]; [|done].
      destruct (Sr _ _ _ _ H1 H2). auto.
    + intros i it [Hi|[]]%Xin; eauto.
    + intros i it l [Hi|[]]%Xin Hl; [|auto]. destruct (Sl _ _ _ Hi Hl) as (lk & ? & ? & ?).
      exists lk. auto.
    + intros i it [Hi|[]]%Xin; eauto.
    + intros i it [Hi|[]]%Xin; eauto.
    + intros fd i [Hi|?]%Xc; eauto.
  - destruct Ha as [A1 A2 A3 A4]. split; [| | |done].
    + intros n l e [->|Hn]%Xtb He; [set_solver|by eapply A1].
    + intros n l [->|Hn]%Xtb; [constructor|by eapply A2].
    + intros n1 n2 l1 l2 e [->|H1]%Xtb [->|H2]%Xtb He1 He2; solve [set_solver | by eapply A3].
  - destruct Hu as [U1 U2 U3 U4 U5 U6 U7]. split; eauto.
    + intros i it u [Hi|[]]%Xin Hin; [eauto|]. rewrite gi_udp0 in Hin. set_solver.
    + intros i it [Hi|[]]%Xin; [eauto|]. rewrite gi_udp0. constructor.
    + intros u us H1 H2. destruct (U3 _ _ H1 H2) as (i & ? & ?). exists i. auto.
  - destruct Ht as [T1 T2 T3 T4 T5 T6 T7 T8 T9 T10 T11]. split; eauto.
    + intros i it u [Hi|[]]%Xin Hin; [eauto|]. rewrite gi_tcp0 in Hin. set_solver.
    + intros i it [Hi|[]]%Xin; [eauto|]. rewrite gi_tcp0. constructor.
    + intros u us H1 H2. destruct (T3 _ _ H1 H2) as (i & ? & ?). exists i. auto.
  - destruct Hq as [Hnd Hd Hok]. split; [done..|]. intros q k Hk.
    destruct (Hok q k Hk) as (s & Hs & Hwf & Hqs). exists s. split; [done|]. split; [done|].
    destruct q; try done. destruct Hqs as (? & j & ? & ?). split; [done|]. exists j. auto.
  - unfold fresh_wf in *. destruct_and!. split_and!; eauto using unused_le.
Qed.

(** The part of [extends] that is the same for the changes of a node. *)
Lemma topo_lookup w n sl rt :
  topo w !! n = Some (sl, rt) ↔
  ∃ nd, w_nodes w !! n = Some nd ∧ n_intfs nd = sl ∧ n_rt_table (n_nw nd) = rt.
Proof.
  unfold topo. rewrite lookup_fmap, fmap_Some. split.
  - intros (nd & ? & [= -> ->]). by exists nd.
  - intros (nd & ? & <- & <-). by exists nd.
Qed.

Lemma tables_lookup w n l :
  tables w !! n = Some l ↔ ∃ nd, w_nodes w !! n = Some nd ∧ n_arp_table (n_nw nd) = l.
Proof.
  unfold tables. rewrite lookup_fmap, fmap_Some. split; intros (nd & ? & ?); by exists nd.
Qed.

Lemma topo_is_Some w n : is_Some (topo w !! n) ↔ is_Some (w_nodes w !! n).
Proof. unfold topo. rewrite lookup_fmap. apply fmap_is_Some. Qed.

Section GraphSafe.
Context `{Os} (E : fault → Prop).

(** ** Graphs, nodes, addresses *)

Lemma wf_unused_nodes w : wf w →
  unused (w_next w) (w_graphs w) ∧ unused (w_next w) (w_nodes w) ∧
  unused (w_next w) (w_intfs w) ∧ unused (w_next w) (w_links w).
Proof. intros Hf%wf_fresh. unfold fresh_wf in Hf. tauto. Qed.

Lemma wp_create_new_graph name w :
  wf w → wp (create_new_graph name)
    (λ g w', wf w' ∧ is_Some (w_graphs w' !! g) ∧ (graph_wf [] w → graph_wf [] w')) E w.
Proof.
  intros Hw. unfold create_new_graph. apply wp_alloc. cbn.
  destruct (wf_unused_nodes _ Hw) as (? & ? & ? & ?).
  split_and!; [|rewrite lookup_insert_eq; by eexists|intros Hg; apply (graph_wf_new_graph [] w); auto using Pos.le_refl].
  apply (wf_extends w); [done|]. split; try (cbn; by eauto 10).
  - cbn. lia.
  - cbn. split_and!; auto with cprog.
Qed.

Lemma wp_create_graph_node g name w :
  wf w → is_Some (w_graphs w !! g) →
  wp (create_graph_node g name)
    (λ n w', wf w' ∧ is_Some (topo w' !! n) ∧ is_Some (w_graphs w' !! g) ∧
             (graph_wf [] w → graph_wf [] w')) E w.
Proof.
  intros Hw [gr Hg]. unfold create_graph_node.
  destruct (wf_unused_nodes _ Hw) as (? & Hun & ? & ?).
  mstep. apply wp_alloc. mstep. apply (wp_update _ _ gr); [done|]. mstep.
  assert (w_nodes w !! w_next w = None) as Hnone by (apply Hun; lia).
  set (w' := hset _ (hset _ _)).
  assert (∀ m nd, w_nodes w' !! m = Some nd → w_nodes w !! m = Some nd ∨
            (nd = mk_node (strncpy MAX_NODE_NAME_SIZE name)
                    (replicate MAX_INTFS_PER_NODE None) init_node_nw_prop)) as Hnew.
  { intros m nd. subst w'. cbn. rewrite lookup_insert. case_decide; [|auto].
    intros [= <-]. by right. }
  assert (∀ m, is_Some (topo w !! m) → is_Some (topo w' !! m)) as Htopo.
  { intros m. rewrite !topo_is_Some. subst w'. cbn. apply insert_is_Some. }
  split_and!; [|by apply topo_is_Some; subst w'; cbn; rewrite lookup_insert_eq; eexists
               |by subst w'; cbn; rewrite lookup_insert_eq; eexists|].
  2: { intros Hgw. by apply (graph_wf_new_node [] w g gr). }
  apply (wf_extends w); [done|]. split; try (subst w'; cbn; by eauto).
  - subst w'. cbn. lia.
  - intros m sl rt i (nd & [Hm| ->]%Hnew & <- & <-)%topo_lookup Hi.
    + left. do 2 eexists. split; [|exact Hi]. apply topo_lookup. by exists nd.
    + cbn in Hi. set_solver.
  - intros m sl rt i (nd & [Hm| ->]%Hnew & <- & <-)%topo_lookup Hi.
    + left. do 2 eexists. split; [|exact Hi]. apply topo_lookup. by exists nd.
    + cbn in Hi. set_solver.
  - intros m l (nd & [Hm| ->]%Hnew & <-)%tables_lookup; [right|by left].
    apply tables_lookup. by exists nd.
  - subst w'. cbn. split_and!; auto with cprog.
Qed.

(** A change of a node that adds routes through live interfaces only. *)
Lemma wf_node_routes w n nd rt' lb lbv :
  wf w → w_nodes w !! n = Some nd →
  (∀ r, r ∈ rt' → r ∈ n_rt_table (n_nw nd) ∨
        (is_Some (w_intfs w !! rt_intf r) ∧ 0 <= rt_mask r <= 30)) →
  wf (set_nodes (<[n := n_set_nw (mk_node_nw_prop lb lbv (n_arp_table (n_nw nd))
        (n_mac_table (n_nw nd)) rt') nd]> (w_nodes w)) w).
Proof.
  intros Hw Hn Hr. destruct (wf_unused_nodes _ Hw) as (? & ? & ? & ?).
  set (nd' := n_set_nw _ nd). set (w' := set_nodes _ w).
  assert (∀ m md, w_nodes w' !! m = Some md → m = n ∧ md = nd' ∨ w_nodes w !! m = Some md) as Hnew.
  { intros m md. subst w'. cbn. rewrite lookup_insert. case_decide; [|auto].
    intros [= <-]. by left. }
  apply (wf_extends w); [done|]. split; try (subst w'; cbn; by eauto).
  - intros m. rewrite !topo_is_Some. apply insert_is_Some.
  - intros m sl rt i (md & [[-> ->]|Hm]%Hnew & <- & <-)%topo_lookup Hi; left.
    + do 2 eexists. split; [apply topo_lookup; by exists nd|done].
    + do 2 eexists. split; [apply topo_lookup; by exists md|done].
  - intros m sl rt r (md & [[-> ->]|Hm]%Hnew & <- & <-)%topo_lookup Hi.
    + destruct (Hr r Hi) as [?|?]; [left|by right].
      do 2 eexists. split; [apply topo_lookup; by exists nd|done].
    + left. do 2 eexists. split; [apply topo_lookup; by exists md|done].
  - intros m l (md & [[-> ->]|Hm]%Hnew & <-)%tables_lookup; right; apply tables_lookup; by eexists.
  - subst w'. cbn. split_and!; auto. apply unused_insert; [done|by eexists].
Qed.

Lemma wp_node_set_loopback_address n ip w :
  wf w → is_Some (topo w !! n) →
  wp (node_set_loopback_address n ip) (λ _ w', wf w') E w.
Proof.
  intros Hw [x (nd & Hn & _)%topo_node]. unfold node_set_loopback_address.
  case_match; [|by mstep]. mstep. apply (wp_update _ _ nd); [done|]. mstep.
  eapply (wf_node_routes w n nd (n_rt_table (n_nw nd))); [done..|]. by left.
Qed.

Lemma wp_rt_table_add_route n dst mask next i w :
  wf w → is_Some (topo w !! n) → is_Some (w_intfs w !! i) → 0 <= mask <= 30 →
  wp (rt_table_add_route n dst mask next i) (λ _ w', wf w') E w.
Proof.
  intros Hw [x (nd & Hn & _)%topo_node] Hi Hmask. unfold rt_table_add_route. apply (wp_update _ _ nd); [done|].
  eapply (wf_node_routes w n nd); [exact Hw|done|]. intros r [->|?]%elem_of_cons; [by right|by left].
Qed.

Lemma wp_node_set_intf_ip_addr n name ip mask w :
  wf w → is_Some (topo w !! n) → 0 <= mask <= 30 →
  wp (node_set_intf_ip_addr n name ip mask) (λ _ w', wf w') E w.
Proof.
  intros Hw [x Hx] Hmask. destruct (topo_node _ _ _ Hx) as (nd & Hn & <-).
  unfold node_set_intf_ip_addr, get_node_if_by_name. mstep. mstep. apply (wp_load _ nd); [done|].
  destruct (first_intf_spec (λ it, strncmp_eq MAX_IF_NAME_SIZE (if_name it) name)
    (λ it, ret (strncmp_eq MAX_IF_NAME_SIZE (if_name it) name)) (n_intfs nd) w)
    as (r & Hr & Hspec); [done| |].
  { intros i Hi. destruct (st_node_intf _ _ _ _ (wf_static _ Hw) n _ _ i Hx Hi) as (it & ? & _).
    by exists it. }
  unfold wp at 1. rewrite Hr. destruct r as [i|]; [|by mstep].
  destruct Hspec as (it & _ & Hi & _). case_match; [by mstep|].
  mstep. apply (wp_update _ _ it); [done|]. set (it' := if_set_nw _ it). cbn.
  assert (wf (set_intfs (<[i:=it']> (w_intfs w)) w)) as Hw1.
  { apply (wf_intf_change w i it); try done.
    - exact (st_intf_op _ _ _ _ (wf_static _ Hw) i it Hi).
    - intros u. exact (uw_socks _ _ _ _ (wf_udp _ Hw) i it u Hi).
    - exact (uw_socks_nodup _ _ _ _ (wf_udp _ Hw) i it Hi).
    - intros t. exact (tw_socks _ _ _ _ _ _ (wf_tcp _ Hw) i it t Hi).
    - exact (tw_socks_nodup _ _ _ _ _ _ (wf_tcp _ Hw) i it Hi). }
  mstep. unfold MASK_IP. rewrite low_mask_spec, decide_True by done. cbn [rbind]. mstep.
  mstep. eapply wp_post; [apply wp_rt_table_add_route; [exact Hw1|by eexists| |done]|].
  - cbn. rewrite lookup_insert_eq. by eexists.
  - cbv beta. intros. by mstep.
Qed.

(** ** Interfaces *)

Lemma ist_intro w i it :
  w_intfs w !! i = Some it →
  w = ist w i it (w_nodes w) (w_fd_to_comm w) (w_next_udp_port w) (w_trace w).
Proof. intros Hi. unfold ist. rewrite insert_id by done. by destruct w. Qed.

Lemma wp_ist_update w i it ns cm port tr f Q :
  Q tt (ist w i (f it) ns cm port tr) → wp (update (A := intf) i f) Q E (ist w i it ns cm port tr).
Proof.
  intros HQ. apply (wp_update _ _ it); [apply lookup_insert_eq|].
  replace (hset _ _) with (ist w i (f it) ns cm port tr); [done|].
  unfold ist. cbn. by rewrite insert_insert_eq.
Qed.

Section Comm.
Context (w : world) (i n : ptr) (l : option ptr) (ns : gmap ptr node).

(** The interface while its [comm] is set up, not yet entered in the table. *)
Definition ready (P : comm → Prop) (w' : world) : Prop :=
  ∃ it port tr, w' = ist w i it ns (w_fd_to_comm w) port tr ∧ fresh_intf n l it ∧ P (if_comm it).

Definition comm_at (ct : comm_type) (fd : Z) (c : comm) : Prop := comm_of ct c ∧ comm_fd c = fd.

Definition inited (ct : comm_type) (w' : world) : Prop :=
  ∃ it cm port tr, w' = ist w i it ns cm port tr ∧ fresh_intf n l it ∧ comm_of ct (if_comm it) ∧
    entered (w_fd_to_comm w) cm i it.

Lemma inited_ready ct fd w' : ready (comm_at ct fd) w' → inited ct w'.
Proof. intros (it & port & tr & -> & ? & []). exists it, (w_fd_to_comm w), port, tr. split_and!; try done. by left. Qed.

Lemma wp_ready_update P P' (f : comm → comm) Q w' :
  ready P w' → (∀ c, P c → P' (f c)) → (∀ w', ready P' w' → Q tt w') →
  wp (update_comm i f) Q E w'.
Proof.
  intros (it & port & tr & -> & Hit & HP) Hf HQ. unfold update_comm.
  apply wp_ist_update. apply HQ. exists (if_set_comm (f (if_comm it)) it), port, tr.
  split_and!; [done|by apply fresh_intf_comm|by apply Hf].
Qed.

Lemma wp_ready_emit P e Q w' : ready P w' → (∀ w', ready P w' → Q tt w') → wp (emit e) Q E w'.
Proof.
  intros (it & port & tr & -> & ?) HQ. wstep.
  apply HQ. by exists it, port, (w_trace (ist w i it ns (w_fd_to_comm w) port tr) ++ [e]).
Qed.

Lemma wp_ready_set_fd ct fd Q w' :
  ready (comm_at ct fd) w' → (∀ b w', inited ct w' → Q b w') → wp (set_fd_comm fd (Some i)) Q E w'.
Proof.
  intros Hr HQ. unfold set_fd_comm. case_match eqn:Hrange; [mstep; by apply HQ, (inited_ready _ fd)|]. mstep. mstep. mstep.
  destruct Hr as (it & port & tr & -> & Hit & Hop & Hfd). apply HQ.
  exists it, (partial_alter (λ _, Some i) fd (w_fd_to_comm w)), port, tr. split_and!; [done..|].
  right. rewrite Hfd. split; [|done]. revert Hrange. zbool; lia.
Qed.

Lemma wp_bind_loop ct fuel fd Q w' :
  E OutOfFuel → ready (comm_at ct fd) w' → (∀ w', ready (comm_at ct fd) w' → Q tt w') →
  wp (bind_loop fuel i fd) Q E w'.
Proof.
  intros HE. revert w'. induction fuel as [|fuel IH]; intros w' Hr HQ; cbn [bind_loop].
  { by apply wp_raise. }
  unfold get_next_udp_port. mstep. mstep. mstep. mstep. mstep. mstep.
  set (w1 := set_next_udp_port _ w').
  assert (ready (comm_at ct fd) w1) as Hr1.
  { destruct Hr as (it & port & tr & -> & ?). subst w1.
    by exists it, (wrap16 (w_next_udp_port (ist w i it ns (w_fd_to_comm w) port tr) + 1)), tr. }
  mstep. apply (wp_ready_update (comm_at ct fd) (comm_at ct fd)); [done|by intros c [[]]|]. intros w2 Hr2.
  unfold sys_bind. mstep. mstep. mstep. mstep. eapply wp_ready_emit; [done|]. intros w3 Hr3.
  mstep. case_match; [mstep; by apply HQ|by apply IH].
Qed.

Lemma ready_start ct o it port tr :
  fresh_intf n l it →
  ready (comm_of ct) (ist w i (if_set_comm (comm_set_ops ct (Some o) (if_comm it)) it) ns (w_fd_to_comm w) port tr).
Proof.
  intros Hit. eexists _, port, tr. split; [done|]. split; [by apply fresh_intf_comm|]. split; [done|by eexists].
Qed.

Lemma wp_init_comm ct it port tr :
  E OutOfFuel → ct ≠ CT_NONE → fresh_intf n l it →
  wp (init_comm i ct) (λ _, inited ct) E (ist w i it ns (w_fd_to_comm w) port tr).
Proof.
  intros HE Hct Hit. unfold init_comm. destruct ct; [done| |].
  - mstep. unfold update_comm. apply wp_ist_update. pose proof (ready_start CT_UDP udp_comm_ops it port tr Hit) as Hr.
    revert Hr. generalize (ist w i (if_set_comm (comm_set_ops CT_UDP (Some udp_comm_ops) (if_comm it)) it) ns (w_fd_to_comm w) port tr).
    intros w0 Hr. unfold udp_init_comm, sys_socket. mstep. mstep. mstep. mstep.
    eapply wp_ready_emit; [done|]. intros w1 Hr1. mstep. mstep.
    eapply (wp_ready_update _ (comm_at CT_UDP (os_socket (w_trace w0)))); [exact Hr1|intros c Hc; split; [exact Hc|reflexivity]|]. intros w2 Hr2.
    mstep. eapply wp_bind_loop; [done|exact Hr2|]. intros w3 Hr3. by eapply wp_ready_set_fd.
  - mstep. unfold update_comm. apply wp_ist_update. pose proof (ready_start CT_TUNTAP tuntap_comm_ops it port tr Hit) as Hr.
    revert Hr. generalize (ist w i (if_set_comm (comm_set_ops CT_TUNTAP (Some tuntap_comm_ops) (if_comm it)) it) ns (w_fd_to_comm w) port tr).
    intros w0 Hr. unfold tuntap_init_comm, tun_alloc, sys_open_tun, sys_ioctl_tun.
    assert (∃ it0, w_intfs w0 !! i = Some it0) as [it0 Hit0].
    { destruct Hr as (it' & port' & tr' & -> & ?). exists it'. apply lookup_insert_eq. }
    mstep. apply (wp_load _ it0); [done|].
    mstep. apply (wp_mono _ (λ _, ready (comm_of CT_TUNTAP)) _ E E); [| |done].
    + mstep. mstep. mstep. mstep. eapply wp_ready_emit; [done|]. intros w1 Hr1. mstep.
      case_match; [by mstep|]. mstep. mstep. mstep. mstep.
      eapply wp_ready_emit; [done|]. intros w2 Hr2. mstep. case_match; by mstep.
    + cbv beta. intros fd w1 Hr1. mstep.
      eapply (wp_ready_update _ (comm_at CT_TUNTAP fd)); [exact Hr1|intros c Hc; split; [exact Hc|reflexivity]|]. intros w2 Hr2.
      case_match; [mstep; by eapply inited_ready|]. by eapply wp_ready_set_fd.
Qed.
End Comm.

Lemma wp_init_interface i name n l ct it nd w :
  E OutOfFuel → E AssertFail → ct ≠ CT_NONE →
  w_intfs w !! i = Some it → w_nodes w !! n = Some nd →
  wp (init_interface i name n l ct) (λ _ w', ∃ j, n_intfs nd !! j = Some None ∧
    inited w i n l (<[n := with_slot j i nd]> (w_nodes w)) ct w') E w.
Proof.
  intros HE HA Hct Hi Hn. unfold init_interface.
  lazymatch goal with |- wp ?m ?Q _ _ =>
    enough (wp m Q E (ist w i it (w_nodes w) (w_fd_to_comm w) (w_next_udp_port w) (w_trace w)))
      as Hgoal by (by rewrite <- (ist_intro w i it Hi) in Hgoal) end.
  mstep. apply wp_ist_update. mstep. apply (wp_load _ nd); [done|].
  mstep. apply wp_assert; [intros Hslot|done].
  assert (∃ j, get_node_intf_available_slot nd = Z.of_nat j ∧ n_intfs nd !! j = Some None) as (j & Ej & Hj).
  { unfold get_node_intf_available_slot in *.
    destruct (available_slot_from_spec 0 (n_intfs nd)) as [[E0 _]|(j & E0 & ? & _)]; rewrite E0 in *; [done|].
    by exists j. }
  rewrite Ej, Nat2Z.id.
  mstep. apply (wp_update _ _ nd); [done|]. fold (with_slot j i nd).
  set (ns := <[n := with_slot j i nd]> (w_nodes w)).
  match goal with |- context [hset (Heap := heap_nodes) _ (ist w i ?it1 _ ?cm ?p ?t)] =>
    change (hset (Heap := heap_nodes) _ (ist w i it1 _ cm p t)) with (ist w i it1 ns cm p t) end.
  mstep. apply wp_ist_update. mstep. unfold interface_assign_mac_address.
  mstep. eapply wp_load; [apply lookup_insert_eq|].
  mstep. eapply wp_load; [apply lookup_insert_eq|]. apply wp_ist_update.
  mstep. eapply wp_mono; [apply (wp_init_comm w i n l ns ct)| |done].
  - done.
  - done.
  - split; try done. split; [apply length_le_encode|apply le_encode_bytes].
  - cbv beta. intros _ w' Hr. mstep. exists j. by split.
Qed.

(** Nodes that only gain slots for new interfaces. *)
Definition gained (intfs : gmap ptr intf) (nodes nodes' : gmap ptr node) : Prop :=
  ∀ n nd', nodes' !! n = Some nd' → ∃ nd, nodes !! n = Some nd ∧ n_nw nd' = n_nw nd ∧
    ∀ j, Some j ∈ n_intfs nd' → Some j ∈ n_intfs nd ∨ ∃ it, intfs !! j = Some it ∧ if_node it = n.

Lemma gained_refl intfs nodes : gained intfs nodes nodes.
Proof. intros n nd Hn. exists nd. auto. Qed.

Lemma gained_slot intfs nodes nodes1 n nd j i it :
  gained intfs nodes nodes1 → nodes1 !! n = Some nd → intfs !! i = Some it → if_node it = n →
  gained intfs nodes (<[n := with_slot j i nd]> nodes1).
Proof.
  intros Hg Hn Hi Hit m md. rewrite lookup_insert. case_decide; subst; [|apply Hg].
  intros [= <-]. destruct (Hg _ _ Hn) as (nd0 & ? & ? & Hs). exists nd0. split_and!; [done..|].
  intros k [?| ->]%with_slot_elem; [by apply Hs|]. right. by exists it.
Qed.

Lemma wf_new_intfs w w' :
  wf w → (w_next w <= w_next w')%positive →
  (∀ i it, w_intfs w !! i = Some it → w_intfs w' !! i = Some it) →
  (∀ i it, w_intfs w' !! i = Some it → w_intfs w !! i = Some it ∨ good_intf w' it) →
  (∀ l lk, w_links w !! l = Some lk → w_links w' !! l = Some lk) →
  (∀ n, is_Some (w_nodes w !! n) → is_Some (w_nodes w' !! n)) →
  gained (w_intfs w') (w_nodes w) (w_nodes w') →
  (∀ fd i, w_fd_to_comm w' !! fd = Some i →
     w_fd_to_comm w !! fd = Some i ∨ is_Some (w_intfs w' !! i)) →
  w_skbs w' = w_skbs w ∧ w_arps w' = w_arps w ∧ w_udps w' = w_udps w ∧
    w_tcps w' = w_tcps w ∧ w_conns w' = w_conns w ∧ w_udp_fds w' = w_udp_fds w ∧
    w_tcp_fds w' = w_tcp_fds w ∧ w_conn_fds w' = w_conn_fds w →
  unused (w_next w') (w_graphs w') ∧ unused (w_next w') (w_nodes w') ∧
    unused (w_next w') (w_intfs w') ∧ unused (w_next w') (w_links w') →
  wf w'.
Proof.
  intros Hw Hn Hi Hin Hl Hdom Hnodes Hcm Hrest Hun.
  apply (wf_extends w); [done|]. split; try done.
  - intros n. rewrite !topo_is_Some. apply Hdom.
  - intros n sl rt i (nd' & Hnd' & <- & <-)%topo_lookup Hsl.
    destruct (Hnodes _ _ Hnd') as (nd & Hnd & _ & Hs).
    destruct (Hs _ Hsl) as [?|?]; [left|by right].
    do 2 eexists. split; [apply topo_lookup; by exists nd|done].
  - intros n sl rt r (nd' & Hnd' & <- & <-)%topo_lookup Hr.
    destruct (Hnodes _ _ Hnd') as (nd & Hnd & Enw & _). rewrite Enw in Hr. left.
    do 2 eexists. split; [apply topo_lookup; by exists nd|done].
  - intros n l (nd' & Hnd' & <-)%tables_lookup.
    destruct (Hnodes _ _ Hnd') as (nd & Hnd & Enw & _). rewrite Enw. right.
    apply tables_lookup. by exists nd.
Qed.

Lemma good_of_fresh w' n l it :
  fresh_intf n l it → is_Some (comm_op (if_comm it)) → is_Some (w_nodes w' !! n) →
  (∀ l', l = Some l' → ∃ lk, w_links w' !! l' = Some lk ∧ is_Some (w_intfs w' !! l_intf1 lk) ∧
     is_Some (w_intfs w' !! l_intf2 lk)) →
  good_intf w' it.
Proof.
  intros [Hn Hl Hm Hu Ht] Hop Hnode Hlink. split; try done.
  - by rewrite topo_is_Some, Hn.
  - intros l' Hl'. apply Hlink. congruence.
Qed.

Lemma wp_insert_tuntap_interface n name w :
  wf w → E OutOfFuel → E AssertFail → is_Some (topo w !! n) →
  wp (insert_tuntap_interface n name)
    (λ _ w', wf w' ∧ (graph_wf [] w → graph_wf [] w') ∧ ∀ m, is_Some (topo w !! m) → is_Some (topo w' !! m)) E w.
Proof.
  intros Hw HE HA [nd Hn]%topo_is_Some. destruct (wf_unused_nodes _ Hw) as (Ug & Un & Ui & Ul).
  unfold insert_tuntap_interface. mstep. apply wp_alloc. set (i := w_next w).
  set (w1 := hset _ _).
  eapply wp_mono; [eapply (wp_init_interface i name n None CT_TUNTAP (calloc_intf n) nd w1)| |done];
    [done|done|done|apply lookup_insert_eq|done|]. cbv beta.
  intros _ w' (js & Hjs & it & cm & port & tr & -> & Hfr & Hct & Hcm). pose proof (with_slot_elem js i nd) as Hsl.
  assert (w_intfs w !! i = None) as Hi by (apply Ui; subst i; lia).
  assert (∀ m, is_Some (w_nodes w !! m) →
            is_Some (<[n:=with_slot js i nd]> (w_nodes w) !! m)) as Hdom
    by (intros m; apply insert_is_Some).
  split_and!; [| |intros m; rewrite !topo_is_Some; apply Hdom].
  2: { intros Hg. apply (graph_wf_init [] w1 i n None CT_TUNTAP nd js); try done.
       - by apply graph_wf_alloc_intf.
       - apply not_elem_of_nil.
       - cbn. rewrite lookup_insert_eq. by eexists.
       - intros l' lk Hl' He. destruct (proj2 (gw_link _ _ Hg _ _ Hl') _ He) as (? & ? & _). congruence. }
  apply (wf_new_intfs w); cbn; try done.
  - lia.
  - intros j jt Hj. rewrite !lookup_insert_ne; [done|congruence..].
  - intros j jt. rewrite insert_insert_eq, lookup_insert. case_decide; subst; [|by left].
    intros [= <-]. right. eapply good_of_fresh; [done|apply Hct| |done].
    cbn. rewrite lookup_insert_eq. by eexists.
  - eapply gained_slot; [apply gained_refl|done|rewrite insert_insert_eq; apply lookup_insert_eq|apply Hfr].
  - intros fd k [?|(-> & _)]%(entered_lookup _ _ _ _ _ _ Hcm); [by left|right]. rewrite lookup_insert_eq. by eexists.
  - rewrite insert_insert_eq. split_and!; auto with cprog.
Qed.

(** The state after the allocations of a link and its interfaces. *)
Definition link_allocated (w : world) (n1 n2 : ptr) (cost : Z) : world :=
  let i1 := w_next w in let i2 := Pos.succ i1 in let l := Pos.succ i2 in
  set_links (<[l := mk_link i1 i2 cost]> (w_links w))
    (set_next (Pos.succ l) (set_intfs (<[i2 := calloc_intf n2]> (<[i1 := calloc_intf n1]> (w_intfs w)))
      (set_next l (set_next i2 w)))).

Lemma link_allocated_graph w n1 n2 cost :
  wf w → graph_wf [] w →
  let i1 := w_next w in let i2 := Pos.succ i1 in let l := Pos.succ i2 in
  let w3 := link_allocated w n1 n2 cost in
  graph_wf [i1; i2] w3 ∧
  (∀ i l' lk, w_links w3 !! l' = Some lk → is_end i lk → i = i1 ∨ i = i2 → Some l = Some l') ∧
  (∀ i, i = i1 ∨ i = i2 → ∃ lk, w_links w3 !! l = Some lk ∧ is_end i lk).
Proof.
  intros Hw Hg i1 i2 l w3. destruct (wf_unused_nodes _ Hw) as (Ug & Un & Ui & Ul).
  assert (i1 ≠ i2) as Hne by (subst i2; lia).
  assert (w_intfs w !! i1 = None) as Hi1 by (apply Ui; subst i1; lia).
  assert (w_intfs w !! i2 = None) as Hi2 by (apply Ui; subst i1 i2; lia).
  assert (w_links w !! l = None) as Hlnone by (apply Ul; subst i1 i2 l; lia).
  assert (∀ i l' lk, w_links w !! l' = Some lk → is_end i lk → is_Some (w_intfs w !! i)) as Hold.
  { intros i l' lk Hl' He. destruct (proj2 (gw_link _ _ Hg _ _ Hl') _ He) as (it & ? & _). by exists it. }
  split_and!.
  - apply (graph_wf_ext [i2; i1]); [set_solver|].
    apply (graph_wf_alloc_link _ (set_intfs (<[i2 := calloc_intf n2]> (<[i1 := calloc_intf n1]> (w_intfs w)))
      (set_next l w)) l (mk_link i1 i2 cost)); try done.
    + pose proof (graph_wf_alloc_intf [] w i1 (calloc_intf n1) i2 Hg Hi1) as Hg1.
      refine (graph_wf_alloc_intf [i1] _ i2 (calloc_intf n2) l Hg1 _). cbn. by rewrite lookup_insert_ne.
    + cbn. intros i [->| ->]; cbn; (split; [set_solver|]).
      * rewrite lookup_insert_ne, lookup_insert_eq by done. by eexists.
      * rewrite lookup_insert_eq. by eexists.
  - intros i l' lk. cbn. rewrite lookup_insert. case_decide; [by subst|]. intros Hl' He Hi.
    destruct (Hold _ _ _ Hl' He). destruct Hi; subst; congruence.
  - intros i Hi. exists (mk_link i1 i2 cost). split; [apply lookup_insert_eq|done].
Qed.

(** Both interfaces of a new link are initialised one after the other. *)
Section NewLink.
Context (w : world) (n1 n2 : ptr) (nd1 nd2 : node) (j1 j2 : nat) (cost : Z) (w4 w5 : world).
Context (Hw : wf w) (Hn1 : w_nodes w !! n1 = Some nd1) (Hn2 : w_nodes w4 !! n2 = Some nd2).
Notation i1 := (w_next w).
Notation i2 := (Pos.succ i1).
Notation l := (Pos.succ i2).
Notation w3 := (link_allocated w n1 n2 cost).
Context (I1 : inited w3 i1 n1 (Some l) (<[n1 := with_slot j1 i1 nd1]> (w_nodes w)) CT_UDP w4).
Context (I2 : inited w4 i2 n2 (Some l) (<[n2 := with_slot j2 i2 nd2]> (w_nodes w4)) CT_UDP w5).

Lemma new_link_graph :
  n_intfs nd1 !! j1 = Some None → n_intfs nd2 !! j2 = Some None → graph_wf [] w → graph_wf [] w5.
Proof.
  intros Hj1 Hj2 Hg. destruct (link_allocated_graph w n1 n2 cost Hw Hg) as (Hg3 & Honly & Hends).
  destruct I1 as (it1 & cm1 & port1 & tr1 & E1 & Hfr1 & Hct1 & Hcm1).
  destruct I2 as (it2 & cm2 & port2 & tr2 & -> & Hfr2 & Hct2 & Hcm2).
  assert (i1 ≠ i2) as Hne by lia.
  apply (graph_wf_init [] w4 i2 n2 (Some l) CT_UDP nd2 j2); try done; subst w4.
  - apply (graph_wf_init [i2] w3 i1 n1 (Some l) CT_UDP nd1 j1); try done.
    + set_solver.
    + cbn. rewrite lookup_insert_ne, lookup_insert_eq by done. by eexists.
    + split; [done|]. apply Hends. by left.
    + intros l' lk Hl' He. eapply Honly; [done..|by left].
  - set_solver.
  - cbn. rewrite lookup_insert_ne, lookup_insert_eq by done. by eexists.
  - split; [done|]. apply Hends. by right.
  - intros l' lk Hl' He. eapply Honly; [done..|by right].
Qed.

Lemma new_link_wf : wf w5.
Proof.
  destruct (wf_unused_nodes _ Hw) as (Ug & Un & Ui & Ul). assert (i1 ≠ i2) as Hne by lia.
  destruct I1 as (it1 & cm1 & port1 & tr1 & E1 & Hfr1 & Hct1 & Hcm1).
  destruct I2 as (it2 & cm2 & port2 & tr2 & -> & Hfr2 & Hct2 & Hcm2). set (w5' := ist _ _ _ _ _ _ _).
  assert (w_intfs w !! i1 = None ∧ w_intfs w !! i2 = None) as [Hi1 Hi2] by (split; apply Ui; lia).
  assert (w_intfs w5' !! i2 = Some it2) as Hw5i2 by apply lookup_insert_eq.
  assert (w_intfs w5' !! i1 = Some it1) as Hw5i1.
  { subst w4. cbn. rewrite lookup_insert_ne by done. apply lookup_insert_eq. }
  assert (∀ m, is_Some (w_nodes w !! m) → is_Some (w_nodes w5' !! m)) as Hdom
    by (intros m ?; subst w4; cbn; by repeat apply insert_is_Some).
  assert (∀ l', Some l = Some l' → ∃ lk, w_links w5' !! l' = Some lk ∧
            is_Some (w_intfs w5' !! l_intf1 lk) ∧ is_Some (w_intfs w5' !! l_intf2 lk)) as Hlink.
  { intros ? [= <-]. exists (mk_link i1 i2 cost). split; [subst w4; apply lookup_insert_eq|].
    cbn [l_intf1 l_intf2]. rewrite Hw5i1, Hw5i2. by split; eexists. }
  apply (wf_new_intfs w); try done; try (subst w4; done).
  - subst w4. cbn. lia.
  - intros j jt Hj. subst w4. cbn. rewrite !lookup_insert_ne; [done|congruence..].
  - intros j jt. destruct (decide (j = i1)) as [->|]; [|destruct (decide (j = i2)) as [->|]].
    + rewrite Hw5i1. intros [= <-]. right. eapply good_of_fresh; [done|apply Hct1| |done].
      apply Hdom. by eexists.
    + rewrite Hw5i2. intros [= <-]. right. eapply good_of_fresh; [done|apply Hct2| |done].
      cbn. by apply insert_is_Some; eexists.
    + intros Hj. left. subst w4. cbn in Hj. by rewrite !lookup_insert_ne in Hj by done.
  - intros l' lk Hl'. subst w4. cbn. rewrite lookup_insert_ne; [done|].
    intros <-. rewrite Ul in Hl'; [done|]. lia.
  - apply (gained_slot _ _ (w_nodes w4) n2 nd2 j2 i2 it2); [|done|exact Hw5i2|apply Hfr2]. subst w4.
    apply (gained_slot _ _ (w_nodes w) n1 nd1 j1 i1 it1); [apply gained_refl|done|exact Hw5i1|apply Hfr1].
  - subst w4. intros fd j [[?|(-> & _)]%(entered_lookup _ _ _ _ _ _ Hcm1)|(-> & _)]%(entered_lookup _ _ _ _ _ _ Hcm2); [by left|right..].
    + rewrite Hw5i1. by eexists.
    + rewrite Hw5i2. by eexists.
  - subst w4. split_and!; [| |cbn; intros p Hp; rewrite !lookup_insert_ne by lia..].
    + cbn. intros p Hp. apply Ug. lia.
    + apply unused_insert; [|by eexists]. apply unused_insert; [|by eexists]. intros p Hp. apply Un. cbn in Hp. lia.
    + apply Ui. lia.
    + apply Ul. lia.
Qed.
End NewLink.

Lemma wp_insert_link n1 n2 name1 name2 cost w :
  wf w → E OutOfFuel → E AssertFail → is_Some (topo w !! n1) → is_Some (topo w !! n2) →
  wp (insert_link_between_two_nodes n1 n2 name1 name2 cost)
    (λ _ w', wf w' ∧ (graph_wf [] w → graph_wf [] w') ∧ ∀ m, is_Some (topo w !! m) → is_Some (topo w' !! m)) E w.
Proof.
  intros Hw HE HA [nd1 Hn1]%topo_is_Some Hn2%topo_is_Some. unfold insert_link_between_two_nodes.
  mstep. apply wp_alloc. set (i1 := w_next w).
  mstep. apply wp_alloc. cbn. set (i2 := Pos.succ i1).
  mstep. apply wp_alloc. cbn. set (l := Pos.succ i2).
  set (w3 := set_links _ _). assert (i1 ≠ i2) as Hne by (subst i2; lia).
  mstep. eapply wp_mono; [eapply (wp_init_interface i1 name1 n1 (Some l) CT_UDP (calloc_intf n1) nd1 w3)| |done];
    [done|done|done| |done|].
  { cbn. rewrite lookup_insert_ne by done. apply lookup_insert_eq. }
  cbv beta. intros _ w4 (j1 & Hj1 & I1). pose proof I1 as (it1 & cm1 & port1 & tr1 & E4 & _).
  assert (is_Some (w_nodes w4 !! n2)) as [nd2 Hnd2] by (rewrite E4; by apply insert_is_Some).
  eapply wp_mono; [eapply (wp_init_interface i2 name2 n2 (Some l) CT_UDP (calloc_intf n2) nd2 w4)| |done];
    [done|done|done| |done|].
  { rewrite E4. cbn. rewrite lookup_insert_ne by done. apply lookup_insert_eq. }
  cbv beta. intros _ w5 (j2 & Hj2 & I2).
  split_and!; [exact (new_link_wf w n1 n2 nd1 nd2 j1 j2 cost w4 w5 Hw Hn1 Hnd2 I1 I2)|
    exact (new_link_graph w n1 n2 nd1 nd2 j1 j2 cost w4 w5 Hw Hn1 Hnd2 I1 I2 Hj1 Hj2)|].
  intros m. rewrite !topo_is_Some. destruct I2 as (it2 & cm2 & port2 & tr2 & -> & _). subst w4.
  intros ?. cbn. by repeat apply insert_is_Some.
Qed.
End GraphSafe.
