(* ===== verification/Teardown.v ===== *)
(** * Taking a graph down: destroy_link, destroy_node, destroy_graph

    [drops I L N A w w'] says that [w'] is [w] without the interfaces [I], the
    links [L], the nodes [N] and the ARP entries [A], with the slots of some of
    the interfaces emptied and nothing registered for them.  The functions of
    graph.c are described by what they drop; what is left is in shape again. *)
From S2P Require Import Prelude Cmonad Utils Skbuff World Topology Comm Net Graph Invariant GraphInv GraphSafe.
#[local] Open Scope Z_scope.

(** ** Dropping objects *)

(** The map without the keys of the list. *)
Definition without {K V} `{Countable K} (ks : list K) (m m' : gmap K V) : Prop :=
  ∀ k, m' !! k = if decide (k ∈ ks) then None else m !! k.

(** Some of the slots with an interface of [I] are emptied. *)
Definition slots_off (I : list ptr) (nd nd' : node) : Prop :=
  n_name nd' = n_name nd ∧ n_nw nd' = n_nw nd ∧
  Forall2 (λ s s', s' = s ∨ s' = None ∧ ∃ i, s = Some i ∧ i ∈ I) (n_intfs nd) (n_intfs nd').

Record drops (I L N A : list ptr) (w w' : world) : Prop := {
  dr_intfs : without I (w_intfs w) (w_intfs w');
  dr_links : without L (w_links w) (w_links w');
  dr_arps : without A (w_arps w) (w_arps w');
  dr_dead n : n ∈ N → w_nodes w' !! n = None;
  dr_nodes n : n ∉ N → option_Forall2 (slots_off I) (w_nodes w !! n) (w_nodes w' !! n);
  dr_comm : w_fd_to_comm w' ⊆ w_fd_to_comm w;
  dr_unregistered fd i : w_fd_to_comm w' !! fd = Some i → fd ≠ 0 → i ∉ I;
  dr_graphs : w_graphs w' = w_graphs w;
  dr_rest : w_skbs w' = w_skbs w ∧ w_udps w' = w_udps w ∧ w_tcps w' = w_tcps w ∧
    w_conns w' = w_conns w ∧ w_udp_fds w' = w_udp_fds w ∧ w_tcp_fds w' = w_tcp_fds w ∧
    w_conn_fds w' = w_conn_fds w;
}.

Lemma without_nil {K V} `{Countable K} (m : gmap K V) : without [] m m.
Proof. intros k. by rewrite decide_False by apply not_elem_of_nil. Qed.

Lemma without_app {K V} `{Countable K} ks1 ks2 (m1 m2 m3 : gmap K V) :
  without ks1 m1 m2 → without ks2 m2 m3 → without (ks1 ++ ks2) m1 m3.
Proof.
  intros H1 H2 k. rewrite H2, H1. repeat case_decide; set_solver.
Qed.

Lemma without_delete {K V} `{Countable K} k (m : gmap K V) : without [k] m (delete k m).
Proof.
  intros k'. rewrite lookup_delete. repeat case_decide; set_solver.
Qed.

Lemma without_Some {K V} `{Countable K} ks (m m' : gmap K V) k v :
  without ks m m' → m' !! k = Some v ↔ m !! k = Some v ∧ k ∉ ks.
Proof. intros Hm. rewrite Hm. case_decide; naive_solver. Qed.

Lemma slots_off_refl I nd : slots_off I nd nd.
Proof. split; [done|]. split; [done|]. apply Forall_Forall2_diag, Forall_forall. by left. Qed.

Lemma slots_off_trans I1 I2 nd1 nd2 nd3 :
  slots_off I1 nd1 nd2 → slots_off I2 nd2 nd3 → slots_off (I1 ++ I2) nd1 nd3.
Proof.
  intros (N1 & P1 & S1) (N2 & P2 & S2). split; [congruence|]. split; [congruence|].
  eapply Forall2_trans; [|exact S1|exact S2].
  intros s1 s2 s3 [->|(-> & i & -> & ?)] [->|(-> & j & ? & ?)]; try (by left); right; split; try done;
    eexists; (split; [done|]); apply elem_of_app; auto.
Qed.

Lemma slots_off_elem I nd nd' i : slots_off I nd nd' → Some i ∈ n_intfs nd' → Some i ∈ n_intfs nd.
Proof.
  intros (_ & _ & HS) [k Hk]%list_elem_of_lookup_1. destruct (Forall2_lookup_r _ _ _ _ _ HS Hk) as (s & Hs & [->|[? _]]); [|done].
  by eapply list_elem_of_lookup_2.
Qed.

(** A slot that changes was the slot of an interface of [I]. *)
Lemma slots_off_kept I nd nd' i : slots_off I nd nd' → i ∉ I → Some i ∈ n_intfs nd → Some i ∈ n_intfs nd'.
Proof.
  intros (_ & _ & HS) Hi [k Hk]%list_elem_of_lookup_1.
  destruct (Forall2_lookup_l _ _ _ _ _ HS Hk) as (s & Hs & [->|(_ & j & [= <-] & ?)]); [|done].
  by eapply list_elem_of_lookup_2.
Qed.

Lemma drops_refl w : drops [] [] [] [] w w.
Proof.
  split; try done; auto using without_nil.
  - set_solver.
  - intros n _. destruct (w_nodes w !! n); constructor. apply slots_off_refl.
  - set_solver.
Qed.

Lemma drops_trans I1 L1 N1 A1 I2 L2 N2 A2 w1 w2 w3 :
  drops I1 L1 N1 A1 w1 w2 → drops I2 L2 N2 A2 w2 w3 →
  drops (I1 ++ I2) (L1 ++ L2) (N1 ++ N2) (A1 ++ A2) w1 w3.
Proof.
  intros [D1 D2 D3 D4 D5 D6 D7 D8 D9] [F1 F2 F3 F4 F5 F6 F7 F8 F9].
  split; try (by eapply without_app); try congruence.
  - intros n Hn. destruct (decide (n ∈ N2)) as [?|Hn2]; [auto|].
    assert (n ∈ N1) as Hn1 by set_solver. specialize (F5 n Hn2). rewrite D4 in F5 by done. by inversion F5.
  - intros n [Hn1 Hn2]%not_elem_of_app. specialize (D5 n Hn1). specialize (F5 n Hn2).
    destruct D5 as [nd1 nd2 S1|]; inversion F5; subst; constructor. by eapply slots_off_trans.
  - by etrans.
  - intros fd i Hfd Hne. apply not_elem_of_app. split; [|by eapply F7]. eapply D7; [|done].
    by eapply lookup_weaken.
  - destruct_and!. split_and!; congruence.
Qed.

Lemma drops_node I L N A w w' n nd :
  drops I L N A w w' → n ∉ N → w_nodes w !! n = Some nd →
  ∃ nd', w_nodes w' !! n = Some nd' ∧ slots_off I nd nd'.
Proof. intros Hd HN Hn. pose proof (dr_nodes _ _ _ _ _ _ Hd n HN) as Ho. rewrite Hn in Ho. inversion Ho; subst. eauto. Qed.

Lemma drops_node_inv I L N A w w' n nd' :
  drops I L N A w w' → w_nodes w' !! n = Some nd' →
  n ∉ N ∧ ∃ nd, w_nodes w !! n = Some nd ∧ slots_off I nd nd'.
Proof.
  intros Hd Hn. assert (n ∉ N) as HN by (intros HN; rewrite (dr_dead _ _ _ _ _ _ Hd n HN) in Hn; done).
  split; [done|]. pose proof (dr_nodes _ _ _ _ _ _ Hd n HN) as Ho. rewrite Hn in Ho. inversion Ho; subst. eauto.
Qed.

(** What is left is in shape, when slots, links and interfaces go together. *)
Lemma graph_wf_drops I L A w w' :
  graph_wf [] w → drops I L [] A w w' →
  (∀ n nd' i, w_nodes w' !! n = Some nd' → Some i ∈ n_intfs nd' → i ∉ I) →
  (∀ l lk i, w_links w !! l = Some lk → is_end i lk → l ∈ L ↔ i ∈ I) →
  graph_wf [] w'.
Proof.
  intros [G1 G2 G3 G4 G5 G6 G7 G8 G9] Hd Hslot Hends. pose proof Hd as [D1 D2 _ _ _ D6 D7 D8 _].
  assert (∀ n nd', w_nodes w' !! n = Some nd' → ∃ nd, w_nodes w !! n = Some nd ∧ slots_off I nd nd') as Bn
    by (intros n nd' Hn; by apply (drops_node_inv _ _ _ _ _ _ _ _ Hd)).
  assert (∀ n nd, w_nodes w !! n = Some nd → ∃ nd', w_nodes w' !! n = Some nd' ∧ slots_off I nd nd') as Fn
    by (intros n nd Hn; by apply (drops_node _ _ _ _ _ _ _ _ Hd (not_elem_of_nil _))).
  split.
  - intros n nd' (nd & Hn & _ & _ & HS)%Bn. rewrite <- (Forall2_length _ _ _ HS). by eapply G1.
  - intros n nd' j1 j2 i (nd & Hn & _ & _ & HS)%Bn Hj1 Hj2.
    destruct (Forall2_lookup_r _ _ _ _ _ HS Hj1) as (? & ? & [<-|[? _]]); [|done].
    destruct (Forall2_lookup_r _ _ _ _ _ HS Hj2) as (? & ? & [<-|[? _]]); [|done]. by eapply G2.
  - intros n nd' i Hn Hi. split; [set_solver|]. destruct (Bn _ _ Hn) as (nd & Hnd & HS).
    destruct (G3 _ _ i Hnd) as (_ & it & Hit & ?); [by eapply slots_off_elem|].
    exists it. split; [|done]. apply (without_Some _ _ _ _ _ D1). eauto.
  - intros i it [Hi HI]%(without_Some _ _ _ _ _ D1) _. destruct (G4 i it Hi) as (nd & Hn & Hin); [set_solver|].
    destruct (Fn _ _ Hn) as (nd' & ? & HS). exists nd'. split; [done|]. by eapply slots_off_kept.
  - intros i it [Hi HI]%(without_Some _ _ _ _ _ D1) _. specialize (G5 i it Hi ltac:(set_solver)). unfold end_ok in *.
    destruct (if_link it) as [l|]; [|done]. destruct G5 as (? & lk & Hl & He). split; [done|].
    exists lk. split; [|done]. apply (without_Some _ _ _ _ _ D2). split; [done|]. by rewrite Hends.
  - intros l lk [Hl HL]%(without_Some _ _ _ _ _ D2). destruct (G6 _ _ Hl) as [? He]. split; [done|].
    intros i Hi. destruct (He _ Hi) as (it & Hit & ?). exists it. split; [|done].
    apply (without_Some _ _ _ _ _ D1). split; [done|]. by rewrite <- (Hends _ _ _ Hl Hi).
  - intros fd i Hfd Hne. pose proof (D7 _ _ Hfd Hne) as HI.
    destruct (G7 fd i) as (_ & ? & it & Hit & ?); [by eapply lookup_weaken|done|].
    split; [set_solver|]. split; [done|]. exists it. split; [|done]. by apply (without_Some _ _ _ _ _ D1).
  - rewrite D8. intros g gr Hg. destruct (G8 _ _ Hg) as [? Hlive]. split; [done|].
    intros n [nd Hn]%Hlive. destruct (Fn _ _ Hn) as (nd' & ? & _). by exists nd'.
  - rewrite D8. exact G9.
Qed.

(** ** Emptying the slots with the ends of a link *)

Lemma slots_off_mono I I' nd nd' : I ⊆ I' → slots_off I nd nd' → slots_off I' nd nd'.
Proof.
  intros HI (? & ? & HS). split; [done|]. split; [done|]. eapply Forall2_impl; [exact HS|]. cbv beta.
  intros s s' [?|(? & i & ? & ?)]; [by left|right]. eauto.
Qed.

Definition off (I : list ptr) (ns ns' : gmap ptr node) : Prop :=
  ∀ m, option_Forall2 (slots_off I) (ns !! m) (ns' !! m).

#[export] Instance off_preorder I : PreOrder (off I).
Proof.
  split.
  - intros ns m. destruct (ns !! m); constructor. apply slots_off_refl.
  - intros n1 n2 n3 H1 H2 m. specialize (H1 m). specialize (H2 m).
    destruct H1 as [? ? S1|]; inversion H2; subst; constructor.
    eapply (slots_off_mono (I ++ I)); [set_solver|]. by eapply slots_off_trans.
Qed.

Lemma off_insert I ns n nd nd' : ns !! n = Some nd → slots_off I nd nd' → off I ns (<[n := nd']> ns).
Proof.
  intros Hn HS m. rewrite lookup_insert. case_decide; [subst; rewrite Hn; by constructor|].
  destruct (ns !! m); constructor. apply slots_off_refl.
Qed.

Lemma off_Some_r I ns ns' m nd' : off I ns ns' → ns' !! m = Some nd' → ∃ nd, ns !! m = Some nd ∧ slots_off I nd nd'.
Proof. intros Ho Hm. specialize (Ho m). rewrite Hm in Ho. inversion Ho; subst. eauto. Qed.

Lemma off_is_Some I ns ns' m : off I ns ns' → is_Some (ns !! m) → is_Some (ns' !! m).
Proof. intros Ho [nd Hm]. specialize (Ho m). rewrite Hm in Ho. inversion Ho; subst. eauto. Qed.

Section ClearSlots.
Context (E : fault → Prop) (I : list ptr) (l : ptr) (intfs : gmap ptr intf).
Context (link_I : ∀ i it, intfs !! i = Some it → if_link it = Some l ↔ i ∈ I).

(** The slots of the node are free or hold interfaces that exist. *)
Definition slots_live (ns : gmap ptr node) (n : ptr) : Prop :=
  ∃ nd, ns !! n = Some nd ∧ ∀ i, Some i ∈ n_intfs nd → is_Some (intfs !! i).

Lemma off_slots_live ns ns' n : off I ns ns' → slots_live ns n → slots_live ns' n.
Proof.
  intros Ho (nd & Hn & Hl). specialize (Ho n). rewrite Hn in Ho. inversion Ho as [? nd' HS|]; subst.
  exists nd'. split; [done|]. intros i Hi. by eapply Hl, slots_off_elem.
Qed.

(** Slot [k] of the node holds no end of the link. *)
Definition slot_clear (ns : gmap ptr node) (n : ptr) (k : nat) : Prop :=
  ∀ nd i, ns !! n = Some nd → n_intfs nd !! k = Some (Some i) → i ∉ I.

Lemma off_slot_clear ns ns' n k : off I ns ns' → slot_clear ns n k → slot_clear ns' n k.
Proof.
  intros Ho Hc nd' i Hn' Hk. destruct (off_Some_r _ _ _ _ _ Ho Hn') as (nd & Hn & _ & _ & HS).
  destruct (Forall2_lookup_r _ _ _ _ _ HS Hk) as (s & Hs & [<-|[? _]]); [|done]. by eapply Hc.
Qed.

Lemma wp_clear_slot n k w Q :
  w_intfs w = intfs → slots_live (w_nodes w) n →
  (∀ ns, off I (w_nodes w) ns → slot_clear ns n k → Q tt (set_nodes ns w)) →
  wp (clear_slot n l k) Q E w.
Proof.
  intros Hi (nd & Hn & Hl) HQ. unfold clear_slot. mstep. apply (wp_load _ nd); [done|].
  assert ((∀ i, n_intfs nd !! k = Some (Some i) → i ∉ I) → wp (ret tt) Q E w) as Hsame.
  { intros Hc. mstep. replace w with (set_nodes (w_nodes w) w) by by destruct w. apply HQ; [done|].
    intros nd' i Hn' Hk. simplify_eq. by apply Hc. }
  destruct (n_intfs nd !! k) as [[i|]|] eqn:Hk; [|by apply Hsame..].
  destruct (Hl i) as [it Hit]; [by eapply list_elem_of_lookup_2|].
  mstep. apply (wp_load _ it); [cbn; by rewrite Hi|]. case_bool_decide as Hlink.
  - apply (wp_update _ _ nd); [done|]. apply HQ.
    + apply (off_insert _ _ _ nd); [done|]. split; [done|]. split; [done|]. cbn.
      apply Forall2_same_length_lookup_2; [by rewrite length_insert|]. intros j x y Hx Hy.
      destruct (decide (j = k)) as [->|]; [|rewrite list_lookup_insert_ne in Hy by done; left; congruence].
      rewrite list_lookup_insert_eq in Hy by (by eapply lookup_lt_Some). simplify_eq.
      right. split; [done|]. exists i. split; [done|]. by apply (link_I _ _ Hit).
    + intros nd' j. rewrite lookup_insert_eq. intros [= <-]. cbn.
      rewrite list_lookup_insert_eq; [done|by eapply lookup_lt_Some].
  - apply Hsame. intros j [= <-]. by rewrite <- (link_I _ _ Hit).
Qed.

Lemma wp_clear_slots n1 n2 ks w Q :
  w_intfs w = intfs → slots_live (w_nodes w) n1 → slots_live (w_nodes w) n2 →
  (∀ ns, off I (w_nodes w) ns → (∀ k, k ∈ ks → slot_clear ns n1 k ∧ slot_clear ns n2 k) → Q tt (set_nodes ns w)) →
  wp (clear_slots n1 n2 l ks) Q E w.
Proof.
  revert w. induction ks as [|k ks IH]; intros w Hi L1 L2 HQ; cbn [clear_slots].
  { mstep. replace w with (set_nodes (w_nodes w) w) by by destruct w. apply HQ; [done|set_solver]. }
  mstep. apply wp_clear_slot; [done..|]. intros ns1 O1 C1.
  mstep. apply wp_clear_slot; [done|by eapply off_slots_live|]. cbn. intros ns2 O2 C2.
  apply IH; cbn; [done|by do 2 (eapply off_slots_live; [done|])..|]. intros ns3 O3 C3. apply HQ; [by repeat (etrans; [done|])|].
  intros j [->|Hj]%elem_of_cons; [|auto]. split; [|by eapply off_slot_clear].
  by do 2 (eapply off_slot_clear; [done|]).
Qed.
End ClearSlots.

(** ** Closing the socket or the device of an interface *)

Definition closing (w : world) (i : ptr) (it : intf) (cm : gmap Z ptr) (t : list event) : world :=
  set_trace t (set_fd_to_comm cm (set_intfs (<[i := it]> (w_intfs w)) w)).

(** Descriptors other than 0 lead to the interface only under its own number. *)
Definition registered (cm : gmap Z ptr) (i : ptr) (it : intf) : Prop :=
  ∀ fd, cm !! fd = Some i → fd ≠ 0 → 0 <= fd < MAX_COMMS ∧ comm_fd (if_comm it) = fd.

(** ** The slots of a node *)

(** The slot holds an interface with a link, or without one. *)
Definition slot_link (intfs : gmap ptr intf) (s : option ptr) : option (option ptr) :=
  i ← s; it ← intfs !! i; Some (if_link it).

(** No interface without a link comes before one with a link. *)
Fixpoint taps_last (intfs : gmap ptr intf) (slots : list (option ptr)) : bool :=
  match slots with
  | [] => true
  | s :: slots =>
      (match slot_link intfs s with
       | Some None => forallb (λ s, match slot_link intfs s with Some (Some _) => false | _ => true end) slots
       | _ => true
       end) && taps_last intfs slots
  end.

Lemma taps_last_lookup intfs slots j k s1 s2 l :
  taps_last intfs slots = true → (j < k)%nat → slots !! j = Some s1 → slots !! k = Some s2 →
  slot_link intfs s1 = Some None → slot_link intfs s2 = Some (Some l) → False.
Proof.
  revert j k. induction slots as [|s slots IH]; intros j k Ht Hjk Hj Hk E1 E2; [done|].
  cbn [taps_last] in Ht. apply andb_prop in Ht as [H1 H2]. destruct k as [|k]; [lia|]. cbn in Hk.
  destruct j as [|j]; cbn in Hj.
  - simplify_eq. rewrite E1, forallb_forall in H1. apply list_elem_of_lookup_2, list_elem_of_In in Hk.
    specialize (H1 _ Hk). by rewrite E2 in H1.
  - eapply (IH j k); [done|lia|done..].
Qed.

Lemma taps_last_off I intfs intfs' slots slots' :
  without I intfs intfs' → Forall2 (λ s s', s' = s ∨ s' = None ∧ ∃ i, s = Some i ∧ i ∈ I) slots slots' →
  taps_last intfs slots = true → taps_last intfs' slots' = true.
Proof.
  intros HI HS.
  assert (∀ s s' x, s' = s ∨ s' = None ∧ (∃ i, s = Some i ∧ i ∈ I) →
    slot_link intfs' s' = Some x → slot_link intfs s = Some x) as Hlink.
  { intros s s' x [->|[-> _]]; [|done]. destruct s as [i|]; [|done]. unfold slot_link. cbn.
    rewrite HI. by case_decide. }
  induction HS as [|s s' slots slots' Hs HS IH]; [done|]. cbn [taps_last].
  intros [H1 H2]%andb_prop. apply andb_true_intro. split; [|auto].
  destruct (slot_link intfs' s') as [[?|]|] eqn:E'; [done| |done]. rewrite (Hlink _ _ _ Hs E') in H1.
  rewrite forallb_forall in H1 |- *. intros x' Hx'%list_elem_of_In%list_elem_of_lookup_1. destruct Hx' as [k Hk].
  destruct (Forall2_lookup_r _ _ _ _ _ HS Hk) as (x & Hx%list_elem_of_lookup_2%list_elem_of_In & Hxx).
  specialize (H1 _ Hx). destruct (slot_link intfs' x') as [[?|]|] eqn:Ex; [|done..].
  by rewrite (Hlink _ _ _ Hxx Ex) in H1.
Qed.

(** The interfaces in the nodes [G], and the other ends of their links. *)
Definition doomed (G : list ptr) (w : world) (i : ptr) : Prop :=
  ∃ it, w_intfs w !! i = Some it ∧
    (if_node it ∈ G ∨ ∃ l j jt, if_link it = Some l ∧ w_intfs w !! j = Some jt ∧ if_link jt = Some l ∧ if_node jt ∈ G).
(** The links with an end in the nodes [G]. *)
Definition doomed_link (G : list ptr) (w : world) (l : ptr) : Prop :=
  ∃ j jt, w_intfs w !! j = Some jt ∧ if_link jt = Some l ∧ if_node jt ∈ G.

Lemma doomed_drops G I L N A w w' i : drops I L N A w w' → doomed G w' i → doomed G w i.
Proof.
  intros Hd (it & Hi & HG). apply (without_Some _ _ _ _ _ (dr_intfs _ _ _ _ _ _ Hd)) in Hi as [Hi _].
  exists it. split; [done|]. destruct HG as [?|(l & j & jt & ? & Hj & ? & ?)]; [by left|right].
  apply (without_Some _ _ _ _ _ (dr_intfs _ _ _ _ _ _ Hd)) in Hj as [Hj _]. by exists l, j, jt.
Qed.

Lemma doomed_link_drops G I L N A w w' l : drops I L N A w w' → doomed_link G w' l → doomed_link G w l.
Proof.
  intros Hd (j & jt & Hj & ? & ?). apply (without_Some _ _ _ _ _ (dr_intfs _ _ _ _ _ _ Hd)) in Hj as [Hj _].
  by exists j, jt.
Qed.

(** The node with its first [k] slots emptied. *)
Definition wipe_slots (k : nat) (slots : list (option ptr)) : list (option ptr) := replicate k None ++ drop k slots.
Definition wipe (k : nat) (n : ptr) (w : world) : world :=
  set_nodes (alter (λ nd, n_set_intfs (wipe_slots k (n_intfs nd)) nd) n (w_nodes w)) w.

Lemma wipe_slots_lookup k slots j :
  (k <= length slots)%nat →
  wipe_slots k slots !! j = if decide (j < k)%nat then Some None else slots !! j.
Proof.
  intros Hk. unfold wipe_slots. case_decide.
  - rewrite lookup_app_l by (by rewrite length_replicate). by apply lookup_replicate_2.
  - rewrite lookup_app_r by (rewrite length_replicate; lia). rewrite length_replicate, lookup_drop. f_equal. lia.
Qed.

Lemma length_wipe_slots k slots : (k <= length slots)%nat → length (wipe_slots k slots) = length slots.
Proof. intros Hk. unfold wipe_slots. rewrite length_app, length_replicate, length_drop. lia. Qed.

Lemma wipe_slots_id k slots :
  (k <= length slots)%nat → (∀ j, (j < k)%nat → slots !! j = Some None) → wipe_slots k slots = slots.
Proof. intros Hk Hj. apply list_eq. intros j. rewrite wipe_slots_lookup by done. case_decide; [symmetry; auto|done]. Qed.

Lemma wipe_slots_S k slots :
  (k < length slots)%nat → slots !! k = Some None → wipe_slots (S k) slots = wipe_slots k slots.
Proof.
  intros Hk Hn. apply list_eq. intros j. rewrite !wipe_slots_lookup by lia. repeat case_decide; try lia; try done.
  by replace j with k by lia.
Qed.

Lemma wipe_lookup k n w nd : w_nodes w !! n = Some nd →
  w_nodes (wipe k n w) !! n = Some (n_set_intfs (wipe_slots k (n_intfs nd)) nd).
Proof. intros Hn. cbn. by rewrite lookup_alter_eq, Hn. Qed.
Lemma wipe_lookup_ne k n m w : n ≠ m → w_nodes (wipe k n w) !! m = w_nodes w !! m.
Proof. apply lookup_alter_ne. Qed.

Lemma wipe_id k n w nd : w_nodes w !! n = Some nd → wipe_slots k (n_intfs nd) = n_intfs nd → wipe k n w = w.
Proof.
  intros Hn E. unfold wipe. rewrite alter_id; [by destruct w|]. intros nd' Hn'. assert (nd' = nd) as -> by congruence.
  rewrite E. by destruct nd.
Qed.

Lemma wipe_ext k k' n w nd : w_nodes w !! n = Some nd →
  wipe_slots k (n_intfs nd) = wipe_slots k' (n_intfs nd) → wipe k n w = wipe k' n w.
Proof.
  intros Hn E. unfold wipe. f_equal. apply alter_ext. intros nd' Hn'.
  assert (nd' = nd) as -> by congruence. by rewrite E.
Qed.

(** Emptying slot [k] when the TAP device in it is gone. *)
Lemma graph_wf_wipe_tap k n nd i it w w' :
  graph_wf [] (wipe k n w) → w_nodes w !! n = Some nd → n_intfs nd !! k = Some (Some i) →
  (length (n_intfs nd) = MAX_INTFS_PER_NODE) →
  w_intfs w !! i = Some it → if_link it = None → drops [i] [] [] [] w w' → w_nodes w' = w_nodes w →
  graph_wf [] (wipe (S k) n w').
Proof.
  intros Hg Hn Hk Hlen Hi Hl Hd Ew. pose proof (lookup_lt_Some _ _ _ Hk) as Hlt.
  pose proof (wipe_lookup k n w nd Hn) as Hwn. rewrite <- Ew in Hn. pose proof (wipe_lookup (S k) n w' nd Hn) as Hwn'.
  assert (wipe_slots k (n_intfs nd) !! k = Some (Some i)) as Hwk.
  { rewrite wipe_slots_lookup by lia. by rewrite decide_False by lia. }
  apply (graph_wf_drops [i] [] [] (wipe k n w)); [done| | |].
  - destruct Hd. split; try done; [set_solver|]. intros m _. destruct (decide (n = m)) as [<-|Hne].
    + rewrite Hwn, Hwn'. constructor. split; [done|]. split; [done|]. cbn [n_intfs n_set_intfs].
      apply Forall2_same_length_lookup_2; [by rewrite !length_wipe_slots by lia|].
      intros j x y. rewrite !wipe_slots_lookup by lia. repeat case_decide; try lia; intros Hx Hy; [left; congruence| |left; congruence].
      right. assert (j = k) as -> by lia. split; [congruence|]. exists i. split; [congruence|set_solver].
    + rewrite !wipe_lookup_ne, Ew by done. destruct (w_nodes w !! m); constructor. apply slots_off_refl.
  - intros m nd' j Hm Hj ->%list_elem_of_singleton. destruct (decide (n = m)) as [<-|Hne].
    + rewrite Hwn' in Hm. injection Hm as <-. cbn [n_intfs n_set_intfs] in Hj. apply list_elem_of_lookup_1 in Hj as [x Hx].
      rewrite wipe_slots_lookup in Hx by lia. case_decide; [done|].
      assert (x = k) as ->; [|lia].
      apply (gw_inj _ _ Hg n _ x k i Hwn); [|done]. cbn. rewrite wipe_slots_lookup by lia. by rewrite decide_False by lia.
    + rewrite wipe_lookup_ne, Ew in Hm by done. rewrite <- (wipe_lookup_ne k n) in Hm by done.
      destruct (gw_slot _ _ Hg _ _ _ Hm Hj) as (_ & it' & Hi' & Em).
      destruct (gw_slot _ _ Hg _ _ i Hwn) as (_ & it'' & Hi'' & En); [by eapply list_elem_of_lookup_2|].
      congruence.
  - intros l lk j Hlk He. destruct (proj2 (gw_link _ _ Hg _ _ Hlk) _ He) as (jt & Hj & Ej).
    specialize (Ej ltac:(set_solver)). split; [set_solver|]. intros ->%list_elem_of_singleton. cbn in Hj. congruence.
Qed.

(** ** A node that leaves its graph *)

Lemma list_remove_absent {A} `{EqDecision A} (x : A) l : x ∉ l → list_remove x l = l.
Proof. induction l as [|y l IH]; [done|]. intros [? ?]%not_elem_of_cons. cbn. case_decide; [done|]. by rewrite IH. Qed.

Definition unlinked (n : ptr) (gs : gmap ptr graph) : gmap ptr graph :=
  (λ gr, mk_graph (g_name gr) (list_remove n (g_nodes gr))) <$> gs.

Lemma unlinked_lookup n gs g gr' :
  unlinked n gs !! g = Some gr' → ∃ gr, gs !! g = Some gr ∧ g_nodes gr' = list_remove n (g_nodes gr).
Proof. unfold unlinked. rewrite lookup_fmap. intros (gr & ? & ->)%fmap_Some. by exists gr. Qed.

Lemma unlinked_other n gs g gr : gs !! g = Some gr → n ∉ g_nodes gr → unlinked n gs !! g = Some gr.
Proof. intros Hg Hn. unfold unlinked. rewrite lookup_fmap, Hg. cbn. rewrite list_remove_absent by done. by destruct gr. Qed.

Lemma graph_wf_unlink n w : graph_wf [] w → graph_wf [] (set_graphs (unlinked n (w_graphs w)) w).
Proof.
  intros [G1 G2 G3 G4 G5 G6 G7 G8 G9]. split; try done; cbn.
  - intros g gr' (gr & Hg & ->)%unlinked_lookup. destruct (G8 _ _ Hg) as [? Hl].
    split; [by apply list_remove_NoDup|]. intros m [Hm _]%elem_of_list_remove; auto.
  - intros g1 g2 gr1' gr2' m (gr1 & E1 & ->)%unlinked_lookup (gr2 & E2 & ->)%unlinked_lookup.
    destruct (G8 _ _ E1), (G8 _ _ E2).
    rewrite !elem_of_list_remove by done. intros [? _] [? _]. by eapply G9.
Qed.

Lemma unlinked_gone n w g gr : graph_wf [] w → unlinked n (w_graphs w) !! g = Some gr → n ∉ g_nodes gr.
Proof.
  intros Hg (gr0 & Hgr & ->)%unlinked_lookup. destruct (gw_graph _ _ Hg _ _ Hgr).
  rewrite elem_of_list_remove by done. naive_solver.
Qed.

Lemma graph_wf_delete_node n nd w :
  w_nodes w !! n = Some nd → graph_wf [] (wipe MAX_INTFS_PER_NODE n w) →
  (∀ g gr, w_graphs w !! g = Some gr → n ∉ g_nodes gr) →
  graph_wf [] (set_nodes (delete n (w_nodes w)) w).
Proof.
  intros Hn Hg Hno. pose proof (wipe_lookup MAX_INTFS_PER_NODE _ _ _ Hn) as Hwn.
  assert (∀ i, Some i ∉ wipe_slots MAX_INTFS_PER_NODE (n_intfs nd)) as Hempty.
  { intros i Hi. unfold wipe_slots in Hi. apply elem_of_app in Hi as [Hi%elem_of_replicate_inv|Hi]; [done|].
    apply list_elem_of_lookup_1 in Hi as [k Hk]. rewrite lookup_drop in Hk. apply lookup_lt_Some in Hk.
    pose proof (gw_length _ _ Hg _ _ Hwn) as Hlen. cbn [n_intfs n_set_intfs] in Hlen. unfold wipe_slots in Hlen.
    rewrite length_app, length_replicate, length_drop in Hlen. lia. }
  assert (∀ m md, delete n (w_nodes w) !! m = Some md → m ≠ n ∧ w_nodes (wipe MAX_INTFS_PER_NODE n w) !! m = Some md) as Hold.
  { intros m md [Hne Hm]%lookup_delete_Some. by rewrite wipe_lookup_ne. }
  destruct Hg as [G1 G2 G3 G4 G5 G6 G7 G8 G9]. split; try done; cbn [w_nodes w_intfs w_graphs set_nodes].
  - intros m md [_ Hm]%Hold. by eapply G1.
  - intros m md j1 j2 i [_ Hm]%Hold. by eapply G2.
  - intros m md i [_ Hm]%Hold. by eapply G3.
  - intros i it Hi HX. destruct (G4 i it Hi HX) as (md & Hm & Hin). exists md. split; [|done].
    destruct (decide (if_node it = n)) as [E|Hne]; [|by rewrite lookup_delete_ne, <- (wipe_lookup_ne MAX_INTFS_PER_NODE n)].
    rewrite E, Hwn in Hm. injection Hm as <-. by destruct (Hempty i).
  - intros g gr Hgr. destruct (G8 g gr Hgr) as [? Hl]. split; [done|]. intros m Hm. specialize (Hl m Hm).
    assert (m ≠ n) by (intros ->; by eapply Hno). by rewrite lookup_delete_ne, <- (wipe_lookup_ne MAX_INTFS_PER_NODE n).
Qed.

(** The ARP entries of the nodes that stay are kept. *)
Lemma arp_wf_drops I L N A w w' :
  arp_wf (tables w) (w_arps w) → drops I L N A w w' →
  (∀ n l e, n ∉ N → tables w !! n = Some l → e ∈ l → e ∉ A) → arp_wf (tables w') (w_arps w').
Proof.
  intros [W1 W2 W3 W4] Hd HA.
  assert (∀ n l, tables w' !! n = Some l → n ∉ N ∧ tables w !! n = Some l) as Ht.
  { intros n l (nd' & Hn & <-)%tables_lookup. destruct (drops_node_inv _ _ _ _ _ _ _ _ Hd Hn) as (? & nd & ? & _ & Hnw & _).
    split; [done|]. apply tables_lookup. exists nd. by rewrite Hnw. }
  pose proof (dr_arps _ _ _ _ _ _ Hd) as Ha. split.
  - intros n l e [HN Hl]%Ht He. rewrite Ha, decide_False by by eapply HA. by eapply W1.
  - intros n l [_ Hl]%Ht. by eapply W2.
  - intros n1 n2 l1 l2 e [_ H1]%Ht [_ H2]%Ht. by eapply W3.
  - intros e en [He _]%(without_Some _ _ _ _ _ Ha). by eapply W4.
Qed.

(** ** The nodes of a graph *)

Lemma doomed_mono G G' w i : G ⊆ G' → doomed G w i → doomed G' w i.
Proof. intros HG (it & ? & [?|(l & j & jt & ? & ? & ? & ?)]); exists it; (split; [done|]); [left|right]; eauto 10. Qed.
Lemma doomed_link_mono G G' w l : G ⊆ G' → doomed_link G w l → doomed_link G' w l.
Proof. intros HG (j & jt & ? & ? & ?). exists j, jt. auto. Qed.

(** The ARP entries of the nodes. *)
Definition arps_of (G : list ptr) (w : world) (e : ptr) : Prop :=
  ∃ n l, n ∈ G ∧ tables w !! n = Some l ∧ e ∈ l.

(** Destroying the nodes [G] of [w], which leaves their graph. *)
Record demolished (G : list ptr) (w w' : world) : Prop := {
  dm_drops : ∃ I L A, drops I L G A (set_graphs (w_graphs w') w) w' ∧
    (∀ i, i ∈ I → doomed G w i) ∧ (∀ l, l ∈ L → doomed_link G w l) ∧ (∀ e, e ∈ A ↔ arps_of G w e);
  dm_graphs g gr : w_graphs w !! g = Some gr → ∃ gr', w_graphs w' !! g = Some gr' ∧
    ((∀ n, n ∈ G → n ∉ g_nodes gr) → gr' = gr);
  dm_no_graph g : w_graphs w !! g = None → w_graphs w' !! g = None;
  dm_wf : graph_wf [] w';
  dm_arps : arp_wf (tables w') (w_arps w');
}.

Lemma drops_set_graphs I L N A w w' gs :
  drops I L N A w w' → drops I L N A (set_graphs gs w) (set_graphs gs w').
Proof. intros []. by split. Qed.

Lemma end_ok_link links i it l : if_link it = Some l → end_ok links i it →
  comm_of CT_UDP (if_comm it) ∧ ∃ lk, links !! l = Some lk ∧ is_end i lk.
Proof. unfold end_ok. by intros ->. Qed.

Section Destroy.
Context `{Os} (E : fault → Prop).

Lemma closing_intro w i it :
  w_intfs w !! i = Some it → w = closing w i it (w_fd_to_comm w) (w_trace w).
Proof. intros Hi. unfold closing. rewrite insert_id by done. by destruct w. Qed.

Lemma wp_closing_update w i it cm t f Q :
  (∀ it', Q tt (closing w i it' cm t)) → wp (update_comm i f) Q E (closing w i it cm t).
Proof.
  intros HQ. unfold update_comm. apply (wp_update _ _ it); [apply lookup_insert_eq|].
  replace (hset _ _) with (closing w i (if_set_comm (f (if_comm it)) it) cm t); [apply HQ|].
  unfold closing. cbn. by rewrite insert_insert_eq.
Qed.

Lemma wp_closing_emit w i it cm t e Q :
  (∀ t, Q tt (closing w i it cm t)) → wp (emit e) Q E (closing w i it cm t).
Proof. intros HQ. apply wp_emit. apply (HQ (t ++ [e])). Qed.

Lemma wp_closing_set_fd w i it t Q :
  registered (w_fd_to_comm w) i it →
  (∀ b cm, cm ⊆ w_fd_to_comm w → (∀ fd, cm !! fd = Some i → fd = 0) → Q b (closing w i it cm t)) →
  wp (set_fd_comm (comm_fd (if_comm it)) None) Q E (closing w i it (w_fd_to_comm w) t).
Proof.
  intros Hr HQ. unfold set_fd_comm. case_match eqn:Hg.
  - mstep. apply HQ; [done|]. intros fd Hfd. destruct (decide (fd = 0)) as [|Hne]; [done|].
    destruct (Hr _ Hfd Hne) as [? Hc]. exfalso. rewrite Hc in Hg. revert Hg. zbool; lia.
  - mstep. mstep. mstep.
    set (cm := delete (comm_fd (if_comm it)) (w_fd_to_comm w)). apply (HQ true cm).
    + apply delete_subseteq.
    + intros fd. subst cm. rewrite lookup_delete. case_decide as Hd; [done|]. intros Hfd.
      destruct (decide (fd = 0)) as [|Hne]; [done|]. by destruct (Hr _ Hfd Hne).
Qed.

Lemma wp_destroy_comm i it w Q :
  w_intfs w !! i = Some it → is_Some (comm_op (if_comm it)) → registered (w_fd_to_comm w) i it →
  (∀ b it' cm t, cm ⊆ w_fd_to_comm w → (∀ fd, cm !! fd = Some i → fd = 0) → Q b (closing w i it' cm t)) →
  wp (destroy_comm i) Q E w.
Proof.
  intros Hi [o Ho] Hr HQ. unfold destroy_comm. mstep. apply (wp_load _ it); [done|]. rewrite Ho. mstep. mstep.
  rewrite (closing_intro w i it) by done. unfold udp_destroy_comm, tuntap_destroy_comm.
  assert (w_intfs (closing w i it (w_fd_to_comm w) (w_trace w)) !! i = Some it) as Hi' by apply lookup_insert_eq.
  destruct (Z.eqb_spec (comm_fd (if_comm it)) 0) as [Hz|Hne].
  - assert (∀ fd, w_fd_to_comm w !! fd = Some i → fd = 0) as Hzero.
    { intros fd Hfd. destruct (decide (fd = 0)) as [|Hne]; [done|]. destruct (Hr _ Hfd Hne). congruence. }
    destruct o; mstep; (apply (wp_load _ it); [done|]); rewrite Hz, Z.eqb_refl; mstep; mstep; mstep; by apply HQ.
  - destruct o; mstep; (apply (wp_load _ it); [done|]); mstep; rewrite (proj2 (Z.eqb_neq _ _)) by done;
      mstep; (apply wp_closing_set_fd; [done|]); intros b cm Hcm Hi0; mstep; apply wp_closing_emit; intros t;
      repeat (first [mstep|apply wp_closing_update; intros ?]); by apply HQ.
Qed.

Lemma graph_wf_registered w i it : graph_wf [] w → w_intfs w !! i = Some it → registered (w_fd_to_comm w) i it.
Proof. intros Hg Hi fd Hfd Hne. destruct (gw_comm _ _ Hg _ _ Hfd Hne) as (_ & ? & it' & ? & ?). by simplify_eq. Qed.

(** An interface of a link is closed; a TAP device is closed and freed. *)
Lemma wp_destroy_interface i it w Q :
  w_intfs w !! i = Some it → is_Some (comm_op (if_comm it)) → registered (w_fd_to_comm w) i it →
  comm_kind (if_comm it) = CT_UDP →
  (∀ it' cm t, cm ⊆ w_fd_to_comm w → (∀ fd, cm !! fd = Some i → fd = 0) → Q tt (closing w i it' cm t)) →
  wp (destroy_interface i) Q E w.
Proof.
  intros Hi Ho Hr Hk HQ. unfold destroy_interface. mstep. apply (wp_load _ it); [done|]. rewrite Hk.
  mstep. eapply wp_destroy_comm; [done..|]. intros _ it' cm t ??. rewrite bool_decide_false by done. mstep. by apply HQ.
Qed.

Lemma wp_destroy_tap i it w Q :
  w_intfs w !! i = Some it → comm_of CT_TUNTAP (if_comm it) → registered (w_fd_to_comm w) i it →
  (∀ w', drops [i] [] [] [] w w' → w_nodes w' = w_nodes w → Q tt w') →
  wp (destroy_interface i) Q E w.
Proof.
  intros Hi [Hk Ho] Hr HQ. unfold destroy_interface. mstep. apply (wp_load _ it); [done|]. rewrite Hk.
  mstep. eapply wp_destroy_comm; [done..|]. intros _ it' cm t Hcm Hi0. rewrite bool_decide_true by done.
  eapply wp_dealloc; [apply lookup_insert_eq|]. apply HQ; [|done].
  split; try done; cbn; auto using without_nil.
  - intros k. rewrite lookup_delete, lookup_insert. repeat case_decide; set_solver.
  - set_solver.
  - intros n _. destruct (w_nodes w !! n); constructor. apply slots_off_refl.
  - intros fd j Hfd Hne ->%list_elem_of_singleton. eauto.
Qed.

(** The interfaces of a link are its ends, and the slots of a node are live. *)
Lemma ends_of_link w l lk :
  graph_wf [] w → w_links w !! l = Some lk →
  ∀ i it, w_intfs w !! i = Some it → if_link it = Some l ↔ i ∈ [l_intf1 lk; l_intf2 lk].
Proof.
  intros Hg Hl i it Hi. split.
  - intros Ei. pose proof (gw_end _ _ Hg _ _ Hi ltac:(set_solver)) as [_ (lk' & ? & He)]%(end_ok_link _ _ _ _ Ei).
    simplify_eq. destruct He as [->| ->]; set_solver.
  - intros Hin. assert (is_end i lk) as He by (apply elem_of_cons in Hin as [->|Hin%list_elem_of_singleton]; [by left|by right]).
    destruct (proj2 (gw_link _ _ Hg _ _ Hl) _ He) as (it' & Hi' & Ei). simplify_eq. apply Ei. set_solver.
Qed.

Lemma graph_slots_live w :
  graph_wf [] w → ∀ i it, w_intfs w !! i = Some it → slots_live (w_intfs w) (w_nodes w) (if_node it).
Proof.
  intros Hg i it Hi. destruct (gw_home _ _ Hg _ _ Hi) as (nd & Hn & _); [set_solver|]. exists nd. split; [done|].
  intros j Hj. destruct (gw_slot _ _ Hg _ _ _ Hn Hj) as (_ & jt & ? & _). by exists jt.
Qed.

Lemma wp_destroy_link l lk w Q :
  graph_wf [] w → w_links w !! l = Some lk →
  (∀ w', drops [l_intf1 lk; l_intf2 lk] [l] [] [] w w' → graph_wf [] w' → Q tt w') →
  wp (destroy_link l) Q E w.
Proof.
  intros Hg Hl HQ. set (i1 := l_intf1 lk) in *. set (i2 := l_intf2 lk) in *.
  destruct (gw_link _ _ Hg _ _ Hl) as [Hne Hlk].
  destruct (Hlk i1) as (it1 & Hi1 & E1); [by left|]. destruct (Hlk i2) as (it2 & Hi2 & E2); [by right|].
  specialize (E1 ltac:(set_solver)). specialize (E2 ltac:(set_solver)).
  pose proof (gw_end _ _ Hg _ _ Hi1 ltac:(set_solver)) as [[K1 O1] _]%(end_ok_link _ _ _ _ E1).
  pose proof (gw_end _ _ Hg _ _ Hi2 ltac:(set_solver)) as [[K2 O2] _]%(end_ok_link _ _ _ _ E2).
  pose proof (ends_of_link w l lk Hg Hl) as HI. fold i1 i2 in HI. pose proof (graph_slots_live w Hg) as Hslots.
  unfold destroy_link. mstep. apply (wp_load _ lk); [done|]. mstep. apply (wp_load _ it1); [done|].
  mstep. apply (wp_load _ it2); [done|].
  mstep. apply (wp_clear_slots E [i1; i2] l (w_intfs w)); [done|done|by eapply Hslots..|].
  intros ns Ho Hclear.
  mstep. apply (wp_destroy_interface i1 it1); [done|done|exact (graph_wf_registered w i1 it1 Hg Hi1)|done|].
  cbn [w_fd_to_comm set_nodes]. intros it1' cm1 t1 C1 C1'.
  mstep. apply (wp_destroy_interface i2 it2); [|done| |done|].
  { cbn. by rewrite lookup_insert_ne. }
  { intros fd Hfd. apply (graph_wf_registered w i2 it2); [done..|]. by eapply lookup_weaken. }
  cbn [w_fd_to_comm closing set_fd_to_comm set_trace]. intros it2' cm2 t2 C2 C2'.
  mstep. eapply wp_dealloc; [cbn; rewrite lookup_insert_ne by done; apply lookup_insert_eq|].
  mstep. eapply wp_dealloc; [cbn; rewrite lookup_delete_ne by done; apply lookup_insert_eq|].
  eapply wp_dealloc; [exact Hl|].
  match goal with |- Q tt ?w' => assert (drops [i1; i2] [l] [] [] w w') as Hd end.
  { split; try done; cbn; auto using without_nil, without_delete.
    - intros k. rewrite !lookup_delete, !lookup_insert. repeat case_decide; set_solver.
    - set_solver.
    - by etrans.
    - intros fd j Hfd Hfd0 Hj. assert (j = i1 ∨ j = i2) as [->| ->] by set_solver; [|eauto].
      eapply Hfd0, C1', lookup_weaken; [exact Hfd|done]. }
  apply HQ; [done|]. apply (graph_wf_drops _ _ _ _ _ Hg Hd); cbn.
  - intros n nd' i Hn' Hi HiI. destruct (off_Some_r _ _ _ _ _ Ho Hn') as (nd & Hn & HS).
    destruct (gw_slot _ _ Hg n nd i Hn) as (_ & it & Hit & En); [by eapply slots_off_elem|].
    assert (n = if_node it1 ∨ n = if_node it2) as Hn12.
    { assert (i = i1 ∨ i = i2) as [->| ->] by set_solver; [left|right]; congruence. }
    apply list_elem_of_lookup_1 in Hi as [k Hk].
    destruct (Hclear k) as [HC1 HC2].
    + apply elem_of_seq. pose proof (lookup_lt_Some _ _ _ Hk) as Hlt.
      destruct HS as (_ & _ & HS). rewrite <- (Forall2_length _ _ _ HS), (gw_length _ _ Hg _ _ Hn) in Hlt. lia.
    + destruct Hn12 as [->| ->]; [by eapply HC1|by eapply HC2].
  - intros l' lk' i Hl' He. destruct (proj2 (gw_link _ _ Hg _ _ Hl') _ He) as (it & Hi & Ei).
    specialize (Ei ltac:(set_solver)). rewrite <- (HI _ _ Hi), Ei. set_solver.
Qed.

(** Destroying the link in slot [k] leaves that slot empty, and the ones before it. *)
Lemma destroyed_link_slot w w1 n nd nd1 k i it l lk :
  graph_wf [] w → graph_wf [] w1 → w_nodes w1 !! n = Some nd1 → n_intfs nd !! k = Some (Some i) →
  w_intfs w !! i = Some it → is_end i lk → drops [l_intf1 lk; l_intf2 lk] [l] [] [] w w1 →
  slots_off [l_intf1 lk; l_intf2 lk] nd nd1 →
  (∀ j, (j < k)%nat → n_intfs nd !! j = Some None) → ∀ j, (j < S k)%nat → n_intfs nd1 !! j = Some None.
Proof.
  intros Hg Hg1 Hn1 Hs Hi He Hd (_ & _ & HS) Hempty j Hj. destruct (decide (j = k)) as [->|].
  - destruct (Forall2_lookup_l _ _ _ _ _ HS Hs) as (s & Hs1 & [->|[-> _]]); [|done].
    destruct (gw_slot _ _ Hg1 _ nd1 i Hn1) as (_ & it1 & Hi1 & _); [by eapply list_elem_of_lookup_2|].
    apply (without_Some _ _ _ _ _ (dr_intfs _ _ _ _ _ _ Hd)) in Hi1 as [_ Hi1]. destruct He; set_solver.
  - destruct (Forall2_lookup_l _ _ _ _ _ HS (Hempty j ltac:(lia))) as (s & -> & [->|[-> _]]); done.
Qed.

(** A link with an end in a node goes with the node, and both of its ends. *)
Lemma doomed_with_end w l lk i it :
  graph_wf [] w → w_links w !! l = Some lk → w_intfs w !! i = Some it → if_link it = Some l →
  doomed_link [if_node it] w l ∧ ∀ j, j ∈ [l_intf1 lk; l_intf2 lk] → doomed [if_node it] w j.
Proof.
  intros Hg Hl Hi El. split; [exists i, it; split_and!; [done..|set_solver]|]. intros j Hj.
  assert (is_end j lk) as He by (apply elem_of_cons in Hj as [->|Hj%list_elem_of_singleton]; [by left|by right]).
  destruct (proj2 (gw_link _ _ Hg _ _ Hl) _ He) as (jt & Hjt & Ej). exists jt. split; [done|]. right.
  exists l, i, it. split_and!; [apply Ej; set_solver|done..|set_solver].
Qed.

(** The slots of a node, from slot [k] on. *)
Lemma wp_destroy_slots n k m nd w Q :
  (k + m = MAX_INTFS_PER_NODE)%nat →
  w_nodes w !! n = Some nd → graph_wf [] (wipe k n w) →
  taps_last (w_intfs w) (n_intfs nd) = true →
  (∀ j, (j < k)%nat → n_intfs nd !! j = Some None) ∨
  (∀ j s l, (k <= j)%nat → n_intfs nd !! j = Some s → slot_link (w_intfs w) s ≠ Some (Some l)) →
  (∀ I L w', drops I L [] [] w w' → (∀ i, i ∈ I → doomed [n] w i) → (∀ l, l ∈ L → doomed_link [n] w l) →
     graph_wf [] (wipe MAX_INTFS_PER_NODE n w') → Q tt w') →
  wp (destroy_slots n (seq k m)) Q E w.
Proof.
  revert k nd w Q. induction m as [|m IH]; intros k nd w Q Hkm Hn Hg Ht Hor HQ; cbn [seq destroy_slots].
  { mstep. apply (HQ [] []); [apply drops_refl|set_solver..|]. by replace MAX_INTFS_PER_NODE with k by lia. }
  pose proof (gw_length _ _ Hg _ _ (wipe_lookup k n w nd Hn)) as Hlen. cbn [n_intfs n_set_intfs] in Hlen.
  assert (length (n_intfs nd) = MAX_INTFS_PER_NODE) as Hlen'.
  { unfold wipe_slots in Hlen. rewrite length_app, length_replicate, length_drop in Hlen. lia. }
  clear Hlen. rename Hlen' into Hlen.
  mstep. apply (wp_load _ nd); [done|]. mstep.
  destruct (lookup_lt_is_Some_2 (n_intfs nd) k) as [s Hs]; [lia|]. rewrite Hs. destruct s as [i|].
  2: { mstep. apply (IH (S k) nd); [lia|done| |done| |done].
    - rewrite (wipe_ext (S k) k n w nd); [done|done|]. apply wipe_slots_S; [lia|done].
    - destruct Hor as [Hj|Hj]; [left|right].
      + intros j ?. destruct (decide (j = k)) as [->|]; [done|]. apply Hj. lia.
      + intros j s' l ?. apply Hj. lia. }
  destruct (gw_slot _ _ Hg n _ i (wipe_lookup k n w nd Hn)) as (_ & it & Hi & En).
  { apply list_elem_of_lookup_2 with k. cbn. rewrite wipe_slots_lookup by lia. by rewrite decide_False by lia. }
  cbn [w_intfs wipe set_nodes] in Hi. mstep. apply (wp_load _ it); [done|].
  assert (slot_link (w_intfs w) (Some i) = Some (if_link it)) as Esl by (unfold slot_link; cbn; by rewrite Hi).
  pose proof (gw_end _ _ Hg _ _ Hi ltac:(set_solver)) as Hend.
  destruct (if_link it) as [l|] eqn:El.
  - destruct Hor as [Hempty|Hno]; [|by destruct (Hno k (Some i) l)].
    assert (wipe k n w = w) as Ew by (apply (wipe_id _ _ _ nd); [done|apply wipe_slots_id; [lia|done]]).
    rewrite Ew in Hg. apply (end_ok_link _ _ _ _ El) in Hend as (_ & lk & Hl & He).
    apply (wp_destroy_link l lk); [done|done|]. intros w1 Hd1 Hg1.
    destruct (drops_node _ _ _ _ _ _ n nd Hd1 (not_elem_of_nil _) Hn) as (nd1 & Hn1 & HS).
    assert (∀ j, (j < S k)%nat → n_intfs nd1 !! j = Some None) as Hempty1
      by exact (destroyed_link_slot w w1 n nd nd1 k i it l lk Hg Hg1 Hn1 Hs Hi He Hd1 HS Hempty).
    destruct (doomed_with_end w l lk i it Hg Hl Hi El) as [DL DI]. rewrite En in DL, DI.
    apply (IH (S k) nd1); [lia|done| | |by left|].
    + rewrite (wipe_id _ _ _ nd1); [done|done|]. apply wipe_slots_id; [|done].
      rewrite (gw_length _ _ Hg1 _ _ Hn1). lia.
    + eapply taps_last_off; [apply Hd1|apply HS|done].
    + intros I L w2 Hd2 HI HL Hg2. apply (HQ _ _ w2 (drops_trans _ _ _ _ _ _ _ _ _ _ _ Hd1 Hd2)); [| |done].
      * intros j [Hj|Hj]%elem_of_app; [by apply DI|by eapply doomed_drops, HI].
      * intros l' [->%list_elem_of_singleton|Hl']%elem_of_app; [done|by eapply doomed_link_drops, HL].
  - unfold end_ok in Hend. rewrite El in Hend.
    apply (wp_destroy_tap i it); [done|done|by apply (graph_wf_registered _ _ _ Hg)|]. intros w1 Hd1 Ew1.
    apply (IH (S k) nd); [lia|by rewrite Ew1| | | |].
    + by eapply graph_wf_wipe_tap.
    + eapply taps_last_off; [apply Hd1| |done]. apply Forall_Forall2_diag, Forall_forall. by left.
    + right. intros j s l Hj Hsj Hlj.
      apply (taps_last_lookup _ _ k j _ _ l Ht ltac:(lia) Hs Hsj); [by rewrite Esl|].
      revert Hlj. unfold slot_link. destruct s as [j'|]; [|done]. cbn. rewrite (dr_intfs _ _ _ _ _ _ Hd1). by case_decide.
    + intros I L w2 Hd2 HI HL Hg2. apply (HQ _ _ w2 (drops_trans _ _ _ _ _ _ _ _ _ _ _ Hd1 Hd2)); [| |done].
      * intros j [->%list_elem_of_singleton|Hj]%elem_of_app; [|by eapply doomed_drops, HI].
        exists it. split; [done|]. left. set_solver.
      * intros l' Hl'. by eapply doomed_link_drops, HL.
Qed.

Lemma wp_free_arp_entries es w Q :
  NoDup es → (∀ e, e ∈ es → is_Some (w_arps w !! e)) →
  (∀ m, without es (w_arps w) m → Q tt (set_arps m w)) → wp (free_arp_entries es) Q E w.
Proof.
  revert w. induction es as [|e es IH]; intros w Hnd Hl HQ; cbn [free_arp_entries].
  { mstep. replace w with (set_arps (w_arps w) w) by by destruct w. apply HQ, without_nil. }
  apply NoDup_cons in Hnd as [He Hnd]. destruct (Hl e) as [en Hen]; [set_solver|].
  mstep. apply (wp_dealloc _ en); [done|]. apply IH; [done| |].
  - intros e' He'. cbn. rewrite lookup_delete_ne by set_solver. apply Hl. set_solver.
  - intros m Hm. apply HQ. apply (without_app [e] es _ (delete e (w_arps w))); [apply without_delete|done].
Qed.

Lemma wp_destroy_node_nw_prop n nd w Q :
  w_nodes w !! n = Some nd → NoDup (n_arp_table (n_nw nd)) →
  (∀ e, e ∈ n_arp_table (n_nw nd) → is_Some (w_arps w !! e)) →
  (∀ m nd', without (n_arp_table (n_nw nd)) (w_arps w) m →
     Q tt (set_nodes (<[n := nd']> (w_nodes w)) (set_arps m w))) → wp (destroy_node_nw_prop n) Q E w.
Proof.
  intros Hn Hnd Hl HQ. unfold destroy_node_nw_prop, destroy_arp_table, destroy_mac_table, destroy_rt_table.
  mstep. mstep. apply (wp_load _ nd); [done|]. mstep. apply wp_free_arp_entries; [done..|]. intros m Hm.
  apply (wp_update _ _ nd); [done|]. mstep.
  eapply wp_update; [apply lookup_insert_eq|]. eapply wp_update; [apply lookup_insert_eq|].
  cbn. rewrite !insert_insert_eq. by apply HQ.
Qed.

Lemma wp_destroy_node n nd w Q :
  w_nodes w !! n = Some nd → graph_wf [] w → arp_wf (tables w) (w_arps w) →
  taps_last (w_intfs w) (n_intfs nd) = true →
  (∀ I L w', drops I L [n] (n_arp_table (n_nw nd)) (set_graphs (unlinked n (w_graphs w)) w) w' →
     (∀ i, i ∈ I → doomed [n] w i) → (∀ l, l ∈ L → doomed_link [n] w l) →
     graph_wf [] w' → arp_wf (tables w') (w_arps w') → Q tt w') →
  wp (destroy_node n) Q E w.
Proof.
  intros Hn Hg Ha Ht HQ. unfold destroy_node, unlink_node. mstep. mstep.
  fold (unlinked n (w_graphs w)). set (w0 := set_graphs _ w).
  pose proof (graph_wf_unlink n w Hg) as Hg0. fold w0 in Hg0.
  mstep. apply (wp_destroy_slots n 0 MAX_INTFS_PER_NODE nd w0); [done|done| |done|left; lia|].
  { rewrite (wipe_id _ _ w0 nd); done. }
  intros I L w1 Hd1 HI HL Hg1.
  destruct (drops_node _ _ _ _ _ _ n nd Hd1 (not_elem_of_nil _) Hn) as (nd1 & Hn1 & HS). pose proof HS as (_ & Hnw & _).
  assert (tables w0 !! n = Some (n_arp_table (n_nw nd))) as Htab by (apply tables_lookup; by exists nd).
  mstep. apply (wp_destroy_node_nw_prop n nd1); [done|rewrite Hnw; by eapply (aw_nodup _ _ Ha)| |].
  { rewrite Hnw. intros e He. rewrite (dr_arps _ _ _ _ _ _ Hd1). rewrite decide_False by apply not_elem_of_nil. by eapply (aw_table _ _ Ha). }
  rewrite Hnw. intros m nd2 Hm. eapply wp_dealloc; [apply lookup_insert_eq|].
  set (w2 := hset _ _).
  assert (drops I L [n] (n_arp_table (n_nw nd)) w0 w2) as Hd2.
  { destruct Hd1 as [D1 D2 D3 D4 D5 D6 D7 D8 D9]. split; try done.
    - by apply (without_app [] _ _ _ _ D3).
    - intros k ->%list_elem_of_singleton. cbn. apply lookup_delete_eq.
    - intros k Hk. cbn. rewrite lookup_delete_ne, lookup_insert_ne by set_solver. apply D5, not_elem_of_nil. }
  apply (HQ I L); [done|done|done| |].
  - apply (graph_wf_same _ (set_nodes (delete n (w_nodes w1)) w1)).
    + split; try done. cbn. by rewrite delete_insert_eq.
    + apply (graph_wf_delete_node n nd1); [done|done|]. rewrite (dr_graphs _ _ _ _ _ _ Hd1).
      intros g gr. apply (unlinked_gone _ w). done.
  - eapply (arp_wf_drops _ _ _ _ w0); [done|exact Hd2|]. intros k l e Hk Hl He He'.
    apply Hk, list_elem_of_singleton. exact (aw_disj _ _ Ha k n l (n_arp_table (n_nw nd)) e Hl Htab He He').
Qed.

Lemma wp_destroy_nodes ns w Q :
  NoDup ns → graph_wf [] w → arp_wf (tables w) (w_arps w) →
  (∀ n, n ∈ ns → ∃ nd, w_nodes w !! n = Some nd ∧ taps_last (w_intfs w) (n_intfs nd) = true) →
  (∀ w', demolished ns w w' → Q tt w') → wp (destroy_nodes ns) Q E w.
Proof.
  revert w Q. induction ns as [|n ns IH]; intros w Q Hnd Hg Ha Hns HQ; cbn [destroy_nodes].
  { mstep. apply HQ. split; try done; [|eauto]. exists [], [], []. split_and!; [|set_solver|set_solver|].
    - replace (set_graphs (w_graphs w) w) with w by by destruct w. apply drops_refl.
    - intros e. split; [set_solver|]. intros (? & ? & ? & _). set_solver. }
  apply NoDup_cons in Hnd as [Hn Hnd]. destruct (Hns n) as (nd & Hnw & Ht); [set_solver|].
  mstep. apply (wp_destroy_node n nd); [done..|]. intros I1 L1 w1 Hd1 HI1 HL1 Hg1 Ha1.
  pose proof (dr_graphs _ _ _ _ _ _ Hd1) as Eg1. cbn [w_graphs set_graphs] in Eg1.
  apply IH; [done..| |].
  { intros m Hm. destruct (Hns m) as (md & Hmw & Htm); [set_solver|].
    destruct (drops_node _ _ _ _ _ _ m md Hd1 ltac:(set_solver) Hmw) as (md1 & Hm1 & _ & _ & HS).
    exists md1. split; [done|]. eapply taps_last_off; [apply (dr_intfs _ _ _ _ _ _ Hd1)|exact HS|done]. }
  intros w2 [(I2 & L2 & A2 & Hd2 & HI2 & HL2 & HA2) Hgr2 Hno2 Hg2 Ha2]. apply HQ. split; try done.
  - pose proof (drops_set_graphs _ _ _ _ _ _ (w_graphs w2) Hd1) as Hd1'.
    exists (I1 ++ I2), (L1 ++ L2), (n_arp_table (n_nw nd) ++ A2). split_and!.
    + exact (drops_trans _ _ _ _ _ _ _ _ _ _ _ Hd1' Hd2).
    + intros i [Hi|Hi]%elem_of_app; [eapply doomed_mono, HI1, Hi; set_solver|].
      eapply doomed_mono, (doomed_drops ns _ _ _ _ _ _ _ Hd1), HI2, Hi; set_solver.
    + intros l [Hl|Hl]%elem_of_app; [eapply doomed_link_mono, HL1, Hl; set_solver|].
      eapply doomed_link_mono, (doomed_link_drops ns _ _ _ _ _ _ _ Hd1), HL2, Hl; set_solver.
    + assert (∀ m l, m ≠ n → tables w1 !! m = Some l ↔ tables w !! m = Some l) as Htab.
      { intros m l Hm. rewrite !tables_lookup. split.
        - intros (md1 & Hm1 & <-). destruct (drops_node_inv _ _ _ _ _ _ _ _ Hd1 Hm1) as (_ & md & ? & _ & Enw & _).
          exists md. by rewrite Enw.
        - intros (md & Hmw & <-). destruct (drops_node _ _ _ _ _ _ m md Hd1 ltac:(set_solver) Hmw) as (md1 & ? & _ & Enw & _).
          exists md1. by rewrite Enw. }
      assert (tables w !! n = Some (n_arp_table (n_nw nd))) as Htn by (apply tables_lookup; by exists nd).
      intros e. rewrite elem_of_app, HA2. unfold arps_of. split.
      * intros [He|(m & l & Hm & Hl & He)]; [exists n; eauto using list_elem_of_here|].
        exists m, l. split_and!; [set_solver|apply Htab; [set_solver|done]|done].
      * intros (m & l & [->|Hm]%elem_of_cons & Hl & He); [left; congruence|right].
        exists m, l. split_and!; [done|apply Htab; [set_solver|done]|done].
  - intros g gr Hgr. pose proof (Hgr2 g) as Hgr'. rewrite Eg1 in Hgr'.
    destruct (decide (n ∈ g_nodes gr)) as [Hin|Hnin].
    + destruct (Hgr' (mk_graph (g_name gr) (list_remove n (g_nodes gr)))) as (gr' & ? & _).
      { unfold unlinked. by rewrite lookup_fmap, Hgr. }
      exists gr'. split; [done|]. intros Hno. destruct (Hno n); [set_solver|done].
    + destruct (Hgr' gr) as (gr' & ? & Hsame); [by apply unlinked_other|].
      exists gr'. split; [done|]. intros Hno. apply Hsame. set_solver.
  - intros g Hgr. apply Hno2. rewrite Eg1. unfold unlinked. by rewrite lookup_fmap, Hgr.
Qed.

(** What is left when the graph [g], with the nodes [G], is gone. *)
Record razed (g : ptr) (G : list ptr) (w w' : world) : Prop := {
  rz_graphs : w_graphs w' = delete g (w_graphs w);
  rz_dead n : n ∈ G → w_nodes w' !! n = None;
  rz_nodes n nd : n ∉ G → w_nodes w !! n = Some nd → ∃ nd', w_nodes w' !! n = Some nd' ∧ n_nw nd' = n_nw nd;
  rz_intfs i it : w_intfs w' !! i = Some it ↔ w_intfs w !! i = Some it ∧ ¬ doomed G w i;
  rz_links l lk : w_links w' !! l = Some lk ↔ w_links w !! l = Some lk ∧ ¬ doomed_link G w l;
  rz_arps e en : w_arps w' !! e = Some en ↔ w_arps w !! e = Some en ∧ ¬ arps_of G w e;
  rz_comm fd i : w_fd_to_comm w' !! fd = Some i → fd ≠ 0 → is_Some (w_intfs w' !! i);
  rz_wf : graph_wf [] w';
}.

(** The interfaces and links that are left do not touch the nodes that are gone. *)
Lemma razed_exact G I L A w w' gs :
  graph_wf [] w → graph_wf [] w' → drops I L G A (set_graphs gs w) w' →
  (∀ i, i ∈ I → doomed G w i) → (∀ l, l ∈ L → doomed_link G w l) →
  (∀ i it, w_intfs w' !! i = Some it ↔ w_intfs w !! i = Some it ∧ ¬ doomed G w i) ∧
  (∀ l lk, w_links w' !! l = Some lk ↔ w_links w !! l = Some lk ∧ ¬ doomed_link G w l).
Proof.
  intros Hg Hg' Hd HI HL.
  assert (∀ i it, w_intfs w' !! i = Some it → if_node it ∉ G) as Hhome.
  { intros i it Hi HG. destruct (gw_home _ _ Hg' _ _ Hi) as (nd & Hn & _); [set_solver|].
    by rewrite (dr_dead _ _ _ _ _ _ Hd) in Hn. }
  assert (∀ l lk j jt, w_links w' !! l = Some lk → w_intfs w !! j = Some jt → if_link jt = Some l → if_node jt ∉ G) as Hpeer.
  { intros l lk j jt Hl Hj Ej.
    pose proof (gw_end _ _ Hg _ _ Hj ltac:(set_solver)) as [_ (lk' & Hl' & He)]%(end_ok_link _ _ _ _ Ej).
    assert (lk' = lk) as -> by (apply (without_Some _ _ _ _ _ (dr_links _ _ _ _ _ _ Hd)) in Hl as [Hl _]; cbn in Hl; congruence).
    destruct (proj2 (gw_link _ _ Hg' _ _ Hl) _ He) as (jt' & Hj' & _). apply (Hhome j).
    pose proof Hj' as [Hj2 _]%(without_Some _ _ _ _ _ (dr_intfs _ _ _ _ _ _ Hd)). cbn in Hj2. congruence. }
  split.
  - intros i it. split.
    + intros Hi. split; [by apply (without_Some _ _ _ _ _ (dr_intfs _ _ _ _ _ _ Hd)) in Hi as [? _]|].
      intros (it' & Hi' & HG).
      assert (it' = it) as -> by (apply (without_Some _ _ _ _ _ (dr_intfs _ _ _ _ _ _ Hd)) in Hi as [Hi _]; cbn in Hi; congruence).
      destruct HG as [HG|(l & j & jt & El & Hj & Ej & HG)]; [by eapply Hhome|].
      pose proof (gw_end _ _ Hg' _ _ Hi ltac:(set_solver)) as [_ (lk & Hl & _)]%(end_ok_link _ _ _ _ El). exact (Hpeer l lk j jt Hl Hj Ej HG).
    + intros [Hi Hno]. apply (without_Some _ _ _ _ _ (dr_intfs _ _ _ _ _ _ Hd)). split; [done|]. intros Hin. by apply Hno, HI.
  - intros l lk. split.
    + intros Hl. split; [by apply (without_Some _ _ _ _ _ (dr_links _ _ _ _ _ _ Hd)) in Hl as [? _]|].
      intros (j & jt & Hj & Ej & HG). exact (Hpeer l lk j jt Hl Hj Ej HG).
    + intros [Hl Hno]. apply (without_Some _ _ _ _ _ (dr_links _ _ _ _ _ _ Hd)). split; [done|]. intros Hin. by apply Hno, HL.
Qed.

Lemma wp_destroy_graph g gr w Q :
  w_graphs w !! g = Some gr → graph_wf [] w → arp_wf (tables w) (w_arps w) →
  (∀ n nd, n ∈ g_nodes gr → w_nodes w !! n = Some nd → taps_last (w_intfs w) (n_intfs nd) = true) →
  (∀ w', razed g (g_nodes gr) w w' → Q tt w') → wp (destroy_graph g) Q E w.
Proof.
  intros Hgr Hg Ha Ht HQ. destruct (gw_graph _ _ Hg _ _ Hgr) as [Hnd Hlive].
  unfold destroy_graph. mstep. apply (wp_load _ gr); [done|]. mstep. apply wp_destroy_nodes; [done..| |].
  { intros n Hn. destruct (Hlive n Hn) as [nd Hnn]. exists nd. split; [done|]. by eapply Ht. }
  intros w1 [(I & L & A & Hd & HI & HL & HA) Hgr1 Hno1 Hg1 Ha1].
  destruct (Hgr1 g gr Hgr) as (gr1 & Hg1r & _). apply (wp_dealloc _ gr1); [done|]. apply HQ.
  destruct (razed_exact _ _ _ _ _ _ _ Hg Hg1 Hd HI HL) as [Hintfs Hlinks].
  split; cbn [hset hget heap_graphs w_graphs w_nodes w_intfs w_links w_arps w_fd_to_comm set_graphs]; try done.
  - apply map_eq. intros g'. rewrite !lookup_delete. case_decide as Hgg; [done|].
    destruct (w_graphs w !! g') as [gr'|] eqn:E'; [|by apply Hno1].
    destruct (Hgr1 g' gr' E') as (gr2 & -> & Hsame). rewrite Hsame; [done|].
    intros n Hn Hn'. apply Hgg. by eapply (gw_disj _ _ Hg).
  - apply (dr_dead _ _ _ _ _ _ Hd).
  - intros n nd Hn Hnn. destruct (drops_node _ _ _ _ _ _ n nd Hd Hn Hnn) as (nd' & ? & _ & ? & _). by exists nd'.
  - intros e en. rewrite (without_Some _ _ _ _ _ (dr_arps _ _ _ _ _ _ Hd)), HA. done.
  - intros fd i Hfd Hne. destruct (gw_comm _ _ Hg1 _ _ Hfd Hne) as (_ & _ & it & ? & _). by exists it.
  - destruct Hg1. split; try done; cbn.
    + intros g' gr' [_ ?]%lookup_delete_Some. eauto.
    + intros g1 g2 gr2 gr3 n [_ ?]%lookup_delete_Some [_ ?]%lookup_delete_Some. eauto.
Qed.
End Destroy.
