(* ===== verification/Reach.v ===== *)
(** * Everything an application and the network can do

    The calls of the interface of the library and the reception of frames are
    the steps of a transition system; every state it reaches is well formed,
    and a step that does not return stops for one of the reasons that [allowed]
    gives for it, never for a freed object, an access outside a block or an
    undefined shift. *)
From S2P Require Import Prelude Cmonad Utils Skbuff World Topology Comm Ethernet Arp Route Ip.
From S2P Require Import Icmp Udp Tcp Stack Net Graph Scenario Invariant SkbRules LinkSafe ArpSafe.
From S2P Require Import IpSafe ProtoSafe TcpSafe StackSafe RecvSafe ApiSafe TcpApiSafe GraphInv Frame GraphSafe.
#[local] Open Scope Z_scope.

Inductive call :=
  | CreateGraph (name : list Z)
  | CreateNode (g : ptr) (name : list Z)
  | InsertLink (n1 n2 : ptr) (name1 name2 : list Z) (cost : Z)
  | InsertTuntap (n : ptr) (name : list Z)
  | SetIntfIp (n : ptr) (name ip : list Z) (mask : Z)
  | SetLoopback (n : ptr) (ip : list Z)
  | AddRoute (n : ptr) (dst mask next : Z) (i : ptr)
  | SetForward (val : bool)
  | SetCallbacks (send receive : bool)
  | Ping (n : ptr) (ip : list Z)
  | UdpSocket (n : ptr)
  | UdpBind (fd ip port : Z)
  | UdpSendto (fd : Z) (buff : list Z) (ip port : Z)
  | UdpRecvfrom (fd size : Z) (ip port : bool)
  | UdpClose (fd : Z)
  | TcpSocket (n : ptr)
  | TcpBind (fd ip port : Z)
  | TcpListen (fd : Z)
  | TcpAccept (fd : Z)
  | TcpRecv (fd size : Z)
  | TcpSend (fd : Z) (buff : list Z)
  | TcpClose (fd : Z)
  | Receive (fd : Z) (r : received).

Section Reach.
Context `{Os}.

Definition run_call (c : call) : W unit :=
  match c with
  | CreateGraph name => create_new_graph name ;;; ret tt
  | CreateNode g name => create_graph_node g name ;;; ret tt
  | InsertLink n1 n2 name1 name2 cost => insert_link_between_two_nodes n1 n2 name1 name2 cost
  | InsertTuntap n name => insert_tuntap_interface n name
  | SetIntfIp n name ip mask => node_set_intf_ip_addr n name ip mask ;;; ret tt
  | SetLoopback n ip => node_set_loopback_address n ip ;;; ret tt
  | AddRoute n dst mask next i => rt_table_add_route n dst mask next i
  | SetForward val => set_ip_forward val
  | SetCallbacks s r => set_send_callback_ s ;;; set_receive_callback_ r
  | Ping n ip => ping n ip ;;; ret tt
  | UdpSocket n => udp_socket n ;;; ret tt
  | UdpBind fd ip port => udp_bind fd ip port ;;; ret tt
  | UdpSendto fd buff ip port => udp_sendto fd buff ip port ;;; ret tt
  | UdpRecvfrom fd size ip port => udp_recvfrom fd size ip port ;;; ret tt
  | UdpClose fd => udp_close fd ;;; ret tt
  | TcpSocket n => tcp_socket n ;;; ret tt
  | TcpBind fd ip port => tcp_bind fd ip port ;;; ret tt
  | TcpListen fd => tcp_listen fd ;;; ret tt
  | TcpAccept fd => tcp_accept fd ;;; ret tt
  | TcpRecv fd size => tcp_recv fd size ;;; ret tt
  | TcpSend fd buff => tcp_send fd buff ;;; ret tt
  | TcpClose fd => tcp_close fd ;;; ret tt
  | Receive fd r => recv_one fd r
  end.

(** The arguments point to live objects, lengths are not negative, masks are in
    the range in which [(1 << mask) - 1] is defined, the system calls return
    bytes, and a TCP socket is closed after its connections are gone. *)
Definition call_ok (w : world) (c : call) : Prop :=
  match c with
  | CreateNode g _ => is_Some (w_graphs w !! g)
  | InsertLink n1 n2 _ _ _ => is_Some (w_nodes w !! n1) ∧ is_Some (w_nodes w !! n2)
  | InsertTuntap n _ | SetLoopback n _ | Ping n _ | UdpSocket n | TcpSocket n =>
      is_Some (w_nodes w !! n)
  | SetIntfIp n _ _ mask => is_Some (w_nodes w !! n) ∧ 0 <= mask <= 30
  | AddRoute n _ mask _ i => is_Some (w_nodes w !! n) ∧ is_Some (w_intfs w !! i) ∧ 0 <= mask <= 30
  | UdpSendto _ buff _ _ | TcpSend _ buff => Forall is_u8 buff
  | UdpRecvfrom _ size _ _ | TcpRecv _ size => 0 <= size
  | TcpClose fd => no_connections fd w
  | Receive _ r => received_ok r
  | _ => True
  end.

(** The ways in which a call can stop the program: no slot left for another
    interface, or no port the system accepts; for calls that handle packets, an
    assertion on the size of a packet, or the [ip_hdr] of a packet that the
    node sent to itself. *)
Definition allowed (c : call) (f : fault) : Prop :=
  match c with
  | InsertLink _ _ _ _ _ | InsertTuntap _ _ => f = AssertFail ∨ f = OutOfFuel
  | Ping _ _ | UdpSendto _ _ _ _ | TcpSend _ _ | Receive _ _ => f = AssertFail ∨ f = NullDeref
  | UdpRecvfrom _ _ true _ => f = NullDeref
  | _ => False
  end.

Inductive reachable : world → Prop :=
  | reachable_init : reachable init_world
  | reachable_call w c w' :
      reachable w → call_ok w c → run_call c w = Ok (tt, w') → reachable w'.

Lemma wf_init : wf init_world.
Proof.
  split_and!.
  - split; intros *; unfold topo; cbn; rewrite ?fmap_empty, ?lookup_empty; done.
  - split; intros *; unfold tables; cbn; rewrite ?fmap_empty, ?lookup_empty; done.
  - split; intros *; unfold topo; cbn; rewrite ?lookup_empty; try done.
    + intros Hj%list_elem_of_lookup_2. set_solver.
    + intros Hj%list_elem_of_lookup_2. set_solver.
  - split; intros *; unfold topo; cbn; rewrite ?lookup_empty; try done.
    + intros Hj%list_elem_of_lookup_2. set_solver.
    + intros Hj%list_elem_of_lookup_2. set_solver.
    + intros Hj%list_elem_of_lookup_2. set_solver.
  - assert (∀ q, queue_of init_world q = []) as HQ by by intros [].
    split; intros *; rewrite ?HQ; [constructor|set_solver..].
  - unfold fresh_wf, unused. cbn. split_and!; intros; apply lookup_empty.
Qed.

#[local] Ltac allowed_fault :=
  solve [done | by left | by right | intros; by left | intros; by split; [right|left]].

Lemma wp_run_call c w :
  wf w → call_ok w c → wp (run_call c) (λ _ w', wf w') (allowed c) w.
Proof.
  intros Hw Hok. destruct c; cbn [run_call call_ok allowed] in *;
    rewrite <- ?topo_is_Some in Hok; try mstep.
  - eapply wp_post; [by apply wp_create_new_graph|]. intros g w' (? & _). by mstep.
  - eapply wp_post; [by apply wp_create_graph_node|]. intros n w' (? & _). by mstep.
  - destruct Hok as [G1 G2].
    eapply wp_post; [apply wp_insert_link; allowed_fault|]. by intros _ w' [? _].
  - eapply wp_post; [apply wp_insert_tuntap_interface; allowed_fault|]. by intros _ w' [? _].
  - destruct Hok as [G1 G2].
    eapply wp_post; [by apply wp_node_set_intf_ip_addr|]. intros. by mstep.
  - eapply wp_post; [by apply wp_node_set_loopback_address|]. intros. by mstep.
  - destruct Hok as (G1 & G2 & G3). by apply wp_rt_table_add_route.
  - done.
  - done.
  - eapply wp_post; [exact (wp_ping _ 1 n ip w Hw Hok (or_intror eq_refl) (or_introl eq_refl))|].
    intros ? ? [? _]. by mstep.
  - eapply wp_post; [by apply wp_udp_socket|]. intros. by mstep.
  - eapply wp_post; [by apply wp_udp_bind|]. intros. by mstep.
  - eapply wp_post; [exact (wp_udp_sendto _ 1 fd buff ip port w Hw Hok (or_intror eq_refl) (or_introl eq_refl))|].
    intros ? ? [? _]. by mstep.
  - eapply wp_post; [apply wp_udp_recvfrom; [done|done|by intros ->]|]. intros. by mstep.
  - eapply wp_post; [by apply wp_udp_close|]. intros. by mstep.
  - eapply wp_post; [by apply wp_tcp_socket|]. intros. by mstep.
  - eapply wp_post; [by apply wp_tcp_bind|]. intros. by mstep.
  - eapply wp_post; [by apply wp_tcp_listen|]. intros. by mstep.
  - eapply wp_post; [by apply wp_tcp_accept|]. intros. by mstep.
  - eapply wp_post; [by apply wp_tcp_recv|]. intros. by mstep.
  - eapply wp_post; [exact (wp_tcp_send _ 1 fd buff w Hw Hok (or_intror eq_refl) (or_introl eq_refl))|].
    intros ? ? [? _]. by mstep.
  - eapply wp_post; [by apply wp_tcp_close|]. intros. by mstep.
  - eapply wp_post; [apply wp_recv_one; allowed_fault|]. by intros ? ? [? _].
Qed.

Lemma reachable_wf w : reachable w → wf w.
Proof.
  induction 1 as [|w c w' _ IH Hok Hrun]; [apply wf_init|].
  pose proof (wp_run_call c w IH Hok) as Hwp. unfold wp in Hwp. by rewrite Hrun in Hwp.
Qed.

(** Calls change the topology as the construction functions do, keep it as the
    socket functions do, or leave what packets leave. *)
Lemma wp_run_call_kept (R : relation world) `{!KeepsTopology R} c w :
  wf w → call_ok w c → (∀ X w w', evolves X w w' → R w w') →
  match c with CreateGraph _ | CreateNode _ _ | InsertLink _ _ _ _ _ | InsertTuntap _ _ => False | _ => True end →
  wp (run_call c) (λ _ w', R w w') (λ _, True) w.
Proof.
  intros Hw Hok HR Hc. pose proof I as HI.
  assert (∀ A (m : W A), keeps R m → wp (m ;;; ret tt) (λ _ w', R w w') (λ _, True) w) as Hkeeps.
  { intros A m Hm. apply wp_bind, (wp_keeps R); [done|]. intros _ w' Hs. by apply wp_ret. }
  assert (∀ A (m : W A), wp m (λ _ w', wf w' ∧ evolves None w w') (λ _, True) w →
            wp m (λ _ w', R w w') (λ _, True) w) as Hev.
  { intros A m Hm. eapply wp_post; [exact Hm|]. intros _ w' [_ Hs]. by eapply HR. }
  destruct c; cbn [run_call call_ok] in *; rewrite <- ?topo_is_Some in Hok;
    try done; try (apply Hkeeps; auto with keeps; fail).
  - apply kept_add_route. exact _.
  - apply kept_ip_forward. exact _.
  - apply kept_callbacks. exact _.
  - mstep. eapply wp_post; [exact (Hev _ _ (wp_ping _ 1 n ip w Hw Hok HI HI))|done].
  - mstep. eapply wp_post; [exact (Hev _ _ (wp_udp_sendto _ 1 fd buff ip port w Hw Hok HI HI))|done].
  - mstep. eapply wp_post; [exact (Hev _ _ (wp_tcp_send _ 1 fd buff w Hw Hok HI HI))|done].
  - apply Hev, wp_recv_one; done.
Qed.

(** Every call keeps the interfaces of ARP entries alive, and the graph in shape. *)
Lemma wp_run_call_arps c w :
  wf w → call_ok w c → wp (run_call c) (λ _ w', arps_kept w w') (λ _, True) w.
Proof.
  intros Hw Hok. destruct c; try (apply wp_run_call_kept; [exact _|done|done|apply arps_kept_evolves|exact I]).
  - apply (keeps_bind arps_kept); [apply arps_kept_new_graph|intros ?; apply keeps_ret; exact _].
  - apply (keeps_bind arps_kept); [apply arps_kept_new_node|intros ?; apply keeps_ret; exact _].
  - apply arps_kept_link.
  - apply arps_kept_tuntap.
Qed.

Lemma wp_run_call_graph c w :
  wf w → call_ok w c → graph_wf [] w → wp (run_call c) (λ _ w', graph_wf [] w') (λ _, True) w.
Proof.
  intros Hw Hok Hg. pose proof (wp_run_call_kept same_graph c w Hw Hok evolves_same_graph) as Hsame.
  destruct c; try (eapply wp_post; [exact (Hsame I)|intros a w' Hs; exact (graph_wf_same _ _ _ Hs Hg)]; fail);
    cbn [run_call call_ok] in *; rewrite <- ?topo_is_Some in Hok.
  - mstep. eapply wp_post; [by apply wp_create_new_graph|]. intros ? w' (_ & _ & ?). mstep. auto.
  - mstep. eapply wp_post; [by apply wp_create_graph_node|]. intros ? w' (_ & _ & _ & ?). mstep. auto.
  - destruct Hok. eapply wp_post; [by apply wp_insert_link|]. intros _ w' (_ & ? & _). auto.
  - eapply wp_post; [by apply wp_insert_tuntap_interface|]. intros _ w' (_ & ? & _). auto.
Qed.

Lemma reachable_graph_wf w : reachable w → graph_wf [] w ∧ arps_live w.
Proof.
  induction 1 as [|w c w' Hr [Hg Ha] Hok Hrun].
  { split; [apply graph_wf_init_world|]. intros e en. cbn. by rewrite lookup_empty. }
  pose proof (wp_run_call_graph c w (reachable_wf _ Hr) Hok Hg) as Hg'.
  pose proof (wp_run_call_arps c w (reachable_wf _ Hr) Hok) as Ha'. unfold wp in Hg', Ha'. rewrite Hrun in Hg', Ha'. auto.
Qed.

(** A sequence of calls from the initial state. *)
Fixpoint run_calls (cs : list call) : W unit :=
  match cs with
  | [] => ret tt
  | c :: cs => run_call c ;;; run_calls cs
  end.

(** C1. In every state that calls of the interface of the library and received frames can
    reach, every further call with admissible arguments leaves a well-formed state or stops
    for one of the reasons listed for that call: no freed object is used, no access leaves
    its block, no shift is undefined. *)
Theorem reachable_calls_safe w c :
  reachable w → call_ok w c →
  wf w ∧ match run_call c w with
         | Ok (_, w') => wf w'
         | Err f => allowed c f
         end.
Proof.
  intros Hr Hok. pose proof (reachable_wf w Hr) as Hw. split; [done|].
  pose proof (wp_run_call c w Hw Hok) as Hwp. unfold wp in Hwp.
  by destruct (run_call c w) as [[[] w']|f].
Qed.

(** ** The receiving loop *)

Lemma own_source_evolves w w' fd r :
  evolves None w w' → own_source w' fd r → own_source w fd r.
Proof.
  intros He (b & i & it & src & -> & Hfd & Hit & Hrd & Hl).
  exists b, i, it, src. rewrite (ev_cm _ _ _ He) in Hfd. rewrite (ev_intfs _ _ _ He) in Hit.
  split_and!; try done. by eapply evolves_local.
Qed.

Lemma wp_recv_events (E : fault → Prop) evs w :
  wf w → Forall (λ '(fd, r), received_ok r ∧ (short_frame r → E AssertFail) ∧
                   (own_source w fd r → E NullDeref ∧ E AssertFail)) evs →
  wp (recv_events evs) (λ _ w', wf w' ∧ evolves None w w') E w.
Proof.
  revert w. induction evs as [|[fd r] evs IH]; intros w Hw Hevs; cbn [recv_events].
  { mstep. auto with cprog. }
  apply Forall_cons in Hevs as [(Hr & Hs & Ho) Hrest].
  mstep. eapply wp_mono; [by apply wp_recv_one| |done]. cbv beta. intros _ w1 [Hw1 He1].
  eapply wp_mono; [apply IH; [done|]| |done].
  - eapply Forall_impl; [exact Hrest|]. intros [fd' r'] (? & ? & Ho'). split_and!; [done..|].
    intros Hown. apply Ho'. by eapply own_source_evolves.
  - cbv beta. intros _ w2 [? ?]. split; [done|]. by eapply evolves_trans.
Qed.

(** What [epoll_wait] reports in a round. *)
Definition round_events (r : round) : list (Z * received) :=
  match r with EpollFails => [] | EpollEvents events => events end.

Lemma wp_recv_rounds (E : fault → Prop) rounds w :
  wf w → Forall (λ '(fd, r), received_ok r ∧ (short_frame r → E AssertFail) ∧
                   (own_source w fd r → E NullDeref ∧ E AssertFail)) (rounds ≫= round_events) →
  wp (recv_rounds rounds) (λ _ w', wf w' ∧ evolves None w w') E w.
Proof.
  revert w. induction rounds as [|r rounds IH]; intros w Hw Hevs; cbn [recv_rounds].
  { mstep. auto with cprog. }
  cbn [mbind list_bind] in Hevs. apply Forall_app in Hevs as [Hr Hrest]. mstep.
  assert (wp (recv_round r) (λ _ w', wf w' ∧ evolves None w w') E w) as Hround.
  { destruct r as [|evs]; [|by apply wp_recv_events].
    unfold recv_round. apply wp_print. split; [by apply wf_trace|apply evolves_trace]. }
  eapply wp_mono; [exact Hround| |done]. cbv beta. intros _ w1 [Hw1 He1].
  eapply wp_mono; [apply IH; [done|]| |done].
  - eapply Forall_impl; [exact Hrest|]. intros [fd' r'] (? & ? & Ho'). split_and!; [done..|].
    intros Hown. apply Ho'. by eapply own_source_evolves.
  - cbv beta. intros _ w2 [? ?]. split; [done|]. by eapply evolves_trans.
Qed.

(** The calls of [epoll_create1] and [epoll_ctl] succeed. *)
Definition epoll_works : Prop :=
  ∀ h, os_epoll_create h ≠ -1 ∧ ∀ e fd, os_epoll_add h e fd ≠ -1.

(** Setting up the thread only leaves events in the history. *)
Lemma wp_register_comms (E : fault → Prop) e fds Q w :
  E ExitFailure ∨ epoll_works → (∀ t, Q tt (set_trace (w_trace w ++ t) w)) → wp (register_comms e fds) Q E w.
Proof.
  intros HE. revert w. induction fds as [|fd fds IH]; intros w HQ; cbn [register_comms].
  { mstep. specialize (HQ []). rewrite app_nil_r in HQ. by destruct w. }
  mstep. mstep. destruct (_ !! fd); [|by apply IH]. unfold sys_epoll_add.
  mstep. mstep. mstep. mstep. apply wp_emit. mstep.
  destruct (Z.eqb_spec (os_epoll_add (w_trace w) e fd) (-1)) as [Hf|_].
  { apply wp_raise. destruct HE as [?|Hok]; [done|]. destruct (Hok (w_trace w)) as [_ Hadd]. by destruct (Hadd e fd). }
  apply IH. intros t. cbn [w_trace set_trace]. rewrite <- app_assoc. apply HQ.
Qed.

Lemma wp_recv_setup (E : fault → Prop) Q w :
  E ExitFailure ∨ epoll_works → (∀ t, Q tt (set_trace (w_trace w ++ t) w)) → wp recv_setup Q E w.
Proof.
  intros HE HQ. unfold recv_setup, sys_epoll_create. mstep. mstep. mstep. mstep. apply wp_emit. mstep.
  destruct (Z.eqb_spec (os_epoll_create (w_trace w)) (-1)) as [Hf|_].
  { apply wp_raise. destruct HE as [?|Hok]; [done|]. by destruct (Hok (w_trace w)). }
  apply wp_register_comms; [done|]. intros t. cbn [w_trace set_trace]. rewrite <- app_assoc. apply HQ.
Qed.

Lemma wp_recv_task (E : fault → Prop) rounds w :
  wf w → E ExitFailure ∨ epoll_works →
  Forall (λ '(fd, r), received_ok r ∧ (short_frame r → E AssertFail) ∧
            (own_source w fd r → E NullDeref ∧ E AssertFail)) (rounds ≫= round_events) →
  wp (recv_task rounds) (λ _ w', wf w' ∧ evolves None w w') E w.
Proof.
  intros Hw HE Hevs. unfold recv_task. mstep. apply wp_recv_setup; [done|]. intros t.
  eapply wp_post; [apply wp_recv_rounds; [by apply wf_trace|exact Hevs]|].
  cbv beta. intros _ w' [? ?]. split; [done|]. eapply evolves_trans; [apply evolves_trace|done].
Qed.

(** C2. Whatever rounds of epoll_wait the receiving thread sees, with any frames and errors
    on any descriptors, it ends in a well-formed state with the same topology, or stops at
    an assertion, a NULL pointer or a failing epoll call, never at a freed object, an access
    outside a block or an undefined shift. *)
Theorem recv_task_memory_safe rounds w :
  wf w → Forall (λ '(_, r), received_ok r) (rounds ≫= round_events) →
  match recv_task rounds w with
  | Ok (_, w') => wf w' ∧ evolves None w w'
  | Err f => f = AssertFail ∨ f = NullDeref ∨ f = ExitFailure
  end.
Proof.
  intros Hw Hevs.
  assert (wp (recv_task rounds) (λ _ w', wf w' ∧ evolves None w w')
            (λ f, f = AssertFail ∨ f = NullDeref ∨ f = ExitFailure) w) as Hwp.
  { apply wp_recv_task; [done|by auto|]. eapply Forall_impl; [exact Hevs|]. intros [fd r] ?. tauto. }
  unfold wp in Hwp. by destruct (recv_task rounds w) as [[[] w']|f].
Qed.

(** C3. When the epoll calls succeed, frames of at least 54 bytes whose IP source address is
    not an address of the receiving node never stop the receiving thread. *)
Theorem recv_task_never_crashes rounds w :
  wf w → epoll_works →
  Forall (λ '(fd, r), received_ok r ∧ ¬ short_frame r ∧ ¬ own_source w fd r) (rounds ≫= round_events) →
  ∃ w', recv_task rounds w = Ok (tt, w') ∧ wf w' ∧ evolves None w w'.
Proof.
  intros Hw HE Hevs. apply (wp_ok_tt (recv_task rounds) (λ w', wf w' ∧ evolves None w w')).
  apply wp_recv_task; [done|by right|]. eapply Forall_impl; [exact Hevs|]. by intros [fd r] (? & ? & ?).
Qed.
End Reach.
