(* ===== verification/Wire.v ===== *)
(** * What is put on the wire: frames and ARP messages, byte by byte

    [sends w fr w'] says that a computation sent the frames [fr] and did nothing
    else to the state.  The lemmas of this file give the exact frames of
    ethernet.c and arp.c. *)
From S2P Require Import Prelude Cmonad Utils Skbuff World Topology Comm Ethernet Arp Route Ip.
From S2P Require Import Packet.
#[local] Open Scope Z_scope.

(** ** Byte order *)

Definition be16 (v : Z) : list Z := [v / 256; v mod 256].

Lemma le_encode_HTONS v : is_u16 v → le_encode 2 (HTONS v) = be16 v.
Proof.
  intros (a & b & Ha & Hb & ->)%u16_octets. rewrite HTONS_swap by done. unfold be16, is_u8 in *.
  cbn [le_encode]. f_equal; [|f_equal]; zdiv.
Qed.

Lemma le_decode_be16 v : is_u16 v → le_decode (be16 v) = HTONS v.
Proof.
  intros Hv. rewrite <- le_encode_HTONS, le_decode_encode by done.
  apply Z.mod_small. exact (HTONS_u16 v Hv).
Qed.

Lemma HTONS_eqb v v' : is_u16 v → is_u16 v' → (HTONS v =? HTONS v') = (v =? v').
Proof.
  intros Hv Hv'. destruct (Z.eqb_spec v v') as [->|Hne]; [apply Z.eqb_refl|].
  apply Z.eqb_neq. intros Heq. apply Hne. rewrite <- (HTONS_involutive v), <- (HTONS_involutive v') by done.
  by rewrite Heq.
Qed.

Lemma be16_bytes v : is_u16 v → Forall is_u8 (be16 v).
Proof. intros. unfold be16. repeat constructor; unfold is_u8, is_u16 in *; zdiv. Qed.

(** ** Lists of known length *)

Ltac explode l H :=
  repeat (let x := fresh "b" in destruct l as [|x l]; [discriminate H|]);
  destruct l; [|discriminate H].

(** ** Frames *)

Definition eth_frame (dst src : list Z) (proto : Z) (p : list Z) : list Z :=
  dst ++ src ++ be16 proto ++ p.

Lemma length_eth_frame dst src proto p :
  length dst = 6%nat → length src = 6%nat → length (eth_frame dst src proto p) = (14 + length p)%nat.
Proof. intros Hd Hs. unfold eth_frame, be16. rewrite !length_app. cbn [length]. lia. Qed.

(** Frames shorter than 60 bytes are extended with what follows in the buffer. *)
Definition eth_pad (f post : list Z) : list Z := f ++ take (60 - length f)%nat post.

Lemma splice_at {A} (a b c bs : list A) o :
  zlen a = o → length bs = length b → splice o bs (a ++ b ++ c) = a ++ bs ++ c.
Proof.
  intros <- Hl. unfold splice. rewrite Nat2Z.id, take_app_length, Hl. f_equal. f_equal.
  by rewrite app_assoc, drop_app, length_app, drop_ge, Nat.sub_diag, drop_0 by (rewrite length_app; lia).
Qed.

(** The three fields of the header, written one after the other. *)
Lemma eth_header_bytes junk p dst src proto :
  zlen junk = 14 → length dst = 6%nat → length src = 6%nat → is_u16 proto →
  splice 12 (le_encode 2 (HTONS proto)) (splice 6 src (splice 0 dst (junk ++ p))) =
  eth_frame dst src proto p.
Proof.
  intros Hj Hd Hs Hp. rewrite le_encode_HTONS by done. unfold eth_frame.
  rewrite <- (take_drop 6 junk) at 1. rewrite <- (take_drop 6 (drop 6 junk)) at 1.
  rewrite <- !app_assoc. rewrite drop_drop.
  assert (length (take 6 junk) = 6%nat) as E1 by (rewrite length_take; lia).
  assert (length (take 6 (drop 6 junk)) = 6%nat) as E2 by (rewrite length_take, length_drop; lia).
  rewrite splice_prefix by lia.
  rewrite (splice_at dst) by lia. rewrite app_assoc, (splice_at (dst ++ src)).
  - by rewrite <- app_assoc.
  - rewrite length_app. lia.
  - rewrite length_drop. unfold be16. cbn. lia.
Qed.

(** ** Links *)

(** The descriptor and the port a frame sent through the interface [i] of a link
    of the topology is handed to. *)
Definition wire (w : world) (i : ptr) : option (Z * Z) :=
  it ← w_intfs w !! i;
  l ← if_link it;
  lk ← w_links w !! l;
  jt ← w_intfs w !! (if bool_decide (i = l_intf1 lk) then l_intf2 lk else l_intf1 lk);
  match comm_op (if_comm it) with
  | Some udp_comm_ops =>
      if (comm_port (if_comm jt) =? 0) || (comm_fd (if_comm it) =? 0) then None
      else Some (comm_fd (if_comm it), comm_port (if_comm jt))
  | _ => None
  end.

(** The datagrams sent in a history, with their ports. *)
Definition sendtos (h : list event) : list (Z * list Z) :=
  omap (λ e, match e with ESendto _ port bytes _ => Some (port, bytes) | _ => None end) h.

Record sends (w : world) (fr : list (Z * list Z)) (w' : world) : Prop := {
  sends_world : ∃ t n, w' = set_trace (w_trace w ++ t) (set_next n w) ∧ sendtos t = fr;
  sends_next : (w_next w <= w_next w')%positive;
}.

Lemma sends_refl w : sends w [] w.
Proof. split; [|done]. exists [], (w_next w). split; [|done]. rewrite app_nil_r. by destruct w. Qed.

Lemma sends_trans w1 w2 w3 f1 f2 : sends w1 f1 w2 → sends w2 f2 w3 → sends w1 (f1 ++ f2) w3.
Proof.
  intros [(t1 & n1 & -> & <-) H1] [(t2 & n2 & -> & <-) H2]. split; [|cbn in *; lia].
  exists (t1 ++ t2), n2. split; [cbn; by rewrite app_assoc|]. unfold sendtos. by rewrite omap_app.
Qed.

Lemma sends_trace w fr t w' :
  sends w fr w' → sendtos t = [] → sends w fr (set_trace (w_trace w' ++ t) w').
Proof.
  intros [(t1 & n1 & -> & <-) H1] Ht. split; [|done].
  exists (t1 ++ t), n1. cbn. rewrite app_assoc. split; [done|].
  unfold sendtos in *. by rewrite omap_app, Ht, app_nil_r.
Qed.

Lemma sends_sendtos w fr w' : sends w fr w' → sendtos (w_trace w') = sendtos (w_trace w) ++ fr.
Proof. intros [(t & n & -> & <-) _]. cbn. unfold sendtos. by rewrite omap_app. Qed.

Section Wire.
Context `{Os} (E : fault → Prop).

Lemma wp_send_bytes_wire i bytes fd port Q w :
  wire w i = Some (fd, port) →
  (∀ r w', 0 <= r → sends w [(port, bytes)] w' → Q r w') →
  wp (send_bytes_out bytes i) Q E w.
Proof.
  intros Hwire HQ. unfold wire in Hwire.
  destruct (w_intfs w !! i) as [it|] eqn:Hi; [|done]. cbn in Hwire.
  destruct (if_link it) as [l|] eqn:Hl; [|done]. cbn in Hwire.
  destruct (w_links w !! l) as [lk|] eqn:Hlk; [|done]. cbn in Hwire.
  set (j := if bool_decide _ then _ else _) in Hwire.
  destruct (w_intfs w !! j) as [jt|] eqn:Hj; [|done]. cbn in Hwire.
  destruct (comm_op (if_comm it)) as [[]|] eqn:Hop; [|done..].
  destruct ((_ =? 0) || _) eqn:Hzero; simplify_eq.
  unfold send_bytes_out. mstep. mstep. mstep.
  set (w1 := if w_send_callback w then set_trace (w_trace w ++ [ESendCallback bytes i]) w else w).
  apply (wp_mono _ (λ _ w2, w2 = w1) _ E E); [by subst w1; destruct (w_send_callback w)|
    intros _ w2 ->|done].
  assert (∃ t, w1 = set_trace (w_trace w ++ t) w ∧ sendtos t = []) as (t & Ht & Hno).
  { subst w1. destruct (w_send_callback w); [by eexists|]. exists []. rewrite app_nil_r. by destruct w. }
  rewrite Ht. clearbody w1. clear Ht w1.
  mstep. apply (wp_load _ it); [done|]. mstep. rewrite Hop. mstep.
  unfold udp_send_bytes. mstep. apply (wp_load _ it); [done|].
  mstep. unfold get_nbr_if. mstep. apply (wp_load _ it); [done|]. rewrite Hl.
  mstep. apply (wp_load _ lk); [done|]. mstep.
  change (wp (let* jt := load j in
    if (comm_port (if_comm jt) =? 0) || (comm_fd (if_comm it) =? 0)
    then print SocketNotAvailable ;;; ret 0
    else let* nsent := sys_sendto (comm_fd (if_comm it)) (comm_port (if_comm jt)) bytes in
         if nsent <? 0 then print ErrorWhileSending ;;; ret 0 else ret 1) Q E
    (set_trace (w_trace w ++ t) w)).
  mstep. apply (wp_load _ jt); [done|]. rewrite Hzero.
  unfold sys_sendto. do 4 wstep. do 2 wstep.
  assert (∀ r t', sendtos t' = [] → sends w [(comm_port (if_comm jt), bytes)]
    (set_trace (((w_trace w ++ t) ++ [ESendto (comm_fd (if_comm it)) (comm_port (if_comm jt)) bytes r]) ++ t') w))
    as Hs.
  { intros r t' Ht'. split; [|done].
    exists (t ++ [ESendto (comm_fd (if_comm it)) (comm_port (if_comm jt)) bytes r] ++ t'), (w_next w).
    split; [by rewrite !app_assoc; destruct w|]. unfold sendtos in *.
    by rewrite !omap_app, Hno, Ht'. }
  case_match; wsteps; (apply HQ; [lia|]).
  - by apply Hs.
  - rewrite <- (app_nil_r (_ ++ [ESendto _ _ _ _])). by apply Hs.
Qed.

(** A packet that is sent is freed. *)
Lemma wp_send_pkt_wire i k s fd port Q w :
  wire w i = Some (fd, port) → w_skbs w !! k = Some s → skb_wf s →
  (∀ w', sends (set_skbs (delete k (w_skbs w)) w) [(port, skb_payload s)] w' → Q true w') →
  wp (send_pkt_out i k) Q E w.
Proof.
  intros Hwire Hk Hwf HQ. pose proof Hwf as []. unfold send_pkt_out, skb_bytes.
  do 2 mstep. apply (wp_load _ s); [done|]. rewrite rdn_ok by lia. do 2 mstep.
  eapply wp_send_bytes_wire; [done|]. intros r w' Hr [(t & n & -> & Ht) Hn]. mstep.
  destruct (Z.leb_spec 0 r); [|lia]. cbn [negb]. apply (wp_dealloc _ s); [done|]. mstep.
  apply HQ. split; [|done]. exists t, n. done.
Qed.

(** ethernet_output *)
Lemma wp_ethernet_output_wire i it mac proto k s m d p post fd port Q w :
  w_intfs w !! i = Some it → wire w i = Some (fd, port) →
  length (IF_MAC it) = 6%nat → Forall is_u8 (IF_MAC it) →
  length mac = 6%nat → Forall is_u8 mac → is_u16 proto →
  w_skbs w !! k = Some s → packet s m d p post → 14 <= d → 53 <= zlen p + zlen post →
  (∀ w', sends (set_skbs (delete k (w_skbs w)) w)
           [(port, eth_pad (eth_frame mac (IF_MAC it) proto p) post)] w' → Q true w') →
  wp (ethernet_output i mac proto k) Q E w.
Proof.
  intros Hi Hwire Hm1 Hm2 Hmac Hb Hproto Hk Hp Hd Hroom HQ. unfold ethernet_output.
  unfold ETH_HDR_SIZE, eth_dst_mac, eth_src_mac, eth_type.
  mstep. apply (wp_load _ it); [done|]. mstep. apply (wp_on_skb _ _ s); [done|].
  mstep. apply (packet_push _ _ _ _ _ Hp); [lia|]. intros s1 junk P1 Hj.
  assert (zlen (junk ++ p) = 14 + zlen p) as Hlen by (rewrite length_app; lia).
  mstep. apply (packet_wrn _ _ _ _ _ P1 _ _ 0); [lia|lia|lia|done|]. intros s2 P2.
  mstep. apply (packet_wrn _ _ _ _ _ P2 _ _ 6); [lia|lia|rewrite length_splice; lia|done|]. intros s3 P3.
  mstep. apply (packet_wr16 _ _ _ _ _ P3 _ _ 12); [lia|lia|rewrite !length_splice; rewrite ?length_splice; lia|].
  intros s4 P4. rewrite eth_header_bytes in P4 by done. clear P1 P2 P3 s1 s2 s3.
  set (f := eth_frame mac (IF_MAC it) proto p) in *.
  assert (zlen f = 14 + zlen p) as Hf by (unfold f; rewrite length_eth_frame; lia).
  mstep. apply (packet_gets_len _ _ _ _ _ P4).
  assert (∀ s5 post', packet s5 m (d - 14) (eth_pad f post) post' →
    wp (send_pkt_out i k) Q E (set_skbs (<[k:=s5]> (w_skbs w)) w)) as Hend.
  { intros s5 post' P5. eapply (wp_send_pkt_wire i k s5); [done|apply lookup_insert_eq|apply P5|].
    rewrite (packet_payload _ _ _ _ _ P5). cbn. rewrite delete_insert_eq. exact HQ. }
  destruct (Z.ltb_spec (zlen f) 60).
  - mstep. apply (packet_put _ _ _ _ _ P4); [lia|lia|]. intros s5 P5. mstep.
    eapply Hend. unfold eth_pad. by replace (60 - length f)%nat with (Z.to_nat (60 - zlen f)) by lia.
  - mstep. eapply Hend. unfold eth_pad. replace (60 - length f)%nat with 0%nat by lia.
    rewrite take_0, app_nil_r. exact P4.
Qed.
End Wire.
