(* ===== verification/ArpSpec.v ===== *)
(** * ARP on the wire: requests, replies and the packets that wait *)
From S2P Require Import Prelude Cmonad Utils Skbuff World Topology Comm Ethernet Arp Route Ip.
From S2P Require Import Invariant SkbRules LinkSafe ArpSafe Packet Wire.
#[local] Open Scope Z_scope.

(** The message for Ethernet and IPv4; addresses are in network order in memory. *)
Definition arp_msg (op : Z) (sha : list Z) (spa : Z) (tha : list Z) (tpa : Z) : list Z :=
  [0; 1; 8; 0; 6; 4] ++ be16 op ++ sha ++ le_encode 4 spa ++ tha ++ le_encode 4 tpa.

Definition no_meta : skb_meta := mk_meta None None None None None.

(** The frame that carries an ARP message is padded with zeros. *)
Definition arp_frame (dst src msg : list Z) : list Z :=
  eth_frame dst src ETH_PROTO_ARP msg ++ replicate 18 0.

(** Lengths of partly written headers. *)
#[local] Ltac fill_len :=
  rewrite ?length_app, ?length_drop, ?length_le_encode; cbn [length]; lia.

Section ArpSpec.
Context `{Os} (E : fault → Prop).

Lemma wp_fill_arp_bytes op it tha tpa Q :
  length (IF_MAC it) = 6%nat → Forall is_u8 (IF_MAC it) → length tha = 6%nat → Forall is_u8 tha →
  is_u16 op →
  (∀ s, packet s no_meta 32 (arp_msg op (IF_MAC it) (IF_IP it) tha tpa) (replicate 81 0) → Q tt s) →
  wp (fill_arp_hdr op it tha tpa) Q E (alloc_skb 134).
Proof.
  intros Hm1 Hm2 Ht1 Ht2 Hop HQ. unfold fill_arp_hdr, BUFF_HEADROOM, ARP_HDR_SIZE.
  unfold arp_hw_type, arp_proto_type, arp_hw_addr_len, arp_proto_addr_len, arp_opcode,
    arp_sender_hw_addr, arp_sender_proto_addr, arp_target_hw_addr, arp_target_proto_addr.
  mstep. apply (packet_reserve _ _ _ _ _ (alloc_packet 134 ltac:(lia))); [lia|done|done|].
  intros s0 P0. change (drop _ (replicate _ 0)) with (replicate 81 0) in P0.
  mstep. apply (packet_push _ _ _ _ _ P0); [lia|]. intros s1 junk P1 Hj.
  rewrite app_nil_r in P1. change (packet s1 no_meta 32 ([] ++ junk) (replicate 81 0)) in P1.
  mstep. eapply (packet_fill _ _ _ _ _ _ _ _ _ _ P1); [fill_len|fill_len|apply le_encode_bytes|]. intros s2 P2.
  mstep. eapply (packet_fill _ _ _ _ _ _ _ _ _ _ P2); [fill_len|fill_len|apply le_encode_bytes|]. intros s3 P3.
  mstep. eapply (packet_fill _ _ _ _ _ _ _ _ _ _ P3); [fill_len|fill_len|apply le_encode_bytes|]. intros s4 P4.
  mstep. eapply (packet_fill _ _ _ _ _ _ _ _ _ _ P4); [fill_len|fill_len|apply le_encode_bytes|]. intros s5 P5.
  mstep. eapply (packet_fill _ _ _ _ _ _ _ _ _ _ P5); [fill_len|fill_len|apply le_encode_bytes|]. intros s6 P6.
  mstep. eapply (packet_fill _ _ _ _ _ _ _ _ _ _ P6); [fill_len|fill_len|done|]. intros s7 P7.
  mstep. eapply (packet_fill _ _ _ _ _ _ _ _ _ _ P7); [fill_len|fill_len|apply le_encode_bytes|]. intros s8 P8.
  mstep. eapply (packet_fill _ _ _ _ _ _ _ _ _ _ P8); [fill_len|fill_len|done|]. intros s9 P9.
  eapply (packet_fill _ _ _ _ _ _ _ _ _ _ P9); [fill_len|fill_len|apply le_encode_bytes|].
  intros s10 P10. apply HQ. rewrite (le_encode_HTONS op) in P10 by done.
  match type of P10 with packet _ _ _ (?x ++ ?y) _ =>
    replace (x ++ y) with (arp_msg op (IF_MAC it) (IF_IP it) tha tpa) in P10; [done|];
    assert (y = []) as -> end.
  { apply nil_length_inv. rewrite !length_drop, Hm1, Ht1, !length_le_encode. cbn. lia. }
  rewrite app_nil_r, <- !app_assoc. done.
Qed.

(** Building a message in a new buffer and sending it. *)
Lemma wp_arp_fill_send {A} i it k op tha tpa dst fd port (kont : bool → W A) Q w :
  w_intfs w !! i = Some it → wire w i = Some (fd, port) →
  length (IF_MAC it) = 6%nat → Forall is_u8 (IF_MAC it) → length tha = 6%nat → Forall is_u8 tha →
  length dst = 6%nat → Forall is_u8 dst → is_u16 op →
  w_skbs w !! k = Some (alloc_skb 134) →
  (∀ w', sends (set_skbs (delete k (w_skbs w)) w)
           [(port, arp_frame dst (IF_MAC it) (arp_msg op (IF_MAC it) (IF_IP it) tha tpa))] w' →
         wp (kont true) Q E w') →
  wp (on_skb k (fill_arp_hdr op it tha tpa) ;;; bind (ethernet_output i dst ETH_PROTO_ARP k) kont) Q E w.
Proof.
  intros Hi Hwire Hm1 Hm2 Ht1 Ht2 Hd1 Hd2 Hop Hk HQ.
  mstep. apply (wp_on_skb _ _ (alloc_skb 134)); [done|]. apply wp_fill_arp_bytes; [done..|].
  intros s Hs. mstep.
  assert (zlen (arp_msg op (IF_MAC it) (IF_IP it) tha tpa) = 28) as Hlen.
  { unfold arp_msg, be16. rewrite !length_app, !length_le_encode, Hm1, Ht1. done. }
  eapply (wp_ethernet_output_wire E i it dst ETH_PROTO_ARP k s);
    [done|exact Hwire|done..|apply lookup_insert_eq|exact Hs|lia| |].
  { rewrite Hlen. done. }
  intros w' Hw'. apply HQ. cbn [w_skbs set_skbs] in Hw'. rewrite delete_insert_eq in Hw'.
  unfold eth_pad in Hw'. unfold arp_frame.
  set (f := eth_frame _ _ _ _) in *.
  assert (length f = 42%nat) as Hf by (unfold f; rewrite length_eth_frame by done; lia).
  by rewrite Hf in Hw'.
Qed.

(** A buffer that is allocated and sent leaves the state as it was. *)
Lemma sends_fresh w s fr w' :
  wf w →
  sends (set_skbs (delete (w_next w) (<[w_next w := s]> (w_skbs w)))
          (set_skbs (<[w_next w := s]> (w_skbs w)) (set_next (Pos.succ (w_next w)) w))) fr w' →
  sends w fr w'.
Proof.
  intros Hw. rewrite delete_insert_eq, delete_id by (apply wf_unused_skbs; [done|lia]).
  intros [(t & n & -> & Ht) Hn]. cbn in Hn. split; [|cbn; lia]. exists t, n. by destruct w.
Qed.

Lemma wp_arp_request_wire i it ip fd port Q w :
  wf w → w_intfs w !! i = Some it → wire w i = Some (fd, port) →
  (∀ w', sends w [(port, arp_frame layer2_fill_with_broadcast_mac (IF_MAC it)
            (arp_msg ARP_OP_REQUEST (IF_MAC it) (IF_IP it) [0; 0; 0; 0; 0; 0] ip))] w' → Q tt w') →
  wp (send_arp_broadcast_request i ip) Q E w.
Proof.
  intros Hw Hi Hwire HQ. destruct (st_intf_mac _ _ _ _ (wf_static _ Hw) _ _ Hi) as [Hl6 Hu8].
  unfold send_arp_broadcast_request. mstep. apply wp_alloc. mstep. apply (wp_load _ it); [done|].
  eapply wp_arp_fill_send;
    [done|exact Hwire|done|done|done|by repeat constructor|done| |done|apply lookup_insert_eq|].
  { apply (bool_decide_unpack _). vm_compute. exact I. }
  intros w' Hs. mstep. apply HQ, (sends_fresh w (alloc_skb 134)); [done|exact Hs].
Qed.

(** ** Input *)

(** The fields of a message. *)
Lemma arp_msg_fields op sha spa tha tpa rest :
  length sha = 6%nat → length tha = 6%nat →
  let p := arp_msg op sha spa tha tpa ++ rest in
  slice 6 2 p = be16 op ∧ slice 8 6 p = sha ∧ slice 14 4 p = le_encode 4 spa ∧
  slice 24 4 p = le_encode 4 tpa ∧ 28 <= zlen p.
Proof.
  intros H1 H2 p. subst p. unfold arp_msg.
  explode sha H1. explode tha H2. cbn. repeat split. lia.
Qed.

Lemma wp_send_arp_reply_wire i it k' s' m d op sha spa tha tpa rest post fd port Q w :
  wf w → w_intfs w !! i = Some it → wire w i = Some (fd, port) →
  w_skbs w !! k' = Some s' → packet s' m d (arp_msg op sha spa tha tpa ++ rest) post →
  length sha = 6%nat → length tha = 6%nat → is_u32 spa →
  (∀ w', sends w [(port, arp_frame sha (IF_MAC it)
            (arp_msg ARP_OP_REPLY (IF_MAC it) (IF_IP it) sha spa))] w' → Q tt w') →
  wp (send_arp_reply_msg i k' d) Q E w.
Proof.
  intros Hw Hi Hwire Hk' Hp Hsha Htha Hspa HQ.
  destruct (st_intf_mac _ _ _ _ (wf_static _ Hw) _ _ Hi) as [Hl6 Hu8].
  destruct (arp_msg_fields op sha spa tha tpa rest) as (F1 & F2 & F3 & F4 & Hlen); [done..|].
  pose proof (packet_bytes _ _ _ _ _ Hp) as [Hbytes _].
  assert (Forall is_u8 sha) as Hshab by (rewrite <- F2; by apply Forall_slice).
  assert (w_next w ≠ k') as Hne.
  { intros <-. by rewrite wf_unused_skbs in Hk' by (done || lia). }
  unfold send_arp_reply_msg, arp_sender_hw_addr, arp_sender_proto_addr, MAC_ADDR_SIZE.
  mstep. apply wp_alloc. mstep. apply (wp_load _ it); [done|].
  assert (∀ x, <[w_next w := x]> (w_skbs w) !! k' = Some s') as Hk1
    by (intros; by rewrite lookup_insert_ne).
  mstep. apply (wp_own_read _ _ s'); [apply Hk1|].
  apply (packet_rdn _ _ _ _ _ Hp _ _ 8); [done|lia|lia|lia|]. rewrite F2. split; [done|].
  mstep. apply (wp_own_read _ _ s'); [apply Hk1|].
  apply (packet_rd32 _ _ _ _ _ Hp _ _ 14); [done|lia|lia|]. rewrite F3. split; [done|].
  rewrite le_decode_encode. change (256 ^ Z.of_nat 4) with (2 ^ 32). rewrite Z.mod_small by exact Hspa.
  eapply wp_arp_fill_send;
    [done|exact Hwire|done..|apply lookup_insert_eq|].
  intros w' Hs. mstep. apply HQ, (sends_fresh w (alloc_skb 134)); [done|exact Hs].
Qed.

(** ** The packets that wait *)

(** The frame a waiting packet is sent in, once the address [mac] is known. *)
Definition skb_rest (s : sk_buff) : list Z := drop (Z.to_nat (skb_tail s)) (skb_head s).

Definition pending_frame (w : world) (mac : list Z) (k : ptr) : option (Z * list Z) :=
  s ← w_skbs w !! k;
  i ← skb_intf s;
  it ← w_intfs w !! i;
  '(_, port) ← wire w i;
  Some (port, eth_pad (eth_frame mac (IF_MAC it) ETH_PROTO_IP (skb_payload s)) (skb_rest s)).

Lemma wf_packet_rest s : skb_wf s → packet s (meta s) (skb_data s) (skb_payload s) (skb_rest s).
Proof.
  intros Hwf. destruct (wf_packet s Hwf) as (post & Hp). pose proof (packet_bounds _ _ _ _ _ Hp) as (? & Ht & _).
  pose proof (pk_drop _ _ _ _ _ Hp) as Hd. unfold skb_rest.
  replace (Z.to_nat (skb_tail s)) with (Z.to_nat (skb_data s) + length (skb_payload s))%nat by lia.
  by rewrite <- drop_drop, Hd, drop_app_length.
Qed.

(** What [wf] says of the packets that wait. *)
Lemma wf_pending w e en k :
  wf w → w_arps w !! e = Some en → k ∈ arp_pending en →
  ∃ s, w_skbs w !! k = Some s ∧ skb_wf s ∧ sendable s.
Proof.
  intros Hw He Hk. destruct (q_ok _ _ _ (wf_qs _ Hw) (QArp e) k) as (s & Hs & Hwf & Hok & _).
  { unfold queue_of. by rewrite (queue_arp_Some _ _ _ _ en). }
  by exists s.
Qed.

Lemma wp_send_pending_wire e en pkts frs Q w :
  w_arps w !! e = Some en → arp_pending en = pkts → NoDup pkts →
  length (arp_mac en) = 6%nat → Forall is_u8 (arp_mac en) →
  (∀ i it, w_intfs w !! i = Some it → length (IF_MAC it) = 6%nat ∧ Forall is_u8 (IF_MAC it)) →
  (∀ k, k ∈ pkts → ∃ s, w_skbs w !! k = Some s ∧ skb_wf s ∧ sendable s) →
  mapM (pending_frame w (arp_mac en)) pkts = Some frs →
  (∀ w', sends (set_arps (<[e := arp_set_pending [] en]> (w_arps w))
                  (set_skbs (foldl (λ m k, delete k m) (w_skbs w) pkts) w)) frs w' → Q tt w') →
  wp (send_pending e pkts) Q E w.
Proof.
  revert en frs w. induction pkts as [|k pkts IH]; intros en frs w He Hp Hnd Hm1 Hm2 Hmac Hk Hfr HQ.
  { cbn [send_pending]. mstep. injection Hfr as <-. apply HQ. cbn.
    rewrite insert_id by (rewrite He; f_equal; destruct en; simpl in *; by subst).
    replace (set_arps _ _) with w by (by destruct w). apply sends_refl. }
  apply NoDup_cons in Hnd as [Hnotin Hnd].
  cbn [mapM] in Hfr. destruct (pending_frame w (arp_mac en) k) as [fr1|] eqn:Hfr1; [|done].
  destruct (mapM (pending_frame w (arp_mac en)) pkts) as [frs'|] eqn:Hfr2; [|done].
  injection Hfr as <-.
  destruct (Hk k ltac:(set_solver)) as (s & Hs & Hwf & Hd1 & Hd2).
  unfold pending_frame in Hfr1. rewrite Hs in Hfr1. cbn in Hfr1.
  destruct (skb_intf s) as [i|] eqn:Hi; [|done]. cbn in Hfr1.
  destruct (w_intfs w !! i) as [it|] eqn:Hit; [|done]. cbn in Hfr1.
  destruct (wire w i) as [[fd port]|] eqn:Hwire; [|done]. cbn in Hfr1. injection Hfr1 as <-.
  destruct (Hmac i it Hit) as [Hl6 Hu8].
  pose proof (wf_packet_rest s Hwf) as Hps. destruct (packet_bounds _ _ _ _ _ Hps) as (? & Ht & ? & ? & ? & ?).
  cbn [send_pending]. mstep. apply (wp_update _ _ en); [done|].
  rewrite Hp. cbn [list_remove]. rewrite decide_True by done.
  mstep. apply (wp_load _ s); [done|]. rewrite Hi. mstep. mstep.
  mstep. apply (wp_load _ (arp_set_pending pkts en)); [apply lookup_insert_eq|].
  mstep. eapply (wp_ethernet_output_wire E i it (arp_mac en) ETH_PROTO_IP k s);
    [done|exact Hwire|done..|exact Hps|lia|lia|].
  intros w1 Hs1. mstep. mstep. pose proof Hs1 as [(t & nx & -> & Ht1) Hn1]. cbn in Hn1.
  apply (IH (arp_set_pending pkts en) frs'); try done.
  - apply lookup_insert_eq.
  - intros k' Hk'. destruct (Hk k' ltac:(set_solver)) as (s' & ? & ?). exists s'. cbn.
    rewrite lookup_delete_ne; [done|]. by intros ->.
  - rewrite <- Hfr2. apply Forall_mapM_ext, Forall_forall. intros k' Hk'. unfold pending_frame. cbn.
    rewrite lookup_delete_ne; [done|]. by intros ->.
  - intros w' Hs2. apply HQ. cbn in Hs2. rewrite insert_insert_eq in Hs2.
    destruct Hs2 as [(t2 & n2 & -> & Ht2) Hn2]. split; [|cbn in *; lia].
    exists (t ++ t2), n2. split; [cbn; by rewrite app_assoc|].
    unfold sendtos in *. by rewrite omap_app, Ht1, Ht2.
Qed.

(** ** The table *)

(** The first entry of the table of [n] for the address [ip]. *)
Definition arp_find (w : world) (n : ptr) (ip : Z) : option ptr :=
  nd ← w_nodes w !! n;
  head (filter (λ e, arp_ip <$> w_arps w !! e = Some ip) (n_arp_table (n_nw nd))).

Lemma arp_lookup_from_eq ip l w :
  (∀ e, e ∈ l → is_Some (w_arps w !! e)) →
  arp_lookup_from ip l w =
    Ok (head (filter (λ e, arp_ip <$> w_arps w !! e = Some ip) l), w).
Proof.
  induction l as [|e l IH]; intros Hl; cbn [arp_lookup_from]; [done|].
  destruct (Hl e) as [en He]; [set_solver|]. unfold bind at 1, load. cbn [hget heap_arps]. rewrite He.
  rewrite filter_cons, He. destruct (Z.eqb_spec (arp_ip en) ip).
  - by rewrite decide_True by (cbn; congruence).
  - rewrite decide_False by (cbn; congruence). apply IH. set_solver.
Qed.

Lemma wp_arp_table_find n ip Q w :
  wf w → is_Some (w_nodes w !! n) → Q (arp_find w n ip) w → wp (arp_table_lookup n ip) Q E w.
Proof.
  intros Hw [nd Hn] HQ. unfold arp_table_lookup. mstep. apply (wp_load _ nd); [done|].
  unfold wp. rewrite arp_lookup_from_eq.
  - unfold arp_find in HQ. by rewrite Hn in HQ.
  - intros e. apply (aw_table _ _ (wf_arp _ Hw) n). unfold tables. by rewrite lookup_fmap, Hn.
Qed.

Lemma arp_find_Some w n ip e :
  arp_find w n ip = Some e → ∃ en, w_arps w !! e = Some en ∧ arp_ip en = ip.
Proof.
  unfold arp_find. destruct (w_nodes w !! n) as [nd|]; [|done]. cbn [mbind option_bind]. intros Hh.
  apply head_filter_sat in Hh as [Hin _]. apply fmap_Some in Hin as (en & ? & ->). by exists en.
Qed.

(** ** Input of a message *)

Lemma sends_free w fr w1 k :
  sends w fr w1 → sends (set_skbs (delete k (w_skbs w)) w) fr (set_skbs (delete k (w_skbs w1)) w1).
Proof. intros [(t & n & -> & Ht) Hn]. split; [|done]. by exists t, n. Qed.

(** The message is on top of the packet that [arp_input] is given. *)
Record arp_arrives (w : world) (k i : ptr) (it : intf) (msg : list Z) : Prop := {
  aa_wf : wf w;
  aa_intf : w_intfs w !! i = Some it;
  aa_skb : ∃ s m d rest post, w_skbs w !! k = Some s ∧ packet s m d (msg ++ rest) post ∧
             m_intf m = Some i;
}.

Lemma wp_arp_request k i it sha spa tha tpa fd port Q w :
  arp_arrives w k i it (arp_msg ARP_OP_REQUEST sha spa tha tpa) →
  length sha = 6%nat → length tha = 6%nat → is_u32 spa → is_u32 tpa →
  wire w i = Some (fd, port) →
  (tpa = IF_IP it → ∀ w', sends (set_skbs (delete k (w_skbs w)) w)
     [(port, arp_frame sha (IF_MAC it) (arp_msg ARP_OP_REPLY (IF_MAC it) (IF_IP it) sha spa))] w' →
     Q true w') →
  (tpa ≠ IF_IP it → Q false w) →
  wp (arp_input k) Q E w.
Proof.
  intros [Hw Hit (s & m & d & rest & post & Hk & Hp & Hm)] Hsha Htha Hspa Htpa Hwire HQ1 HQ2.
  destruct (arp_msg_fields ARP_OP_REQUEST sha spa tha tpa rest) as (F1 & F2 & F3 & F4 & Hlen); [done..|].
  assert (skb_intf s = Some i) as Hi by (rewrite <- (pk_meta _ _ _ _ _ Hp) in Hm; exact Hm).
  unfold arp_input, ARP_HDR_SIZE, arp_opcode. mstep. apply (wp_load _ s); [done|].
  rewrite (pk_len _ _ _ _ _ Hp), (pk_data _ _ _ _ _ Hp).
  destruct (Z.ltb_spec (zlen (arp_msg ARP_OP_REQUEST sha spa tha tpa ++ rest)) 28); [lia|].
  mstep. apply (wp_own_read _ _ s); [done|].
  apply (packet_rd16 _ _ _ _ _ Hp _ _ 6); [done|lia|lia|]. rewrite F1. split; [done|].
  mstep. rewrite Hi. change (le_decode (be16 ARP_OP_REQUEST) =? HTONS ARP_OP_REQUEST) with true. cbv beta match.
  do 2 mstep. unfold process_arp_broadcast_request, arp_target_proto_addr.
  mstep. apply (wp_load _ it); [done|].
  mstep. apply (wp_own_read _ _ s); [done|].
  apply (packet_rd32 _ _ _ _ _ Hp _ _ 24); [done|lia|lia|]. rewrite F4. split; [done|].
  rewrite le_decode_encode. change (256 ^ Z.of_nat 4) with (2 ^ 32). rewrite Z.mod_small by exact Htpa.
  destruct (Z.eqb_spec (IF_IP it) tpa) as [<-|Hne]; cbn [negb].
  - mstep. eapply wp_send_arp_reply_wire; [done|done|exact Hwire|done|exact Hp|done..|].
    intros w1 Hs. mstep. mstep. pose proof Hs as [(t & n & -> & _) _].
    apply (wp_dealloc _ s); [done|]. mstep. apply HQ1; [done|].
    exact (sends_free _ _ _ k Hs).
  - mstep. mstep. mstep. mstep. apply HQ2. congruence.
Qed.

(** The reply to a request: the entry of the sender is resolved and the packets
    that waited for it are sent, the last one first. *)
Lemma wp_arp_reply k i it sha spa tha tpa e en frs Q w :
  arp_arrives w k i it (arp_msg ARP_OP_REPLY sha spa tha tpa) →
  length sha = 6%nat → length tha = 6%nat → is_u32 spa →
  arp_find w (if_node it) spa = Some e → w_arps w !! e = Some en →
  mapM (pending_frame w sha) (arp_pending en) = Some frs →
  k ∉ arp_pending en →
  (∀ w', sends (set_arps (<[e := mk_arp_entry (arp_ip en) sha (arp_intf en) true []]> (w_arps w))
                  (set_skbs (delete k (foldl (λ m k, delete k m) (w_skbs w) (arp_pending en))) w))
               frs w' → Q true w') →
  wp (arp_input k) Q E w.
Proof.
  intros [Hw Hit (s & m & d & rest & post & Hk & Hp & Hm)] Hsha Htha Hspa Hfind He Hfr Hnp HQ.
  destruct (arp_msg_fields ARP_OP_REPLY sha spa tha tpa rest) as (F1 & F2 & F3 & F4 & Hlen); [done..|].
  assert (skb_intf s = Some i) as Hi by (rewrite <- (pk_meta _ _ _ _ _ Hp) in Hm; exact Hm).
  pose proof (packet_bytes _ _ _ _ _ Hp) as [Hbytes _].
  assert (Forall is_u8 sha) as Hshab by (rewrite <- F2; by apply Forall_slice).
  unfold arp_input, ARP_HDR_SIZE, arp_opcode. mstep. apply (wp_load _ s); [done|].
  rewrite (pk_len _ _ _ _ _ Hp), (pk_data _ _ _ _ _ Hp).
  destruct (Z.ltb_spec (zlen (arp_msg ARP_OP_REPLY sha spa tha tpa ++ rest)) 28); [lia|].
  mstep. apply (wp_own_read _ _ s); [done|].
  apply (packet_rd16 _ _ _ _ _ Hp _ _ 6); [done|lia|lia|]. rewrite F1. split; [done|].
  mstep. rewrite Hi. cbv beta match. change (le_decode (be16 ARP_OP_REPLY) =? HTONS ARP_OP_REQUEST) with false.
  change (le_decode (be16 ARP_OP_REPLY) =? HTONS ARP_OP_REPLY) with true. cbv beta match.
  do 2 mstep. unfold process_arp_reply_msg. mstep. apply (wp_load _ it); [done|].
  mstep. unfold arp_table_update_from_arp_reply, arp_sender_proto_addr, arp_sender_hw_addr, MAC_ADDR_SIZE.
  mstep. apply (wp_own_read _ _ s); [done|].
  apply (packet_rd32 _ _ _ _ _ Hp _ _ 14); [done|lia|lia|]. rewrite F3. split; [done|].
  rewrite le_decode_encode. change (256 ^ Z.of_nat 4) with (2 ^ 32). rewrite Z.mod_small by exact Hspa.
  mstep. apply wp_arp_table_find; [done| |].
  { destruct (intf_node _ _ _ Hw Hit) as [nd Hn]. by exists nd. }
  rewrite Hfind. mstep. apply (wp_update _ _ en); [done|].
  mstep. apply (wp_own_read _ _ s); [done|].
  apply (packet_rdn _ _ _ _ _ Hp _ _ 8); [done|lia|lia|lia|]. rewrite F2. split; [done|].
  mstep. apply (wp_update _ _ (arp_set_resolved en)); [apply lookup_insert_eq|].
  set (en2 := arp_set_mac sha (arp_set_resolved en)).
  mstep. apply (wp_load _ en2); [apply lookup_insert_eq|].
  pose proof (q_nodup _ _ _ (wf_qs _ Hw) (QArp e)) as Hnd. unfold queue_of in Hnd.
  rewrite (queue_arp_Some _ _ _ _ en) in Hnd by done.
  eapply (wp_send_pending_wire e en2 (arp_pending en) frs);
    [apply lookup_insert_eq|done|done|done|done| | |exact Hfr|].
  - intros j jt Hj. by apply (st_intf_mac _ _ _ _ (wf_static _ Hw) j).
  - intros k' Hk'. by apply (wf_pending w e en).
  - intros w1 Hs1. mstep. mstep. pose proof Hs1 as [(t & n & -> & _) _].
    apply (wp_dealloc _ s).
    { cbn. clear -Hk Hnp. revert Hnp Hk. generalize (w_skbs w) as M. induction (arp_pending en) as [|x l IH];
        intros M Hnp Hk; [done|]. cbn. apply IH; [set_solver|]. rewrite lookup_delete_ne; [done|set_solver]. }
    mstep. apply HQ. eapply (sends_free _ _ _ k) in Hs1. cbn in Hs1 |- *.
    rewrite !insert_insert_eq in Hs1 |- *. exact Hs1.
Qed.
End ArpSpec.
