(* ===== verification/RouteSpec.v ===== *)
(** * The routing table: longest prefix match *)
From S2P Require Import Prelude Cmonad Utils Skbuff World Topology Route.
#[local] Open Scope Z_scope.

(** The test of the code on masked addresses. *)
Definition net_eq (ip : Z) (e : rt_entry) : bool :=
  Z.land ip (2 ^ rt_mask e - 1) =? Z.land (rt_dst e) (2 ^ rt_mask e - 1).

(** A route that is not a default route and that can be chosen for [ip]. *)
Definition candidate (ip : Z) (e : rt_entry) : Prop :=
  rt_dst e ≠ 0 ∧ 0 < rt_mask e ∧ net_eq ip e = true.

(** The choice among [routes]: the first of the candidates of greatest mask, or
    else the last default route. *)
Definition lpm_choice (cand : rt_entry → Prop) (routes : list rt_entry) (r : option rt_entry) : Prop :=
  match r with
  | Some e => ∃ l1 l2, routes = l1 ++ e :: l2 ∧
      (cand e ∧ (∀ e', e' ∈ l1 → cand e' → rt_mask e' < rt_mask e) ∧
                (∀ e', e' ∈ l2 → cand e' → rt_mask e' <= rt_mask e) ∨
       rt_dst e = 0 ∧ (∀ e', e' ∈ routes → ¬ cand e') ∧ (∀ e', e' ∈ l2 → rt_dst e' ≠ 0))
  | None => ∀ e, e ∈ routes → ¬ cand e ∧ rt_dst e ≠ 0
  end.

Lemma IP_NET_EQ_ok ip e :
  0 <= rt_mask e <= 30 → IP_NET_EQ ip (rt_dst e) (rt_mask e) = Ok (net_eq ip e).
Proof.
  intros. unfold IP_NET_EQ, INT_IP_MASKED, MASK_IP. rewrite low_mask_spec, decide_True by done. done.
Qed.

(** What the loop has found in the part [done_] of the table it has seen. *)
Record lpm_state (ip : Z) (done_ : list rt_entry) (mx df : option rt_entry) (mm : Z) : Prop := {
  ls_bound e : e ∈ done_ → candidate ip e → rt_mask e <= mm;
  ls_max : match mx with
           | Some e => ∃ l1 l2, done_ = l1 ++ e :: l2 ∧ candidate ip e ∧ rt_mask e = mm ∧
                         ∀ e', e' ∈ l1 → candidate ip e' → rt_mask e' < mm
           | None => mm = 0
           end;
  ls_def : match df with
           | Some e => ∃ l1 l2, done_ = l1 ++ e :: l2 ∧ rt_dst e = 0 ∧
                         ∀ e', e' ∈ l2 → rt_dst e' ≠ 0
           | None => ∀ e, e ∈ done_ → rt_dst e ≠ 0
           end;
}.

Lemma lpm_state_choice ip routes mx df mm :
  lpm_state ip routes mx df mm →
  lpm_choice (candidate ip) routes (match mx with Some e => Some e | None => df end).
Proof.
  intros [Hb Hm Hd]. destruct mx as [e|].
  - destruct Hm as (l1 & l2 & -> & Hc & <- & Hlt). exists l1, l2. split; [done|]. left.
    split_and!; [done|done|]. intros e' ?. apply Hb. set_solver.
  - subst mm. assert (∀ e, e ∈ routes → ¬ candidate ip e) as Hno.
    { intros e He Hc. pose proof (Hb e He Hc). destruct Hc as (_ & ? & _). lia. }
    destruct df as [e|]; [|by intros e He; split; auto].
    destruct Hd as (l1 & l2 & -> & He & Hl2). exists l1, l2. split; [done|]. right. auto.
Qed.

Lemma rt_lookup_from_choice ip done_ routes mx df mm :
  Forall (λ e, 0 <= rt_mask e <= 30) routes → lpm_state ip done_ mx df mm →
  ∃ r, rt_lookup_from ip routes mx df mm = Ok r ∧ lpm_choice (candidate ip) (done_ ++ routes) r.
Proof.
  intros Hr. revert done_ mx df mm. induction Hr as [|e routes He _ IH]; intros done_ mx df mm Hst.
  { eexists. split; [done|]. rewrite app_nil_r. by eapply lpm_state_choice. }
  cbn [rt_lookup_from]. replace (done_ ++ e :: routes) with ((done_ ++ [e]) ++ routes)
    by by rewrite <- app_assoc. pose proof Hst as [Hb Hm Hd].
  assert (∀ mm', mm <= mm' → (candidate ip e → rt_mask e <= mm') →
          ∀ e', e' ∈ done_ ++ [e] → candidate ip e' → rt_mask e' <= mm') as Hb'.
  { intros mm' Hle Hce e' [Hin|Hin]%elem_of_app Hc; [specialize (Hb _ Hin Hc); lia|].
    apply list_elem_of_singleton in Hin as ->. auto. }
  assert (match mx with
          | Some e0 => ∃ l1 l2, done_ ++ [e] = l1 ++ e0 :: l2 ∧ candidate ip e0 ∧ rt_mask e0 = mm ∧
                        ∀ e', e' ∈ l1 → candidate ip e' → rt_mask e' < mm
          | None => mm = 0 end) as Hm'.
  { destruct mx as [e0|]; [|done]. destruct Hm as (l1 & l2 & -> & ? & ? & ?).
    exists l1, (l2 ++ [e]). by rewrite <- app_assoc. }
  destruct (Z.eqb_spec (rt_dst e) 0) as [H0|Hn0].
  { apply IH. split; [|done|].
    - apply Hb'; [lia|]. intros (? & _); done.
    - exists done_, []. set_solver. }
  assert (match df with
          | Some e0 => ∃ l1 l2, done_ ++ [e] = l1 ++ e0 :: l2 ∧ rt_dst e0 = 0 ∧
                         ∀ e', e' ∈ l2 → rt_dst e' ≠ 0
          | None => ∀ e', e' ∈ done_ ++ [e] → rt_dst e' ≠ 0 end) as Hd'.
  { destruct df as [e0|].
    - destruct Hd as (l1 & l2 & -> & ? & ?). exists l1, (l2 ++ [e]). rewrite <- app_assoc.
      split_and!; [done..|]. intros e' [?| ->%list_elem_of_singleton]%elem_of_app; auto.
    - intros e' [?| ->%list_elem_of_singleton]%elem_of_app; auto. }
  rewrite IP_NET_EQ_ok by done. cbn [rbind].
  destruct (net_eq ip e) eqn:Heq; cbn [andb].
  - destruct (Z.ltb_spec mm (rt_mask e)).
    + assert (0 <= mm) by (destruct mx; [destruct Hm as (? & ? & _ & (_ & ? & _) & <- & _); lia|lia]).
      apply IH. split; [apply Hb'; lia| |done].
      exists done_, []. split_and!; [done|by split; [|split; [lia|]]|done|].
      intros e' Hin Hc. specialize (Hb e' Hin Hc). lia.
    + apply IH. split; [apply Hb'; lia|done..].
  - apply IH. split; [apply Hb'; [lia|]|done..]. intros (_ & _ & ?). congruence.
Qed.

(** The candidates in terms of network prefixes. *)
Definition prefix_candidate (ip : Z) (e : rt_entry) : Prop :=
  rt_dst e ≠ 0 ∧ 0 < rt_mask e ∧ cidr_prefix (rt_mask e) ip = cidr_prefix (rt_mask e) (rt_dst e).

Lemma octet_mask m : 0 <= m <= 30 → m mod 8 = 0 → m ∈ [0; 8; 16; 24].
Proof.
  intros ? ?. assert (m = 0 ∨ m = 8 ∨ m = 16 ∨ m = 24) as [->|[->|[->| ->]]] by zdiv; set_solver.
Qed.

Lemma candidate_prefix ip e :
  is_u32 ip → is_u32 (rt_dst e) → 0 <= rt_mask e <= 30 → rt_mask e mod 8 = 0 →
  candidate ip e ↔ prefix_candidate ip e.
Proof.
  intros Hip Hd Hm H8. pose proof (octet_mask _ Hm H8) as Hin.
  unfold candidate, prefix_candidate, net_eq. rewrite !low_mask_octets by done.
  by rewrite Z.eqb_eq.
Qed.

(** C26. With prefix lengths that are multiples of 8, the route chosen for an address is the
    first one of greatest length among those whose prefix the address has, and the last
    default route when there is none. *)
Theorem rt_lookup_lpm_longest_prefix routes ip :
  is_u32 ip →
  Forall (λ e, is_u32 (rt_dst e) ∧ 0 <= rt_mask e <= 30 ∧ rt_mask e mod 8 = 0) routes →
  ∃ r, rt_lookup_lpm routes ip = Ok r ∧ lpm_choice (prefix_candidate ip) routes r.
Proof.
  intros Hip Hr.
  destruct (rt_lookup_from_choice ip [] routes None None 0) as (r & Hlook & Hc).
  { eapply Forall_impl; [exact Hr|]. naive_solver. }
  { split; [set_solver|done|set_solver]. }
  exists r. split; [done|]. cbn [app] in Hc.
  assert (∀ e, e ∈ routes → candidate ip e ↔ prefix_candidate ip e) as Hiff.
  { intros e He. rewrite Forall_forall in Hr. destruct (Hr e He) as (? & ? & ?).
    by apply candidate_prefix. }
  destruct r as [e|]; cbn in *.
  - destruct Hc as (l1 & l2 & -> & Hc). exists l1, l2. split; [done|].
    destruct Hc as [(H1 & H2 & H3)|(H1 & H2 & H3)]; [left|right]; split_and!; try done.
    + apply Hiff; [set_solver|done].
    + intros e' ? ?. apply H2; [done|]. apply Hiff; [set_solver|done].
    + intros e' ? ?. apply H3; [done|]. apply Hiff; [set_solver|done].
    + intros e' ? Hc. apply (H2 e'); [done|]. by apply Hiff.
  - intros e He. destruct (Hc e He). split; [|done]. by rewrite <- Hiff.
Qed.

(** 10.0.0.0/8, 10.1.0.0/16 and two default routes; the addresses 10.1.2.3 and
    11.0.0.1. *)
Lemma rt_lookup_lpm_longest_prefix_witness :
  let ip a b c d := le_decode [a; b; c; d] in
  let routes := [mk_rt_entry 0 0 1 1; mk_rt_entry (ip 10 0 0 0) 8 0 2;
                 mk_rt_entry (ip 10 1 0 0) 16 0 3; mk_rt_entry 0 0 2 4] in
  rt_lookup_lpm routes (ip 10 1 2 3) = Ok (routes !! 2%nat) ∧
  rt_lookup_lpm routes (ip 11 0 0 1) = Ok (routes !! 3%nat) ∧
  ∃ r, rt_lookup_lpm routes (ip 10 1 2 3) = Ok r ∧
       lpm_choice (prefix_candidate (ip 10 1 2 3)) routes r.
Proof.
  intros ip routes. split; [reflexivity|]. split; [reflexivity|].
  apply (rt_lookup_lpm_longest_prefix routes (ip 10 1 2 3)).
  - apply (bool_decide_unpack _). vm_compute. exact I.
  - apply (bool_decide_unpack _). vm_compute. exact I.
Defined.
