(* ===== verification/IpSpec.v ===== *)
(** * IP datagrams on the wire

    The bytes of the datagrams that [ip_output] sends: the header is that of
    RFC 791 without options, its checksum verifies, and the datagram goes to the
    next hop of the route in an Ethernet frame. *)
From S2P Require Import Prelude Cmonad Utils Skbuff World Topology Comm Ethernet Arp Route Ip.
From S2P Require Import Invariant SkbRules LinkSafe ArpSafe IpSafe Packet Wire ArpSpec.
#[local] Open Scope Z_scope.

(** ** The header *)

Definition ip_header (len proto src dst ck : Z) : list Z :=
  [0x45; 0] ++ be16 len ++ [0; 0; 0; 0; 64; proto] ++ be16 ck ++ le_encode 4 src ++ le_encode 4 dst.

(** The checksum is the one of the header with a zero in its place. *)
Definition ip_checksum (len proto src dst : Z) : Z := rfc1071 (ip_header len proto src dst 0).

Definition ip_datagram (proto src dst : Z) (p : list Z) : list Z :=
  let len := 20 + zlen p in ip_header len proto src dst (ip_checksum len proto src dst) ++ p.

Lemma length_ip_header len proto src dst ck : length (ip_header len proto src dst ck) = 20%nat.
Proof. done. Qed.

Lemma length_ip_datagram proto src dst p : length (ip_datagram proto src dst p) = (20 + length p)%nat.
Proof. unfold ip_datagram. by rewrite length_app, length_ip_header. Qed.

Lemma rfc1071_u16 bs : Forall is_u8 bs → is_u16 (rfc1071 bs).
Proof.
  intros Hb. unfold rfc1071. rewrite onec_sum_fold16 by done.
  pose proof (fold16_bound _ (be_sum_nonneg _ Hb)). unfold is_u16. lia.
Qed.

Lemma ip_header_bytes len proto src dst ck :
  is_u16 len → is_u8 proto → is_u16 ck → Forall is_u8 (ip_header len proto src dst ck).
Proof.
  intros. unfold ip_header. assert (is_u8 0x45 ∧ is_u8 0 ∧ is_u8 64) as (? & ? & ?) by (unfold is_u8; lia).
  rewrite !Forall_app, !Forall_cons. split_and!; auto using be16_bytes, le_encode_bytes.
Qed.

Lemma ip_checksum_verifies len proto src dst :
  is_u16 len → is_u8 proto →
  rfc1071 (ip_header len proto src dst (ip_checksum len proto src dst)) = 0.
Proof.
  intros Hlen Hproto. set (pre := [0x45; 0] ++ be16 len ++ [0; 0; 0; 0; 64; proto]).
  set (post := le_encode 4 src ++ le_encode 4 dst).
  assert (∀ ck, ip_header len proto src dst ck = pre ++ be16 ck ++ post) as Hsplit by done.
  pose proof (ip_header_bytes len proto src dst 0 Hlen Hproto ltac:(done)) as Hb.
  unfold ip_checksum. rewrite (Hsplit 0) in Hb |- *. rewrite Hsplit.
  change (be16 0) with [0; 0] in *. unfold be16. apply rfc1071_store; [done|done| |by left].
  apply Forall_app in Hb as [Hpre [_ Hpost]%Forall_app].
  pose proof (be_sum_nonneg _ Hpost). enough (0 < be_sum pre) by lia.
  unfold pre, be_sum, be16, is_u16, is_u8 in *. cbn [app be_words fold_right]. zdiv.
Qed.

(** ** The next hop *)

Definition ip_hdr5 (hdr : list Z) : Prop :=
  length hdr = 20%nat ∧ Z.land (le_decode (slice 0 1 hdr)) 15 = 5.

(** What [ip_postroute] makes of a header: the source address is the one of the
    outgoing interface, and the checksum is taken over whatever is in its place. *)
Definition set_source (src : Z) (hdr : list Z) : list Z :=
  let h := splice 12 (le_encode 4 src) hdr in splice 10 (be16 (rfc1071 h)) h.

Lemma set_source_new len proto src dst :
  set_source src (ip_header len proto 0 dst 0) = ip_header len proto src dst (ip_checksum len proto src dst).
Proof.
  unfold set_source, ip_checksum.
  change (splice 12 (le_encode 4 src) (ip_header len proto 0 dst 0)) with (ip_header len proto src dst 0).
  by generalize (rfc1071 (ip_header len proto src dst 0)).
Qed.

Definition next_hop (entry : rt_entry) (dst : Z) : Z :=
  if rt_next entry =? 0 then dst else rt_next entry.

(** The node [n] sends packets for [dst] through the interface [it] and the
    link on [port], in frames to [mac]. *)
Record reaches (w : world) (n : ptr) (dst : Z) (it : intf) (mac : list Z) (port : Z) : Prop := {
  rc_wf : wf w;
  rc_remote : ¬ local_ip w n dst;
  rc_route : ∃ nd entry fd e en,
    w_nodes w !! n = Some nd ∧ rt_lookup_lpm (n_rt_table (n_nw nd)) dst = Ok (Some entry) ∧
    w_intfs w !! rt_intf entry = Some it ∧ wire w (rt_intf entry) = Some (fd, port) ∧
    arp_find w n (next_hop entry dst) = Some e ∧ w_arps w !! e = Some en ∧
    arp_resolved en = true ∧ arp_mac en = mac;
}.

(** The interface a buffer may be marked with when it is sent. *)
Definition intf_agrees (w : world) (n : ptr) (dst : Z) (m : skb_meta) : Prop :=
  ∀ i nd entry, m_intf m = Some i → w_nodes w !! n = Some nd →
    rt_lookup_lpm (n_rt_table (n_nw nd)) dst = Ok (Some entry) → i = rt_intf entry.

Ltac name4 v a :=
  let E := fresh "E" a in
  assert (length (le_encode 4 v) = 4%nat) as E by apply length_le_encode;
  let l := fresh in
  set (l := le_encode 4 v) in *; clearbody l; explode l E; clear E.

Section IpSpec.
Context `{Os} (deliver : ptr → W bool) (E : fault → Prop).

(** The part of [ip_output] that fills the header. *)
Lemma wp_ip_header_fill s m d p post proto dst Q :
  packet s m d p post → 20 <= d → 20 + zlen p < 2 ^ 16 → is_u8 proto →
  (∀ s', packet s' m (d - 20) (ip_header (20 + zlen p) proto 0 dst 0 ++ p) post → Q tt s') →
  wp (let* hdr := skb_push IP_HDR_SIZE in
      init_ip_hdr hdr ;;;
      s_wr32 (hdr + ip_dst_ip) dst ;;;
      s_wr8 (hdr + ip_proto) proto ;;;
      let* len := gets skb_len in
      s_wr16 (hdr + ip_total_len) (HTONS len)) Q E s.
Proof.
  intros Hp Hd Hlen Hproto HQ.
  unfold IP_HDR_SIZE, init_ip_hdr, ip_ver_hlen, ip_ttl, ip_dst_ip, ip_proto, ip_total_len.
  mstep. apply (packet_push _ _ _ _ _ Hp); [lia|]. intros s1 junk P1 Hj.
  mstep. mstep. apply (packet_wrn _ _ _ _ _ P1 _ _ 0);
    [lia|lia|rewrite length_app; cbn; lia|by apply Forall_replicate|]. intros s2 P2.
  rewrite splice_prefix in P2 by (cbn; lia). clear P1.
  mstep. mstep. apply (packet_rd8 _ _ _ _ _ P2 _ _ 0); [lia|lia|rewrite length_app; cbn; lia|].
  apply (packet_wr8 _ _ _ _ _ P2 _ _ 0); [lia|lia|rewrite length_app; cbn; lia|]. intros s3 P3. clear P2.
  change (splice _ _ _) with ([64] ++ replicate 19 0 ++ p) in P3.
  mstep. mstep. apply (packet_rd8 _ _ _ _ _ P3 _ _ 0); [lia|lia|rewrite !length_app; cbn; lia|].
  apply (packet_wr8 _ _ _ _ _ P3 _ _ 0); [lia|lia|rewrite !length_app; cbn; lia|]. intros s4 P4. clear P3.
  change (splice _ _ _) with ([0x45] ++ replicate 19 0 ++ p) in P4.
  apply (packet_wr8 _ _ _ _ _ P4 _ _ 8); [lia|lia|rewrite !length_app; cbn; lia|]. intros s5 P5. clear P4.
  change (splice _ _ _) with ([0x45; 0; 0; 0; 0; 0; 0; 0; 64] ++ replicate 11 0 ++ p) in P5.
  mstep. apply (packet_wr32 _ _ _ _ _ P5 _ _ 16); [lia|lia|rewrite !length_app; cbn; lia|]. intros s6 P6. clear P5.
  change (splice _ _ _) with ([0x45; 0; 0; 0; 0; 0; 0; 0; 64; 0; 0; 0; 0; 0; 0; 0] ++ le_encode 4 dst ++ p) in P6.
  mstep. apply (packet_wr8 _ _ _ _ _ P6 _ _ 9); [lia|lia|rewrite !length_app; cbn; lia|]. intros s7 P7. clear P6.
  change (splice _ _ _) with ([0x45; 0; 0; 0; 0; 0; 0; 0; 64; proto mod 256; 0; 0; 0; 0; 0; 0] ++ le_encode 4 dst ++ p) in P7.
  rewrite Z.mod_small in P7 by exact Hproto.
  mstep. apply (packet_gets_len _ _ _ _ _ P7).
  replace (zlen (_ ++ _ ++ p)) with (20 + zlen p) by (rewrite !length_app; cbn; lia).
  apply (packet_wr16 _ _ _ _ _ P7 _ _ 2); [lia|lia|rewrite !length_app; cbn; lia|]. intros s8 P8. clear P7.
  apply HQ. rewrite le_encode_HTONS in P8 by (unfold is_u16; lia). exact P8.
Qed.

(** The source address and the checksum. *)
Lemma wp_ip_source_fill s m d hdr p post src (Q : unit → world → Prop) k w :
  packet s m d (hdr ++ p) post → ip_hdr5 hdr →
  (∀ s', packet s' m d (set_source src hdr ++ p) post → Q tt (with_skb k s' w)) →
  wp (on_skb k (s_wr32 (d + ip_src_ip) src) ;;; on_skb k (fill_ip_hcksum d)) Q E (with_skb k s w).
Proof.
  intros Hp [Hl H5] HQ. unfold set_source in HQ.
  unfold ip_src_ip, fill_ip_hcksum, calc_ip_hcksum, ip_ver_hlen, ip_hcksum.
  mstep. apply wp_on_with.
  apply (packet_wr32 _ _ _ _ _ Hp _ _ 12); [lia|lia|rewrite length_app; lia|].
  intros s1 P1. rewrite splice_app_l in P1 by (rewrite ?length_le_encode; lia).
  set (h1 := splice 12 (le_encode 4 src) hdr) in *.
  assert (length h1 = 20%nat) as Hl1.
  { unfold h1. rewrite length_splice by (rewrite ?length_le_encode; lia). done. }
  assert (Z.land (le_decode (slice 0 1 h1)) 15 = 5) as H51.
  { unfold h1. by destruct hdr. }
  apply wp_on_with.
  mstep. mstep. apply (packet_rd8 _ _ _ _ _ P1 _ _ 0); [lia|lia|rewrite length_app; lia|].
  rewrite slice_app_l, H51 by lia. change (5 * 4) with 20.
  apply (packet_checksum _ _ _ _ _ P1 _ _ 0); [lia|lia|lia|rewrite length_app; lia|].
  rewrite (slice_prefix 20 h1 p) by lia.
  apply (packet_wr16 _ _ _ _ _ P1 _ _ 10); [lia|lia|rewrite length_app; lia|].
  intros s2 P2. apply HQ.
  rewrite splice_app_l, le_encode_HTONS in P2; [exact P2| |lia|rewrite length_le_encode; lia].
  apply rfc1071_u16. destruct (packet_bytes _ _ _ _ _ P1) as [[? _]%Forall_app _]. done.
Qed.

(** ** Output over a link *)

(** From the choice of the next hop on, for a resolved address. *)
Lemma wp_ip_transmit_wire s m d p post n entry dst it e en fd port k Q w :
  wf w → is_Some (w_nodes w !! n) → w_intfs w !! rt_intf entry = Some it →
  wire w (rt_intf entry) = Some (fd, port) →
  arp_find w n (next_hop entry dst) = Some e → w_arps w !! e = Some en → arp_resolved en = true →
  w_skbs w !! k = Some s → packet s m d p post → m_intf m = Some (rt_intf entry) →
  14 <= d → 53 <= zlen p + zlen post →
  (∀ w', sends (set_skbs (delete k (w_skbs w)) w)
     [(port, eth_pad (eth_frame (arp_mac en) (IF_MAC it) ETH_PROTO_IP p) post)] w' → Q true w') →
  wp (ip_transmit n entry dst k) Q E w.
Proof.
  intros Hw Hn Hit Hwire Harp Hen Hres Hk Hp Hm Hd Hroom HQ.
  destruct (aw_mac _ _ (wf_arp _ Hw) _ _ Hen) as [Hm6 Hm8].
  destruct (st_intf_mac _ _ _ _ (wf_static _ Hw) _ _ Hit) as [Hl6 Hu8].
  unfold ip_transmit. mstep. apply (wp_mono _ (λ a w', w' = w ∧ a = next_hop entry dst) _ E E);
    [|intros a w' [-> ->]|done].
  { unfold next_hop. destruct (rt_next entry =? 0); [|by mstep].
    mstep. apply wp_arp_table_find; [done..|]. by mstep. }
  mstep. apply (wp_load _ s); [done|].
  assert (skb_intf s = Some (rt_intf entry)) as -> by (rewrite <- (pk_meta _ _ _ _ _ Hp) in Hm; exact Hm).
  do 2 mstep. unfold find_or_add_arp_entry. do 2 mstep. apply wp_arp_table_find; [done..|].
  rewrite Harp. mstep. mstep. apply (wp_load _ en); [done|]. rewrite Hres. cbn [negb].
  by eapply (wp_ethernet_output_wire E _ it (arp_mac en) _ k s m d p post).
Qed.

(** Up to the choice of the next hop: the packet is a datagram from the address
    of the interface of the route. *)
Lemma wp_ip_postroute_route s m d hdr p post n dst nd entry it k Q w :
  wf w → ¬ local_ip w n dst → w_nodes w !! n = Some nd →
  rt_lookup_lpm (n_rt_table (n_nw nd)) dst = Ok (Some entry) → w_intfs w !! rt_intf entry = Some it →
  intf_agrees w n dst m →
  owned w k s → packet s m d (hdr ++ p) post →
  ip_hdr5 hdr → slice 16 4 hdr = le_encode 4 dst → is_u32 dst →
  (∀ s2, packet s2 (m_set_intf (Some (rt_intf entry)) m) d (set_source (IF_IP it) hdr ++ p) post →
     wf (with_skb k s2 w) → owned (with_skb k s2 w) k s2 →
     wp (ip_transmit n entry dst k) Q E (with_skb k s2 w)) →
  wp (ip_postroute deliver n k) Q E w.
Proof.
  intros Hw Hrem Hn Hrt Hit Hagree Ho Hp H5 Hdst16 Hdst HQ. pose proof H5 as [Hl _].
  assert (is_Some (topo w !! n)) as Htopo by (rewrite (node_topo _ _ _ Hn); by eexists).
  rewrite <- (with_skb_id k s w) by by apply owned_lookup.
  unfold ip_postroute. mstep. apply wp_load_with.
  rewrite (pk_data _ _ _ _ _ Hp). unfold ip_dst_ip. mstep. apply wp_read_with.
  apply (packet_rd32 _ _ _ _ _ Hp _ _ 16); [lia|lia|rewrite length_app; lia|].
  rewrite slice_app_l, Hdst16 by lia. split; [done|].
  rewrite le_decode_encode. change (256 ^ Z.of_nat 4) with (2 ^ 32). rewrite Z.mod_small by exact Hdst.
  mstep. apply (wp_load _ nd); [done|]. rewrite Hrt. mstep. mstep.
  assert (match skb_intf s with
          | Some i => negb (bool_decide (i = rt_intf entry)) | None => false end = false) as ->.
  { destruct (skb_intf s) as [i|] eqn:Hi; [|done]. rewrite bool_decide_eq_true_2; [done|].
    apply (Hagree i nd entry); [|done..]. rewrite <- (pk_meta _ _ _ _ _ Hp). exact Hi. }
  mstep. apply wp_on_with. mstep.
  pose proof (packet_set_intf _ _ _ _ _ (Some (rt_intf entry)) Hp) as P1.
  mstep. apply (wp_load _ it); [done|].
  rewrite <- bind_assoc. mstep.
  apply (wp_ip_source_fill _ _ _ _ _ _ _ _ _ _ P1); [done|]. intros s2 P2.
  destruct (with_skb_owned k s s2 w) as [Hw2 Ho2]; [done..|apply P2|].
  mstep. apply wp_is_ip_local; [done|done|]. intros b Hb.
  assert (b = false) as -> by (destruct b; [|done]; exfalso; by apply Hrem, Hb).
  by apply HQ.
Qed.

Lemma wp_ip_output_route s m d p post n proto dst nd entry it k Q w :
  wf w → ¬ local_ip w n dst → w_nodes w !! n = Some nd →
  rt_lookup_lpm (n_rt_table (n_nw nd)) dst = Ok (Some entry) → w_intfs w !! rt_intf entry = Some it →
  intf_agrees w n dst m →
  owned w k s → packet s m d p post →
  20 <= d → 20 + zlen p < 2 ^ 16 → is_u8 proto → is_u32 dst →
  (∀ s2, packet s2 (m_set_intf (Some (rt_intf entry)) m) (d - 20) (ip_datagram proto (IF_IP it) dst p) post →
     wf (with_skb k s2 w) → owned (with_skb k s2 w) k s2 →
     wp (ip_transmit n entry dst k) Q E (with_skb k s2 w)) →
  wp (ip_output_with deliver n dst proto k) Q E w.
Proof.
  intros Hw Hrem Hn Hrt Hit Hagree Ho Hp Hd Hlen Hproto Hdst HQ.
  rewrite <- (with_skb_id k s w) by by apply owned_lookup.
  unfold ip_output_with. mstep. apply wp_on_with. eapply wp_ip_header_fill; [exact Hp|lia|done|done|].
  intros s1 P1. destruct (with_skb_owned k s s1 w) as [Hw1 Ho1]; [done..|apply P1|].
  eapply (wp_ip_postroute_route s1 m (d - 20) _ p post n dst nd entry it);
    [exact Hw1|exact Hrem|exact Hn|exact Hrt|exact Hit|exact Hagree|exact Ho1|exact P1|done|done|done|].
  intros s2. rewrite with_skb_twice, set_source_new. apply HQ.
Qed.

Lemma wp_ip_output_wire s m d p post n proto dst it mac port k Q w :
  reaches w n dst it mac port → intf_agrees w n dst m →
  owned w k s → packet s m d p post →
  34 <= d → 20 + zlen p < 2 ^ 16 → is_u8 proto → is_u32 dst → 33 <= zlen p + zlen post →
  (∀ w', sends (set_skbs (delete k (w_skbs w)) w)
     [(port, eth_pad (eth_frame mac (IF_MAC it) ETH_PROTO_IP (ip_datagram proto (IF_IP it) dst p)) post)]
     w' → Q true w') →
  wp (ip_output_with deliver n dst proto k) Q E w.
Proof.
  intros [Hw Hrem (nd & entry & fd & e & en & Hn & Hrt & Hit & Hwire & Harp & Hen & Hres & Hmac)].
  intros Hagree Ho Hp Hd Hlen Hproto Hdst Hroom HQ.
  eapply (wp_ip_output_route s m d p post n proto dst nd entry it); try done; [lia|].
  intros s2 P2 Hw2 Ho2.
  eapply (wp_ip_transmit_wire s2); [done|by eexists|done|exact Hwire|exact Harp|done|done| |exact P2|done|lia| |].
  - by apply owned_lookup.
  - rewrite length_ip_datagram. lia.
  - rewrite with_skb_free, Hmac. exact HQ.
Qed.

(** ** A next hop that is not known *)

(** Packets of [n] for [dst] leave by the interface [i], and nothing was asked
    about the address of the next hop [nh]. *)
Record unknown_hop (w : world) (n : ptr) (dst : Z) (i : ptr) (it : intf) (nh port : Z) : Prop := {
  uh_wf : wf w;
  uh_remote : ¬ local_ip w n dst;
  uh_route : ∃ nd entry fd, w_nodes w !! n = Some nd ∧
    rt_lookup_lpm (n_rt_table (n_nw nd)) dst = Ok (Some entry) ∧ rt_intf entry = i ∧
    w_intfs w !! i = Some it ∧ wire w i = Some (fd, port) ∧ nh = next_hop entry dst;
  uh_none : arp_find w n nh = None;
}.

(** The state in which the packet [k] waits for the address of the next hop. *)
Definition waiting (w : world) (n : ptr) (nh : Z) (i k : ptr) (s : sk_buff) : world :=
  let e := w_next w in
  set_nodes (alter (λ nd, n_set_nw (n_set_arp_table (e :: n_arp_table (n_nw nd)) (n_nw nd)) nd) n (w_nodes w))
    (set_arps (<[e := mk_arp_entry nh [0; 0; 0; 0; 0; 0] i false [k]]> (w_arps w))
      (set_next (Pos.succ e) (with_skb k s w))).

Lemma wp_ip_transmit_waits s m d p post n entry dst it fd port nd k Q w :
  wf w → w_nodes w !! n = Some nd → w_intfs w !! rt_intf entry = Some it →
  wire w (rt_intf entry) = Some (fd, port) → arp_find w n (next_hop entry dst) = None →
  owned w k s → packet s m d p post → m_intf m = Some (rt_intf entry) →
  14 <= d → 67 <= zlen p + zlen post →
  (∀ w', sends (waiting w n (next_hop entry dst) (rt_intf entry) k s)
     [(port, arp_frame layer2_fill_with_broadcast_mac (IF_MAC it)
        (arp_msg ARP_OP_REQUEST (IF_MAC it) (IF_IP it) [0; 0; 0; 0; 0; 0] (next_hop entry dst)))] w' →
     Q true w') →
  wp (ip_transmit n entry dst k) Q E w.
Proof.
  intros Hw Hn Hit Hwire Harp Ho Hp Hm Hd Hroom HQ.
  destruct (packet_bounds _ _ _ _ _ Hp) as (? & _ & _ & _ & _ & He).
  unfold ip_transmit. mstep. apply (wp_mono _ (λ a w', w' = w ∧ a = next_hop entry dst) _ E E);
    [|intros a w' [-> ->]|done].
  { unfold next_hop. destruct (rt_next entry =? 0); [|by mstep].
    mstep. apply wp_arp_table_find; [done|by eexists|]. by mstep. }
  mstep. apply (wp_load _ s); [by apply owned_lookup|].
  assert (skb_intf s = Some (rt_intf entry)) as Hi by (rewrite <- (pk_meta _ _ _ _ _ Hp) in Hm; exact Hm).
  rewrite Hi. do 2 mstep. unfold find_or_add_arp_entry. do 2 mstep.
  apply wp_arp_table_find; [done|by eexists|]. rewrite Harp.
  mstep. apply wp_alloc. set (e := w_next w). set (en := init_arp_entry _ _).
  mstep. unfold arp_table_entry_add. mstep. apply (wp_update _ _ nd); [done|]. mstep. mstep.
  mstep. apply (wp_load _ en); [apply lookup_insert_eq|]. cbn [negb arp_resolved en init_arp_entry].
  mstep. apply (wp_update _ _ en); [apply lookup_insert_eq|]. set (w1 := hset _ _). mstep.
  assert (w1 = waiting w n (next_hop entry dst) (rt_intf entry) k s) as Ew1.
  { unfold w1, waiting. rewrite with_skb_id by by apply owned_lookup.
    unfold hset, hget, heap_arps, heap_nodes, set_arps, set_nodes, set_next.
    cbn [w_arps w_nodes w_next w_graphs w_intfs w_links w_skbs w_udps w_tcps w_conns w_udp_fds w_tcp_fds
      w_conn_fds w_fd_to_comm w_ip_forward_enable w_next_udp_port w_send_callback w_receive_callback w_trace].
    rewrite insert_insert_eq. f_equal. apply map_eq. intros x. destruct (decide (x = n)) as [->|Hx].
    - by rewrite lookup_insert_eq, lookup_alter_eq, Hn.
    - by rewrite lookup_insert_ne, lookup_alter_ne by congruence. }
  destruct (wf_new_arp w n nd en None) as (Hw' & He' & Ha); [done|done|done|by repeat constructor|done|by eexists|].
  assert (sendable s) as Hsend.
  { unfold sendable. rewrite He, (pk_data _ _ _ _ _ Hp). lia. }
  pose proof (ev_owned _ _ _ He' k s ltac:(done) Ho) as Ho'.
  destruct (wf_push_arp _ (w_next w) en k s (rt_intf entry) Hw' Ha Ho' Hsend Hi) as [Hw1 _];
    [by eexists|].
  eapply (wp_arp_request_wire E (rt_intf entry) it _ fd port); [exact Hw1|done|exact Hwire|].
  intros w' Hs. mstep. apply HQ. by rewrite <- Ew1.
Qed.
End IpSpec.
