(* ===== verification/ProtoSpec.v ===== *)
(** * UDP datagrams and ICMP messages on the wire *)
From S2P Require Import Prelude Cmonad Utils Skbuff World Topology Comm Ethernet Arp Route Ip.
From S2P Require Import Icmp Udp Tcp Stack Invariant SkbRules LinkSafe ArpSafe IpSafe.
From S2P Require Import Packet Wire ArpSpec IpSpec.
#[local] Open Scope Z_scope.

(** ** Messages *)

(** The checksum of UDP is not used: it is zero. *)
Definition udp_msg (sport dport : Z) (data : list Z) : list Z :=
  be16 sport ++ be16 dport ++ be16 (8 + zlen data) ++ [0; 0] ++ data.

Definition icmp_msg (type code : Z) (data : list Z) : list Z :=
  [type; code] ++ be16 (rfc1071 ([type; code; 0; 0] ++ data)) ++ data.

Lemma icmp_msg_verifies type code data :
  is_u8 type → is_u8 code → Forall is_u8 data → 0 < type + code + be_sum data →
  rfc1071 (icmp_msg type code data) = 0.
Proof.
  intros Ht Hc Hd Hpos. unfold icmp_msg, be16.
  apply (rfc1071_store [type; code] 0 0 data); [done| | |by left].
  - assert (is_u8 0) by (unfold is_u8; lia). by rewrite !Forall_app, !Forall_cons.
  - unfold be_sum at 1. cbn [be_words fold_right]. unfold is_u8 in *. lia.
Qed.

(** The frame an IP datagram is sent in, from a buffer with zeros after it. *)
Definition ip_frame (dst src dgram : list Z) : list Z :=
  let f := eth_frame dst src ETH_PROTO_IP dgram in f ++ replicate (60 - length f) 0.

Lemma eth_pad_zeros f n : (60 - length f <= n)%nat → eth_pad f (replicate n 0) = f ++ replicate (60 - length f) 0.
Proof. intros. unfold eth_pad. by rewrite take_replicate, Nat.min_l by lia. Qed.

Lemma length_udp_msg sport dport data : length (udp_msg sport dport data) = (8 + length data)%nat.
Proof. done. Qed.
Lemma length_icmp_msg type code data : length (icmp_msg type code data) = (4 + length data)%nat.
Proof. done. Qed.

Section ProtoSpec.
Context `{Os} (deliver : ptr → W bool) (E : fault → Prop).

(** The protocols run on the IP layer of any depth. *)
Let layer : IpLayer := {| ip_output := ip_output_with deliver |}.
#[local] Existing Instance layer.

Lemma wp_build_udp_bytes sport dport data Q :
  is_u16 sport → is_u16 dport → Forall is_u8 data → 8 + zlen data < 2 ^ 16 →
  (∀ s, packet s no_meta 60 (udp_msg sport dport data) (replicate 53 0) → Q tt s) →
  wp (build_udp sport dport data) Q E (alloc_skb (114 + zlen data)).
Proof.
  intros Hs Hd Hb Hlen HQ. unfold build_udp, BUFF_HEADROOM, UDP_HDR_SIZE.
  unfold udp_src_port, udp_dst_port, udp_total_len.
  mstep. apply (packet_reserve _ _ _ _ _ (alloc_packet (114 + zlen data) ltac:(lia)));
    [lia|done|rewrite length_replicate; lia|].
  intros s0 P0. rewrite drop_replicate in P0.
  replace (Z.to_nat (114 + zlen data + 7) - Z.to_nat 60)%nat with (8 + (length data + 53))%nat in P0 by lia.
  mstep. apply (packet_put _ _ _ _ _ P0); [lia|rewrite length_replicate; lia|].
  intros s1 P1. rewrite take_replicate, drop_replicate in P1.
  replace (8 + (length data + 53) - Z.to_nat 8)%nat with (length data + 53)%nat in P1 by lia.
  change (packet s1 no_meta 60 (replicate 8 0) (replicate (length data + 53) 0)) in P1.
  mstep. apply (packet_put _ _ _ _ _ P1); [lia|rewrite length_replicate; lia|].
  intros s2 P2. rewrite take_replicate, drop_replicate, Nat2Z.id, Nat.min_l in P2 by lia.
  replace (length data + 53 - length data)%nat with 53%nat in P2 by lia.
  mstep. apply (packet_fill _ _ _ _ _ _ _ _ _ _ P2); [done|by rewrite length_replicate|done|].
  intros s3 P3. rewrite drop_replicate, Nat.sub_diag, app_nil_r in P3. clear P0 P1 P2.
  mstep. apply (packet_wr16 _ _ _ _ _ P3 _ _ 0); [done|lia|rewrite length_app; cbn; lia|].
  intros s4 P4. rewrite le_encode_HTONS in P4 by done.
  change (splice _ _ _) with (be16 sport ++ replicate 6 0 ++ data) in P4.
  mstep. apply (packet_wr16 _ _ _ _ _ P4 _ _ 2); [done|lia|rewrite !length_app; cbn; lia|].
  intros s5 P5. rewrite le_encode_HTONS in P5 by done.
  change (splice _ _ _) with (be16 sport ++ be16 dport ++ replicate 4 0 ++ data) in P5.
  mstep. apply (packet_gets_len _ _ _ _ _ P5).
  replace (zlen (_ ++ _)) with (8 + zlen data) by (rewrite !length_app; cbn; lia).
  apply (packet_wr16 _ _ _ _ _ P5 _ _ 4); [done|lia|rewrite !length_app; cbn; lia|].
  intros s6 P6. rewrite le_encode_HTONS in P6 by (unfold is_u16; lia). apply HQ. exact P6.
Qed.

Lemma wp_build_icmp_bytes type code data Q :
  is_u8 type → is_u8 code → Forall is_u8 data → 4 + zlen data <= 2 ^ 17 →
  (∀ s, packet s no_meta 60 (icmp_msg type code data) (replicate 53 0) → Q tt s) →
  wp (build_icmp type code data) Q E (alloc_skb (110 + zlen data)).
Proof.
  intros Ht Hc Hb Hlen HQ. unfold build_icmp, BUFF_HEADROOM, ICMP_HDR_SIZE.
  unfold icmp_type, icmp_code, icmp_cksum, icmp_rest, fill_icmp_cksum, calc_icmp_cksum.
  mstep. apply (packet_reserve _ _ _ _ _ (alloc_packet (110 + zlen data) ltac:(lia)));
    [lia|done|rewrite length_replicate; lia|].
  intros s0 P0. rewrite drop_replicate in P0.
  replace (Z.to_nat (110 + zlen data + 7) - Z.to_nat 60)%nat with (4 + length data + 53)%nat in P0 by lia.
  mstep. apply (packet_put _ _ _ _ _ P0); [lia|rewrite length_replicate; lia|].
  intros s1 P1. rewrite take_replicate, drop_replicate in P1.
  replace (Z.to_nat (4 + zlen data)) with (4 + length data)%nat in P1 by lia.
  rewrite Nat.min_l in P1 by lia. replace (4 + length data + 53 - (4 + length data))%nat with 53%nat in P1 by lia.
  change (packet s1 no_meta 60 ([0; 0; 0; 0] ++ replicate (length data) 0) (replicate 53 0)) in P1.
  mstep. apply (packet_wr8 _ _ _ _ _ P1 _ _ 0); [done|lia|rewrite length_app; cbn; lia|].
  intros s2 P2. cbn [le_encode] in P2. rewrite Z.mod_small in P2 by exact Ht.
  change (splice _ _ _) with ([type; 0; 0; 0] ++ replicate (length data) 0) in P2.
  mstep. apply (packet_wr8 _ _ _ _ _ P2 _ _ 1); [done|lia|rewrite length_app; cbn; lia|].
  intros s3 P3. cbn [le_encode] in P3. rewrite Z.mod_small in P3 by exact Hc.
  change (splice _ _ _) with ([type; code; 0; 0] ++ replicate (length data) 0) in P3.
  mstep. apply (wp_mono _ (λ _ s', packet s' no_meta 60 ([type; code; 0; 0] ++ data) (replicate 53 0)) _ E E);
    [| |done].
  { destruct (Z.eqb_spec (zlen data) 0).
    - destruct data; [|done]. mstep. exact P3.
    - apply (packet_fill _ _ _ _ _ _ _ _ _ _ P3); [done|by rewrite length_replicate|done|].
      intros s4 P4. by rewrite drop_replicate, Nat.sub_diag, app_nil_r in P4. }
  clear P0 P1 P2 P3. intros _ s4 P4.
  mstep. apply (packet_gets_len _ _ _ _ _ P4). rewrite length_app.
  mstep. apply (packet_checksum _ _ _ _ _ P4 _ _ 0); [done|done|cbn; lia|rewrite length_app; lia|].
  rewrite slice_all by (rewrite length_app; lia).
  apply (packet_wr16 _ _ _ _ _ P4 _ _ 2); [done|lia|rewrite !length_app; cbn; lia|].
  intros s5 P5. rewrite le_encode_HTONS in P5.
  - apply HQ. exact P5.
  - apply rfc1071_u16. assert (is_u8 0) by (unfold is_u8; lia). by rewrite Forall_app, !Forall_cons.
Qed.

(** ** Sending through the stack *)

Lemma reaches_evolves w w' n dst it mac port :
  reaches w n dst it mac port → wf w' →
  w_nodes w' = w_nodes w → w_intfs w' = w_intfs w → w_links w' = w_links w → w_arps w' = w_arps w →
  reaches w' n dst it mac port.
Proof.
  intros [Hw Hrem (nd & entry & fd & e & en & Hr)] Hw' En Ei El Ea. split; [done| |].
  - unfold local_ip, topo. by rewrite En, Ei.
  - exists nd, entry, fd, e, en. unfold wire, arp_find. by rewrite En, Ei, El, Ea.
Qed.

Lemma reaches_mac w n dst it mac port :
  reaches w n dst it mac port → length mac = 6%nat ∧ length (IF_MAC it) = 6%nat.
Proof.
  intros [Hw _ (nd & entry & fd & e & en & _ & _ & Hit & _ & _ & Hen & _ & <-)].
  split; [apply (aw_mac _ _ (wf_arp _ Hw) _ _ Hen)|apply (st_intf_mac _ _ _ _ (wf_static _ Hw) _ _ Hit)].
Qed.

(** A datagram built in a new buffer. *)
Lemma wp_ip_output_new s i n proto dst it mac port p Q w :
  reaches w n dst it mac port →
  (∀ nd entry j, i = Some j → w_nodes w !! n = Some nd →
     rt_lookup_lpm (n_rt_table (n_nw nd)) dst = Ok (Some entry) → j = rt_intf entry) →
  packet s (m_set_intf i no_meta) 60 p (replicate 53 0) →
  20 + zlen p < 2 ^ 16 → is_u8 proto → is_u32 dst →
  (∀ w', sends w [(port, ip_frame mac (IF_MAC it) (ip_datagram proto (IF_IP it) dst p))] w' →
         Q true w') →
  wp (ip_output n dst proto (w_next w)) Q E
    (with_skb (w_next w) s (set_next (Pos.succ (w_next w)) w)).
Proof.
  intros Hr Hi Hp Hlen Hproto Hdst HQ. pose proof (rc_wf _ _ _ _ _ _ Hr) as Hw.
  destruct (owned_alloc w s) as (Hw1 & Ho1 & _); [done|apply Hp|].
  fold (with_skb (w_next w) s (set_next (Pos.succ (w_next w)) w)) in *.
  set (w1 := with_skb _ _ _) in *. cbn [ip_output layer].
  eapply (wp_ip_output_wire _ E s _ 60 p (replicate 53 0) n proto dst it mac port);
    [by eapply (reaches_evolves w)| |exact Ho1|exact Hp|done|done|done|done| |].
  - intros j nd entry Hj Hn Hrt. by apply (Hi nd entry j).
  - rewrite length_replicate. lia.
  - intros w' Hs. apply HQ. destruct (reaches_mac _ _ _ _ _ _ Hr) as [Hm1 Hm2].
    rewrite eth_pad_zeros in Hs.
    + by apply (sends_fresh w s).
    + rewrite length_eth_frame, length_ip_datagram by done. lia.
Qed.

(** The same for a next hop that is not known: the datagram waits in the buffer
    [w_next w], and a request for the address is sent. *)
Definition hop_request (it : intf) (nh : Z) : list Z :=
  arp_frame layer2_fill_with_broadcast_mac (IF_MAC it)
    (arp_msg ARP_OP_REQUEST (IF_MAC it) (IF_IP it) [0; 0; 0; 0; 0; 0] nh).

Definition asked_for (w : world) (n : ptr) (nh : Z) (i : ptr) (it : intf) (port : Z)
    (dgram : list Z) (w' : world) : Prop :=
  ∃ m s, packet s m 40 dgram (replicate 53 0) ∧ m_intf m = Some i ∧
    sends (waiting (set_next (Pos.succ (w_next w)) w) n nh i (w_next w) s)
      [(port, hop_request it nh)] w'.

Lemma wp_ip_output_new_waits s i0 n proto dst i it nh port p Q w :
  unknown_hop w n dst i it nh port → (∀ j, i0 = Some j → j = i) →
  packet s (m_set_intf i0 no_meta) 60 p (replicate 53 0) →
  20 + zlen p < 2 ^ 16 → is_u8 proto → is_u32 dst →
  (∀ w', asked_for w n nh i it port (ip_datagram proto (IF_IP it) dst p) w' → Q true w') →
  wp (ip_output n dst proto (w_next w)) Q E
    (with_skb (w_next w) s (set_next (Pos.succ (w_next w)) w)).
Proof.
  intros [Hw Hrem (nd & entry & fd & Hn & Hrt & <- & Hit & Hwire & ->) Hnone] Hi Hp Hlen Hproto Hdst HQ.
  destruct (owned_alloc w s) as (Hw1 & Ho1 & _); [done|apply Hp|].
  fold (with_skb (w_next w) s (set_next (Pos.succ (w_next w)) w)) in *.
  set (w0 := set_next (Pos.succ (w_next w)) w) in *. cbn [ip_output layer].
  eapply (wp_ip_output_route _ E s _ 60 p (replicate 53 0) n proto dst nd entry it);
    [done|done|done|done|done| |exact Ho1|exact Hp|lia|done|done|done|].
  { intros j nd' entry' Hj Hn' Hrt'. assert (nd' = nd) as -> by (cbn in Hn'; congruence).
    assert (entry' = entry) as -> by congruence. by apply Hi. }
  intros s2 P2 Hw2 Ho2. rewrite with_skb_twice in Hw2, Ho2 |- *.
  eapply (wp_ip_transmit_waits _ s2 _ 40 _ (replicate 53 0) n entry dst it fd port nd);
    [exact Hw2|done|done|exact Hwire|exact Hnone|exact Ho2|exact P2|done|lia| |].
  { rewrite length_ip_datagram, length_replicate. lia. }
  intros w' Hs. apply HQ. eexists _, s2. split; [exact P2|]. split; [done|].
  revert Hs. unfold waiting. rewrite with_skb_twice. done.
Qed.

Lemma wp_icmp_out_waits n ip type code data i it nh port Q w :
  unknown_hop w n ip i it nh port →
  is_u8 type → is_u8 code → Forall is_u8 data → 24 + zlen data < 2 ^ 16 → is_u32 ip →
  (∀ w', asked_for w n nh i it port
           (ip_datagram IP_PROTO_ICMP (IF_IP it) ip (icmp_msg type code data)) w' → Q true w') →
  wp (icmp_out n ip type code data) Q E w.
Proof.
  intros Hr Ht Hc Hb Hlen Hip HQ. unfold icmp_out.
  mstep. apply wp_alloc. mstep.
  change (BUFF_HEADROOM + BUFF_TAILROOM + ICMP_HDR_SIZE) with 110.
  set (w0 := set_next (Pos.succ (w_next w)) w). set (k := w_next w).
  change (hset _ _) with (with_skb k (alloc_skb (110 + zlen data)) w0).
  apply wp_on_with. apply wp_build_icmp_bytes; [done..|lia|]. intros s Hs.
  mstep. eapply (wp_ip_output_new_waits s None); [exact Hr|done|exact Hs| |done|done|].
  - rewrite length_icmp_msg. lia.
  - intros w' Hs'. mstep. mstep. mstep. by apply HQ.
Qed.

Lemma wp_udp_out_wire u us i data ip port it mac wport Q w :
  reaches w (if_node it) ip it mac wport →
  w_udps w !! u = Some us → us_intf us = Some i → w_intfs w !! i = Some it →
  (∀ nd entry, w_nodes w !! if_node it = Some nd →
     rt_lookup_lpm (n_rt_table (n_nw nd)) ip = Ok (Some entry) → i = rt_intf entry) →
  Forall is_u8 data → 28 + zlen data < 2 ^ 16 → is_u16 (us_local_port us) → is_u16 port → is_u32 ip →
  (∀ w', sends w [(wport, ip_frame mac (IF_MAC it)
            (ip_datagram IP_PROTO_UDP (IF_IP it) ip (udp_msg (us_local_port us) port data)))] w' →
         Q true w') →
  wp (udp_out u data ip port) Q E w.
Proof.
  intros Hr Hu Hi Hit Hroute Hb Hlen Hlp Hport Hip HQ. unfold udp_out.
  mstep. apply wp_alloc. mstep. apply (wp_load _ us); [done|]. mstep.
  change (BUFF_HEADROOM + BUFF_TAILROOM + UDP_HDR_SIZE) with 114.
  set (w0 := set_next (Pos.succ (w_next w)) w). set (k := w_next w).
  change (hset _ _) with (with_skb k (alloc_skb (114 + zlen data)) w0).
  apply wp_on_with. apply wp_build_udp_bytes; [done..|lia|]. intros s Hs.
  mstep. apply wp_on_with. mstep. rewrite Hi.
  mstep. mstep. mstep. apply (wp_load _ it); [done|].
  eapply (wp_ip_output_new (skb_set_intf (Some i) s) (Some i));
    [exact Hr| |by apply packet_set_intf| | |done|exact HQ].
  - intros nd entry j [= <-]. apply Hroute.
  - rewrite length_udp_msg. lia.
  - done.
Qed.

Lemma wp_icmp_out_wire n ip type code data it mac port Q w :
  reaches w n ip it mac port →
  is_u8 type → is_u8 code → Forall is_u8 data → 24 + zlen data < 2 ^ 16 → is_u32 ip →
  (∀ w', sends w [(port, ip_frame mac (IF_MAC it)
            (ip_datagram IP_PROTO_ICMP (IF_IP it) ip (icmp_msg type code data)))] w' → Q true w') →
  wp (icmp_out n ip type code data) Q E w.
Proof.
  intros Hr Ht Hc Hb Hlen Hip HQ. unfold icmp_out.
  mstep. apply wp_alloc. mstep.
  change (BUFF_HEADROOM + BUFF_TAILROOM + ICMP_HDR_SIZE) with 110.
  set (w0 := set_next (Pos.succ (w_next w)) w). set (k := w_next w).
  change (hset _ _) with (with_skb k (alloc_skb (110 + zlen data)) w0).
  apply wp_on_with. apply wp_build_icmp_bytes; [done..|lia|]. intros s Hs.
  mstep. eapply (wp_ip_output_new s None); [exact Hr|done|exact Hs| |done|done|].
  - rewrite length_icmp_msg. lia.
  - intros w' Hs'. mstep. mstep. mstep. by apply HQ.
Qed.
End ProtoSpec.
