(* ===== verification/RecvSpec.v ===== *)
(** * Receiving frames *)
From S2P Require Import Prelude Cmonad Utils Skbuff World Topology Comm Ethernet Arp Route Ip.
From S2P Require Import Icmp Udp Tcp Stack Invariant SkbRules LinkSafe ArpSafe IpSafe StackSafe.
From S2P Require Import Packet RecvSafe Wire ArpSpec IpSpec ProtoSpec.
#[local] Open Scope Z_scope.

(** The interface [it] of descriptor [fd] is in L3 mode. *)
Record listens (w : world) (fd : Z) (i : ptr) (it : intf) : Prop := {
  li_wf : wf w;
  li_fd : w_fd_to_comm w !! fd = Some i;
  li_intf : w_intfs w !! i = Some it;
  li_l3 : IS_INTF_L3_MODE it = true;
}.

(** A frame for this interface: its destination passes the filter. *)
Definition for_me (it : intf) (dst : list Z) : Prop :=
  dst = IF_MAC it ∨ IS_MAC_BROADCAST_ADDR dst = true.

Lemma sends_set_next w : sends w [] (set_next (Pos.succ (w_next w)) w).
Proof.
  split; [|cbn; lia]. exists [], (Pos.succ (w_next w)). split; [|done].
  rewrite app_nil_r. by destruct w.
Qed.

Lemma eth_frame_fields dst src proto p :
  length dst = 6%nat → length src = 6%nat →
  slice 0 6 (eth_frame dst src proto p) = dst ∧ slice 12 2 (eth_frame dst src proto p) = be16 proto ∧
  drop 14 (eth_frame dst src proto p) = p.
Proof. intros Hd Hs. unfold eth_frame. explode dst Hd. explode src Hs. done. Qed.

Lemma sendtos_prints t : Forall is_print t → sendtos t = [].
Proof. unfold sendtos. induction 1 as [|[] t He _ IH]; cbn; by rewrite ?IH. Qed.

Section RecvSpec.
Context `{Os} (E : fault → Prop).

(** From the reception of the bytes of a frame to [ethernet_input]. *)
Lemma wp_recv_bytes fd i it f Q w :
  listens w fd i it → Forall is_u8 f → 0 < zlen f <= 2044 →
  (∀ s w1, sends w [] w1 → w_next w1 = Pos.succ (w_next w) →
     packet s (recv_meta i) 4 f (replicate (2051 - length f) 0) →
     (∀ s', skb_wf s' → wf (with_skb (w_next w) s' w1) ∧ owned (with_skb (w_next w) s' w1) (w_next w) s') →
     wp (let* ok := ethernet_input (w_next w) in
         if (ok : bool) then ret tt else print PacketDropped ;;; free_skb (w_next w)) Q E
       (with_skb (w_next w) s w1)) →
  wp (recv_one fd (RecvFrame f)) Q E w.
Proof.
  intros [Hw Hfd Hit Hl3] Hb Hf HQ.
  assert (received_bytes 2044 (RecvFrame f) = f) as Ef by (apply take_ge; lia).
  apply (wp_recv_buffer E fd i it); [done..| |]; cbn zeta.
  { cbn [received_count]. rewrite Ef. lia. }
  rewrite Ef. intros _ s t0 Ht0%sendtos_prints P. set (w0 := set_trace _ (set_next _ w)).
  mstep. apply (wp_pkt_receive_with E _ i it s f (replicate (2051 - length f) 0)); [done..|]. rewrite Hl3.
  set (t := if w_receive_callback w0 then [EReceiveCallback f i] else []).
  set (w1 := set_trace (w_trace w0 ++ t) w0). apply wp_bind_inv, (HQ s w1).
  - split; [|cbn; lia]. exists (t0 ++ t), (Pos.succ (w_next w)). subst w1 w0. cbn.
    split; [by rewrite app_assoc; destruct w|]. unfold sendtos in *. rewrite omap_app, Ht0. subst t. by case_match.
  - done.
  - exact P.
  - intros s' Hs'. destruct (owned_alloc w s') as (Hw1 & Ho1 & _); [done|done|]. split; [|exact Ho1].
    change (wf (set_trace (w_trace w0 ++ t) (with_skb (w_next w) s' (set_next (Pos.succ (w_next w)) w)))).
    by apply wf_trace.
Qed.

(** The first steps of [ethernet_input]: the header, the filter, the type. *)
Lemma wp_ethernet_input_head (i k : ptr) it s w dst src proto p post Q :
  w_intfs w !! i = Some it → length dst = 6%nat → length src = 6%nat → is_u16 proto →
  packet s (recv_meta i) 4 (eth_frame dst src proto p) post →
  (∀ s', packet s' (mk_meta (Some i) (Some 4) None None None) 4 (eth_frame dst src proto p) post →
     wp (if negb (bool_decide (dst = IF_MAC it) || IS_MAC_BROADCAST_ADDR dst) then ret false
         else if proto =? ETH_PROTO_ARP then on_skb k (skb_pull ETH_HDR_SIZE) ;;; arp_input k
         else if proto =? ETH_PROTO_IP then
           on_skb k (skb_pull ETH_HDR_SIZE ;;; modify (λ s, skb_set_ip_hdr (Some (skb_data s)) s)) ;;;
           ip_preroute ip_input k
         else ret false) Q E (with_skb k s' w)) →
  wp (ethernet_input k) Q E (with_skb k s w).
Proof.
  intros Hit Hd6 Hs6 Hproto P3 HQ. destruct (eth_frame_fields dst src proto p Hd6 Hs6) as (F1 & F2 & _).
  set (f := eth_frame dst src proto p) in *.
  assert (zlen f = 14 + zlen p) as Hf by (unfold f; rewrite length_eth_frame; lia).
  assert (skb_intf s = Some i) as Hi3 by exact (f_equal m_intf (pk_meta _ _ _ _ _ P3)).
  unfold ethernet_input. mstep. apply wp_load_with.
  mstep. apply wp_on_with. mstep.
  rewrite (pk_data _ _ _ _ _ P3), (pk_len _ _ _ _ _ P3).
  apply (packet_set_ethernet_hdr _ _ _ _ _ (Some 4)) in P3.
  set (s4 := skb_set_ethernet_hdr (Some 4) s) in *. unfold ETH_HDR_SIZE at 1.
  destruct (Z.ltb_spec (zlen f) 14); [lia|].
  rewrite Hi3. mstep. mstep. mstep.
  unfold ethernet_input_qualify, eth_dst_mac, MAC_ADDR_SIZE.
  mstep. apply wp_read_with. apply (packet_rdn _ _ _ _ _ P3 _ _ 0); [done|done|done|lia|].
  rewrite F1. split; [done|]. mstep. apply (wp_load _ it); [done|]. mstep.
  specialize (HQ s4 P3). destruct (_ || _) eqn:Hq; cbn [negb] in HQ |- *; [|exact HQ].
  unfold eth_type. mstep. apply wp_read_with.
  apply (packet_rd16 _ _ _ _ _ P3 _ _ 12); [done|done|lia|]. rewrite F2. split; [done|].
  rewrite le_decode_be16, !HTONS_eqb by done. exact HQ.
Qed.

(** From the reception of a frame to the handler of its protocol. *)
Lemma wp_recv_frame fd i it dst src proto p Q w :
  listens w fd i it → for_me it dst → proto = ETH_PROTO_ARP ∨ proto = ETH_PROTO_IP →
  length dst = 6%nat → length src = 6%nat → Forall is_u8 (eth_frame dst src proto p) →
  14 + zlen p <= 2044 →
  (∀ s w1, sends w [] w1 → w_next w1 = Pos.succ (w_next w) → wf (with_skb (w_next w) s w1) →
     owned (with_skb (w_next w) s w1) (w_next w) s →
     packet s (mk_meta (Some i) (Some 4) (if proto =? ETH_PROTO_IP then Some 18 else None) None None)
       18 p (replicate (2051 - length (eth_frame dst src proto p)) 0) →
     wp (let* ok := if proto =? ETH_PROTO_ARP then arp_input (w_next w)
                    else if proto =? ETH_PROTO_IP then ip_preroute ip_input (w_next w)
                    else ret false in
         if (ok : bool) then ret tt else print PacketDropped ;;; free_skb (w_next w)) Q E
       (with_skb (w_next w) s w1)) →
  wp (recv_one fd (RecvFrame (eth_frame dst src proto p))) Q E w.
Proof.
  intros Hli Hme Hknown Hd6 Hs6 Hb Hlen HQ. pose proof Hli as [Hw Hfd Hit Hl3].
  assert (is_u16 proto) as Hproto by (by destruct Hknown as [->| ->]).
  destruct (eth_frame_fields dst src proto p Hd6 Hs6) as (_ & _ & F3).
  set (f := eth_frame dst src proto p) in *.
  assert (zlen f = 14 + zlen p) as Hf by (unfold f; rewrite length_eth_frame; lia).
  apply (wp_recv_bytes fd i it); [done|done|lia|]. intros s w1 Hs1 Hn1 P3 Hok.
  assert (w_intfs w1 !! i = Some it) as Hit1 by by destruct Hs1 as [(t & n & -> & _) _].
  mstep. eapply (wp_ethernet_input_head i _ it s w1 dst src proto p); [done..|exact P3|].
  intros s4 P4. fold f in P4. unfold ETH_HDR_SIZE.
  assert (bool_decide (dst = IF_MAC it) || IS_MAC_BROADCAST_ADDR dst = true) as ->.
  { destruct Hme as [->| ->]; [|apply orb_true_r]. by rewrite bool_decide_eq_true_2. }
  cbn [negb].
  assert (∀ s, packet s (mk_meta (Some i) (Some 4) (if proto =? ETH_PROTO_IP then Some 18 else None) None None)
       18 p (replicate (2051 - length f) 0) → wp (let* ok := if proto =? ETH_PROTO_ARP then arp_input (w_next w)
                    else if proto =? ETH_PROTO_IP then ip_preroute ip_input (w_next w) else ret false in
         if (ok : bool) then ret tt else print PacketDropped ;;; free_skb (w_next w)) Q E (with_skb (w_next w) s w1)) as Hfin.
  { intros s5 Hs5. destruct (Hok s5 (pk_wf _ _ _ _ _ Hs5)). by apply HQ. }
  clear HQ. assert (∀ x, (proto =? x) = true → proto = x) as Heq by (intros x; apply Z.eqb_eq).
  destruct (proto =? ETH_PROTO_ARP) eqn:Harp; [|destruct (proto =? ETH_PROTO_IP) eqn:Hip].
  - mstep. apply wp_on_with. apply (packet_pull _ _ _ _ _ P4); [lia|].
    intros s5 P5. change (Z.to_nat 14) with 14%nat in P5. rewrite F3 in P5.
    apply wp_bind_inv, Hfin. rewrite (Heq _ Harp). exact P5.
  - mstep. apply wp_on_with. mstep. apply (packet_pull _ _ _ _ _ P4); [lia|].
    intros s5 P5. change (Z.to_nat 14) with 14%nat in P5. rewrite F3 in P5. mstep.
    rewrite (pk_data _ _ _ _ _ P5). apply (packet_set_ip_hdr _ _ _ _ _ (Some 18)) in P5.
    apply wp_bind_inv, Hfin. exact P5.
  - destruct Hknown as [->| ->]; done.
Qed.

(** A frame for another host, or of another protocol, is dropped. *)
Lemma wp_recv_filtered fd i it dst src proto p Q w :
  listens w fd i it → ¬ for_me it dst ∨ proto ≠ ETH_PROTO_ARP ∧ proto ≠ ETH_PROTO_IP →
  length dst = 6%nat → length src = 6%nat → is_u16 proto → Forall is_u8 (eth_frame dst src proto p) →
  14 + zlen p <= 2044 → (∀ w', sends w [] w' → Q tt w') →
  wp (recv_one fd (RecvFrame (eth_frame dst src proto p))) Q E w.
Proof.
  intros Hli Hno Hd6 Hs6 Hproto Hb Hlen HQ. pose proof Hli as [Hw Hfd Hit Hl3].
  assert (zlen (eth_frame dst src proto p) = 14 + zlen p) as Hf by (rewrite length_eth_frame; lia).
  apply (wp_recv_bytes fd i it); [done|done|lia|]. intros s w1 Hs1 Hn1 P3 _.
  assert (w_intfs w1 !! i = Some it) as Hit1 by by destruct Hs1 as [(t & n & -> & _) _].
  mstep. eapply (wp_ethernet_input_head i _ it s w1 dst src proto p); [done..|exact P3|]. intros s4 P4.
  match goal with |- wp ?m _ _ _ => assert (m = ret false) as -> end.
  { destruct Hno as [Hme|[Ha Hi]].
    - destruct (_ || _) eqn:Hq; [|done]. exfalso. apply Hme.
      apply orb_true_iff in Hq as [Hq%bool_decide_eq_true|Hq]; [by left|by right].
    - apply Z.eqb_neq in Ha, Hi. rewrite Ha, Hi. by destruct (negb _). }
  mstep. mstep. apply wp_print. apply (wp_dealloc _ s4); [apply lookup_insert_eq|]. apply HQ.
  destruct Hs1 as [(t & n & -> & Ht) Hn]. split; [|exact Hn]. exists (t ++ [EPrint PacketDropped]), n. split.
  - cbn -[insert delete]. rewrite delete_insert_id by by apply (wf_unused_skbs w). by rewrite <- app_assoc.
  - unfold sendtos in *. by rewrite omap_app, Ht.
Qed.

(** The buffer of the frame is gone at the end. *)
Lemma sends_recv w s w1 fr w' :
  wf w → sends w [] w1 →
  sends (set_skbs (delete (w_next w) (w_skbs (with_skb (w_next w) s w1))) (with_skb (w_next w) s w1)) fr w' →
  sends w fr w'.
Proof.
  intros Hw Hs1 Hs. apply (sends_trans _ w1 _ []); [done|].
  rewrite with_skb_free, delete_id in Hs.
  - destruct Hs1 as [(t & n & -> & _) _]. by destruct w; exact Hs.
  - destruct Hs1 as [(t & n & -> & _) _]. apply (wf_unused_skbs w); [done|lia].
Qed.

(** ** ARP *)

Lemma wp_recv_arp_request fd i it dst src sha spa tha tpa pad_ fdo port Q w :
  listens w fd i it → for_me it dst →
  let f := eth_frame dst src ETH_PROTO_ARP (arp_msg ARP_OP_REQUEST sha spa tha tpa ++ pad_) in
  length dst = 6%nat → length src = 6%nat → Forall is_u8 f → zlen f <= 2044 →
  length sha = 6%nat → length tha = 6%nat → is_u32 spa → is_u32 tpa →
  wire w i = Some (fdo, port) → tpa = IF_IP it →
  (∀ w', sends w [(port, arp_frame sha (IF_MAC it)
     (arp_msg ARP_OP_REPLY (IF_MAC it) (IF_IP it) sha spa))] w' → Q tt w') →
  wp (recv_one fd (RecvFrame f)) Q E w.
Proof.
  intros Hli Hme f Hd Hs Hb Hlen Hsha Htha Hspa Htpa Hwire Heq HQ. pose proof Hli as [Hw _ Hit _].
  apply (wp_recv_frame fd i it); [done|done|by left|done..| |].
  { unfold f in Hlen. rewrite length_eth_frame in Hlen by done. lia. }
  intros s w1 Hs1 Hn1 Hw1 Ho1 Hp. mstep.
  assert (∃ t n, w1 = set_trace t (set_next n w)) as (t & n & Ew1)
    by (destruct Hs1 as [(t & n & -> & _) _]; by do 2 eexists).
  eapply (wp_arp_request E (w_next w) i it sha spa tha tpa fdo port).
  - split; [done|by rewrite Ew1|]. eexists s, _, _, pad_, _. split; [by apply owned_lookup|]. by split.
  - done.
  - done.
  - done.
  - done.
  - by rewrite Ew1.
  - intros _ w' Hs'. mstep. apply HQ. by apply (sends_recv w s w1).
  - done.
Qed.

(** ** ICMP *)

Lemma sends_print w m fr w' : sends (set_trace (w_trace w ++ [EPrint m]) w) fr w' → sends w fr w'.
Proof.
  intros [(t & n & -> & Ht) Hn]. split; [|done]. exists ([EPrint m] ++ t), n. split; [|done].
  cbn. rewrite <- app_assoc. by destruct w.
Qed.

Section Deliver.
Context (deliver : ptr → W bool).
Let layer : IpLayer := {| ip_output := ip_output_with deliver |}.
#[local] Existing Instance layer.

Lemma wp_icmp_input_echo k i it s m d post o src c1 c2 data it' mac port Q w :
  wf (with_skb k s w) → owned (with_skb k s w) k s → w_intfs w !! i = Some it →
  packet s m d ([8; 0; c1; c2] ++ data) post → m_intf m = Some i → m_ip m = Some o →
  rd32 (skb_head s) (o + 12) = Ok src → is_u32 src → 24 + zlen data < 2 ^ 16 →
  reaches (with_skb k s w) (if_node it) src it' mac port →
  (∀ w', sends (set_skbs (delete k (w_skbs w)) w)
     [(port, ip_frame mac (IF_MAC it') (ip_datagram IP_PROTO_ICMP (IF_IP it') src
        (icmp_msg ICMP_ECHO_REPLY_TYPE ICMP_ECHO_REPLY_CODE data)))] w' → Q true w') →
  wp (icmp_input k) Q E (with_skb k s w).
Proof.
  intros Hw Ho Hit Hp Hmi Hmo Hsrc Hu32 Hlen Hr HQ.
  assert (skb_intf s = Some i) as Hi by (rewrite <- (pk_meta _ _ _ _ _ Hp) in Hmi; exact Hmi).
  assert (skb_ip_hdr s = Some o) as Hoip by (rewrite <- (pk_meta _ _ _ _ _ Hp) in Hmo; exact Hmo).
  pose proof (packet_bytes _ _ _ _ _ Hp) as [[_ Hdata]%Forall_app _].
  destruct (intf_node _ _ _ Hw Hit) as [nd Hnd].
  assert (zlen ([8; 0; c1; c2] ++ data) = 4 + zlen data) as Hl by (rewrite length_app; cbn; lia).
  unfold icmp_input, ICMP_HDR_SIZE, icmp_type, icmp_code, icmp_rest, ip_src_ip.
  mstep. apply wp_load_with. rewrite (pk_len _ _ _ _ _ Hp), (pk_data _ _ _ _ _ Hp), Hl.
  destruct (Z.ltb_spec (4 + zlen data) 4); [lia|].
  mstep. apply wp_read_with. apply (packet_rd8 _ _ _ _ _ Hp _ _ 0); [lia|lia|lia|]. split; [done|].
  mstep. apply wp_read_with. apply (packet_rd8 _ _ _ _ _ Hp _ _ 1); [lia|lia|lia|]. split; [done|].
  change ((le_decode (slice 0 1 ([8; 0; c1; c2] ++ data)) =? ICMP_ECHO_REQUEST_TYPE) &&
          (le_decode (slice 1 1 ([8; 0; c1; c2] ++ data)) =? ICMP_ECHO_REQUEST_CODE)) with true.
  cbv beta match. mstep. mstep. unfold skb_names. rewrite Hi. mstep. mstep.
  mstep. apply (wp_load _ it); [done|]. mstep. apply (wp_load _ nd); [done|]. mstep.
  mstep. apply wp_print. set (w1 := set_trace (w_trace w ++ [EPrint (ReceivedPing (n_name nd) (if_name it))]) w).
  change (set_trace _ (with_skb k s w)) with (with_skb k s w1).
  mstep. mstep. mstep. apply (wp_load _ it); [done|]. rewrite Hoip. mstep. mstep.
  mstep. apply wp_read_with. apply (wp_s_rd32_at _ _ src); [done|]. split; [done|].
  mstep. apply wp_read_with. apply (packet_rdn _ _ _ _ _ Hp _ _ 4); [done|lia|lia|lia|]. split; [done|].
  replace (slice 4 (4 + zlen data - 4) _) with data.
  2: { unfold slice. cbn. replace (4 + zlen data - 4) with (zlen data) by lia. by rewrite Nat2Z.id, firstn_all. }
  mstep. einvoke (wp_icmp_out_wire deliver E); [|done|done|done|done|done|].
  { by apply (reaches_evolves (with_skb k s w)). }
  intros w2 Hs2. mstep. mstep. pose proof Hs2 as [(t & nx & -> & _) _].
  apply (wp_dealloc _ s); [apply lookup_insert_eq|]. mstep. apply HQ.
  apply (sends_free _ _ _ k) in Hs2. rewrite with_skb_free in Hs2.
  apply (sends_print _ (ReceivedPing (n_name nd) (if_name it))). exact Hs2.
Qed.
End Deliver.

(** ** Local delivery *)

(** The protocol, the source and the destination in an IP header. *)
Record ip_fields (hdr : list Z) (proto src dst : Z) : Prop := {
  if_length : length hdr = 20%nat;
  if_proto : slice 9 1 hdr = [proto];
  if_src : slice 12 4 hdr = le_encode 4 src;
  if_dst : slice 16 4 hdr = le_encode 4 dst;
  if_src32 : is_u32 src;
  if_dst32 : is_u32 dst;
}.

Lemma ip_header_fields len proto src dst ck :
  is_u32 src → is_u32 dst → ip_fields (ip_header len proto src dst ck) proto src dst.
Proof. by split. Qed.

(** A datagram for an address of this node reaches [ip_input]. *)
Lemma wp_recv_ip_local fd i it dst src hdr q proto sip dip Q w :
  listens w fd i it → for_me it dst → ip_fields hdr proto sip dip → local_ip w (if_node it) dip →
  let f := eth_frame dst src ETH_PROTO_IP (hdr ++ q) in
  length dst = 6%nat → length src = 6%nat → Forall is_u8 f → zlen f <= 2044 →
  (∀ s w1, sends w [] w1 → w_next w1 = Pos.succ (w_next w) → wf (with_skb (w_next w) s w1) →
     owned (with_skb (w_next w) s w1) (w_next w) s →
     packet s (mk_meta (Some i) (Some 4) (Some 18) None None) 18 (hdr ++ q)
       (replicate (2051 - length f) 0) →
     wp (let* ok := ip_input (w_next w) in
         if (ok : bool) then ret tt else print PacketDropped ;;; free_skb (w_next w)) Q E
       (with_skb (w_next w) s w1)) →
  wp (recv_one fd (RecvFrame f)) Q E w.
Proof.
  intros Hli Hme [Hhl Hpr Hsi Hdi Hs32 Hd32] Hloc f Hd Hs Hb Hlen HQ. pose proof Hli as [Hw _ Hit _].
  apply (wp_recv_frame fd i it); [done|done|by right|done..| |].
  { unfold f in Hlen. rewrite length_eth_frame in Hlen by done. lia. }
  intros s w1 Hs1 Hn1 Hw1 Ho1 Hp.
  assert (∃ t n, w1 = set_trace t (set_next n w)) as (t & n & Ew1)
    by (destruct Hs1 as [(t & n & -> & _) _]; by do 2 eexists).
  change (ETH_PROTO_IP =? ETH_PROTO_ARP) with false.
  change (ETH_PROTO_IP =? ETH_PROTO_IP) with true in *. cbv beta match in *.
  specialize (HQ s w1 Hs1 Hn1 Hw1 Ho1 Hp). apply wp_bind_inv in HQ.
  mstep. unfold ip_preroute, ip_dst_ip. mstep. apply wp_load_with.
  assert (skb_intf s = Some i) as Hi by exact (f_equal m_intf (pk_meta _ _ _ _ _ Hp)).
  rewrite Hi. do 2 mstep. mstep. apply (wp_load _ it); [by rewrite Ew1|].
  rewrite (pk_data _ _ _ _ _ Hp). mstep. apply wp_read_with.
  apply (packet_rd32 _ _ _ _ _ Hp _ _ 16); [done|done|rewrite length_app; lia|]. split; [done|].
  rewrite slice_app_l, Hdi, le_decode_encode by lia.
  change (256 ^ Z.of_nat 4) with (2 ^ 32). rewrite Z.mod_small by exact Hd32.
  mstep. apply wp_is_ip_local; [done| |].
  { rewrite Ew1. exact (st_intf_node _ _ _ _ (wf_static _ Hw) i it Hit). }
  intros b Hbl. assert (b = true) as ->; [|exact HQ].
  apply Hbl. by rewrite Ew1.
Qed.

(** ** ICMP messages *)

(** A message for this node reaches [icmp_input]. *)
Lemma wp_recv_icmp fd i it dst src hdr p sip dip Q w :
  listens w fd i it → for_me it dst → ip_fields hdr IP_PROTO_ICMP sip dip →
  local_ip w (if_node it) dip →
  let f := eth_frame dst src ETH_PROTO_IP (hdr ++ p) in
  length dst = 6%nat → length src = 6%nat → Forall is_u8 f → zlen f <= 2044 →
  (∀ s w1, sends w [] w1 → w_next w1 = Pos.succ (w_next w) → wf (with_skb (w_next w) s w1) →
     owned (with_skb (w_next w) s w1) (w_next w) s →
     packet s (mk_meta (Some i) (Some 4) (Some 18) None None) 38 p (replicate (2051 - length f) 0) →
     rd32 (skb_head s) (18 + 12) = Ok sip →
     wp (let* ok := icmp_input (H := {| ip_output := ip_output_with (ip_input_fuel 1) |}) (w_next w) in
         if (ok : bool) then ret tt else print PacketDropped ;;; free_skb (w_next w)) Q E
       (with_skb (w_next w) s w1)) →
  wp (recv_one fd (RecvFrame f)) Q E w.
Proof.
  intros Hli Hme Hf Hloc f Hd Hs Hb Hlen HQ.
  eapply wp_recv_ip_local; [exact Hli|exact Hme|exact Hf|done..|].
  pose proof Hf as [Hhl Hpr Hsi Hdi Hs32 Hd32].
  intros s w1 Hs1 Hn1 Hw1 Ho1 Hp.
  pose proof (packet_field _ _ _ _ _ Hp 4 30 12 eq_refl ltac:(done) ltac:(rewrite length_app; lia)) as Hsrc.
  change (Z.of_nat 4) with 4 in Hsrc. rewrite slice_app_l, Hsi, le_decode_encode in Hsrc by lia.
  change (256 ^ Z.of_nat 4) with (2 ^ 32) in Hsrc. rewrite Z.mod_small in Hsrc by exact Hs32.
  mstep. unfold ip_input, STACK_FUEL. cbn [ip_input_fuel]. unfold ip_input_body at 1, ip_proto, IP_HDR_SIZE.
  mstep. apply wp_load_with. rewrite (pk_data _ _ _ _ _ Hp). mstep. apply wp_read_with.
  apply (packet_rd8 _ _ _ _ _ Hp _ _ 9); [done|done|rewrite length_app; lia|]. split; [done|].
  rewrite slice_app_l, Hpr by lia.
  change (le_decode [IP_PROTO_ICMP] =? IP_PROTO_ICMP) with true. cbv beta match.
  mstep. apply wp_on_with. apply (packet_pull_head _ _ _ _ _ Hp); [rewrite length_app; lia|].
  intros s2 P2 Hh2. change (Z.to_nat 20) with 20%nat in P2. change (18 + 20) with 38 in P2.
  rewrite drop_app_length' in P2 by done.
  destruct (with_skb_owned (w_next w) s s2 (with_skb (w_next w) s w1)) as [Hw2 Ho2]; [done..|apply P2|].
  rewrite with_skb_twice in Hw2, Ho2.
  apply wp_bind_inv, HQ; [done|done|done|done|exact P2|by rewrite Hh2].
Qed.

(** An echo request is answered. *)
Lemma wp_recv_echo fd i it dst src hdr c1 c2 data sip dip it' mac port Q w :
  listens w fd i it → for_me it dst → ip_fields hdr IP_PROTO_ICMP sip dip →
  local_ip w (if_node it) dip → reaches w (if_node it) sip it' mac port →
  let f := eth_frame dst src ETH_PROTO_IP (hdr ++ [8; 0; c1; c2] ++ data) in
  length dst = 6%nat → length src = 6%nat → Forall is_u8 f → zlen f <= 2044 →
  (∀ w', sends w [(port, ip_frame mac (IF_MAC it') (ip_datagram IP_PROTO_ICMP (IF_IP it') sip
            (icmp_msg ICMP_ECHO_REPLY_TYPE ICMP_ECHO_REPLY_CODE data)))] w' → Q tt w') →
  wp (recv_one fd (RecvFrame f)) Q E w.
Proof.
  intros Hli Hme Hf Hloc Hr f Hd Hs Hb Hlen HQ. pose proof Hli as [Hw _ Hit _].
  eapply wp_recv_icmp; [exact Hli|exact Hme|exact Hf|done..|].
  intros s w1 Hs1 Hn1 Hw1 Ho1 Hp Hsrc. mstep.
  assert (∃ t n, w1 = set_trace t (set_next n w)) as (t & n & Ew1)
    by (destruct Hs1 as [(t & n & -> & _) _]; by do 2 eexists).
  pose proof Hf as [Hhl _ _ _ Hs32 _].
  unfold f in Hlen. rewrite length_eth_frame, !length_app in Hlen by done. cbn [length] in Hlen.
  eapply (wp_icmp_input_echo _ (w_next w) i it s _ _ _ 18 sip c1 c2 data it' mac port);
    [exact Hw1|exact Ho1|by rewrite Ew1|exact Hp|done|done|exact Hsrc|done|lia| |].
  { apply (reaches_evolves w); [done|exact Hw1|by rewrite Ew1..]. }
  intros w' Hs'. mstep. apply HQ. apply (sends_recv w s w1); [done|done|]. by rewrite with_skb_free.
Qed.

(** The state after a message was printed. *)
Definition printed (w : world) (m : message) (w' : world) : Prop :=
  ∃ t n, w' = set_trace (w_trace w ++ t) (set_next n w) ∧ (w_next w <= n)%positive ∧
    sendtos t = [] ∧ EPrint m ∈ t.

(** An echo reply is reported. *)
Lemma wp_recv_pong fd i it nd dst src hdr c1 c2 data sip dip Q w :
  listens w fd i it → for_me it dst → ip_fields hdr IP_PROTO_ICMP sip dip →
  local_ip w (if_node it) dip → w_nodes w !! if_node it = Some nd →
  let f := eth_frame dst src ETH_PROTO_IP (hdr ++ [0; 0; c1; c2] ++ data) in
  length dst = 6%nat → length src = 6%nat → Forall is_u8 f → zlen f <= 2044 →
  (∀ w', printed w (ReceivedPong (n_name nd) (if_name it)) w' → Q tt w') →
  wp (recv_one fd (RecvFrame f)) Q E w.
Proof.
  intros Hli Hme Hf Hloc Hnd f Hd Hs Hb Hlen HQ. pose proof Hli as [Hw _ Hit _].
  eapply wp_recv_icmp; [exact Hli|exact Hme|exact Hf|done..|].
  intros s w1 Hs1 Hn1 Hw1 Ho1 Hp Hsrc. mstep.
  destruct Hs1 as [(t & n & -> & Ht) Hle].
  assert (skb_intf s = Some i) as Hi by exact (f_equal m_intf (pk_meta _ _ _ _ _ Hp)).
  unfold icmp_input, ICMP_HDR_SIZE, icmp_type, icmp_code.
  mstep. apply wp_load_with. rewrite (pk_len _ _ _ _ _ Hp), (pk_data _ _ _ _ _ Hp).
  destruct (Z.ltb_spec (zlen ([0; 0; c1; c2] ++ data)) 4) as [Hl|_]; [rewrite length_app in Hl; cbn in Hl; lia|].
  mstep. apply wp_read_with. apply (packet_rd8 _ _ _ _ _ Hp _ _ 0); [done|done|rewrite length_app; cbn; lia|]. split; [done|].
  mstep. apply wp_read_with. apply (packet_rd8 _ _ _ _ _ Hp _ _ 1); [done|done|rewrite length_app; cbn; lia|]. split; [done|].
  change ((le_decode (slice 0 1 ([0; 0; c1; c2] ++ data)) =? ICMP_ECHO_REQUEST_TYPE) &&
          (le_decode (slice 1 1 ([0; 0; c1; c2] ++ data)) =? ICMP_ECHO_REQUEST_CODE)) with false.
  change ((le_decode (slice 0 1 ([0; 0; c1; c2] ++ data)) =? ICMP_ECHO_REPLY_TYPE) &&
          (le_decode (slice 1 1 ([0; 0; c1; c2] ++ data)) =? ICMP_ECHO_REPLY_CODE)) with true.
  cbv beta match. mstep. mstep. unfold skb_names. rewrite Hi. mstep. mstep.
  mstep. apply (wp_load _ it); [done|]. mstep. apply (wp_load _ nd); [done|]. mstep.
  apply wp_print. mstep. apply (wp_dealloc _ s); [apply lookup_insert_eq|]. mstep. mstep.
  apply HQ. exists (t ++ [EPrint (ReceivedPong (n_name nd) (if_name it))]), n. split_and!.
  - cbn -[insert delete]. rewrite delete_insert_id by by apply (wf_unused_skbs w).
    by rewrite <- app_assoc.
  - exact Hle.
  - unfold sendtos in *. by rewrite omap_app, Ht.
  - apply elem_of_app. right. by left.
Qed.
End RecvSpec.
