(* ===== verification/SockSpec.v ===== *)
(** * Receive queues as byte strings

    A receive queue keeps the newest packet first; [rx_data] is the list of the
    payloads that wait, the oldest first.  The socket calls that read refine
    [fifo_read], a read from a queue of messages. *)
From S2P Require Import Prelude Cmonad Utils Skbuff World Topology Comm Ethernet Arp Route Ip.
From S2P Require Import Icmp Udp Tcp Stack Invariant SkbRules LinkSafe ArpSafe ApiSafe Packet Wire.
#[local] Open Scope Z_scope.

(** ** The abstract queue *)

Definition fifo_read (size : Z) (q : list (list Z)) : option (list Z * list (list Z)) :=
  match q with
  | [] => None
  | m :: q => Some (take (Z.to_nat size) m,
                    if zlen m <=? size then q else drop (Z.to_nat size) m :: q)
  end.

(** Reads return the bytes of the queue in order and lose none. *)
Lemma fifo_read_concat size q bytes q' :
  fifo_read size q = Some (bytes, q') → bytes ++ concat q' = concat q.
Proof.
  destruct q as [|m q]; [done|]. cbn. destruct (Z.leb_spec (zlen m) size); intros [= <- <-]; cbn.
  - by rewrite take_ge by lia.
  - by rewrite app_assoc, take_drop.
Qed.

(** ** The queue of a socket *)

Definition rx_data (skbs : gmap ptr sk_buff) (l : list ptr) : list (list Z) :=
  omap (λ k, skb_payload <$> skbs !! k) (rev l).

Lemma rx_data_last skbs l k s :
  last l = Some k → NoDup l → skbs !! k = Some s →
  rx_data skbs l = skb_payload s :: rx_data skbs (list_remove k l).
Proof.
  intros Hl Hnd Hk. apply last_Some in Hl as [l0 ->].
  rewrite list_remove_app_cons, app_nil_r.
  - unfold rx_data. rewrite rev_app_distr. cbn. by rewrite Hk.
  - apply NoDup_app in Hnd as (_ & Hd & _). intros Hin. apply (Hd k Hin). set_solver.
Qed.

Lemma rx_data_cons skbs l k s :
  skbs !! k = Some s → rx_data skbs (k :: l) = rx_data skbs l ++ [skb_payload s].
Proof. intros Hk. unfold rx_data. cbn. rewrite omap_app. cbn. by rewrite Hk. Qed.

Lemma rx_data_ext skbs skbs' l :
  (∀ k, k ∈ l → skbs' !! k = skbs !! k) → rx_data skbs' l = rx_data skbs l.
Proof.
  intros Heq. unfold rx_data. assert (∀ k, k ∈ rev l → skbs' !! k = skbs !! k) as Heq'.
  { intros k Hk. apply Heq. rewrite list_elem_of_In in *. by apply in_rev. }
  clear Heq. revert Heq'. generalize (rev l) as l'. induction l' as [|k l' IH]; intros Heq; [done|].
  cbn. rewrite Heq by set_solver. rewrite IH by set_solver. done.
Qed.

Lemma list_remove_notin {A} `{EqDecision A} (x : A) l : NoDup l → x ∉ list_remove x l.
Proof. intros Hnd. rewrite elem_of_list_remove by done. by intros [_ ?]. Qed.

Section SockSpec.
Context `{Os} (E : fault → Prop).

(** Taking bytes from the oldest packet. *)
Lemma wp_s_take s m d p post size Q :
  packet s m d p post → 0 <= size →
  (∀ s', packet s' m (d + zlen (take (Z.to_nat size) p)) (drop (Z.to_nat size) p) post →
         skb_head s' = skb_head s → Q (take (Z.to_nat size) p) s') →
  wp (s_take size) Q E s.
Proof.
  intros Hp Hsize HQ. unfold s_take, MIN. mstep. mstep.
  rewrite (pk_len _ _ _ _ _ Hp), (pk_data _ _ _ _ _ Hp).
  set (n := if zlen p <? size then zlen p else size).
  assert (0 <= n <= zlen p) as Hn by (subst n; zbool; lia).
  assert (take (Z.to_nat n) p = take (Z.to_nat size) p ∧ drop (Z.to_nat n) p = drop (Z.to_nat size) p ∧
          n = zlen (take (Z.to_nat size) p)) as (Ht & Hd & Hz).
  { subst n. rewrite length_take. zbool; [|split_and!; [done..|lia]].
    rewrite Nat2Z.id, !take_ge, !drop_ge by lia. split_and!; [done..|lia]. }
  mstep. apply (packet_rdn _ _ _ _ _ Hp _ _ 0); [lia|lia|lia|lia|].
  change (slice 0 n p) with (take (Z.to_nat n) (drop 0 p)). rewrite drop_0, Ht.
  mstep. apply (packet_pull_head _ _ _ _ _ Hp); [done|]. intros s' P' Hh. mstep.
  rewrite Hd, Hz in P'. by apply HQ.
Qed.

(** The oldest packet of a queue. *)
Lemma queue_oldest w q k :
  wf w → last (queue_of w q) = Some k →
  ∃ s m d p post, w_skbs w !! k = Some s ∧ packet s m d p post ∧ queued_ok (w_intfs w) q s ∧
    ∀ s', rx_data (<[k := s']> (w_skbs w)) (queue_of w q) =
          skb_payload s' :: rx_data (w_skbs w) (list_remove k (queue_of w q)).
Proof.
  intros Hw Hl. pose proof (last_Some_elem_of _ _ Hl) as Hin.
  destruct (q_ok _ _ _ (wf_qs _ Hw) _ _ Hin) as (s & Hs & Hqs).
  destruct (wf_packet s (proj1 Hqs)) as (post & Hp).
  pose proof (q_nodup _ _ _ (wf_qs _ Hw) q) as Hnd.
  exists s, (meta s), (skb_data s), (skb_payload s), post. split_and!; [done..|].
  intros s'. rewrite (rx_data_last _ _ k s') by (done || apply lookup_insert_eq).
  f_equal. apply rx_data_ext. intros k' Hk'. rewrite lookup_insert_ne; [done|].
  intros <-. by apply list_remove_notin in Hk'.
Qed.

(** What waits in a queue. *)
Definition rx (w : world) (q : qid) : list (list Z) := rx_data (w_skbs w) (queue_of w q).

(** The state after a read: the oldest packet is shorter, or is gone. *)
Definition read_done (w : world) (q : qid) (rest : list (list Z)) (w' : world) : Prop :=
  rx w' q = rest ∧ ∀ q', q' ≠ q → rx w' q' = rx w q'.

Lemma rx_same_queues w w' q k :
  wf w → k ∈ queue_of w q → (∀ q', q' ≠ q → queue_of w' q' = queue_of w q') →
  (∀ k', k' ≠ k → w_skbs w' !! k' = w_skbs w !! k') → ∀ q', q' ≠ q → rx w' q' = rx w q'.
Proof.
  intros Hw Hk Hq Hs q' Hne. unfold rx. rewrite Hq by done. apply rx_data_ext.
  intros k' Hk'. apply Hs. intros ->. apply Hne. by apply (q_disj _ _ _ (wf_qs _ Hw) q' q k).
Qed.

Lemma read_done_short w q k s' m d p post size :
  wf w → last (queue_of w q) = Some k →
  rx w q = p :: rx_data (w_skbs w) (list_remove k (queue_of w q)) →
  packet s' m d (drop (Z.to_nat size) p) post → zlen (drop (Z.to_nat size) p) ≠ 0 →
  ∃ rest, fifo_read size (rx w q) = Some (take (Z.to_nat size) p, rest) ∧
    read_done w q rest (with_skb k s' w).
Proof.
  intros Hw Hl Hrx Hp Hne. eexists. rewrite Hrx. cbn [fifo_read]. split; [done|].
  destruct (queue_oldest w q k Hw Hl) as (s & m0 & d0 & p0 & post0 & Hs & Hp0 & _ & Hins).
  split.
  - unfold rx, with_skb. change (queue_of (set_skbs _ w) q) with (queue_of w q). cbn [w_skbs set_skbs].
    rewrite Hins, (packet_payload _ _ _ _ _ Hp). rewrite length_drop in Hne.
    destruct (Z.leb_spec (zlen p) size); [lia|done].
  - apply (rx_same_queues w _ q k); [done|by eapply last_Some_elem_of|done|].
    intros k' Hk'. cbn. by rewrite lookup_insert_ne.
Qed.

Lemma read_done_gone w w' q k p size :
  wf w → last (queue_of w q) = Some k →
  rx w q = p :: rx_data (w_skbs w) (list_remove k (queue_of w q)) →
  zlen (drop (Z.to_nat size) p) = 0 → 0 <= size →
  w_skbs w' = delete k (w_skbs w) → queue_of w' q = list_remove k (queue_of w q) →
  (∀ q', q' ≠ q → queue_of w' q' = queue_of w q') →
  ∃ rest, fifo_read size (rx w q) = Some (take (Z.to_nat size) p, rest) ∧ read_done w q rest w'.
Proof.
  intros Hw Hl Hrx Hz Hsize Hs Hq Hq'. eexists. rewrite Hrx. cbn [fifo_read]. split; [done|]. split.
  - unfold rx. rewrite Hs, Hq. rewrite length_drop in Hz. destruct (Z.leb_spec (zlen p) size); [|lia].
    apply rx_data_ext. intros k' Hk'. rewrite lookup_delete_ne; [done|]. intros <-.
    by apply list_remove_notin in Hk'; [|apply (q_nodup _ _ _ (wf_qs _ Hw))].
  - apply (rx_same_queues w w' q k); [done|by eapply last_Some_elem_of|done|].
    intros k' Hk'. rewrite Hs. by rewrite lookup_delete_ne.
Qed.

Lemma rx_oldest w q k s m d p post :
  wf w → last (queue_of w q) = Some k → w_skbs w !! k = Some s → packet s m d p post →
  rx w q = p :: rx_data (w_skbs w) (list_remove k (queue_of w q)).
Proof.
  intros Hw Hl Hk Hp. unfold rx. rewrite (rx_data_last _ _ k s) by (done || apply (q_nodup _ _ _ (wf_qs _ Hw))).
  by rewrite (packet_payload _ _ _ _ _ Hp).
Qed.

Lemma rx_empty w q : last (queue_of w q) = None → rx w q = [].
Proof. intros Hl%last_None. unfold rx. by rewrite Hl. Qed.

(** udp_recvfrom *)
Lemma wp_udp_recvfrom_fifo fd u us size ip port w :
  wf w → good_fd MAX_UDP_SOCKS (w_udp_fds w) fd = Some u → w_udps w !! u = Some us →
  us_bound us = true → 0 <= size →
  (ip = true → ∀ k s, k ∈ us_rx_skb us → w_skbs w !! k = Some s → is_Some (skb_ip_hdr s)) →
  wp (udp_recvfrom fd size ip port) (λ r w',
    match fifo_read size (rx w (QUdp u)) with
    | Some (bytes, rest) => rr_ret r = zlen bytes ∧ rr_bytes r = bytes ∧ read_done w (QUdp u) rest w'
    | None => r = recv_error ∧ w' = w
    end) E w.
Proof.
  intros Hw Hg Hus Hbd Hsize Hiph. unfold udp_recvfrom, is_good_udp_sock. mstep. mstep. rewrite Hg.
  mstep. apply (wp_load _ us); [done|]. rewrite Hbd. cbn [negb].
  assert (queue_of w (QUdp u) = us_rx_skb us) as Hq by (unfold queue_of; by rewrite (queue_udp_Some _ _ _ _ us)).
  rewrite <- Hq. destruct (last (queue_of w (QUdp u))) as [k|] eqn:Hlast; [|mstep; by rewrite rx_empty].
  destruct (queue_oldest w (QUdp u) k Hw Hlast) as (s & m & d & p & post & Hs & Hp & (_ & Hip & Hudp & [uh Huh]) & _).
  pose proof (rx_oldest w (QUdp u) k s m d p post Hw Hlast Hs Hp) as Hrx.
  pose proof (last_Some_elem_of _ _ Hlast) as Hin.
  mstep. apply (wp_on_skb _ _ s); [done|]. eapply wp_s_take; [exact Hp|done|].
  intros s' P' Hh. fold (with_skb k s' w). mstep. apply wp_load_with.
  assert (meta s' = meta s) as Hmeta by (by rewrite (pk_meta _ _ _ _ _ P'), (pk_meta _ _ _ _ _ Hp)).
  mstep. apply (wp_mono _ (λ _ w', w' = with_skb k s' w) _ E E); [| |done].
  { destruct ip; [|by mstep]. rewrite Hq in Hin. destruct (Hiph eq_refl k s Hin Hs) as [o Ho].
    assert (skb_ip_hdr s' = Some o) as -> by (pose proof (f_equal m_ip Hmeta) as E1; cbn in E1; congruence).
    destruct (Hip o Ho). mstep. mstep. mstep. apply wp_read_with. unfold ip_src_ip, wp, s_rd32, rd32.
    rewrite rd_le_ok by (rewrite ?Hh; lia). cbn. done. }
  intros oip w' ->. mstep. apply (wp_mono _ (λ _ w', w' = with_skb k s' w) _ E E); [| |done].
  { destruct port; [|by mstep].
    assert (skb_udp_hdr s' = Some uh) as -> by (pose proof (f_equal m_udp Hmeta) as E1; cbn in E1; congruence).
    destruct (Hudp uh Huh). mstep. mstep. mstep. apply wp_read_with. unfold udp_src_port, wp, s_rd16, rd16.
    rewrite rd_le_ok by (rewrite ?Hh; lia). cbn. done. }
  intros oport w' ->. mstep. rewrite (pk_len _ _ _ _ _ P').
  destruct (Z.eqb_spec (zlen (drop (Z.to_nat size) p)) 0) as [Hz|Hnz].
  - mstep. apply (wp_update _ _ us); [done|]. set (w2 := hset _ _).
    apply (wp_dealloc _ s'); [apply lookup_insert_eq|]. mstep.
    destruct (read_done_gone w (set_skbs (delete k (w_skbs w2)) w2) (QUdp u) k p size) as (rest & -> & Hr);
      [done..| | | |done].
    + cbn. by rewrite delete_insert_eq.
    + unfold queue_of. cbn. rewrite lookup_insert_eq, Hus. done.
    + intros q' Hne. unfold queue_of. cbn. destruct q' as [|v|]; try done. cbn.
      rewrite lookup_insert_ne; [done|congruence].
  - mstep. mstep. destruct (read_done_short w (QUdp u) k s' _ _ p post size Hw Hlast Hrx P' Hnz) as (rest & -> & Hr).
    done.
Qed.

(** tcp_recv *)
Lemma wp_tcp_recv_fifo fd c cn size w :
  wf w → good_fd MAX_TCP_CONN_SOCKS (w_conn_fds w) fd = Some c → w_conns w !! c = Some cn →
  tc_state cn = handle_estab_state → 0 <= size →
  wp (tcp_recv fd size) (λ r w',
    match fifo_read size (rx w (QConn c)) with
    | Some (bytes, rest) => r = (zlen bytes, bytes) ∧ read_done w (QConn c) rest w'
    | None => r = (-1, []) ∧ w' = w
    end) E w.
Proof.
  intros Hw Hg Hcn Hst Hsize. unfold tcp_recv, estab_connection, is_good_tcp_connection_sock.
  mstep. mstep. mstep. rewrite Hg. mstep. apply (wp_load _ cn); [done|]. mstep.
  rewrite bool_decide_eq_true_2 by done. mstep. apply (wp_load _ cn); [done|].
  assert (queue_of w (QConn c) = tc_rx_skb cn) as Hq by (unfold queue_of; by rewrite (queue_conn_Some _ _ _ _ cn)).
  rewrite <- Hq. destruct (last (queue_of w (QConn c))) as [k|] eqn:Hlast; [|mstep; by rewrite rx_empty].
  destruct (queue_oldest w (QConn c) k Hw Hlast) as (s & m & d & p & post & Hs & Hp & _ & _).
  pose proof (rx_oldest w (QConn c) k s m d p post Hw Hlast Hs Hp) as Hrx.
  mstep. apply (wp_on_skb _ _ s); [done|]. eapply wp_s_take; [exact Hp|done|].
  intros s' P' _. fold (with_skb k s' w). mstep. apply wp_load_with.
  mstep. rewrite (pk_len _ _ _ _ _ P').
  destruct (Z.eqb_spec (zlen (drop (Z.to_nat size) p)) 0) as [Hz|Hnz].
  - mstep. apply (wp_update _ _ cn); [done|]. set (w2 := hset _ _).
    apply (wp_dealloc _ s'); [apply lookup_insert_eq|]. mstep.
    destruct (read_done_gone w (set_skbs (delete k (w_skbs w2)) w2) (QConn c) k p size) as (rest & -> & Hr);
      [done..| | | |done].
    + cbn. by rewrite delete_insert_eq.
    + unfold queue_of. cbn. rewrite lookup_insert_eq, Hcn. done.
    + intros q' Hne. unfold queue_of. cbn. destruct q' as [| |v]; try done. cbn.
      rewrite lookup_insert_ne; [done|congruence].
  - mstep. mstep. destruct (read_done_short w (QConn c) k s' _ _ p post size Hw Hlast Hrx P' Hnz) as (rest & -> & Hr).
    done.
Qed.

(** ** Datagrams that arrive *)

(** The socket of the interface [i] that is bound to [port]. *)
Definition udp_find (w : world) (i : ptr) (port : Z) : option ptr :=
  it ← w_intfs w !! i;
  head (filter (λ u, us_local_port <$> w_udps w !! u = Some port) (p_udp_socks (if_nw it))).

Lemma udp_find_from_eq port l w :
  (∀ u, u ∈ l → is_Some (w_udps w !! u)) →
  udp_find_from port l w = Ok (head (filter (λ u, us_local_port <$> w_udps w !! u = Some port) l), w).
Proof.
  induction l as [|u l IH]; intros Hl; cbn [udp_find_from]; [done|].
  destruct (Hl u) as [us Hu]; [set_solver|]. unfold bind at 1, load. cbn [hget heap_udps]. rewrite Hu.
  rewrite filter_cons, Hu. destruct (Z.eqb_spec (us_local_port us) port).
  - by rewrite decide_True by (cbn; congruence).
  - rewrite decide_False by (cbn; congruence). apply IH. set_solver.
Qed.

Lemma wp_udp_find i it port Q w :
  wf w → w_intfs w !! i = Some it → Q (udp_find w i port) w → wp (udp_socks_manager_find i port) Q E w.
Proof.
  intros Hw Hi HQ. unfold udp_socks_manager_find. mstep. apply (wp_load _ it); [done|].
  unfold wp. rewrite udp_find_from_eq.
  - unfold udp_find in HQ. by rewrite Hi in HQ.
  - intros u Hu. destruct (uw_socks _ _ _ _ (wf_udp _ Hw) i it u Hi Hu) as (us & ? & _). by exists us.
Qed.

(** A datagram with a header [hdr]: its data joins the queue of its socket. *)
Lemma wp_udp_input_rx k i it s m d hdr data post dport Q w :
  wf (with_skb k s w) → owned (with_skb k s w) k s → w_intfs w !! i = Some it →
  packet s m d (hdr ++ data) post → length hdr = 8%nat → slice 2 2 hdr = be16 dport → is_u16 dport →
  m_intf m = Some i →
  match udp_find w i dport with
  | None => ∀ s', packet s' (mk_meta (m_intf m) (m_ethernet m) (m_ip m) (m_tcp m) (Some d)) d (hdr ++ data) post →
              Q false (with_skb k s' w)
  | Some u => ∀ us s', w_udps w !! u = Some us →
              packet s' (mk_meta (m_intf m) (m_ethernet m) (m_ip m) (m_tcp m) (Some d)) (d + 8) data post →
              skb_head s' = skb_head s →
              Q true (set_udps (<[u := us_set_rx (k :: us_rx_skb us) us]> (w_udps w)) (with_skb k s' w))
  end →
  wp (udp_input k) Q E (with_skb k s w).
Proof.
  intros Hw Ho Hit Hp Hhl Hport Hu16 Hmi HQ.
  assert (skb_intf s = Some i) as Hi by (rewrite <- (pk_meta _ _ _ _ _ Hp) in Hmi; exact Hmi).
  unfold udp_input, udp_dst_port, UDP_HDR_SIZE. mstep. apply wp_load_with. rewrite Hi. mstep. mstep.
  rewrite (pk_data _ _ _ _ _ Hp). mstep. apply wp_read_with.
  apply (packet_rd16 _ _ _ _ _ Hp _ _ 2); [done|done|rewrite length_app; lia|].
  rewrite slice_app_l, Hport, le_decode_be16 by (done || lia). split; [done|].
  rewrite HTONS_involutive by done.
  mstep. apply (wp_udp_find i it); [done|done|].
  change (udp_find (with_skb k s w) i dport) with (udp_find w i dport).
  mstep. apply wp_on_with. mstep.
  pose proof (packet_set_udp_hdr _ _ _ _ _ (Some d) Hp) as P1.
  destruct (udp_find w i dport) as [u|] eqn:Hfind; [|mstep; by apply HQ].
  assert (∃ us, w_udps w !! u = Some us) as [us Hus].
  { unfold udp_find in Hfind. rewrite Hit in Hfind. cbn [mbind option_bind] in Hfind.
    apply head_filter_sat in Hfind as [Hin _]. apply fmap_Some in Hin as (us & ? & _). by exists us. }
  mstep. apply wp_on_with. apply (packet_pull_head _ _ _ _ _ P1); [rewrite length_app; lia|].
  intros s2 P2 Hh2. change (Z.to_nat 8) with 8%nat in P2. rewrite <- Hhl, drop_app_length in P2.
  mstep. apply (wp_update _ _ us); [done|]. mstep. by apply HQ.
Qed.
End SockSpec.
