(* ===== verification/TcpSpec.v ===== *)
(** * TCP segments on the wire, and the states of a connection *)
From S2P Require Import Prelude Cmonad Utils Skbuff World Topology Comm Ethernet Arp Route Ip.
From S2P Require Import Icmp Udp Tcp Stack Invariant SkbRules LinkSafe ArpSafe IpSafe.
From S2P Require Import Packet Wire ArpSpec IpSpec ProtoSpec SockSpec.
#[local] Open Scope Z_scope.

(** ** Segments *)

Definition be32 (v : Z) : list Z := [v / 2 ^ 24; v / 2 ^ 16 mod 256; v / 2 ^ 8 mod 256; v mod 256].

Lemma le_encode_HTONL v : is_u32 v → le_encode 4 (HTONL v) = be32 v.
Proof.
  intros (a & b & c & e & Ha & Hb & Hc & He & ->)%u32_octets.
  rewrite HTONL_swap by done. unfold be32, is_u8 in *. cbn [le_encode le_decode].
  repeat (f_equal; [zdiv|]). f_equal. zdiv.
Qed.

Lemma be32_bytes v : is_u32 v → Forall is_u8 (be32 v).
Proof. intros. unfold be32. repeat constructor; unfold is_u8, is_u32 in *; zdiv. Qed.

Definition tcp_segment (sport dport seq ack flags wnd ck : Z) (data : list Z) : list Z :=
  be16 sport ++ be16 dport ++ be32 seq ++ be32 ack ++ [0x50; flags] ++ be16 wnd ++
  be16 ck ++ [0; 0] ++ data.

Definition tcp_pseudo (src dst len : Z) : list Z :=
  le_encode 4 src ++ le_encode 4 dst ++ [0; 6] ++ be16 len.

Definition tcp_msg (src dst sport dport seq ack flags wnd : Z) (data : list Z) : list Z :=
  tcp_segment sport dport seq ack flags wnd
    (rfc1071 (tcp_pseudo src dst (20 + zlen data) ++ tcp_segment sport dport seq ack flags wnd 0 data)) data.

Lemma length_tcp_segment sport dport seq ack flags wnd ck data :
  length (tcp_segment sport dport seq ack flags wnd ck data) = (20 + length data)%nat.
Proof. done. Qed.

Record tcp_fields_ok (sport dport seq ack flags wnd : Z) : Prop := {
  tf_sport : is_u16 sport; tf_dport : is_u16 dport; tf_seq : is_u32 seq; tf_ack : is_u32 ack;
  tf_flags : is_u8 flags; tf_wnd : is_u16 wnd;
}.

Lemma tcp_segment_bytes sport dport seq ack flags wnd ck data :
  tcp_fields_ok sport dport seq ack flags wnd → is_u16 ck → Forall is_u8 data →
  Forall is_u8 (tcp_segment sport dport seq ack flags wnd ck data).
Proof.
  intros [] Hck Hd. unfold tcp_segment. assert (is_u8 0x50 ∧ is_u8 0) as [? ?] by (unfold is_u8; lia).
  rewrite !Forall_app, !Forall_cons. split_and!; auto using be16_bytes, be32_bytes.
Qed.

Lemma tcp_pseudo_bytes src dst len : is_u16 len → Forall is_u8 (tcp_pseudo src dst len).
Proof.
  intros. unfold tcp_pseudo. assert (is_u8 0 ∧ is_u8 6) as [? ?] by (unfold is_u8; lia).
  rewrite !Forall_app, !Forall_cons. split_and!; auto using be16_bytes, le_encode_bytes.
Qed.

(** The checksum of a segment verifies at the receiver. *)
Lemma tcp_msg_verifies src dst sport dport seq ack flags wnd data :
  tcp_fields_ok sport dport seq ack flags wnd → Forall is_u8 data → 20 + zlen data < 2 ^ 16 →
  rfc1071 (tcp_pseudo src dst (20 + zlen data) ++ tcp_msg src dst sport dport seq ack flags wnd data) = 0.
Proof.
  intros Hf Hd Hlen. unfold tcp_msg.
  set (pre := tcp_pseudo src dst (20 + zlen data) ++ be16 sport ++ be16 dport ++ be32 seq ++ be32 ack ++
                [0x50; flags] ++ be16 wnd).
  assert (∀ ck, tcp_pseudo src dst (20 + zlen data) ++ tcp_segment sport dport seq ack flags wnd ck data =
            pre ++ be16 ck ++ [0; 0] ++ data) as Hsplit.
  { intros ck. unfold pre, tcp_segment. by rewrite <- !app_assoc. }
  pose proof (tcp_segment_bytes _ _ _ _ _ _ 0 data Hf ltac:(done) Hd) as Hb1.
  pose proof (tcp_pseudo_bytes src dst (20 + zlen data) ltac:(unfold is_u16; lia)) as Hb2.
  pose proof (Forall_app_2 _ _ _ Hb2 Hb1) as Hb. rewrite !Hsplit in *.
  unfold be16 at 1. change (be16 0) with [0; 0] in *. apply rfc1071_store; [done|exact Hb| |by left].
  apply Forall_app in Hb as [Hpre [_ Hpost]%Forall_app].
  pose proof (be_sum_nonneg _ Hpost). enough (0 < be_sum pre) by lia.
  unfold pre. rewrite be_sum_app by done.
  enough (0 < be_sum (tcp_pseudo src dst (20 + zlen data))) as Hpos.
  { apply Forall_app in Hpre as [_ Hpre]. pose proof (be_sum_nonneg _ Hpre). lia. }
  unfold tcp_pseudo. rewrite app_assoc, be_sum_app by done.
  assert (0 <= be_sum (le_encode 4 src ++ le_encode 4 dst)).
  { apply be_sum_nonneg, Forall_app. auto using le_encode_bytes. }
  unfold be_sum at 2. unfold be16. cbn [app be_words fold_right]. zdiv.
Qed.

(** ** The checksum over the pseudo header *)

Lemma splice_adjacent {A} o (a b h : list A) o' :
  0 <= o → o' = o + zlen a → o' + zlen b <= zlen h →
  splice o' b (splice o a h) = splice o (a ++ b) h.
Proof.
  intros Ho -> Hl. apply list_eq. intros i.
  rewrite lookup_splice by (rewrite ?length_splice; lia). rewrite !lookup_splice by (rewrite ?length_app; lia).
  rewrite length_app. repeat case_decide; try lia; try done.
  - rewrite lookup_app_r by lia. f_equal. lia.
  - rewrite lookup_app_l by lia. done.
Qed.

Section TcpSpec.
Context `{Os} (E : fault → Prop).

Lemma wp_calc_tcp_cksum_bytes s m d p post src dst Q :
  packet s m d p post → 12 <= d → zlen p < 2 ^ 16 →
  Q (rfc1071 (tcp_pseudo src dst (zlen p) ++ p)) s →
  wp (calc_tcp_cksum d (zlen p) src dst) Q E s.
Proof.
  intros Hp Hd Hlen HQ. destruct (packet_bounds _ _ _ _ _ Hp) as (_ & Ht & ? & ? & Hh & He).
  pose proof (pk_wf _ _ _ _ _ Hp) as []. pose proof (pk_drop _ _ _ _ _ Hp) as Hdrop.
  assert (s = skb_set_head (skb_head s) s) as Es by (by destruct s).
  remember (skb_head s) as h eqn:Eh.
  set (ps := tcp_pseudo src dst (zlen p)).
  assert (zlen ps = 12) as Hps by done.
  assert (∀ h' o bs Q', length h' = length h → 0 <= o → o + zlen bs <= zlen h →
            Q' tt (skb_set_head (splice o bs h') s) → wp (s_wrn o bs) Q' E (skb_set_head h' s)) as Hwr.
  { intros h' o bs Q' El ? ? HQ'. unfold wp, s_wrn. cbn. by rewrite wrn_ok by lia. }
  unfold calc_tcp_cksum, PSEUDO_IP_HDR_SIZE, IP_PROTO_TCP.
  mstep. unfold wp at 1, s_rdn. rewrite <- Eh, rdn_ok by lia. cbn [lift]. rewrite Es at 1.
  mstep. apply Hwr; [done|lia|cbn; lia|].
  mstep. apply Hwr; [rewrite length_splice; cbn; lia|lia|cbn; lia|].
  rewrite (splice_adjacent (d - 12)) by (cbn; lia).
  mstep. apply Hwr; [rewrite length_splice; cbn; lia|lia|cbn; lia|].
  rewrite (splice_adjacent (d - 12)) by (cbn; lia).
  mstep. apply Hwr; [rewrite length_splice; cbn; lia|lia|cbn; lia|].
  rewrite (splice_adjacent (d - 12)) by (cbn; lia).
  mstep. apply Hwr; [rewrite length_splice; cbn; lia|lia|cbn; lia|].
  rewrite (splice_adjacent (d - 12)) by (cbn; lia).
  rewrite le_encode_HTONS by (unfold is_u16; lia).
  change (splice (d - 12) _ h) with (splice (d - 12) ps h).
  assert (length (splice (d - 12) ps h) = length h) as Hl1 by (apply length_splice; lia).
  mstep. unfold wp at 1, s_calc_checksum. cbn [skb_head skb_set_head].
  rewrite calc_checksum_16_spec.
  - cbn [lift]. replace (zlen p + 12) with (12 + zlen p) by lia.
    rewrite slice_app_split, slice_splice_eq, slice_splice_ne by lia.
    replace (d - 12 + 12) with (d + 0) by lia.
    rewrite slice_drop by lia. rewrite Hdrop, slice_prefix by done.
    mstep. apply Hwr; [done|lia|rewrite length_slice; lia|]. mstep.
    rewrite splice_splice, splice_slice by (rewrite ?length_slice; lia).
    by rewrite <- Es.
  - apply Forall_splice; [done|]. apply tcp_pseudo_bytes. unfold is_u16. lia.
  - lia.
  - lia.
  - lia.
Qed.

Lemma wp_build_tcp_ports_bytes i sport dport size Q s :
  is_u16 sport → is_u16 dport → 0 <= size < 2 ^ 16 →
  packet s (m_set_intf i no_meta) 0 [] (replicate (Z.to_nat (133 + size)) 0) →
  (∀ s', packet s' (m_set_intf i no_meta) 60 (be16 sport ++ be16 dport ++ replicate 16 0)
           (replicate (Z.to_nat (53 + size)) 0) → Q 60 s') →
  wp (build_tcp_ports sport dport) Q E s.
Proof.
  intros Hs Hd Hsize Hp HQ. unfold build_tcp_ports, BUFF_HEADROOM, TCP_HDR_SIZE, tcp_src_port, tcp_dst_port.
  mstep. apply (packet_reserve _ _ _ _ _ Hp); [lia|done|rewrite length_replicate; lia|].
  intros s1 P1. rewrite drop_replicate in P1.
  mstep. apply (packet_put _ _ _ _ _ P1); [lia|rewrite length_replicate; lia|].
  intros s2 P2. rewrite take_replicate, drop_replicate in P2.
  rewrite Nat.min_l in P2 by lia. change (replicate (Z.to_nat 20) 0) with (replicate 20 0) in P2.
  replace (Z.to_nat (133 + size) - Z.to_nat 60 - Z.to_nat 20)%nat with (Z.to_nat (53 + size)) in P2 by lia.
  change (packet s2 (m_set_intf i no_meta) 60 (replicate 20 0) (replicate (Z.to_nat (53 + size)) 0)) in P2.
  mstep. apply (packet_wr16 _ _ _ _ _ P2 _ _ 0); [done|done|done|].
  intros s3 P3. rewrite le_encode_HTONS in P3 by done.
  change (splice _ _ _) with (be16 sport ++ replicate 18 0) in P3.
  mstep. apply (packet_wr16 _ _ _ _ _ P3 _ _ 2); [done|done|done|].
  intros s4 P4. rewrite le_encode_HTONS in P4 by done.
  mstep. apply HQ. exact P4.
Qed.

Lemma wp_build_tcp_rest_bytes m sport dport cn flags data Q s :
  tcp_fields_ok sport dport (tc_snt_nxt cn) (tc_rcv_nxt cn) flags (tc_rcv_wnd cn) →
  Forall is_u8 data → zlen data < 2 ^ 16 →
  packet s m 60 (be16 sport ++ be16 dport ++ replicate 16 0) (replicate (Z.to_nat (53 + zlen data)) 0) →
  (∀ s', packet s' m 60 (tcp_segment sport dport (tc_snt_nxt cn) (tc_rcv_nxt cn) flags (tc_rcv_wnd cn) 0 data)
           (replicate 53 0) → Q tt s') →
  wp (build_tcp_rest 60 cn flags data) Q E s.
Proof.
  intros [] Hb Hlen Hp HQ. unfold build_tcp_rest, tcp_seq, tcp_ack, tcp_flags, tcp_wnd_sz, tcp_hlen.
  set (seq := tc_snt_nxt cn) in *. set (ack := tc_rcv_nxt cn) in *. set (wnd := tc_rcv_wnd cn) in *.
  set (h := be16 sport ++ be16 dport) in *. rewrite app_assoc in Hp.
  mstep. apply (packet_wr32 _ _ _ _ _ Hp _ _ 4); [done|done|done|].
  intros s1 P1. rewrite le_encode_HTONL in P1 by done.
  change (splice _ _ _) with (h ++ be32 seq ++ replicate 12 0) in P1.
  mstep. apply (packet_wr32 _ _ _ _ _ P1 _ _ 8); [done|done|done|].
  intros s2 P2. rewrite le_encode_HTONL in P2 by done.
  change (splice _ _ _) with (h ++ be32 seq ++ be32 ack ++ replicate 8 0) in P2.
  mstep. apply (packet_wr8 _ _ _ _ _ P2 _ _ 13); [done|done|done|].
  intros s3 P3. cbn [le_encode] in P3. rewrite Z.mod_small in P3 by exact tf_flags0.
  change (splice _ _ _) with (h ++ be32 seq ++ be32 ack ++ [0; flags] ++ replicate 6 0) in P3.
  mstep. apply (packet_wr16 _ _ _ _ _ P3 _ _ 14); [done|done|done|].
  intros s4 P4. rewrite le_encode_HTONS in P4 by done.
  change (splice _ _ _) with (h ++ be32 seq ++ be32 ack ++ [0; flags] ++ be16 wnd ++ replicate 4 0) in P4.
  mstep. mstep. apply (packet_rd8 _ _ _ _ _ P4 _ _ 12); [done|done|done|].
  apply (packet_wr8 _ _ _ _ _ P4 _ _ 12); [done|done|done|].
  intros s5 P5. change (splice _ _ _) with (h ++ be32 seq ++ be32 ack ++ [0x50; flags] ++ be16 wnd ++ replicate 4 0) in P5.
  clear P1 P2 P3 P4. destruct (Z.eqb_spec (zlen data) 0).
  { destruct data; [|done]. mstep. apply HQ. exact P5. }
  mstep. apply (packet_put _ _ _ _ _ P5); [lia|rewrite length_replicate; lia|].
  intros s6 P6. rewrite take_replicate, drop_replicate in P6.
  rewrite Nat2Z.id, Nat.min_l in P6 by lia.
  replace (Z.to_nat (53 + zlen data) - length data)%nat with 53%nat in P6 by lia.
  apply (packet_fill _ _ _ _ _ _ _ _ _ _ P6); [done|by rewrite length_replicate|done|].
  intros s7 P7. rewrite drop_replicate, Nat.sub_diag, app_nil_r in P7. apply HQ. exact P7.
Qed.

Lemma wp_fill_tcp_cksum_bytes s m d post sport dport seq ack flags wnd data src dst Q :
  packet s m d (tcp_segment sport dport seq ack flags wnd 0 data) post → 12 <= d →
  20 + zlen data < 2 ^ 16 →
  (∀ s', packet s' m d (tcp_msg src dst sport dport seq ack flags wnd data) post → Q tt s') →
  wp (let* len := gets skb_len in fill_tcp_cksum d len src dst) Q E s.
Proof.
  intros Hp Hd Hlen HQ. unfold tcp_msg in HQ. pose proof (packet_bytes _ _ _ _ _ Hp) as [Hb _].
  assert (zlen (tcp_segment sport dport seq ack flags wnd 0 data) = 20 + zlen data) as Hz
    by (rewrite length_tcp_segment; lia).
  mstep. apply (packet_gets_len _ _ _ _ _ Hp). unfold fill_tcp_cksum, tcp_cksum.
  mstep. eapply wp_calc_tcp_cksum_bytes; [exact Hp|done|lia|]. rewrite Hz.
  eapply packet_wr16; [exact Hp|done|done|lia|]. intros s' P'.
  rewrite le_encode_HTONS in P'; [apply HQ, P'|].
  apply rfc1071_u16, Forall_app. split; [apply tcp_pseudo_bytes; unfold is_u16; lia|done].
Qed.

(** ** Sending a segment *)

(** The sequence number after a segment: its data, SYN and FIN count. *)
Definition tcp_advance (flags size nxt : Z) : Z :=
  let nxt := if size =? 0 then nxt else wrap32 (nxt + size) in
  let nxt := if has_flag flags FLAG_SYN then wrap32 (nxt + 1) else nxt in
  if has_flag flags FLAG_FIN then wrap32 (nxt + 1) else nxt.

(** The window test of the code. *)
Definition window_open (cn : tcp_connection_sock) (size : Z) : Prop :=
  tc_snt_nxt cn + size <= wrap32 (tc_snt_una cn + tc_snt_wnd cn).

Definition with_conn (c : ptr) (cn : tcp_connection_sock) (w : world) : world :=
  set_conns (<[c := cn]> (w_conns w)) w.

Lemma with_conn_id c cn w : w_conns w !! c = Some cn → with_conn c cn w = w.
Proof. intros. unfold with_conn. rewrite insert_id by done. by destruct w. Qed.

Lemma with_conn_next c cn n w : with_conn c cn (set_next n w) = set_next n (with_conn c cn w).
Proof. done. Qed.

(** A step [snt_nxt := v] that is taken under a condition. *)
Lemma wp_advance c cn k s w (b : bool) (f : tcp_connection_sock → Z) Q :
  Q tt (with_skb k s (with_conn c (if b then tc_set_snt_nxt (f cn) cn else cn) w)) →
  wp (if b then update (A := tcp_connection_sock) c (λ cn, tc_set_snt_nxt (f cn) cn) else ret tt) Q E
    (with_skb k s (with_conn c cn w)).
Proof.
  intros HQ. destruct b; [|by mstep]. apply (wp_update _ _ cn); [apply lookup_insert_eq|].
  cbn [hset hget heap_conns]. unfold with_skb, with_conn in *. cbn [w_conns set_skbs set_conns w_skbs] in *.
  rewrite insert_insert_eq. exact HQ.
Qed.

(** The segment a connection sends to its peer. *)
Definition conn_segment (ts : tcp_sock) (cn : tcp_connection_sock) (flags : Z) (data : list Z) : list Z :=
  tcp_msg (ts_local_ip ts) (tc_remote_ip cn) (ts_local_port ts) (tc_remote_port cn)
    (tc_snt_nxt cn) (tc_rcv_nxt cn) flags (tc_rcv_wnd cn) data.

(** The connection [c] of the socket [ts] can send: its interface is the one of
    the route to the peer, and the peer's address is resolved. *)
Record conn_reaches (w : world) (c : ptr) (cn : tcp_connection_sock) (ts : tcp_sock) (it : intf)
    (mac : list Z) (port : Z) : Prop := {
  cr_conn : w_conns w !! c = Some cn;
  cr_sock : w_tcps w !! tc_parent cn = Some ts;
  cr_intf : ∃ i, ts_intf ts = Some i ∧ w_intfs w !! i = Some it ∧
    ∀ nd entry, w_nodes w !! if_node it = Some nd →
      rt_lookup_lpm (n_rt_table (n_nw nd)) (tc_remote_ip cn) = Ok (Some entry) → i = rt_intf entry;
  cr_reaches : reaches w (if_node it) (tc_remote_ip cn) it mac port;
  cr_ip : is_u32 (tc_remote_ip cn);
  cr_fields flags : is_u8 flags → tcp_fields_ok (ts_local_port ts) (tc_remote_port cn)
    (tc_snt_nxt cn) (tc_rcv_nxt cn) flags (tc_rcv_wnd cn);
}.

Section Deliver.
Context (deliver : ptr → W bool).
Let layer : IpLayer := {| ip_output := ip_output_with deliver |}.
#[local] Existing Instance layer.

(** Up to the window test. *)
Lemma wp_tcp_out_start c cn ts it mac port data flags Q w :
  conn_reaches w c cn ts it mac port → Forall is_u8 data → 40 + zlen data < 2 ^ 16 → is_u8 flags →
  let k := w_next w in
  (∀ s i, packet s (m_set_intf (Some i) no_meta) 60
       (be16 (ts_local_port ts) ++ be16 (tc_remote_port cn) ++ replicate 16 0)
       (replicate (Z.to_nat (53 + zlen data)) 0) →
     ts_intf ts = Some i → w_intfs w !! i = Some it →
     let w1 := with_skb k s (set_next (Pos.succ k) w) in
     if wrap32 (tc_snt_una cn + tc_snt_wnd cn) <? tc_snt_nxt cn + zlen data then Q true w1
     else wp (
       on_skb k (build_tcp_rest 60 cn flags data) ;;;
       (if zlen data =? 0 then ret tt else
        update (A := tcp_connection_sock) c (λ cn, tc_set_snt_nxt (wrap32 (tc_snt_nxt cn + zlen data)) cn)) ;;;
       (if has_flag flags FLAG_SYN then
          update (A := tcp_connection_sock) c (λ cn, tc_set_snt_nxt (wrap32 (tc_snt_nxt cn + 1)) cn)
        else ret tt) ;;;
       (if has_flag flags FLAG_FIN then
          update (A := tcp_connection_sock) c (λ cn, tc_set_snt_nxt (wrap32 (tc_snt_nxt cn + 1)) cn)
        else ret tt) ;;;
       on_skb k (let* len := gets skb_len in
                 fill_tcp_cksum 60 len (ts_local_ip ts) (tc_remote_ip cn)) ;;;
       let* i := nonnull (Some i) in
       let* it := load (A := intf) i in
       ip_output (if_node it) (tc_remote_ip cn) IP_PROTO_TCP k) Q E w1) →
  wp (tcp_out c data flags) Q E w.
Proof.
  intros [Hc Hts (i & Hi & Hit & Hroute) Hr Hip Hf] Hb Hlen Hfl k HQ. unfold tcp_out.
  change (BUFF_HEADROOM + BUFF_TAILROOM + TCP_HDR_SIZE) with 126.
  mstep. apply wp_alloc. set (w0 := set_next (Pos.succ k) w).
  change (hset _ _) with (with_skb k (alloc_skb (126 + zlen data)) w0). fold k.
  mstep. apply (wp_load _ cn); [exact Hc|]. mstep. apply (wp_load _ ts); [exact Hts|].
  mstep. apply wp_on_with. mstep. rewrite Hi.
  mstep. apply wp_on_with. destruct (Hf flags Hfl) as [F1 F2 _ _ _ _].
  eapply (wp_build_tcp_ports_bytes (Some i) _ _ (zlen data)); [done|done|lia| |].
  { apply (packet_set_intf _ no_meta _ _ _ (Some i)). replace (133 + zlen data) with (126 + zlen data + 7) by lia.
    apply alloc_packet. lia. }
  intros s Hs. specialize (HQ s i Hs Hi Hit). cbv zeta in HQ.
  destruct (_ <? _); [by mstep|exact HQ].
Qed.

(** A segment the window does not let through: the call succeeds, nothing is
    sent, and the buffer is lost. *)
Lemma wp_tcp_out_stalls c cn ts it mac port data flags Q w :
  conn_reaches w c cn ts it mac port → Forall is_u8 data → 40 + zlen data < 2 ^ 16 → is_u8 flags →
  ¬ window_open cn (zlen data) →
  (∀ s, skb_wf s → Q true (with_skb (w_next w) s (set_next (Pos.succ (w_next w)) w))) →
  wp (tcp_out c data flags) Q E w.
Proof.
  intros Hcr Hb Hlen Hfl Hwin HQ. eapply wp_tcp_out_start; [done..|]. intros s i Hs Hi Hit w1.
  unfold window_open in Hwin. destruct (Z.ltb_spec (wrap32 (tc_snt_una cn + tc_snt_wnd cn)) (tc_snt_nxt cn + zlen data));
    [|lia]. apply HQ, Hs.
Qed.

Lemma wp_tcp_out_wire c cn ts it mac port data flags Q w :
  conn_reaches w c cn ts it mac port → Forall is_u8 data → 40 + zlen data < 2 ^ 16 → is_u8 flags →
  window_open cn (zlen data) →
  (∀ w', sends (with_conn c (tc_set_snt_nxt (tcp_advance flags (zlen data) (tc_snt_nxt cn)) cn) w)
     [(port, ip_frame mac (IF_MAC it) (ip_datagram IP_PROTO_TCP (IF_IP it) (tc_remote_ip cn)
         (conn_segment ts cn flags data)))] w' → Q true w') →
  wp (tcp_out c data flags) Q E w.
Proof.
  intros Hcr Hb Hlen Hfl Hwin HQ. eapply wp_tcp_out_start; [done..|]. intros s i Hs Hi Hit w1.
  unfold window_open in Hwin. destruct (Z.ltb_spec (wrap32 (tc_snt_una cn + tc_snt_wnd cn)) (tc_snt_nxt cn + zlen data));
    [lia|].
  destruct Hcr as [Hc Hts (i' & Hi' & _ & Hroute) Hr Hip Hf].
  assert (i' = i) as -> by congruence. subst w1.
  set (k := w_next w) in *. set (w0 := set_next (Pos.succ k) w).
  mstep. apply wp_on_with. eapply wp_build_tcp_rest_bytes; [by apply Hf|done|lia|exact Hs|].
  intros s2 P2.
  rewrite <- (with_conn_id c cn w0) by done.
  replace (if zlen data =? 0 then ret tt else _) with
    (if negb (zlen data =? 0) then update (A := tcp_connection_sock) c
       (λ cn, tc_set_snt_nxt (wrap32 (tc_snt_nxt cn + zlen data)) cn) else ret tt) by by destruct (_ =? 0).
  mstep. apply (wp_advance c cn k s2 w0 _ (λ cn, wrap32 (tc_snt_nxt cn + zlen data))). mstep.
  apply (wp_advance c _ k s2 w0 _ (λ cn, wrap32 (tc_snt_nxt cn + 1))). mstep.
  apply (wp_advance c _ k s2 w0 _ (λ cn, wrap32 (tc_snt_nxt cn + 1))).
  match goal with |- wp _ _ _ (with_skb _ _ (with_conn c ?x _)) =>
    replace x with (tc_set_snt_nxt (tcp_advance flags (zlen data) (tc_snt_nxt cn)) cn)
      by (unfold tcp_advance; destruct (zlen data =? 0), (has_flag flags FLAG_SYN), (has_flag flags FLAG_FIN);
          by destruct cn) end.
  set (cn' := tc_set_snt_nxt _ cn) in *.
  mstep. apply wp_on_with. eapply wp_fill_tcp_cksum_bytes; [exact P2|done|lia|]. intros s3 P3.
  mstep. mstep. mstep. apply (wp_load _ it); [done|].
  destruct (wf_conns_same w c cn cn' None) as (Hw' & _); [apply (rc_wf _ _ _ _ _ _ Hr)|done|done|done|].
  unfold w0. rewrite with_conn_next.
  einvoke (wp_ip_output_new deliver E s3 (Some i) _ _ _ it mac port _ _ (with_conn c cn' w));
    [by eapply (reaches_evolves w)| |exact P3| |done|done|exact HQ].
  - intros nd entry j [= <-]. apply Hroute.
  - unfold tcp_msg. rewrite length_tcp_segment. lia.
Qed.
End Deliver.
End TcpSpec.
