(* ===== verification/TcpInSpec.v ===== *)
(** * TCP segments that arrive: the handshake and the stream *)
From S2P Require Import Prelude Cmonad Utils Skbuff World Topology Comm Ethernet Arp Route Ip.
From S2P Require Import Icmp Udp Tcp Stack Invariant SkbRules LinkSafe ArpSafe IpSafe TcpSafe StackSafe.
From S2P Require Import Packet Wire ArpSpec IpSpec ProtoSpec RecvSpec SockSpec TcpSpec.
#[local] Open Scope Z_scope.

Lemma le_decode_be32 v : is_u32 v → NTOHL (le_decode (be32 v)) = v.
Proof.
  intros Hv. rewrite <- le_encode_HTONL, le_decode_encode by done.
  rewrite Z.mod_small by exact (HTONL_u32 v Hv). by apply HTONL_involutive.
Qed.
Lemma NTOHS_be16 v : is_u16 v → NTOHS (le_decode (be16 v)) = v.
Proof. intros Hv. rewrite le_decode_be16 by done. by apply HTONS_involutive. Qed.

(** The fields of a header that the program reads. *)
Record seg_fields (hdr : list Z) (sport dport seq flags wnd : Z) : Prop := {
  sf_length : length hdr = 20%nat;
  sf_sport : slice 0 2 hdr = be16 sport;
  sf_dport : slice 2 2 hdr = be16 dport;
  sf_seq : slice 4 4 hdr = be32 seq;
  sf_flags : slice 13 1 hdr = [flags];
  sf_wnd : slice 14 2 hdr = be16 wnd;
  sf_u16 : is_u16 sport ∧ is_u16 dport ∧ is_u16 wnd;
  sf_u32 : is_u32 seq;
}.

(** ** Lookups *)

(** The socket of the interface [i] for [port], and the connection of a list
    with the peer [ip], [port]. *)
Definition tcp_find (w : world) (i : ptr) (port : Z) : option ptr :=
  it ← w_intfs w !! i;
  head (filter (λ t, ts_local_port <$> w_tcps w !! t = Some port) (p_tcp_socks (if_nw it))).

Definition peer (cn : tcp_connection_sock) : Z * Z := (tc_remote_ip cn, tc_remote_port cn).
Definition conn_find (w : world) (l : list ptr) (ip port : Z) : option ptr :=
  head (filter (λ c, peer <$> w_conns w !! c = Some (ip, port)) l).

Lemma tcp_find_from_eq port l w :
  (∀ t, t ∈ l → is_Some (w_tcps w !! t)) →
  tcp_find_from port l w = Ok (head (filter (λ t, ts_local_port <$> w_tcps w !! t = Some port) l), w).
Proof.
  induction l as [|t l IH]; intros Hl; cbn [tcp_find_from]; [done|].
  destruct (Hl t) as [ts Ht]; [set_solver|]. unfold bind at 1, load. cbn [hget heap_tcps]. rewrite Ht.
  rewrite filter_cons, Ht. destruct (Z.eqb_spec (ts_local_port ts) port).
  - by rewrite decide_True by (cbn; congruence).
  - rewrite decide_False by (cbn; congruence). apply IH. set_solver.
Qed.

Lemma conn_find_from_eq ip port l w :
  (∀ c, c ∈ l → is_Some (w_conns w !! c)) →
  conn_find_from ip port l w = Ok (conn_find w l ip port, w).
Proof.
  induction l as [|c l IH]; intros Hl; cbn [conn_find_from]; [done|].
  destruct (Hl c) as [cn Hc]; [set_solver|]. unfold bind at 1, load. cbn [hget heap_conns]. rewrite Hc.
  unfold conn_find. rewrite filter_cons, Hc.
  destruct (Z.eqb_spec (tc_remote_port cn) port), (Z.eqb_spec (tc_remote_ip cn) ip); cbn [andb].
  - by rewrite decide_True by (unfold peer; cbn; congruence).
  - rewrite decide_False by (unfold peer; cbn; congruence). apply IH. set_solver.
  - rewrite decide_False by (unfold peer; cbn; congruence). apply IH. set_solver.
  - rewrite decide_False by (unfold peer; cbn; congruence). apply IH. set_solver.
Qed.

(** A segment from [src] that is handed to [tcp_input] in the buffer [k]. *)
Record seg_arrives (w : world) (k : ptr) (s : sk_buff) (i : ptr) (it : intf) (m : skb_meta)
    (d : Z) (post hdr data : list Z) (src sport dport seq flags wnd : Z) : Prop := {
  sa_wf : wf (with_skb k s w);
  sa_owned : owned (with_skb k s w) k s;
  sa_intf : w_intfs w !! i = Some it;
  sa_packet : packet s m d (hdr ++ data) post;
  sa_mi : m_intf m = Some i;
  sa_mip : m_ip m = Some 18;
  sa_src : rd32 (skb_head s) 30 = Ok src;
  sa_src32 : is_u32 src;
  sa_fields : seg_fields hdr sport dport seq flags wnd;
}.

Section TcpInSpec.
Context `{Os} (E : fault → Prop).

Section Handlers.
Context (deliver : ptr → W bool).
Let layer : IpLayer := {| ip_output := ip_output_with deliver |}.
#[local] Existing Instance layer.
Context (w : world) (k : ptr) (s : sk_buff) (i : ptr) (it : intf) (m : skb_meta) (d : Z)
  (post hdr data : list Z) (src sport dport seq flags wnd : Z).
Context (Ha : seg_arrives w k s i it m d post hdr data src sport dport seq flags wnd).

Lemma seg_pointers : skb_intf s = Some i ∧ skb_ip_hdr s = Some 18 ∧ skb_data s = d.
Proof.
  destruct Ha as [_ _ _ Hp Hmi Hmip _ _ _]. pose proof (pk_meta _ _ _ _ _ Hp) as Hm.
  rewrite <- Hm in Hmi, Hmip. split_and!; [exact Hmi|exact Hmip|apply Hp].
Qed.

(** Reads of header fields. *)
Lemma wp_seg_rd16 o v Q :
  slice o 2 hdr = be16 v → is_u16 v → 0 <= o → o + 2 <= 20 →
  (∀ x, NTOHS x = v → Q x (with_skb k s w)) →
  wp (on_skb k (s_rd16 (d + o))) Q E (with_skb k s w).
Proof.
  intros Hsl Hv ? ? HQ. destruct Ha as [_ _ _ Hp _ _ _ _ []]. apply wp_read_with.
  apply (packet_rd16 _ _ _ _ _ Hp _ _ o); [done|done|rewrite length_app; lia|]. split; [done|].
  rewrite slice_app_l, Hsl by lia. apply HQ. by apply NTOHS_be16.
Qed.

Lemma wp_seg_seq Q :
  (∀ x, NTOHL x = seq → is_u32 x → Q x (with_skb k s w)) →
  wp (on_skb k (s_rd32 (d + tcp_seq))) Q E (with_skb k s w).
Proof.
  intros HQ. destruct Ha as [_ _ _ Hp _ _ _ _ []]. apply wp_read_with.
  apply (packet_rd32 _ _ _ _ _ Hp _ _ 4); [done|done|rewrite length_app; lia|]. split; [done|].
  rewrite slice_app_l, sf_seq0 by lia. apply HQ; [by apply le_decode_be32|].
  rewrite <- le_encode_HTONL, le_decode_encode by done. apply Z.mod_pos_bound. done.
Qed.

Lemma wp_seg_flags Q :
  Q flags (with_skb k s w) → wp (on_skb k (s_rd8 (d + tcp_flags))) Q E (with_skb k s w).
Proof.
  intros HQ. destruct Ha as [_ _ _ Hp _ _ _ _ []]. apply wp_read_with.
  apply (packet_rd8 _ _ _ _ _ Hp _ _ 13); [done|done|rewrite length_app; lia|]. split; [done|].
  rewrite slice_app_l, sf_flags0 by lia. by rewrite (Z.add_0_r flags : le_decode [flags] = flags).
Qed.

Lemma wp_seg_src Q :
  Q src (with_skb k s w) → wp (on_skb k (s_rd32 (18 + ip_src_ip))) Q E (with_skb k s w).
Proof.
  intros HQ. apply wp_read_with. apply (wp_s_rd32_at _ _ src); [apply Ha|]. by split.
Qed.

(** From [tcp_input] to the handler. *)
Lemma wp_tcp_input_dispatch t ts Q :
  tcp_find w i dport = Some t → w_tcps w !! t = Some ts →
  match conn_find w (ts_conns ts) src sport with
  | Some c => ∀ cn, w_conns w !! c = Some cn →
      wp (match tc_state cn with
          | handle_estab_state => handle_estab c k
          | handle_syn_sent_state => handle_syn_sent c k
          end) Q E (with_skb k s w)
  | None =>
      wp (if ts_listening ts && has_flag flags FLAG_SYN && negb (has_flag flags FLAG_ACK)
          then handle_new_connection t k else ret false) Q E (with_skb k s w)
  end →
  wp (tcp_input k) Q E (with_skb k s w).
Proof.
  intros Hfind Hts HQ. destruct seg_pointers as (Hi & Hip & Hd).
  pose proof (sa_wf _ _ _ _ _ _ _ _ _ _ _ _ _ _ _ _ Ha) as Hw.
  pose proof (sa_intf _ _ _ _ _ _ _ _ _ _ _ _ _ _ _ _ Ha) as Hit.
  destruct (sa_fields _ _ _ _ _ _ _ _ _ _ _ _ _ _ _ _ Ha) as [_ Fs Fd _ _ _ (Us & Ud & _) _].
  unfold tcp_input. mstep. apply wp_load_with. rewrite Hi, Hip, Hd. mstep. mstep.
  mstep. apply (wp_seg_rd16 2 dport); [done|done|done|done|]. intros x ->.
  mstep. unfold tcp_socks_manager_find. mstep. apply (wp_load _ it); [done|].
  unfold wp at 1. rewrite tcp_find_from_eq.
  2: { intros t' Ht'. destruct (tw_socks _ _ _ _ _ _ (wf_tcp _ Hw) i it t' Hit Ht') as (ts' & ? & _). by exists ts'. }
  unfold tcp_find in Hfind. rewrite Hit in Hfind. cbn in Hfind.
  change (w_tcps (with_skb k s w)) with (w_tcps w). rewrite Hfind.
  mstep. mstep. mstep. apply wp_seg_src. mstep. apply (wp_seg_rd16 0 sport); [done|done|done|done|].
  intros y ->. mstep. unfold find_matching_connection. mstep. apply (wp_load _ ts); [done|].
  unfold wp at 1. rewrite conn_find_from_eq.
  2: { intros c Hc. destruct (tw_conns _ _ _ _ _ _ (wf_tcp _ Hw) t ts c Hts Hc) as (cn & ? & _). by exists cn. }
  change (conn_find (with_skb k s w) (ts_conns ts) src sport) with (conn_find w (ts_conns ts) src sport).
  destruct (conn_find w (ts_conns ts) src sport) as [c|] eqn:Hcf.
  - assert (∃ cn, w_conns w !! c = Some cn) as [cn Hcn].
    { apply head_filter_sat in Hcf as [Hin _]. apply fmap_Some in Hin as (cn & ? & _). by exists cn. }
    mstep. apply (wp_load _ cn); [done|]. by apply HQ.
  - mstep. apply (wp_load _ ts); [done|]. mstep. apply wp_seg_flags. exact HQ.
Qed.

(** ** An established connection *)

(** A segment in order: its data waits to be read and the next one is expected. *)
Lemma wp_handle_estab_data c cn Q :
  w_conns w !! c = Some cn → seq = tc_rcv_nxt cn →
  has_flag flags FLAG_RST = false → has_flag flags FLAG_FIN = false →
  (∀ s', packet s' m (d + 20) data post →
     Q true (with_conn c (tc_set_rx (k :: tc_rx_skb cn)
       (tc_set_rcv_nxt (wrap32 (tc_rcv_nxt cn + zlen data)) cn)) (with_skb k s' w))) →
  wp (handle_estab c k) Q E (with_skb k s w).
Proof.
  intros Hc Hseq Hrst Hfin HQ. destruct seg_pointers as (Hi & Hip & Hd).
  pose proof (sa_packet _ _ _ _ _ _ _ _ _ _ _ _ _ _ _ _ Ha) as Hp.
  pose proof (sf_length _ _ _ _ _ _ (sa_fields _ _ _ _ _ _ _ _ _ _ _ _ _ _ _ _ Ha)) as Hl.
  unfold handle_estab. mstep. apply wp_load_with. rewrite Hd. mstep. apply (wp_load _ cn); [done|].
  mstep. apply wp_seg_seq. intros x -> _. rewrite Hseq, Z.eqb_refl.
  mstep. apply wp_seg_flags. rewrite Hrst, Hfin. cbv beta match. unfold TCP_HDR_SIZE.
  mstep. apply wp_on_with. apply (packet_pull _ _ _ _ _ Hp); [rewrite length_app; lia|].
  intros s' P'. change (Z.to_nat 20) with 20%nat in P'. rewrite <- Hl, drop_app_length in P'.
  mstep. apply wp_load_with. rewrite (pk_len _ _ _ _ _ P').
  mstep. apply (wp_update _ _ cn); [done|].
  mstep. apply (wp_update _ _ (tc_set_rcv_nxt (wrap32 (tc_rcv_nxt cn + zlen data)) cn)); [apply lookup_insert_eq|].
  mstep. specialize (HQ s' P'). unfold with_conn in HQ. cbn [hset hget heap_conns w_conns set_conns].
  rewrite insert_insert_eq. exact HQ.
Qed.

(** A segment out of order is dropped and nothing changes. *)
Lemma wp_handle_estab_out_of_order c cn Q :
  w_conns w !! c = Some cn → seq ≠ tc_rcv_nxt cn → Q false (with_skb k s w) →
  wp (handle_estab c k) Q E (with_skb k s w).
Proof.
  intros Hc Hseq HQ. destruct seg_pointers as (Hi & Hip & Hd).
  unfold handle_estab. mstep. apply wp_load_with. rewrite Hd. mstep. apply (wp_load _ cn); [done|].
  mstep. apply wp_seg_seq. intros x -> _. destruct (Z.eqb_spec seq (tc_rcv_nxt cn)); [done|]. by mstep.
Qed.

(** A reset closes the connection; the buffer is kept. *)
Lemma wp_handle_estab_reset c cn Q :
  w_conns w !! c = Some cn → seq = tc_rcv_nxt cn → has_flag flags FLAG_RST = true →
  wp (close_connection c) Q E (with_skb k s w) → wp (handle_estab c k) Q E (with_skb k s w).
Proof.
  intros Hc Hseq Hrst HQ. destruct seg_pointers as (Hi & Hip & Hd).
  unfold handle_estab. mstep. apply wp_load_with. rewrite Hd. mstep. apply (wp_load _ cn); [done|].
  mstep. apply wp_seg_seq. intros x -> _. rewrite Hseq, Z.eqb_refl.
  mstep. apply wp_seg_flags. by rewrite Hrst.
Qed.

(** ** The handshake *)

(** The acknowledgment of our SYN: the connection is established. *)
Lemma wp_handle_syn_sent_step c cn Q :
  w_conns w !! c = Some cn →
  Q false (if has_flag flags FLAG_ACK && negb (has_flag flags FLAG_SYN) && (seq =? tc_rcv_nxt cn)
           then with_conn c (tc_set_state handle_estab_state cn) (with_skb k s w)
           else with_skb k s w) →
  wp (handle_syn_sent c k) Q E (with_skb k s w).
Proof.
  intros Hc HQ. destruct seg_pointers as (Hi & Hip & Hd).
  unfold handle_syn_sent. mstep. apply wp_load_with. rewrite Hd. mstep. apply wp_seg_flags.
  mstep. apply (wp_load _ cn); [done|]. mstep. apply wp_seg_seq. intros x -> _.
  mstep. destruct (_ && _); [|mstep; by mstep].
  apply (wp_update _ _ cn); [done|]. mstep. exact HQ.
Qed.

End Handlers.

(** ** A SYN for a listening socket *)

Section Syn.
Context (deliver : ptr → W bool).
Let layer : IpLayer := {| ip_output := ip_output_with deliver |}.
#[local] Existing Instance layer.
Context (w : world) (k : ptr) (s : sk_buff) (i : ptr) (it : intf) (m : skb_meta) (d : Z)
  (post hdr data : list Z) (src sport dport seq flags wnd : Z).
Context (Ha : seg_arrives w k s i it m d post hdr data src sport dport seq flags wnd).

(** The connection made for a SYN, after its own SYN was sent: it expects the
    byte after the peer's SYN, and its next byte has number 1. *)
Definition syn_conn (t : ptr) (irs : Z) : tcp_connection_sock :=
  mk_tcp_connection_sock t handle_syn_sent_state src sport 0 1 wnd 0
    (wrap32 (seq + 1)) TCP_WINDOW_SIZE irs [] [].

(** The state with the new connection [c] of the socket [t]. *)
Definition syn_world (t : ptr) (ts : tcp_sock) (irs : Z) : world :=
  let c := w_next w in
  with_conn c (syn_conn t irs)
    (set_tcps (<[t := ts_set_conns (c :: ts_conns ts) (ts_closed_conns ts) ts]> (w_tcps w))
      (set_next (Pos.succ c) (with_skb k s w))).

Lemma sends_events w1 t' fr w' :
  sends (set_trace (w_trace w1 ++ t') w1) fr w' → sendtos t' = [] → sends w1 fr w'.
Proof.
  intros [(t & n & -> & <-) Hn] Ht. split; [|done]. exists (t' ++ t), n. split.
  - cbn. rewrite <- app_assoc. by destruct w1.
  - unfold sendtos in *. by rewrite omap_app, Ht.
Qed.

Lemma wp_handle_new_connection_wire t ts j jt mac port Q :
  w_tcps w !! t = Some ts → ts_bound ts = true → is_u16 (ts_local_port ts) →
  ts_intf ts = Some j → w_intfs w !! j = Some jt →
  (∀ nd entry, w_nodes w !! if_node jt = Some nd →
     rt_lookup_lpm (n_rt_table (n_nw nd)) src = Ok (Some entry) → j = rt_intf entry) →
  reaches (with_skb k s w) (if_node jt) src jt mac port →
  (∀ irs w', sends (syn_world t ts irs)
     [(port, ip_frame mac (IF_MAC jt) (ip_datagram IP_PROTO_TCP (IF_IP jt) src
        (tcp_msg (ts_local_ip ts) src (ts_local_port ts) sport 0 (wrap32 (seq + 1)) 0x12
           TCP_WINDOW_SIZE [])))] w' → Q false w') →
  wp (handle_new_connection t k) Q E (with_skb k s w).
Proof.
  intros Hts Hbd Hlp Hj Hjt Hroute Hr HQ. destruct (seg_pointers w k s i it m d post hdr data src sport dport seq flags wnd Ha) as (Hi & Hip & Hd).
  pose proof (sa_wf _ _ _ _ _ _ _ _ _ _ _ _ _ _ _ _ Ha) as Hw.
  pose proof (sa_src32 _ _ _ _ _ _ _ _ _ _ _ _ _ _ _ _ Ha) as Hs32.
  destruct (sa_fields _ _ _ _ _ _ _ _ _ _ _ _ _ _ _ _ Ha) as [_ Fs Fd _ _ Fw (Us & Ud & Uw) Useq].
  unfold handle_new_connection. mstep. apply wp_print.
  set (w1 := set_trace (w_trace w ++ [EPrint GotNewConnection]) w).
  change (set_trace _ (with_skb k s w)) with (with_skb k s w1).
  assert (seg_arrives w1 k s i it m d post hdr data src sport dport seq flags wnd) as Ha1
    by (destruct Ha; by split).
  mstep. apply wp_load_with. rewrite Hip, Hd. mstep. mstep.
  mstep. apply wp_read_with, (wp_s_rd32_at _ _ src); [apply Ha|]. split; [done|].
  mstep. apply (wp_seg_rd16 w1 k s i it m d post hdr data src sport dport seq flags wnd Ha1 0 sport);
    [done|done|done|done|]. intros xs Hxs.
  mstep. apply (wp_seg_rd16 w1 k s i it m d post hdr data src sport dport seq flags wnd Ha1 14 wnd);
    [done|done|done|done|]. intros xw Hxw.
  mstep. apply (wp_seg_seq w1 k s i it m d post hdr data src sport dport seq flags wnd Ha1).
  intros irs Hirs _.
  mstep. apply wp_alloc. set (c := w_next w).
  unfold new_connection. rewrite Hxs, Hxw, Hirs.
  change (mk_tcp_connection_sock _ _ _ _ _ _ _ _ _ _ _ _ _) with (tc_set_snt_nxt 0 (syn_conn t irs)).
  set (cn0 := tc_set_snt_nxt 0 (syn_conn t irs)).
  destruct (wf_listed_conn (with_skb k s w1) t ts cn0) as [Hw3 _]; [done|done|done|done|done|].
  mstep. apply (wp_update _ _ ts); [done|].
  set (ts' := ts_set_conns (c :: ts_conns ts) (ts_closed_conns ts) ts).
  set (w2 := hset _ _) in *.
  assert (wf w2) as Hw2 by exact Hw3.
  mstep. change (Z.lor FLAG_SYN FLAG_ACK) with 0x12.
  einvoke (wp_tcp_out_wire E deliver c cn0 ts' jt mac port [] 0x12).
  - split.
    + apply lookup_insert_eq.
    + apply lookup_insert_eq.
    + exists j. split_and!; [done|done|]. exact Hroute.
    + by apply (reaches_evolves (with_skb k s w)).
    + done.
    + intros fl Hfl. split; try done. apply wrap32_u32.
  - constructor.
  - done.
  - done.
  - unfold window_open. cbn [tc_snt_nxt tc_snt_una tc_snt_wnd cn0 tc_set_snt_nxt syn_conn length].
    unfold wrap32, is_u16 in *. rewrite Z.mod_small by lia. lia.
  - intros w' Hs. mstep. apply (HQ irs). apply (sends_events _ [EPrint GotNewConnection]); [|done].
    unfold syn_world, with_conn in *. cbn [w_conns set_conns] in Hs. subst w2.
    cbn [hset hget heap_tcps heap_conns w_conns set_conns set_tcps set_next with_skb] in Hs.
    rewrite insert_insert_eq in Hs. exact Hs.
Qed.
End Syn.
End TcpInSpec.
