(* ===== verification/InputSpec.v ===== *)
(** * From the reception of a frame to sockets

    Frames with an ARP reply, a UDP datagram or a TCP segment for this node,
    from the receiving thread to the state of the ARP entry or of the socket. *)
From S2P Require Import Prelude Cmonad Utils Skbuff World Topology Comm Ethernet Arp Route Ip.
From S2P Require Import Icmp Udp Tcp Stack Invariant SkbRules LinkSafe IpSafe.
From S2P Require Import Packet Wire ArpSpec IpSpec ProtoSpec RecvSpec SockSpec TcpSpec TcpInSpec.
#[local] Open Scope Z_scope.

(** The state the handler of a frame starts in. *)
Lemma sends_same w w1 : sends w [] w1 → ∃ t n, w1 = set_trace t (set_next n w).
Proof. intros [(t & n & -> & _) _]. by do 2 eexists. Qed.

Lemma sends_weaken w w1 w' fr :
  sends w [] w1 → sends w1 fr w' → sends w fr w'.
Proof. intros H1 H2. by apply (sends_trans _ w1 _ []). Qed.

Section InputSpec.
Context `{Os} (E : fault → Prop).

(** ** ARP replies *)

Lemma wp_recv_arp_reply fd i it dst src sha spa tha tpa pad_ e en frs Q w :
  listens w fd i it → for_me it dst →
  let f := eth_frame dst src ETH_PROTO_ARP (arp_msg ARP_OP_REPLY sha spa tha tpa ++ pad_) in
  length dst = 6%nat → length src = 6%nat → Forall is_u8 f → zlen f <= 2044 →
  length sha = 6%nat → length tha = 6%nat → is_u32 spa →
  arp_find w (if_node it) spa = Some e → w_arps w !! e = Some en →
  mapM (pending_frame w sha) (arp_pending en) = Some frs →
  (∀ w', sends (set_arps (<[e := mk_arp_entry (arp_ip en) sha (arp_intf en) true []]> (w_arps w))
                  (set_skbs (foldl (λ m k, delete k m) (w_skbs w) (arp_pending en)) w)) frs w' →
         Q tt w') →
  wp (recv_one fd (RecvFrame f)) Q E w.
Proof.
  intros Hli Hme f Hd Hs Hb Hlen Hsha Htha Hspa Hfind He Hfr HQ. pose proof Hli as [Hw _ Hit _].
  assert (∀ k, k ∈ arp_pending en → k ≠ w_next w) as Hold.
  { intros k Hk ->. destruct (wf_pending w e en (w_next w) Hw He Hk) as (s & Hs' & _).
    by rewrite (wf_unused_skbs w) in Hs'. }
  apply (wp_recv_frame E fd i it); [done|done|by left|done..| |].
  { unfold f in Hlen. rewrite length_eth_frame in Hlen by done. lia. }
  intros s w1 Hs1 Hn1 Hw1 Ho1 Hp. mstep. destruct (sends_same _ _ Hs1) as (t & n & Ew1).
  eapply (wp_arp_reply E (w_next w) i it sha spa tha tpa e en frs).
  - split; [done|by rewrite Ew1|]. eexists s, _, _, pad_, _. split; [by apply owned_lookup|]. by split.
  - done.
  - done.
  - done.
  - by rewrite Ew1.
  - by rewrite Ew1.
  - rewrite <- Hfr. apply Forall_mapM_ext, Forall_forall. intros k Hk.
    assert (w_skbs (with_skb (w_next w) s w1) !! k = w_skbs w !! k) as Es.
    { rewrite Ew1. apply lookup_insert_ne. intros <-. by apply (Hold _ Hk). }
    unfold pending_frame, wire. rewrite Es. by rewrite Ew1.
  - intros Hk. by apply (Hold _ Hk).
  - intros w' Hs'. mstep. apply HQ. eapply sends_weaken; [|exact Hs'].
    destruct Hs1 as [(t1 & n1 & -> & Ht1) Hle]. split; [|exact Hle]. exists t1, n1. split; [|done]. cbn.
    assert (∀ M : gmap ptr sk_buff, M !! w_next w = None →
      delete (w_next w) (foldl (λ m k, delete k m) (<[w_next w := s]> M) (arp_pending en)) =
      foldl (λ m k, delete k m) M (arp_pending en)) as Hdel.
    { clear -Hold. induction (arp_pending en) as [|k l IH]; intros M HM; cbn.
      - by rewrite delete_insert_id.
      - rewrite delete_insert_ne by (by intros ->; apply (Hold (w_next w)); [set_solver|]).
        apply IH; [set_solver|]. rewrite lookup_delete_None. by right. }
    rewrite Hdel; [done|]. by apply (wf_unused_skbs w).
Qed.

(** ** UDP *)

Lemma wp_recv_udp fd i it dst src hdr uhdr data sip dip dport u us Q w :
  listens w fd i it → for_me it dst → ip_fields hdr IP_PROTO_UDP sip dip →
  local_ip w (if_node it) dip →
  length uhdr = 8%nat → slice 2 2 uhdr = be16 dport → is_u16 dport →
  udp_find w i dport = Some u → w_udps w !! u = Some us →
  let f := eth_frame dst src ETH_PROTO_IP (hdr ++ uhdr ++ data) in
  length dst = 6%nat → length src = 6%nat → Forall is_u8 f → zlen f <= 2044 →
  (∀ s' w', packet s' (mk_meta (Some i) (Some 4) (Some 18) None (Some 38)) 46 data (replicate (2051 - length f) 0) →
     (∃ tl, skb_head s' = take 18 (skb_head s') ++ hdr ++ uhdr ++ tl) →
     sends (set_udps (<[u := us_set_rx (w_next w :: us_rx_skb us) us]> (w_udps w))
              (with_skb (w_next w) s' w)) [] w' → Q tt w') →
  wp (recv_one fd (RecvFrame f)) Q E w.
Proof.
  intros Hli Hme Hf Hloc Hul Hup Hport Hfind Hu f Hd Hs Hb Hlen HQ. pose proof Hli as [Hw _ Hit _].
  eapply wp_recv_ip_local; [exact Hli|exact Hme|exact Hf|done..|].
  pose proof Hf as [Hhl Hpr Hsi Hdi Hs32 Hd32].
  intros s w1 Hs1 Hn1 Hw1 Ho1 Hp. destruct (sends_same _ _ Hs1) as (t & n & Ew1).
  mstep. unfold ip_input, STACK_FUEL. cbn [ip_input_fuel]. unfold ip_input_body at 1, ip_proto, IP_HDR_SIZE.
  mstep. apply wp_load_with. rewrite (pk_data _ _ _ _ _ Hp). mstep. apply wp_read_with.
  apply (packet_rd8 _ _ _ _ _ Hp _ _ 9); [done|done|rewrite length_app; lia|]. split; [done|].
  rewrite slice_app_l, Hpr by lia.
  change (le_decode [IP_PROTO_UDP]) with IP_PROTO_UDP.
  change (IP_PROTO_UDP =? IP_PROTO_ICMP) with false. change (IP_PROTO_UDP =? IP_PROTO_TCP) with false.
  change (IP_PROTO_UDP =? IP_PROTO_UDP) with true. cbv beta match.
  mstep. apply wp_on_with. mstep.
  apply (packet_pull_head _ _ _ _ _ Hp); [rewrite length_app; lia|].
  intros s2 P2 Hh2. change (Z.to_nat 20) with 20%nat in P2. mstep.
  rewrite drop_app_length' in P2 by done.
  change (18 + 20) with 38 in P2. rewrite (pk_data _ _ _ _ _ P2).
  apply (packet_set_udp_hdr _ _ _ _ _ (Some 38)) in P2.
  set (s3 := skb_set_udp_hdr (Some 38) s2) in *.
  destruct (with_skb_owned (w_next w) s s3 (with_skb (w_next w) s w1)) as [Hw2 Ho2]; [done..|apply P2|].
  rewrite with_skb_twice in Hw2, Ho2.
  eapply (wp_udp_input_rx _ (w_next w) i it s3 _ _ uhdr data _ dport);
    [exact Hw2|exact Ho2|by rewrite Ew1|exact P2|done|done|done|done|].
  replace (udp_find w1 i dport) with (udp_find w i dport) by by rewrite Ew1.
  rewrite Hfind. intros us' s' Hu' Ps' Hh'. rewrite Ew1 in Hu'. change (w_udps w !! u = Some us') in Hu'. assert (us' = us) as -> by congruence.
  mstep. apply (HQ s'); [exact Ps'| |].
  - rewrite Hh'. change (skb_head s3) with (skb_head s2). rewrite Hh2. exists (data ++ replicate (2051 - length f) 0).
    rewrite <- (take_drop 18 (skb_head s)) at 1. f_equal.
    pose proof (pk_drop _ _ _ _ _ Hp) as Hdr. change (Z.to_nat 18) with 18%nat in Hdr.
    rewrite Hdr. by rewrite <- !app_assoc.
  - destruct Hs1 as [(t1 & n1 & -> & Ht1) Hle]. split; [|exact Hle]. exists t1, n1. by split.
Qed.

(** ** TCP *)

(** A segment for this node reaches [tcp_input], over the IP layer that
    delivers packets to this node with the fuel that is left. *)
Lemma wp_recv_tcp fd i it dst src hdr thdr data sip dip sport dport seq flags wnd Q w :
  listens w fd i it → for_me it dst → ip_fields hdr IP_PROTO_TCP sip dip →
  local_ip w (if_node it) dip → seg_fields thdr sport dport seq flags wnd →
  let f := eth_frame dst src ETH_PROTO_IP (hdr ++ thdr ++ data) in
  length dst = 6%nat → length src = 6%nat → Forall is_u8 f → zlen f <= 2044 →
  (∀ s w1, sends w [] w1 → w_next w1 = Pos.succ (w_next w) →
     seg_arrives w1 (w_next w) s i it (mk_meta (Some i) (Some 4) (Some 18) (Some 38) None) 38
       (replicate (2051 - length f) 0) thdr data sip sport dport seq flags wnd →
     wp (let* ok := tcp_input (H := {| ip_output := ip_output_with (ip_input_fuel 1) |}) (w_next w) in
         if (ok : bool) then ret tt else print PacketDropped ;;; free_skb (w_next w)) Q E
       (with_skb (w_next w) s w1)) →
  wp (recv_one fd (RecvFrame f)) Q E w.
Proof.
  intros Hli Hme Hf Hloc Hseg f Hd Hs Hb Hlen HQ. pose proof Hli as [Hw _ Hit _].
  eapply wp_recv_ip_local; [exact Hli|exact Hme|exact Hf|done..|].
  pose proof Hf as [Hhl Hpr Hsi Hdi Hs32 Hd32].
  intros s w1 Hs1 Hn1 Hw1 Ho1 Hp. destruct (sends_same _ _ Hs1) as (t & n & Ew1).
  pose proof (packet_field _ _ _ _ _ Hp 4 30 12 eq_refl ltac:(done) ltac:(rewrite length_app; lia)) as Hsrc.
  change (Z.of_nat 4) with 4 in Hsrc. rewrite slice_app_l, Hsi, le_decode_encode in Hsrc by lia.
  change (256 ^ Z.of_nat 4) with (2 ^ 32) in Hsrc. rewrite Z.mod_small in Hsrc by exact Hs32.
  mstep. unfold ip_input, STACK_FUEL. cbn [ip_input_fuel]. unfold ip_input_body at 1, ip_proto, IP_HDR_SIZE.
  mstep. apply wp_load_with. rewrite (pk_data _ _ _ _ _ Hp). mstep. apply wp_read_with.
  apply (packet_rd8 _ _ _ _ _ Hp _ _ 9); [done|done|rewrite length_app; lia|]. split; [done|].
  rewrite slice_app_l, Hpr by lia.
  change (le_decode [IP_PROTO_TCP]) with IP_PROTO_TCP.
  change (IP_PROTO_TCP =? IP_PROTO_ICMP) with false. change (IP_PROTO_TCP =? IP_PROTO_TCP) with true.
  cbv beta match. mstep. apply wp_on_with. mstep.
  apply (packet_pull_head _ _ _ _ _ Hp); [rewrite length_app; lia|].
  intros s2 P2 Hh2. change (Z.to_nat 20) with 20%nat in P2. mstep.
  rewrite drop_app_length' in P2 by done. change (18 + 20) with 38 in P2.
  rewrite (pk_data _ _ _ _ _ P2). apply (packet_set_tcp_hdr _ _ _ _ _ (Some 38)) in P2.
  set (s3 := skb_set_tcp_hdr (Some 38) s2) in *.
  destruct (with_skb_owned (w_next w) s s3 (with_skb (w_next w) s w1)) as [Hw2 Ho2]; [done..|apply P2|].
  rewrite with_skb_twice in Hw2, Ho2.
  apply wp_bind_inv, (HQ s3 w1); [done|done|]. split; try done.
  - by rewrite Ew1.
  - change (skb_head s3) with (skb_head s2). by rewrite Hh2.
Qed.
End InputSpec.
