(* ===== verification/ForwardSpec.v ===== *)
(** * Forwarding

    A datagram for another host: it is dropped when forwarding is off or its
    time to live is used up; otherwise it leaves by the interface of its route,
    with the time to live decremented, the source address of that interface and
    a checksum taken over the old one. *)
From S2P Require Import Prelude Cmonad Utils Skbuff World Topology Comm Ethernet Arp Route Ip.
From S2P Require Import Icmp Udp Tcp Stack Invariant SkbRules LinkSafe ArpSafe IpSafe.
From S2P Require Import Packet Wire ArpSpec IpSpec ProtoSpec RecvSpec InputSpec.
#[local] Open Scope Z_scope.

(** A datagram at the end of a link, for a host that is not this node. *)
Record transit (w : world) (fd : Z) (i : ptr) (it : intf) (f hdr q : list Z) (ttl dip : Z) : Prop := {
  tr_listens : listens w fd i it;
  tr_frame : ∃ dst src, f = eth_frame dst src ETH_PROTO_IP (hdr ++ q) ∧ for_me it dst ∧
    length dst = 6%nat ∧ length src = 6%nat;
  tr_hdr : ip_hdr5 hdr;
  tr_ttl : slice 8 1 hdr = [ttl];
  tr_dst : slice 16 4 hdr = le_encode 4 dip;
  tr_dst32 : is_u32 dip;
  tr_remote : ¬ local_ip w (if_node it) dip;
  tr_bytes : Forall is_u8 f;
  tr_size : zlen f <= 2044;
}.

(** The header that leaves. *)
Definition forwarded_hdr (src ttl : Z) (hdr : list Z) : list Z := set_source src (splice 8 [ttl - 1] hdr).

Lemma ip_hdr5_ttl hdr v : ip_hdr5 hdr → ip_hdr5 (splice 8 [v] hdr).
Proof.
  intros [Hl H5]. split.
  - by rewrite length_splice by (cbn; lia).
  - by destruct hdr.
Qed.

Lemma length_set_source src hdr : ip_hdr5 hdr → length (set_source src hdr) = 20%nat.
Proof.
  intros [Hl _]. unfold set_source.
  assert (length (splice 12 (le_encode 4 src) hdr) = 20%nat) as Hl2.
  { rewrite length_splice; rewrite ?length_le_encode; lia. }
  rewrite length_splice; cbn [length be16]; lia.
Qed.

Section ForwardSpec.
Context `{Os} (E : fault → Prop).

(** From the frame to [ip_forward]. *)
Lemma wp_recv_transit fd i it f hdr q ttl dip Q w :
  transit w fd i it f hdr q ttl dip →
  (∀ s w1, sends w [] w1 → wf (with_skb (w_next w) s w1) →
     owned (with_skb (w_next w) s w1) (w_next w) s →
     packet s (mk_meta (Some i) (Some 4) (Some 18) None None) 18 (hdr ++ q) (replicate (2051 - length f) 0) →
     wp (let* ok := ip_forward ip_input (w_next w) in
         if (ok : bool) then ret tt else print PacketDropped ;;; free_skb (w_next w)) Q E
       (with_skb (w_next w) s w1)) →
  wp (recv_one fd (RecvFrame f)) Q E w.
Proof.
  intros [Hli (dst & src & -> & Hme & Hd & Hs) [Hhl _] _ Hdi Hd32 Hrem Hb Hlen] HQ. pose proof Hli as [Hw _ Hit _].
  apply (wp_recv_frame E fd i it); [done|done|by right|done..| |].
  { rewrite length_eth_frame in Hlen by done. lia. }
  intros s w1 Hs1 Hn1 Hw1 Ho1 Hp. destruct (sends_same _ _ Hs1) as (t & n & Ew1).
  change (ETH_PROTO_IP =? ETH_PROTO_ARP) with false.
  change (ETH_PROTO_IP =? ETH_PROTO_IP) with true in *. cbv beta match in *.
  specialize (HQ s w1 Hs1 Hw1 Ho1 Hp). apply wp_bind_inv in HQ.
  mstep. unfold ip_preroute, ip_dst_ip. mstep. apply wp_load_with.
  assert (skb_intf s = Some i) as Hi by exact (f_equal m_intf (pk_meta _ _ _ _ _ Hp)).
  rewrite Hi. do 2 mstep. mstep. apply (wp_load _ it); [by rewrite Ew1|].
  rewrite (pk_data _ _ _ _ _ Hp). mstep. apply wp_read_with.
  apply (packet_rd32 _ _ _ _ _ Hp _ _ 16); [done|done|rewrite length_app; lia|]. split; [done|].
  rewrite slice_app_l, Hdi, le_decode_encode by lia.
  change (256 ^ Z.of_nat 4) with (2 ^ 32). rewrite Z.mod_small by exact Hd32.
  mstep. apply wp_is_ip_local; [done| |].
  { rewrite Ew1. exact (st_intf_node _ _ _ _ (wf_static _ Hw) i it Hit). }
  intros b Hbl. assert (b = false) as ->; [|exact HQ].
  destruct b; [|done]. exfalso. apply Hrem. rewrite Ew1 in Hbl. by apply Hbl.
Qed.

(** The end of a frame that is not kept. *)
Lemma wp_drop w s w1 Q :
  wf w → sends w [] w1 → (∀ w', sends w [] w' → Q tt w') →
  wp (print PacketDropped ;;; free_skb (w_next w)) Q E (with_skb (w_next w) s w1).
Proof.
  intros Hw [(t & n & -> & Ht) Hn] HQ. mstep. apply wp_print. apply (wp_dealloc _ s); [apply lookup_insert_eq|].
  apply HQ. split; [|exact Hn]. exists (t ++ [EPrint PacketDropped]), n. split.
  - cbn -[insert delete]. rewrite delete_insert_id by by apply (wf_unused_skbs w). by rewrite <- app_assoc.
  - unfold sendtos in *. by rewrite omap_app, Ht.
Qed.

Lemma wp_recv_expired fd i it f hdr q ttl dip Q w :
  transit w fd i it f hdr q ttl dip → ttl <= 1 ∨ w_ip_forward_enable w = false →
  (∀ w', sends w [] w' → Q tt w') → wp (recv_one fd (RecvFrame f)) Q E w.
Proof.
  intros Htr Hno HQ. pose proof Htr as [Hli _ [Hhl _] Httl _ _ _ _ _]. pose proof Hli as [Hw _ _ _].
  eapply wp_recv_transit; [exact Htr|]. intros s w1 Hs1 Hw1 Ho1 Hp. mstep.
  destruct (sends_same _ _ Hs1) as (t & n & Ew1).
  unfold ip_forward, ip_ttl. mstep. mstep.
  replace (w_ip_forward_enable (with_skb (w_next w) s w1)) with (w_ip_forward_enable w) by by rewrite Ew1.
  destruct (w_ip_forward_enable w); cbn [negb]; [|mstep; by apply wp_drop].
  destruct Hno as [Hno|?]; [|done].
  mstep. apply wp_load_with. rewrite (pk_data _ _ _ _ _ Hp). mstep. apply wp_read_with.
  apply (packet_rd8 _ _ _ _ _ Hp _ _ 8); [done|done|rewrite length_app; lia|]. split; [done|].
  rewrite slice_app_l, Httl by lia. change (le_decode [ttl]) with (ttl + 256 * 0).
  rewrite Z.mul_0_r, Z.add_0_r.
  destruct (Z.eqb_spec ttl 0) as [|Hne]; [mstep; by apply wp_drop|].
  mstep. apply wp_on_with. apply (packet_wr8 _ _ _ _ _ Hp _ _ 8); [done|done|rewrite length_app; lia|].
  intros s2 P2.
  assert (0 <= ttl) as Hpos.
  { destruct (packet_bytes _ _ _ _ _ Hp) as [[Hb _]%Forall_app _].
    pose proof (Forall_slice is_u8 8 1 hdr Hb) as Hsl. rewrite Httl in Hsl. apply Forall_cons in Hsl as [? _].
    unfold is_u8 in *. lia. }
  destruct (Z.eqb_spec (ttl - 1) 0); [|lia]. mstep. by apply wp_drop.
Qed.

Lemma wp_recv_forwarded fd i it f hdr q ttl dip it' mac port Q w :
  transit w fd i it f hdr q ttl dip → 1 < ttl → w_ip_forward_enable w = true →
  reaches w (if_node it) dip it' mac port →
  (∀ w', sends w [(port, ip_frame mac (IF_MAC it') (forwarded_hdr (IF_IP it') ttl hdr ++ q))] w' → Q tt w') →
  wp (recv_one fd (RecvFrame f)) Q E w.
Proof.
  intros Htr Hlt Hen Hr HQ. pose proof Htr as [Hli (dst & src & Ef & _ & Hd6 & Hs6) H5 Httl Hdi Hd32 Hrem Hbytes Hsize].
  pose proof Hli as [Hw _ Hit _]. pose proof H5 as [Hhl _].
  eapply wp_recv_transit; [exact Htr|]. intros s w1 Hs1 Hw1 Ho1 Hp. mstep.
  destruct (sends_same _ _ Hs1) as (t & n & Ew1).
  assert (skb_intf s = Some i) as Hi by exact (f_equal m_intf (pk_meta _ _ _ _ _ Hp)).
  assert (is_u8 ttl) as Hu8.
  { destruct (packet_bytes _ _ _ _ _ Hp) as [[Hb _]%Forall_app _].
    pose proof (Forall_slice is_u8 8 1 hdr Hb) as Hsl. rewrite Httl in Hsl. by apply Forall_cons in Hsl as [? _]. }
  unfold ip_forward, ip_ttl. mstep. mstep.
  replace (w_ip_forward_enable (with_skb (w_next w) s w1)) with true by by rewrite Ew1.
  cbn [negb]. mstep. apply wp_load_with. rewrite (pk_data _ _ _ _ _ Hp). mstep. apply wp_read_with.
  apply (packet_rd8 _ _ _ _ _ Hp _ _ 8); [done|done|rewrite length_app; lia|]. split; [done|].
  rewrite slice_app_l, Httl by lia. change (le_decode [ttl]) with (ttl + 256 * 0).
  rewrite Z.mul_0_r, Z.add_0_r.
  destruct (Z.eqb_spec ttl 0) as [|_]; [lia|].
  mstep. apply wp_on_with. apply (packet_wr8 _ _ _ _ _ Hp _ _ 8); [done|done|rewrite length_app; lia|].
  intros s2 P2. destruct (Z.eqb_spec (ttl - 1) 0) as [|_]; [lia|].
  assert (le_encode 1 (ttl - 1) = [ttl - 1]) as Ele.
  { cbn. unfold is_u8 in Hu8. by rewrite Z.mod_small by lia. }
  rewrite splice_app_l, Ele in P2 by (rewrite ?length_le_encode; lia).
  set (hdr1 := splice 8 [ttl - 1] hdr) in *.
  rewrite Hi. mstep. mstep. mstep. apply (wp_load _ it); [by rewrite Ew1|].
  mstep. apply wp_on_with. mstep. apply (packet_set_intf _ _ _ _ _ None) in P2.
  set (s3 := skb_set_intf None s2) in *.
  destruct (with_skb_owned (w_next w) s s3 (with_skb (w_next w) s w1)) as [Hw3 Ho3]; [done..|apply P2|].
  rewrite with_skb_twice in Hw3, Ho3.
  assert (reaches (with_skb (w_next w) s3 w1) (if_node it) dip it' mac port) as Hr3
    by (apply (reaches_evolves w); [done|exact Hw3|by rewrite Ew1..]).
  destruct Hr3 as [_ Hrem3 (nd & entry & fd' & e & en & Hn & Hrt & Hit' & Hwire & Harp & Hen' & Hres & <-)].
  eapply (wp_ip_postroute_route _ E s3 _ 18 hdr1 q _ (if_node it) dip nd entry it');
    [exact Hw3|exact Hrem3|exact Hn|exact Hrt|exact Hit'| |exact Ho3|exact P2|by apply ip_hdr5_ttl| |done|].
  { intros ? ? ? [=]. }
  { unfold hdr1. rewrite slice_splice_ne by (cbn [length]; lia). done. }
  intros s4 P4 Hw4 Ho4. rewrite with_skb_twice in Hw4, Ho4 |- *.
  eapply (wp_ip_transmit_wire E s4); [done|by eexists|exact Hit'|exact Hwire|exact Harp|exact Hen'|done| |exact P4|done|lia| |].
  - by apply owned_lookup.
  - rewrite Ef, length_eth_frame, !length_app, length_replicate in * by done. lia.
  - intros w' Hs'. mstep. apply HQ. rewrite eth_pad_zeros in Hs'.
    + apply (sends_recv w s4 w1); [done|done|]. exact Hs'.
    + destruct (reaches_mac _ _ _ _ _ _ Hr) as [Hm1 Hm2].
      rewrite Ef, !length_eth_frame, !length_app, length_set_source by (done || by apply ip_hdr5_ttl). lia.
Qed.
End ForwardSpec.
