(* ===== verification/Demo.v ===== *)
(** * Concrete states

    States of the topology of the test suite, reached by calls of the interface
    of the library and by frames: after its construction, with the addresses of
    two neighbours resolved, with bound sockets, and with an established TCP
    connection.  They are well formed because they are reachable; they are the
    inputs of the witnesses. *)
From S2P Require Import Prelude Cmonad Utils Skbuff World Topology Comm Ethernet Arp Route Ip.
From S2P Require Import Icmp Udp Tcp Stack Net Graph Scenario Invariant StackSafe TcpApiSafe Reach.
From S2P Require Import Packet Wire ArpSpec IpSpec ProtoSpec RecvSpec SockSpec TcpSpec TcpInSpec.
From stdpp Require Import strings.
#[local] Open Scope Z_scope.

(** ** Scripts of calls, checked *)

#[export] Instance received_ok_dec r : Decision (received_ok r).
Proof. destruct r; cbn [received_ok]; apply _. Defined.

#[export] Instance no_connections_dec fd w : Decision (no_connections fd w).
Proof.
  unfold no_connections. destruct (good_fd MAX_TCP_SOCKS (w_tcp_fds w) fd) as [t|].
  - destruct (decide (map_Forall (λ _ cn, tc_parent cn ≠ t) (w_conns w))) as [Hm|Hm].
    + left. intros ? [= <-] c cn Hc. by apply (Hm c).
    + right. intros Hn. apply Hm. intros c cn Hc. by apply (Hn t eq_refl c).
  - left. by intros ? [=].
Defined.

#[export] Instance call_ok_dec w c : Decision (call_ok w c).
Proof. destruct c; cbn [call_ok]; apply _. Defined.

Fixpoint script (cs : list call) (w : world) : option world :=
  match cs with
  | [] => Some w
  | c :: cs =>
      if bool_decide (call_ok w c) then
        match run_call c w with Ok (_, w') => script cs w' | Err _ => None end
      else None
  end.

Lemma script_reachable cs w w' : reachable w → script cs w = Some w' → reachable w'.
Proof.
  revert w. induction cs as [|c cs IH]; intros w Hr; cbn [script]; [by intros [= <-]|].
  case_bool_decide as Hok; [|done]. destruct (run_call c w) as [[[] w1]|] eqn:Hc; [|done].
  apply IH. by eapply reachable_call.
Qed.

Definition after (cs : list call) (w : world) : world := default w (script cs w).

Lemma after_reachable cs w : reachable w → reachable (after cs w).
Proof.
  intros Hr. unfold after. destruct (script cs w) as [w'|] eqn:Hs; [|done].
  by eapply script_reachable.
Qed.

(** ** Local addresses and paths, computed *)

Definition is_local (w : world) (n : ptr) (ip : Z) : bool :=
  existsb (λ oi, match (i ← oi; w_intfs w !! i) with Some it => IF_IP it =? ip | None => false end)
    (default [] (fst <$> topo w !! n)).

Lemma is_local_spec w n ip : is_local w n ip = true ↔ local_ip w n ip.
Proof.
  unfold is_local, local_ip. rewrite existsb_exists. split.
  - intros ([i|] & Hi%list_elem_of_In & Hit); [|done].
    destruct (topo w !! n) as [[sl rt]|] eqn:Ht; [|cbn in Hi; set_solver].
    cbn in Hit. destruct (w_intfs w !! i) as [it|] eqn:E; [|done].
    exists sl, rt, i, it. split_and!; [done..|]. by apply Z.eqb_eq.
  - intros (sl & rt & i & it & Ht & Hi & Hit & Hip). exists (Some i). rewrite Ht. cbn. rewrite Hit.
    split; [by apply list_elem_of_In|]. by apply Z.eqb_eq.
Qed.

(** The interface, the next MAC address and the port packets for [dst] go to. *)
Definition path_to (w : world) (n : ptr) (dst : Z) : option (intf * list Z * Z) :=
  nd ← w_nodes w !! n;
  match rt_lookup_lpm (n_rt_table (n_nw nd)) dst with
  | Ok (Some entry) =>
      it ← w_intfs w !! rt_intf entry;
      '(_, port) ← wire w (rt_intf entry);
      e ← arp_find w n (next_hop entry dst);
      en ← w_arps w !! e;
      if arp_resolved en && negb (is_local w n dst) then Some (it, arp_mac en, port)
      else None
  | _ => None
  end.

Lemma path_to_reaches w n dst it mac port :
  wf w → path_to w n dst = Some (it, mac, port) → reaches w n dst it mac port.
Proof.
  intros Hw. unfold path_to. destruct (w_nodes w !! n) as [nd|] eqn:Hn; cbn [mbind option_bind]; [|done].
  destruct (rt_lookup_lpm _ _) as [[entry|]|] eqn:Hr; [|done..].
  destruct (w_intfs w !! rt_intf entry) as [it0|] eqn:Hit; cbn [mbind option_bind]; [|done].
  destruct (wire w (rt_intf entry)) as [[fd p]|] eqn:Hwi; cbn [mbind option_bind]; [|done].
  destruct (arp_find w n _) as [e|] eqn:He; cbn [mbind option_bind]; [|done].
  destruct (w_arps w !! e) as [en|] eqn:Hen; cbn [mbind option_bind]; [|done].
  destruct (arp_resolved en) eqn:Hres; [|done].
  destruct (is_local w n dst) eqn:Hl; [done|]. intros [= <- <- <-].
  split; [done|by rewrite <- is_local_spec, Hl|]. exists nd, entry, fd, e, en. by split_and!.
Qed.

(** Decidable facts about the states are evaluated. *)
Ltac by_eval := refine (bool_decide_unpack _ _); vm_compute; exact I.

(** ** The states *)

(** Pointers: nodes 2, 3 and 4; interfaces 5 (eth01) and 6 (eth10) of a link, 8
    (eth02) and 9 (eth20) of another.  Descriptors 3, 4, 5 and 6 in this order,
    with ports from 40000 on. *)
Definition build_calls : list call := [
  CreateGraph (cstr "graph"); CreateNode 1 (cstr "node0"); CreateNode 1 (cstr "node1");
  CreateNode 1 (cstr "node2");
  InsertLink 2 3 (cstr "eth01") (cstr "eth10") 1; InsertLink 2 4 (cstr "eth02") (cstr "eth20") 1;
  SetIntfIp 2 (cstr "eth01") (cstr "192.168.89.1") 24; SetIntfIp 2 (cstr "eth02") (cstr "172.16.10.1") 16;
  SetIntfIp 3 (cstr "eth10") (cstr "192.168.89.2") 24; SetIntfIp 4 (cstr "eth20") (cstr "172.16.10.2") 16].

Definition lab : world := after build_calls init_world.

Definition ip_a : Z := le_decode [192; 168; 89; 1].
Definition ip_b : Z := le_decode [192; 168; 89; 2].
Definition mac_a : list Z := [0; 0; 233; 8; 110; 154].
Definition mac_b : list Z := [0; 48; 195; 83; 80; 200].
Definition bcast : list Z := replicate 6 255.

(** Both ends of the first link ping each other, which fills their ARP tables. *)
Definition arp_req_b : list Z := arp_frame bcast mac_b (arp_msg 1 mac_b ip_b (replicate 6 0) ip_a).
Definition arp_rep_a : list Z := arp_frame mac_b mac_a (arp_msg 2 mac_a ip_a mac_b ip_b).
Definition arp_req_a : list Z := arp_frame bcast mac_a (arp_msg 1 mac_a ip_a (replicate 6 0) ip_b).
Definition arp_rep_b : list Z := arp_frame mac_a mac_b (arp_msg 2 mac_b ip_b mac_a ip_a).

Definition asked : world := after [Ping 3 (cstr "192.168.89.1")] lab.
Definition talk : world := after [
  Ping 3 (cstr "192.168.89.1"); Receive 3 (RecvFrame arp_req_b); Receive 4 (RecvFrame arp_rep_a);
  Ping 2 (cstr "192.168.89.2"); Receive 4 (RecvFrame arp_req_a); Receive 3 (RecvFrame arp_rep_b)] lab.

(** A UDP socket at each end, and a listening TCP socket. *)
Definition socks : world := after [
  UdpSocket 2; UdpBind 0 ip_a 7; UdpSocket 3; UdpBind 1 ip_b 9;
  TcpSocket 2; TcpBind 0 ip_a 80; TcpListen 0] talk.

(** The frames of a peer at port 1000 of [ip_b] that connects to the socket. *)
Definition from_b (seq ack flags wnd : Z) (data : list Z) : list Z :=
  ip_frame mac_a mac_b (ip_datagram IP_PROTO_TCP ip_b ip_a
    (tcp_msg ip_b ip_a 1000 80 seq ack flags wnd data)).
Definition syn_rcvd : world := after [Receive 3 (RecvFrame (from_b 99 0 2 5000 []))] socks.
Definition estab : world := after [Receive 3 (RecvFrame (from_b 100 1 16 5000 []))] syn_rcvd.
Definition accepted : world := after [TcpAccept 0] estab.

(** A connection of a peer with a window of three bytes. *)
Definition narrow : world := after [
  Receive 3 (RecvFrame (from_b 99 0 2 3 [])); Receive 3 (RecvFrame (from_b 100 1 16 3 [])); TcpAccept 0] socks.

Ltac reach_demo :=
  repeat (apply after_reachable); apply reachable_init.
Lemma lab_reachable : reachable lab. Proof. reach_demo. Qed.
Lemma asked_reachable : reachable asked. Proof. apply after_reachable, lab_reachable. Qed.
Lemma talk_reachable : reachable talk. Proof. apply after_reachable, lab_reachable. Qed.
Lemma socks_reachable : reachable socks. Proof. apply after_reachable, talk_reachable. Qed.
Lemma syn_rcvd_reachable : reachable syn_rcvd. Proof. apply after_reachable, socks_reachable. Qed.
Lemma estab_reachable : reachable estab. Proof. apply after_reachable, syn_rcvd_reachable. Qed.
Lemma accepted_reachable : reachable accepted. Proof. apply after_reachable, estab_reachable. Qed.
Lemma narrow_reachable : reachable narrow. Proof. apply after_reachable, socks_reachable. Qed.

Lemma wf_lab : wf lab. Proof. apply reachable_wf, lab_reachable. Qed.
Lemma wf_asked : wf asked. Proof. apply reachable_wf, asked_reachable. Qed.
Lemma wf_talk : wf talk. Proof. apply reachable_wf, talk_reachable. Qed.
Lemma wf_socks : wf socks. Proof. apply reachable_wf, socks_reachable. Qed.
Lemma wf_syn_rcvd : wf syn_rcvd. Proof. apply reachable_wf, syn_rcvd_reachable. Qed.
Lemma wf_estab : wf estab. Proof. apply reachable_wf, estab_reachable. Qed.
Lemma wf_accepted : wf accepted. Proof. apply reachable_wf, accepted_reachable. Qed.
Lemma wf_narrow : wf narrow. Proof. apply reachable_wf, narrow_reachable. Qed.

(** The scripts run to their end. *)
Lemma demo_runs :
  is_Some (script build_calls init_world) ∧ arp_find talk 3 ip_a ≠ None ∧ arp_find talk 2 ip_b ≠ None ∧
  w_tcp_fds socks !! 0%nat = Some (tcp_find socks 5 80) ∧
  map_to_list (w_conns syn_rcvd) ≠ [] ∧ map_to_list (w_conns estab) ≠ [].
Proof. vm_compute. split_and!; first [by eexists|done]. Qed.

(** The interfaces of the first link, and objects of the scripts. *)
Definition no_intf : intf := calloc_intf 1.
Definition it_a : intf := default no_intf (w_intfs socks !! 5%positive).
Definition it_b : intf := default no_intf (w_intfs socks !! 6%positive).
Definition no_sock : udp_sock := mk_udp_sock false 1 None 0 [].
Definition us_a : udp_sock := default no_sock (w_udps socks !! 23%positive).
Definition no_tsock : tcp_sock := mk_tcp_sock false false 1 0 None 0 [] [].
Definition ts_of (w : world) : tcp_sock := default no_tsock (w_tcps w !! 25%positive).
Definition no_conn : tcp_connection_sock :=
  mk_tcp_connection_sock 1 handle_syn_sent_state 0 0 0 0 0 0 0 0 0 [] [].
Definition cn_of (w : world) : tcp_connection_sock := default no_conn (w_conns w !! 27%positive).

(** ** Reachable states and received frames: witnesses *)

Lemma reachable_calls_safe_witness :
  let c := Ping 3 (cstr "192.168.89.1") in
  call_ok talk c ∧ wf talk ∧
  match run_call c talk with Ok (_, w') => wf w' | Err f => allowed c f end.
Proof.
  split; [by_eval|]. apply (reachable_calls_safe talk (Ping 3 (cstr "192.168.89.1"))).
  - exact talk_reachable.
  - by_eval.
Defined.

(** A datagram cut off in the middle of its UDP header, and an echo request. *)
Definition udp_to_a (data : list Z) : list Z :=
  ip_frame mac_a mac_b (ip_datagram IP_PROTO_UDP ip_b ip_a (udp_msg 9 7 data)).
Definition echo_req : list Z := ip_frame mac_a mac_b (ip_datagram IP_PROTO_ICMP ip_b ip_a (icmp_msg 8 0 [1; 2; 3])).
Definition cut_evs : list round :=
  [EpollEvents [(3, RecvError (-1))]; EpollFails; EpollEvents [(3, RecvFrame (take 38 (udp_to_a [])))]].

Lemma recv_task_memory_safe_witness :
  recv_task cut_evs socks = Err AssertFail ∧
  match recv_task cut_evs socks with
  | Ok (_, w') => wf w' ∧ evolves None socks w'
  | Err f => f = AssertFail ∨ f = NullDeref ∨ f = ExitFailure
  end.
Proof.
  split; [vm_compute; reflexivity|]. apply recv_task_memory_safe; [exact wf_socks|].
  repeat constructor; by_eval.
Defined.

Definition own_source_b (w : world) (fd : Z) (bytes : list Z) : bool :=
  match w_fd_to_comm w !! fd with
  | Some i => match w_intfs w !! i, rd32 bytes 26 with
              | Some it, Ok src => is_local w (if_node it) src
              | _, _ => false
              end
  | None => false
  end.

Lemma frame_is_fine w fd bytes :
  Forall is_u8 bytes → bool_decide (54 <= zlen bytes) = true → own_source_b w fd bytes = false →
  received_ok (RecvFrame bytes) ∧ ¬ short_frame (RecvFrame bytes) ∧ ¬ own_source w fd (RecvFrame bytes).
Proof.
  intros Hb Hlen%bool_decide_eq_true Ho. split_and!; [done| |].
  - intros (? & [= <-] & ?). lia.
  - intros (? & i & it & src & [= <-] & Hfd & Hit & Hrd & Hl). unfold own_source_b in Ho.
    rewrite Hfd, Hit, Hrd in Ho. apply is_local_spec in Hl. congruence.
Qed.

Lemma count_fds_nonneg h : 0 <= count_fds h.
Proof. unfold count_fds. induction h as [|[] h IH]; cbn [fold_right]; lia. Qed.

Lemma test_epoll_works : epoll_works.
Proof.
  intros h. split; [|by intros e fd]. cbn [os_epoll_create test_os]. pose proof (count_fds_nonneg h). lia.
Qed.

Lemma recv_task_never_crashes_witness :
  ∃ w', recv_task [EpollEvents [(3, RecvFrame arp_req_b)]; EpollEvents [(3, RecvFrame echo_req)]] talk = Ok (tt, w') ∧ wf w' ∧
    evolves None talk w'.
Proof.
  apply recv_task_never_crashes; [exact wf_talk|exact test_epoll_works|].
  constructor; [|constructor; [|constructor]];
    (apply frame_is_fine; [by_eval|vm_compute; reflexivity|vm_compute; reflexivity]).
Defined.
