(* ===== verification/TeardownThm.v ===== *)
(** * The life of a graph

    Every reachable graph is in shape, a graph whose nodes have their TAP
    devices last is destroyed completely and nothing else is, and a TAP device
    in front of a link makes destroy_graph use a freed interface. *)
From S2P Require Import Prelude Cmonad Utils Skbuff World Topology Comm Ethernet Arp Route Ip.
From S2P Require Import Icmp Udp Tcp Stack Net Graph Scenario Invariant GraphInv GraphSafe Teardown Reach Demo.
From stdpp Require Import strings.
#[local] Open Scope Z_scope.

Section TeardownThm.
Context `{Os}.

(** C12. In every reachable state the graph is in shape: every interface is in exactly one
    slot of its node, an interface with a link is one of the two ends of that link and a UDP
    interface, one without is a TAP device, the ends of a link are different interfaces that
    refer back to it, the descriptor table, apart from descriptor 0, leads only to
    interfaces with that descriptor, and every node belongs to at most one graph, once. *)
Theorem reachable_graph_in_shape w : reachable w → graph_wf [] w.
Proof. intros Hr. apply reachable_graph_wf, Hr. Qed.

(** C13. Destroying a graph of a reachable state, when no node has a TAP device in a slot
    before an interface with a link, returns and frees exactly the graph, its nodes, their
    interfaces, the links that touch them with both ends, and their ARP entries; other
    graphs keep their nodes with all their properties, no descriptor but 0 leads to a freed
    interface, and the graph that is left is in shape. *)
Theorem destroy_graph_frees_exactly w g gr :
  reachable w → w_graphs w !! g = Some gr →
  (∀ n nd, n ∈ g_nodes gr → w_nodes w !! n = Some nd → taps_last (w_intfs w) (n_intfs nd) = true) →
  ∃ w', destroy_graph g w = Ok (tt, w') ∧ razed g (g_nodes gr) w w'.
Proof.
  intros Hr Hg Ht. apply (wp_ok_tt (destroy_graph g) (λ w', razed g (g_nodes gr) w w')).
  apply (wp_destroy_graph _ g gr); [done|by apply reachable_graph_wf| |done|done].
  by apply wf_arp, reachable_wf.
Qed.
End TeardownThm.

(** ** Examples *)

(** The topology of the test suite with a TAP device in its last node, and
    another graph with a node and a TAP device. *)
Definition crowded : world := after [
  CreateGraph (cstr "other"); CreateNode 23 (cstr "spare"); InsertTuntap 24 (cstr "tap1");
  InsertTuntap 4 (cstr "tap0")] talk.

Lemma crowded_reachable : reachable crowded.
Proof. apply after_reachable, talk_reachable. Qed.

Lemma reachable_graph_in_shape_witness :
  is_Some (w_intfs crowded !! 25%positive) ∧ graph_wf [] crowded.
Proof. split; [by_eval|]. apply reachable_graph_in_shape, crowded_reachable. Defined.

Lemma destroy_graph_frees_exactly_witness :
  ∃ gr w', w_graphs crowded !! 1%positive = Some gr ∧ g_nodes gr = [4; 3; 2]%positive ∧
    destroy_graph 1 crowded = Ok (tt, w') ∧ razed 1 (g_nodes gr) crowded w'.
Proof.
  destruct (w_graphs crowded !! 1%positive) as [gr|] eqn:Hg; [|exfalso; revert Hg; vm_compute; intros [=]].
  assert (g_nodes gr = [4; 3; 2]%positive) as Hn.
  { assert (g_nodes <$> w_graphs crowded !! 1%positive = Some [4; 3; 2]%positive) as HE by (vm_compute; reflexivity).
    rewrite Hg in HE. by injection HE. }
  destruct (destroy_graph_frees_exactly crowded 1 gr crowded_reachable Hg) as (w' & Hw' & Hz).
  - assert (map_Forall (λ _ nd, taps_last (w_intfs crowded) (n_intfs nd) = true) (w_nodes crowded)) as Hall by by_eval.
    intros n nd _ Hnd. exact (Hall n nd Hnd).
  - exists gr, w'. split; [reflexivity|]. split; [exact Hn|]. split; [exact Hw'|exact Hz].
Defined.

(** A node with a TAP device in slot 0 and a link in slot 1. *)
Definition tap_first : world := after [
  CreateGraph (cstr "graph"); CreateNode 1 (cstr "a"); CreateNode 1 (cstr "b");
  InsertTuntap 3 (cstr "tap0"); InsertLink 2 3 (cstr "x") (cstr "y") 1] init_world.

(** A node with a TAP device in a slot before a link cannot be destroyed: destroy_node
    frees the TAP interface without emptying its slot, and destroy_link reads the slots of the
    node when it looks for the ends of the link, the freed interface among them. *)
Theorem destroy_graph_reads_freed_interface :
  reachable tap_first ∧
  (n_intfs <$> w_nodes tap_first !! 3%positive) = Some [Some 4; Some 6; None; None]%positive ∧
  (if_link <$> w_intfs tap_first !! 4%positive) = Some None ∧
  (if_link <$> w_intfs tap_first !! 6%positive) = Some (Some 7%positive) ∧
  destroy_graph 1 tap_first = Err Dangling.
Proof. split; [apply after_reachable, reachable_init|]. split_and!; vm_compute; reflexivity. Qed.
