(* ===== verification/DumpThm.v ===== *)
(** * What the dump functions print

    The bytes can be read back from the output of dump_hex, and dump_nw_graph
    prints every reachable graph. *)
From S2P Require Import Prelude Cmonad Utils Skbuff World Topology Comm Ethernet Arp Route Ip.
From S2P Require Import Icmp Udp Tcp Stack Net Graph Dump Scenario Invariant GraphInv Frame LinkSafe ArpSafe GraphSafe Reach Demo.
From stdpp Require Import strings.
#[local] Open Scope Z_scope.

(** ** Reading the output of dump_hex *)

Definition hex_val (c : Z) : option Z :=
  if (48 <=? c) && (c <=? 57) then Some (c - 48)
  else if (97 <=? c) && (c <=? 102) then Some (c - 87) else None.

(** The bytes of the hexadecimal columns at the start of a text, and the text
    after them. *)
Fixpoint read_cells (text : list Z) : list Z * list Z :=
  match text with
  | h :: l :: _ :: rest =>
      match hex_val h, hex_val l with
      | Some a, Some b => let '(bs, r) := read_cells rest in (a * 16 + b :: bs, r)
      | _, _ => ([], text)
      end
  | _ => ([], text)
  end.

(** A line with 16 bytes is followed by another one, after a bar, the
    characters of the line and a newline. *)
Fixpoint read_dump (lines : nat) (text : list Z) : list Z :=
  let '(bs, r) := read_cells text in
  match lines with
  | S lines => if (length bs =? 16)%nat then bs ++ read_dump lines (drop 19 r) else bs
  | O => bs
  end.

Lemma hex_val_digit d : 0 <= d < 16 → hex_val (hex_digit d) = Some d.
Proof.
  intros. unfold hex_digit. destruct (Z.ltb_spec d 10); unfold hex_val; zbool; solve [lia | f_equal; lia].
Qed.

Lemma read_cells_row row c r :
  Forall is_u8 row → hex_val c = None → read_cells (flat_map hex_cell row ++ c :: r) = (row, c :: r).
Proof.
  intros Hrow Hc. induction Hrow as [|b row Hb _ IH].
  - cbn. destruct r as [|c2 [|c3 r]]; [done..|]. by rewrite Hc.
  - unfold is_u8 in Hb. pose proof (Z.div_mod b 16 ltac:(lia)). pose proof (Z.mod_pos_bound b 16 ltac:(lia)).
    assert (0 <= b / 16 < 16) by lia. cbn -[Z.div Z.modulo hex_digit].
    rewrite !hex_val_digit by done. rewrite IH. do 2 f_equal. lia.
Qed.

Lemma dump_hex_step bytes :
  (16 <= length bytes)%nat →
  dump_hex bytes = dump_row (take 16 bytes) ++ dump_hex (drop 16 bytes).
Proof.
  intros Hl. unfold dump_hex. rewrite length_drop.
  assert (length bytes / 16 = S ((length bytes - 16) / 16))%nat as Hd.
  { replace (length bytes) with (length bytes - 16 + 1 * 16)%nat at 1 by lia. rewrite Nat.div_add by lia. lia. }
  assert ((length bytes mod 16) = (length bytes - 16) mod 16)%nat as Hm.
  { replace (length bytes) with (length bytes - 16 + 1 * 16)%nat at 1 by lia. by rewrite Nat.Div0.mod_add. }
  rewrite Hd, Hm. set (q := ((length bytes - 16) / 16)%nat).
  cbn [seq flat_map]. rewrite <- app_assoc. f_equal.
  rewrite drop_drop. replace (16 + q * 16)%nat with (S q * 16)%nat by lia. f_equal.
  rewrite <- fmap_S_seq, !flat_map_concat_map. unfold fmap. rewrite map_map. f_equal. apply map_ext.
  intros i. by rewrite drop_drop.
Qed.

Section DumpThm.
Context `{Os}.

(** The bytes can be read back from the text that dump_hex prints: it is
    unambiguous for every sequence of bytes, whatever characters they are. *)
Theorem dump_hex_reads_back bytes :
  Forall is_u8 bytes → read_dump (length bytes / 16) (dump_hex bytes) = bytes.
Proof.
  remember (length bytes / 16)%nat as q eqn:Hq. revert bytes Hq.
  induction q as [|q IH]; intros bytes Hq Hb.
  - assert (length bytes < 16)%nat by (destruct (Nat.div_small_iff (length bytes) 16); [lia|eauto]).
    unfold dump_hex. rewrite <- Hq. change (drop (0 * 16) bytes) with bytes. cbn [seq flat_map app].
    assert (∃ c r, hex_val c = None ∧
      (if (length bytes mod 16 =? 0)%nat then [] else flat_map (λ _, cstr "   ") (seq 0 (16 - length bytes mod 16))) ++
      cstr "| " ++ bytes = c :: r) as (c & r & Hc & ->).
    { rewrite Nat.mod_small by done. destruct (Nat.eqb_spec (length bytes) 0) as [|Hne].
      - exists 124, (32 :: bytes). by split.
      - destruct (16 - length bytes)%nat eqn:?; [lia|]. eexists 32, _. split; reflexivity. }
    cbn [read_dump]. by rewrite read_cells_row.
  - assert (16 <= length bytes)%nat as Hl.
    { destruct (Nat.lt_ge_cases (length bytes) 16); [|done]. rewrite Nat.div_small in Hq by done. lia. }
    rewrite dump_hex_step by done. unfold dump_row. rewrite <- !app_assoc. cbn [read_dump].
    change (cstr "| " ++ ?x) with (124 :: 32 :: x). rewrite read_cells_row by (done || by apply Forall_take).
    assert (length (take 16 bytes) = 16%nat) as Ht by (rewrite length_take; lia). rewrite Ht. cbn [Nat.eqb].
    change (drop 19 (124 :: 32 :: ?x)) with (drop 17 x).
    replace 17%nat with (length (take 16 bytes) + 1)%nat by lia.
    rewrite drop_app_add'. 2: lia.
    change (drop 1 (newline ++ ?x)) with x. rewrite IH; [by rewrite take_drop| |by apply Forall_drop].
    rewrite length_drop. replace (length bytes) with (length bytes - 16 + 1 * 16)%nat in Hq by lia.
    rewrite Nat.div_add in Hq by lia. lia.
Qed.

(** ** Printing a graph *)

(** A dump returns and leaves the state as it is. *)
#[local] Notation prints m w := (wp m (λ _ w', w' = w) (λ _, False) w).

Lemma wp_then_print m1 m2 w : prints m1 w → prints m2 w → prints (then_print m1 m2) w.
Proof.
  intros H1 H2. unfold then_print. mstep. eapply wp_post; [exact H1|]. cbv beta. intros t1 w1 ->.
  mstep. eapply wp_post; [exact H2|]. cbv beta. intros t2 w2 ->. by mstep.
Qed.

Lemma wp_print_each {A} (f : A → W (list Z)) l w : (∀ x, x ∈ l → prints (f x) w) → prints (print_each f l) w.
Proof.
  induction l as [|x l IH]; intros Hf; [done|]. apply wp_then_print; [apply Hf; set_solver|].
  apply IH. intros y Hy. apply Hf. set_solver.
Qed.

Lemma wp_dump_socks i it w :
  wf w → w_intfs w !! i = Some it →
  prints (dump_udp_socks_manager (p_udp_socks (if_nw it))) w ∧
  prints (dump_tcp_socks_manager (p_tcp_socks (if_nw it))) w.
Proof.
  intros Hw Hi. split; (apply wp_then_print; [done|]); (apply wp_then_print; [|done]); apply wp_print_each; intros u Hu.
  - destruct (uw_socks _ _ _ _ (wf_udp _ Hw) _ _ _ Hi Hu) as (us & Hus & _). mstep. by apply (wp_load _ us).
  - destruct (tw_socks _ _ _ _ _ _ (wf_tcp _ Hw) _ _ _ Hi Hu) as (ts & Hts & _). mstep. by apply (wp_load _ ts).
Qed.

Lemma wp_dump_interface i it w : wf w → w_intfs w !! i = Some it → prints (dump_interface i) w.
Proof.
  intros Hw Hi. unfold dump_interface. mstep. apply (wp_load _ it); [done|].
  apply wp_then_print; [done|]. apply wp_then_print.
  - destruct (if_link it) as [l|] eqn:El; [|done].
    destruct (st_intf_link _ _ _ _ (wf_static _ Hw) _ _ _ Hi El) as (lk & Hlk & [it1 H1] & [it2 H2]).
    assert (∀ j jt, w_intfs w !! j = Some jt → ∃ nd, w_nodes w !! if_node jt = Some nd) as Hnode.
    { intros j jt Hj. destruct (st_intf_node _ _ _ _ (wf_static _ Hw) _ _ Hj) as [x (nd & ? & _)%topo_node]. eauto. }
    unfold get_nbr_node, get_nbr_if. mstep. mstep. mstep. apply (wp_load _ it); [done|]. rewrite El.
    mstep. apply (wp_load _ lk); [done|]. mstep.
    assert (∃ jt, w_intfs w !! (if bool_decide (i = l_intf1 lk) then l_intf2 lk else l_intf1 lk) = Some jt) as [jt Hj]
      by (case_bool_decide; eauto).
    mstep. apply (wp_load _ jt); [done|]. mstep. mstep. mstep. destruct (Hnode _ _ Hj) as [nd Hnd].
    mstep. apply (wp_load _ nd); [done|]. mstep. by apply (wp_load _ lk).
  - destruct (wp_dump_socks i it w Hw Hi). unfold dump_intf_nw_prop. do 3 (apply wp_then_print; [done|]).
    apply wp_then_print; [done|]. by apply wp_then_print.
Qed.

Lemma wp_dump_arp_table n nd w :
  wf w → arps_live w → w_nodes w !! n = Some nd → prints (dump_arp_table (n_arp_table (n_nw nd))) w.
Proof.
  intros Hw Hl Hn. apply wp_then_print; [done|]. apply wp_print_each. intros e He.
  destruct (aw_table _ _ (wf_arp _ Hw) n (n_arp_table (n_nw nd)) e) as [en Hen]; [apply tables_lookup; eauto|done|].
  destruct (Hl _ _ Hen) as [it Hit].
  mstep. apply (wp_load _ en); [done|]. mstep. apply (wp_load _ it); [done|]. apply wp_then_print; [done|].
  assert (∀ k, k ∈ arp_pending en → ∃ s i it, w_skbs w !! k = Some s ∧ skb_intf s = Some i ∧ w_intfs w !! i = Some it) as Hq.
  { intros k Hk. destruct (q_ok _ _ _ (wf_qs _ Hw) (QArp e) k) as (s & ? & _ & _ & i & ? & j & ?).
    - unfold queue_of. by rewrite (queue_arp_Some _ _ _ _ en).
    - by exists s, i, j. }
  generalize 0. induction (arp_pending en) as [|k pkts IH]; intros npacket; [done|].
  destruct (Hq k) as (s & i & jt & Hs & Hi & Hj); [set_solver|]. apply wp_then_print.
  - mstep. apply (wp_load _ s); [done|]. rewrite Hi. mstep. mstep. mstep. by apply (wp_load _ jt).
  - apply IH. intros k' Hk'. apply Hq. set_solver.
Qed.

Lemma wp_dump_node n w : wf w → arps_live w → is_Some (w_nodes w !! n) → prints (dump_node n) w.
Proof.
  intros Hw Hl [nd Hn]. unfold dump_node. mstep. apply (wp_load _ nd); [done|].
  assert (topo w !! n = Some (n_intfs nd, n_rt_table (n_nw nd))) as Ht by (apply topo_lookup; eauto).
  do 3 (apply wp_then_print; [done|]). apply wp_then_print; [|apply wp_then_print].
  - apply wp_print_each. intros [i|] Hi; [|done].
    destruct (st_node_intf _ _ _ _ (wf_static _ Hw) _ _ _ _ Ht Hi) as (it & ? & _). by eapply wp_dump_interface.
  - by eapply wp_dump_arp_table.
  - apply wp_then_print; [done|]. apply wp_print_each. intros r Hr.
    destruct (st_node_route _ _ _ _ (wf_static _ Hw) _ _ _ _ Ht Hr) as [[it Hit] _].
    mstep. by apply (wp_load _ it).
Qed.

(** C38. Every graph of a reachable state can be printed: dump_nw_graph follows the links to
    the neighbours, the tables to the interfaces and the pending packets to theirs without
    meeting a NULL or freed pointer, returns its text, and changes nothing. *)
Theorem dump_nw_graph_prints w g :
  reachable w → is_Some (w_graphs w !! g) → ∃ text, dump_nw_graph g w = Ok (text, w).
Proof.
  intros Hr [gr Hg]. pose proof (reachable_wf _ Hr) as Hw. destruct (reachable_graph_wf _ Hr) as [Hgw Hl].
  assert (prints (dump_nw_graph g) w) as Hp.
  { unfold dump_nw_graph. mstep. apply (wp_load _ gr); [done|]. apply wp_then_print; [done|].
    apply wp_print_each. intros n Hn. apply wp_dump_node; [done..|]. by eapply (gw_graph _ _ Hgw). }
  apply wp_ok in Hp as (text & w' & Hd & ->). by exists text.
Qed.
End DumpThm.

(** ** Examples *)

Lemma dump_hex_reads_back_witness :
  dump_hex (cstr "AB") = cstr "41 42                                           | AB" ∧
  read_dump 0 (dump_hex (cstr "AB")) = cstr "AB".
Proof.
  split; [vm_compute; reflexivity|]. apply (dump_hex_reads_back (cstr "AB")).
  repeat constructor; by_eval.
Defined.

(** The graph while a packet waits for the address of a neighbour. *)
Lemma dump_nw_graph_prints_witness :
  is_Some (w_graphs asked !! 1%positive) ∧ ∃ text, dump_nw_graph 1 asked = Ok (text, asked).
Proof. split; [by_eval|]. apply (dump_nw_graph_prints asked 1 asked_reachable). by_eval. Defined.
