(* ===== verification/SendThm.v ===== *)
(** * What the calls of an application put on the wire

    [ping], [udp_sendto] and [tcp_send] towards an address whose next hop is
    known: the one frame they send, the state they leave, the value they
    return. *)
From S2P Require Import Prelude Cmonad Utils Skbuff World Topology Comm Ethernet Arp Route Ip.
From S2P Require Import Icmp Udp Tcp Stack Graph Scenario Invariant Reach.
From S2P Require Import Packet Wire ArpSpec IpSpec ProtoSpec SockSpec TcpSpec Demo.
From stdpp Require Import strings.
#[local] Open Scope Z_scope.

(** The functions that do not fail, with their result. *)
Lemma wp_ok_eq {S A} (m : M S A) (r : A) (P : S → Prop) s :
  wp m (λ a s', a = r ∧ P s') (λ _, False) s → ∃ s', m s = Ok (r, s') ∧ P s'.
Proof. intros (a & s' & Hm & -> & HP)%wp_ok. by exists s'. Qed.

Lemma scan_dotted_nonneg n s : Forall (λ v, 0 <= v) (scan_dotted n s).
Proof.
  revert s. induction n as [|n IH]; intros s; cbn [scan_dotted]; [constructor|].
  destruct (scan_u s) as [[v rest]|] eqn:Hv; [|constructor]. constructor.
  - unfold scan_u in Hv. repeat case_match; simplify_eq; unfold wrap32; apply Z.mod_pos_bound; lia.
  - destruct rest as [|c rest]; [constructor|]. case_match; [apply IH|constructor].
Qed.

Lemma convert_ip_u32 s : is_u32 (convert_ip_from_str_to_int s).
Proof.
  unfold convert_ip_from_str_to_int. pose proof (scan_dotted_nonneg 4 s) as Hs.
  destruct (scan_dotted 4 s) as [|a [|b [|c [|d [|]]]]]; try done.
  destruct (_ || _) eqn:Hb; [done|]. rewrite !orb_false_iff, !Z.ltb_ge in Hb.
  rewrite !Forall_cons in Hs.
  pose proof (le_decode_bound [a; b; c; d]) as Hd. apply Hd.
  repeat constructor; unfold is_u8; lia.
Qed.

(** The interface [i] is the one packets for [ip] leave by. *)
Definition routed (w : world) (i : ptr) (it : intf) (ip : Z) : Prop :=
  w_intfs w !! i = Some it ∧
  ∀ nd entry, w_nodes w !! if_node it = Some nd →
    rt_lookup_lpm (n_rt_table (n_nw nd)) ip = Ok (Some entry) → i = rt_intf entry.

Section SendThm.
Context `{Os}.

(** ping to an address whose next hop is resolved sends one Ethernet frame with an IP
    datagram (checksum included) that carries an ICMP echo request, and changes nothing
    else. *)
Theorem ping_sends_echo_request n text it mac port w :
  let ip := convert_ip_from_str_to_int text in
  reaches w n ip it mac port →
  ∃ w', ping n text w = Ok (true, w') ∧
    sends w [(port, ip_frame mac (IF_MAC it)
      (ip_datagram IP_PROTO_ICMP (IF_IP it) ip (icmp_msg ICMP_ECHO_REQUEST_TYPE 0 [])))] w'.
Proof.
  intros ip Hr. apply wp_ok_eq. unfold ping.
  eapply wp_icmp_out_wire; [exact Hr|done|done|done|done|apply convert_ip_u32|]. by split.
Qed.

Lemma wp_udp_sendto_wire fd u us i it buff ip port mac wport w :
  good_fd MAX_UDP_SOCKS (w_udp_fds w) fd = Some u → w_udps w !! u = Some us →
  us_bound us = true → us_intf us = Some i → routed w i it ip →
  reaches w (if_node it) ip it mac wport →
  Forall is_u8 buff → is_u16 (us_local_port us) → is_u16 port → is_u32 ip →
  let data := take (Z.to_nat MAX_UDP_PAYLOAD) buff in
  ∃ w', udp_sendto fd buff ip port w = Ok (zlen data, w') ∧
    sends w [(wport, ip_frame mac (IF_MAC it)
      (ip_datagram IP_PROTO_UDP (IF_IP it) ip (udp_msg (us_local_port us) port data)))] w'.
Proof.
  intros Hfd Hu Hbd Hi [Hit Hroute] Hr Hb Hlp Hp Hip data. apply wp_ok_eq.
  unfold udp_sendto, is_good_udp_sock. mstep. mstep. rewrite Hfd.
  mstep. apply (wp_load _ us); [done|]. rewrite Hbd. cbn [negb]. fold data. mstep.
  assert (zlen data <= 1446) as Hlen by (unfold data; rewrite length_take; unfold MAX_UDP_PAYLOAD; lia).
  eapply wp_udp_out_wire; [exact Hr|exact Hu|exact Hi|exact Hit|exact Hroute|by apply Forall_take|lia|done..|].
  intros w' Hs. cbn [negb]. by mstep.
Qed.

(** C21. udp_sendto on a bound socket, when the route to the address, which is not one of
    the node's own, leads over the socket's interface, an end of a live UDP link, and the
    MAC address of the next hop is resolved, sends one frame with a UDP datagram of the
    first 1446 bytes of the buffer and returns their number. *)
Theorem udp_sendto_sends_datagram fd u us i it buff ip port mac wport w :
  good_fd MAX_UDP_SOCKS (w_udp_fds w) fd = Some u → w_udps w !! u = Some us →
  us_bound us = true → us_intf us = Some i → routed w i it ip →
  reaches w (if_node it) ip it mac wport →
  Forall is_u8 buff → is_u16 (us_local_port us) → is_u16 port → is_u32 ip →
  let data := take (Z.to_nat MAX_UDP_PAYLOAD) buff in
  ∃ w', udp_sendto fd buff ip port w = Ok (zlen data, w') ∧
    sends w [(wport, ip_frame mac (IF_MAC it)
      (ip_datagram IP_PROTO_UDP (IF_IP it) ip (udp_msg (us_local_port us) port data)))] w'.
Proof. exact (wp_udp_sendto_wire fd u us i it buff ip port mac wport w). Qed.

(** C20. tcp_send on an established connection whose window admits the data, when the route
    to the peer leads over the socket's interface, an end of a live UDP link, and the MAC
    address of the next hop is resolved, sends one ACK segment with the first 1446 bytes,
    with the checksum over the pseudo header, and advances snt.nxt by their number. *)
Theorem tcp_send_sends_segment fd c cn ts it mac port buff w :
  good_fd MAX_TCP_CONN_SOCKS (w_conn_fds w) fd = Some c → tc_state cn = handle_estab_state →
  conn_reaches w c cn ts it mac port → Forall is_u8 buff →
  let data := take (Z.to_nat MAX_TCP_PAYLOAD) buff in
  window_open cn (zlen data) →
  ∃ w', tcp_send fd buff w = Ok (zlen data, w') ∧
    sends (with_conn c (tc_set_snt_nxt (tcp_advance FLAG_ACK (zlen data) (tc_snt_nxt cn)) cn) w)
      [(port, ip_frame mac (IF_MAC it) (ip_datagram IP_PROTO_TCP (IF_IP it) (tc_remote_ip cn)
          (conn_segment ts cn FLAG_ACK data)))] w'.
Proof.
  intros Hfd Hst Hr Hb data Hwin. apply wp_ok_eq.
  assert (zlen data <= 1446) as Hlen by (unfold data; rewrite length_take; unfold MAX_TCP_PAYLOAD; lia).
  unfold tcp_send, estab_connection, is_good_tcp_connection_sock. mstep. mstep. mstep. rewrite Hfd.
  mstep. apply (wp_load _ cn); [apply Hr|]. mstep. rewrite bool_decide_eq_true_2 by done. fold data. mstep.
  eapply wp_tcp_out_wire; [exact Hr|by apply Forall_take|lia|done|exact Hwin|].
  intros w' Hs. cbn [negb]. by mstep.
Qed.

(** C35. When the window of an established connection, to whose peer the route leads over
    the socket's interface, an end of a live UDP link, with the MAC address of the next hop
    resolved, does not admit the data, tcp_send sends nothing, leaves the connection as it
    is, leaks a buffer, and yet returns the number of bytes as if they had been sent. *)
Theorem tcp_send_loses_data_outside_window fd c cn ts it mac port buff w :
  good_fd MAX_TCP_CONN_SOCKS (w_conn_fds w) fd = Some c → tc_state cn = handle_estab_state →
  conn_reaches w c cn ts it mac port → Forall is_u8 buff →
  let data := take (Z.to_nat MAX_TCP_PAYLOAD) buff in
  ¬ window_open cn (zlen data) →
  ∃ w', tcp_send fd buff w = Ok (zlen data, w') ∧
    ∃ s, w' = with_skb (w_next w) s (set_next (Pos.succ (w_next w)) w).
Proof.
  intros Hfd Hst Hr Hb data Hwin. apply wp_ok_eq.
  assert (zlen data <= 1446) as Hlen by (unfold data; rewrite length_take; unfold MAX_TCP_PAYLOAD; lia).
  unfold tcp_send, estab_connection, is_good_tcp_connection_sock. mstep. mstep. mstep. rewrite Hfd.
  mstep. apply (wp_load _ cn); [apply Hr|]. mstep. rewrite bool_decide_eq_true_2 by done. fold data. mstep.
  eapply wp_tcp_out_stalls; [exact Hr|by apply Forall_take|lia|done|exact Hwin|].
  intros s Hs. cbn [negb]. mstep. split; [done|]. by exists s.
Qed.
End SendThm.

(** ** Witnesses *)

Lemma talk_reaches : reaches talk 3 ip_a (default no_intf (w_intfs talk !! 6%positive)) mac_a 40000.
Proof. apply path_to_reaches; [apply wf_talk|]. vm_compute. reflexivity. Qed.
Lemma socks_reaches_b : reaches socks 2 ip_b it_a mac_b 40001.
Proof. apply path_to_reaches; [apply wf_socks|]. vm_compute. reflexivity. Qed.

(** The decision whether packets leave by an interface. *)
Definition routed_b (w : world) (i : ptr) (it : intf) (ip : Z) : bool :=
  match w_nodes w !! if_node it with
  | Some nd => match rt_lookup_lpm (n_rt_table (n_nw nd)) ip with
               | Ok (Some entry) => bool_decide (i = rt_intf entry)
               | _ => true
               end
  | None => true
  end.

Lemma routed_intro w i it ip : w_intfs w !! i = Some it → routed_b w i it ip = true → routed w i it ip.
Proof.
  intros Hit Hb. split; [done|]. intros nd entry Hn Hr. unfold routed_b in Hb.
  rewrite Hn, Hr in Hb. by apply bool_decide_eq_true in Hb.
Qed.

(** The connection of the demonstration, in any state that has it. *)
Lemma demo_conn_reaches w :
  wf w → path_to w 2 ip_b = Some (it_a, mac_b, 40001) → w_intfs w !! 5%positive = Some it_a →
  routed_b w 5 it_a ip_b = true → if_node it_a = 2%positive →
  w_conns w !! 27%positive = Some (cn_of w) → w_tcps w !! tc_parent (cn_of w) = Some (ts_of w) →
  ts_intf (ts_of w) = Some 5%positive → tc_remote_ip (cn_of w) = ip_b →
  bool_decide (is_u16 (ts_local_port (ts_of w)) ∧ is_u16 (tc_remote_port (cn_of w)) ∧
    is_u32 (tc_snt_nxt (cn_of w)) ∧ is_u32 (tc_rcv_nxt (cn_of w)) ∧ is_u16 (tc_rcv_wnd (cn_of w))) = true →
  conn_reaches w 27 (cn_of w) (ts_of w) it_a mac_b 40001.
Proof.
  intros Hw Hp Hit Hr Hn Hc Ht Hi Hip (? & ? & ? & ? & ?)%bool_decide_eq_true.
  destruct (routed_intro w 5 it_a ip_b Hit Hr) as [_ Hroute].
  split; [done..| | | |by split].
  - exists 5%positive. rewrite Hip. by split_and!.
  - rewrite Hn, Hip. by apply path_to_reaches.
  - rewrite Hip. by_eval.
Qed.

Lemma ping_sends_echo_request_witness :
  ∃ w', ping 3 (cstr "192.168.89.1") talk = Ok (true, w') ∧
    sends talk [(40000, ip_frame mac_a mac_b
      (ip_datagram IP_PROTO_ICMP ip_b ip_a (icmp_msg ICMP_ECHO_REQUEST_TYPE 0 [])))] w'.
Proof.
  exact (ping_sends_echo_request 3 (cstr "192.168.89.1") _ mac_a 40000 talk talk_reaches).
Defined.

Lemma udp_sendto_sends_datagram_witness :
  ∃ w', udp_sendto 0 [104; 105] ip_b 9 socks = Ok (2, w') ∧
    sends socks [(40001, ip_frame mac_b mac_a
      (ip_datagram IP_PROTO_UDP ip_a ip_b (udp_msg 7 9 [104; 105])))] w'.
Proof.
  apply (udp_sendto_sends_datagram 0 23 us_a 5 it_a [104; 105] ip_b 9 mac_b 40001 socks);
    [vm_compute; reflexivity..| |exact socks_reaches_b|by_eval|by_eval|by_eval|by_eval].
  apply routed_intro; vm_compute; reflexivity.
Defined.

Lemma tcp_send_sends_segment_witness :
  ∃ w', tcp_send 0 [104; 105] accepted = Ok (2, w') ∧
    sends (with_conn 27 (tc_set_snt_nxt 3 (cn_of accepted)) accepted)
      [(40001, ip_frame mac_b mac_a (ip_datagram IP_PROTO_TCP ip_a ip_b
          (tcp_msg ip_a ip_b 80 1000 1 100 16 1500 [104; 105])))] w'.
Proof.
  apply (tcp_send_sends_segment 0 27 (cn_of accepted) (ts_of accepted) it_a mac_b 40001 [104; 105] accepted);
    [vm_compute; reflexivity..| |by_eval|vm_compute; by intros ?].
  apply demo_conn_reaches; [exact wf_accepted|vm_compute; reflexivity..].
Defined.

Lemma tcp_send_loses_data_outside_window_witness :
  ∃ w', tcp_send 0 [104; 105; 33] narrow = Ok (3, w') ∧
    ∃ s, w' = with_skb (w_next narrow) s (set_next (Pos.succ (w_next narrow)) narrow).
Proof.
  apply (tcp_send_loses_data_outside_window 0 27 (cn_of narrow) (ts_of narrow) it_a mac_b 40001 [104; 105; 33] narrow);
    [vm_compute; reflexivity..| |by_eval|vm_compute; by intros []].
  apply demo_conn_reaches; [exact wf_narrow|vm_compute; reflexivity..].
Defined.
