(* ===== verification/Fuel.v ===== *)
(** * Two levels of the recursion are enough

    [ip_input] calls the protocols, which call [ip_output], which delivers a
    packet for a local address to [ip_input]: the C functions recurse through
    each other.  More fuel never changes a result other than [OutOfFuel], and on
    the packets of the stack two levels never end in [OutOfFuel]: the recursion
    of the C code ends, and the model computes what it computes. *)
From S2P Require Import Prelude Cmonad Utils Skbuff World Topology Comm Ethernet Arp Route Ip.
From S2P Require Import Icmp Udp Tcp Stack Net Graph Scenario Invariant SkbRules LinkSafe ArpSafe IpSafe ProtoSafe TcpSafe.
From S2P Require Import StackSafe Reach Packet Wire ArpSpec IpSpec ProtoSpec TcpInSpec Demo.
#[local] Open Scope Z_scope.

(** [m] is [m'] wherever it has fuel to end. *)
Definition below {S A} (m m' : M S A) : Prop := ∀ s, m s = Err OutOfFuel ∨ m s = m' s.

Lemma below_refl {S A} (m : M S A) : below m m.
Proof. intros s. by right. Qed.

Lemma below_trans {S A} (m1 m2 m3 : M S A) : below m1 m2 → below m2 m3 → below m1 m3.
Proof. intros H1 H2 s. destruct (H1 s) as [?|E1]; [by left|]. rewrite E1. apply H2. Qed.

Lemma below_bind {S A B} (m m' : M S A) (f f' : A → M S B) :
  below m m' → (∀ a, below (f a) (f' a)) → below (bind m f) (bind m' f').
Proof.
  intros Hm Hf s. unfold bind. destruct (Hm s) as [E|E]; rewrite E; [by left|].
  destruct (m' s) as [[a s']|e]; [apply Hf|by right].
Qed.

Ltac below_step :=
  lazymatch goal with
  | |- below ?m ?m => apply below_refl
  | |- below (bind _ _) (bind _ _) => apply below_bind; [|intros ?]
  | |- below (match ?x with _ => _ end) _ => destruct x
  | |- _ => solve [eauto]
  end.
Ltac below_auto := cbv zeta; repeat below_step.

Section Fuel.
Context `{Os}.

(** ** Every function of the stack is monotone in what it calls *)

Section Mono.
Context (deliver deliver' : ptr → W bool) (Hd : ∀ k, below (deliver k) (deliver' k)).

Lemma ip_postroute_mono n k : below (ip_postroute deliver n k) (ip_postroute deliver' n k).
Proof. unfold ip_postroute. below_auto. Qed.

Lemma ip_output_mono n ip proto k :
  below (ip_output_with deliver n ip proto k) (ip_output_with deliver' n ip proto k).
Proof. unfold ip_output_with. apply below_bind; [apply below_refl|intros _; apply ip_postroute_mono]. Qed.
End Mono.

Section MonoProto.
Context (L L' : IpLayer)
  (HL : ∀ n ip proto k, below (ip_output (IpLayer := L) n ip proto k) (ip_output (IpLayer := L') n ip proto k)).

Lemma icmp_input_mono k : below (icmp_input (H := L) k) (icmp_input (H := L') k).
Proof. unfold icmp_input, icmp_out. below_auto. Qed.

Lemma tcp_out_mono c buff flags : below (tcp_out (H := L) c buff flags) (tcp_out (H := L') c buff flags).
Proof. unfold tcp_out. below_auto. Qed.

Lemma tcp_input_mono k : below (tcp_input (H := L) k) (tcp_input (H := L') k).
Proof.
  pose proof tcp_out_mono. unfold tcp_input, handle_estab, handle_new_connection, close_connection.
  below_auto.
Qed.

Lemma ip_input_body_mono k : below (ip_input_body (L := L) k) (ip_input_body (L := L') k).
Proof. pose proof icmp_input_mono. pose proof tcp_input_mono. unfold ip_input_body. below_auto. Qed.
End MonoProto.

Lemma ip_input_fuel_mono n k : below (ip_input_fuel n k) (ip_input_fuel (S n) k).
Proof.
  revert k. induction n as [|n IH]; intros k; [intros s; by left|].
  rewrite (ip_input_fuel_S (S n)), (ip_input_fuel_S n).
  apply ip_input_body_mono. intros ? ? ? ?. by apply ip_output_mono.
Qed.

(** C27. The mutual recursion of ip_input, the protocols and ip_output ends: with two levels
    of fuel ip_input never runs out of it, and more fuel gives the same result and state. *)
Theorem ip_input_fuel_enough n k s i it w :
  wf w → owned w k s → skb_intf s = Some i → w_intfs w !! i = Some it → sendable s →
  hdr_in s 20 (skb_ip_hdr s) → skb_end s <= 2 ^ 16 →
  ip_input_fuel (STACK_FUEL + n) k w = ip_input k w ∧ ip_input k w ≠ Err OutOfFuel.
Proof.
  intros Hw Ho Hi Hit Hsend Hhdr Hsize. unfold STACK_FUEL, ip_input, STACK_FUEL.
  assert (∀ n, ip_input_fuel (2 + n) k w ≠ Err OutOfFuel) as Hne.
  { clear n. intros n Hf. cbn [Nat.add] in Hf. rewrite ip_input_fuel_S in Hf.
    assert (wp (ip_input_body (L := {| ip_output := ip_output_with (ip_input_fuel (S n)) |}) k)
              (consumed k w) (λ f, f = AssertFail ∨ f = NullDeref) w) as Hwp.
    { apply (wp_ip_input_body _ _ k s i it); [done|]. split; auto. intros _. apply ip_layer_ok. }
    unfold wp in Hwp. rewrite Hf in Hwp. by destruct Hwp. }
  split; [|exact (Hne 0%nat)].
  induction n as [|n IH]; [done|].
  replace (2 + S n)%nat with (S (2 + n))%nat by lia.
  pose proof (ip_input_fuel_mono (2 + n) k w) as [Hf|Hf]; [exfalso; exact (Hne n Hf)|].
  rewrite <- Hf. exact IH.
Qed.
End Fuel.

(** An echo request in a buffer, as [ip_preroute] is given it. *)
Definition echo_dgram : list Z := ip_datagram IP_PROTO_ICMP ip_b ip_a (icmp_msg 8 0 [1; 2; 3]).
Definition echo_skb : sk_buff :=
  mk_skb (Some 5%positive) (Some 4) (Some 18) None None (zlen echo_dgram) 18 (18 + zlen echo_dgram) 200
    (replicate 18 0 ++ echo_dgram ++ replicate (189 - length echo_dgram) 0).
Definition echo_world : world :=
  set_skbs (<[w_next talk := echo_skb]> (w_skbs talk)) (set_next (Pos.succ (w_next talk)) talk).

Lemma ip_input_fuel_enough_witness :
  ip_input_fuel (STACK_FUEL + 3) (w_next talk) echo_world = ip_input (w_next talk) echo_world ∧
  ip_input (w_next talk) echo_world ≠ Err OutOfFuel.
Proof.
  destruct (owned_alloc talk echo_skb wf_talk) as (Hw & Ho & _); [by_eval|].
  apply (ip_input_fuel_enough 3 (w_next talk) echo_skb 5 (default no_intf (w_intfs talk !! 5%positive)));
    [exact Hw|exact Ho|reflexivity|vm_compute; reflexivity|split; by_eval| |by_eval].
  intros o [= <-]. split; by_eval.
Defined.
