(* ===== verification/RecvThm.v ===== *)
(** * What the frames that arrive do

    One reception, from the descriptor to the effect: ARP requests are answered,
    ARP replies release the packets that waited, echo requests are answered,
    datagrams reach the queues of their sockets or the next hop. *)
From S2P Require Import Prelude Cmonad Utils Skbuff World Topology Comm Ethernet Arp Route Ip.
From S2P Require Import Icmp Udp Tcp Stack Graph Scenario Invariant SkbRules LinkSafe IpSafe Reach.
From S2P Require Import Packet Wire ArpSpec IpSpec ProtoSpec RecvSpec SockSpec TcpSpec TcpInSpec.
From S2P Require Import InputSpec ForwardSpec Demo SendThm.
From stdpp Require Import strings.
#[local] Open Scope Z_scope.

(** ** Receive queues *)

Lemma rx_sends w fr w' q : sends w fr w' → rx w' q = rx w q.
Proof. by intros [(t & n & -> & _) _]. Qed.

(** The packets of a queue do not see a new buffer. *)
Lemma rx_data_fresh w s q l :
  wf w → l = queue_of w q → rx_data (<[w_next w := s]> (w_skbs w)) l = rx_data (w_skbs w) l.
Proof.
  intros Hw ->. apply rx_data_ext. intros k Hk. apply lookup_insert_ne. intros <-.
  apply (fresh_not_queued w (w_next w)); [done|reflexivity|by exists q].
Qed.

Lemma rx_push_udp w u us s :
  wf w → w_udps w !! u = Some us →
  let w' := set_udps (<[u := us_set_rx (w_next w :: us_rx_skb us) us]> (w_udps w)) (with_skb (w_next w) s w) in
  rx w' (QUdp u) = rx w (QUdp u) ++ [skb_payload s] ∧ ∀ q, q ≠ QUdp u → rx w' q = rx w q.
Proof.
  intros Hw Hu w'.
  assert (queue_of w (QUdp u) = us_rx_skb us) as Hq by (unfold queue_of; by rewrite (queue_udp_Some _ _ _ _ us)).
  split.
  - unfold rx. rewrite Hq.
    assert (queue_of w' (QUdp u) = w_next w :: us_rx_skb us) as ->.
    { unfold queue_of. cbn. by rewrite lookup_insert_eq. }
    change (w_skbs w') with (<[w_next w := s]> (w_skbs w)).
    rewrite (rx_data_cons _ _ _ s) by apply lookup_insert_eq. by rewrite (rx_data_fresh w s (QUdp u)).
  - intros q Hne. unfold rx. assert (queue_of w' q = queue_of w q) as ->.
    { unfold queue_of. destruct q as [|v|]; try done. cbn. rewrite lookup_insert_ne; [done|congruence]. }
    by apply (rx_data_fresh w s q).
Qed.

Lemma rx_push_conn w c cn cn' s :
  wf w → w_conns w !! c = Some cn → tc_rx_skb cn' = w_next w :: tc_rx_skb cn →
  let w' := with_conn c cn' (with_skb (w_next w) s w) in
  rx w' (QConn c) = rx w (QConn c) ++ [skb_payload s] ∧ ∀ q, q ≠ QConn c → rx w' q = rx w q.
Proof.
  intros Hw Hc Hcn w'.
  assert (queue_of w (QConn c) = tc_rx_skb cn) as Hq by (unfold queue_of; by rewrite (queue_conn_Some _ _ _ _ cn)).
  split.
  - unfold rx. rewrite Hq.
    assert (queue_of w' (QConn c) = w_next w :: tc_rx_skb cn) as ->.
    { unfold queue_of. cbn. by rewrite lookup_insert_eq. }
    change (w_skbs w') with (<[w_next w := s]> (w_skbs w)).
    rewrite (rx_data_cons _ _ _ s) by apply lookup_insert_eq. by rewrite (rx_data_fresh w s (QConn c)).
  - intros q Hne. unfold rx. assert (queue_of w' q = queue_of w q) as ->.
    { unfold queue_of. destruct q as [| |v]; try done. cbn. rewrite lookup_insert_ne; [done|congruence]. }
    by apply (rx_data_fresh w s q).
Qed.

Lemma queue_conn_new w c cn q :
  w_conns w !! c = None → tc_rx_skb cn = [] → queue_of (with_conn c cn w) q = queue_of w q.
Proof.
  intros Hc Hcn. unfold queue_of. destruct q as [| |v]; try done. cbn. destruct (decide (v = c)) as [->|].
  - by rewrite lookup_insert_eq, Hc, <- Hcn.
  - rewrite lookup_insert_ne; [done|congruence].
Qed.

(** ** Frames *)

(** [f] is a frame for the interface [it] with the datagram [hdr ++ p]. *)
Record ip_arrives (w : world) (fd : Z) (i : ptr) (it : intf) (proto sip : Z) (f p : list Z) : Prop := {
  ia_listens : listens w fd i it;
  ia_frame : ∃ dst src hdr dip, f = eth_frame dst src ETH_PROTO_IP (hdr ++ p) ∧ for_me it dst ∧
    length dst = 6%nat ∧ length src = 6%nat ∧ ip_fields hdr proto sip dip ∧ local_ip w (if_node it) dip;
  ia_bytes : Forall is_u8 f;
  ia_size : zlen f <= 2044;
}.

(** [f] carries a segment for the socket [t]. *)
Record segment_arrives (w : world) (fd : Z) (i : ptr) (it : intf) (t : ptr) (ts : tcp_sock)
    (f data : list Z) (sip sport seq flags wnd : Z) : Prop := {
  se_ip : ∃ thdr dport, ip_arrives w fd i it IP_PROTO_TCP sip f (thdr ++ data) ∧
    seg_fields thdr sport dport seq flags wnd ∧ tcp_find w i dport = Some t;
  se_sock : w_tcps w !! t = Some ts;
}.

(** ** The frames the stack sends, as it receives them *)

Lemma ip_datagram_bytes proto src dst p :
  20 + zlen p < 2 ^ 16 → is_u8 proto → Forall is_u8 p → Forall is_u8 (ip_datagram proto src dst p).
Proof.
  intros. unfold ip_datagram. apply Forall_app. split; [|done].
  apply ip_header_bytes; [unfold is_u16; lia|done|]. apply rfc1071_u16, ip_header_bytes; [unfold is_u16; lia|done|done].
Qed.

Lemma eth_frame_bytes dst src proto p :
  Forall is_u8 dst → Forall is_u8 src → is_u16 proto → Forall is_u8 p → Forall is_u8 (eth_frame dst src proto p).
Proof. intros. unfold eth_frame. rewrite !Forall_app. split_and!; [done|done|by apply be16_bytes|done]. Qed.

Lemma eth_frame_app dst src proto p q : eth_frame dst src proto p ++ q = eth_frame dst src proto (p ++ q).
Proof. unfold eth_frame. by rewrite <- !app_assoc. Qed.

(** The padding of a short frame arrives as the end of its payload. *)
Lemma ip_frame_arrives w fd i it src proto sip dip p :
  listens w fd i it → length src = 6%nat → Forall is_u8 src → is_u8 proto → is_u32 sip → is_u32 dip →
  local_ip w (if_node it) dip → Forall is_u8 p → zlen p <= 1980 →
  ip_arrives w fd i it proto sip (ip_frame (IF_MAC it) src (ip_datagram proto sip dip p))
    (p ++ replicate (26 - length p) 0).
Proof.
  intros Hli Hs6 Hs8 Hpr Hsip Hdip Hloc Hp Hlen. pose proof Hli as [Hw _ Hit _].
  destruct (st_intf_mac _ _ _ _ (wf_static _ Hw) _ _ Hit) as [Hm6 Hm8].
  assert (length (eth_frame (IF_MAC it) src ETH_PROTO_IP (ip_datagram proto sip dip p)) = 34 + length p)%nat as Hl
    by (rewrite length_eth_frame, length_ip_datagram by done; lia).
  split; [done| | |].
  - unfold ip_frame. rewrite Hl. replace (60 - (34 + length p))%nat with (26 - length p)%nat by lia.
    exists (IF_MAC it), src, (ip_header (20 + zlen p) proto sip dip (ip_checksum (20 + zlen p) proto sip dip)), dip.
    split_and!; [|by left|done|done|by apply ip_header_fields|done].
    rewrite eth_frame_app. unfold ip_datagram. by rewrite <- app_assoc.
  - unfold ip_frame. apply Forall_app. split; [|by apply Forall_replicate].
    apply eth_frame_bytes; [done|done|done|]. by apply ip_datagram_bytes; [lia|..].
  - unfold ip_frame. rewrite length_app, length_replicate, Hl. lia.
Qed.

Lemma tcp_segment_fields sport dport seq ack flags wnd ck data :
  tcp_fields_ok sport dport seq ack flags wnd →
  ∃ thdr, tcp_segment sport dport seq ack flags wnd ck data = thdr ++ data ∧
    seg_fields thdr sport dport seq flags wnd.
Proof.
  intros [? ? ? ? ? ?].
  exists (be16 sport ++ be16 dport ++ be32 seq ++ be32 ack ++ [0x50; flags] ++ be16 wnd ++ be16 ck ++ [0; 0]).
  split; [by rewrite <- !app_assoc|]. by split.
Qed.

Section RecvThm.
Context `{Os}.

(** An ARP request for the address of the interface is answered with one ARP reply in a
    frame to the sender; nothing else changes. *)
Theorem arp_request_answered fd i it dst src sha spa tha pad_ fdo port w :
  listens w fd i it → for_me it dst →
  let f := eth_frame dst src ETH_PROTO_ARP (arp_msg ARP_OP_REQUEST sha spa tha (IF_IP it) ++ pad_) in
  length dst = 6%nat → length src = 6%nat → Forall is_u8 f → zlen f <= 2044 →
  length sha = 6%nat → length tha = 6%nat → is_u32 spa → is_u32 (IF_IP it) →
  wire w i = Some (fdo, port) →
  ∃ w', recv_one fd (RecvFrame f) w = Ok (tt, w') ∧
    sends w [(port, arp_frame sha (IF_MAC it)
      (arp_msg ARP_OP_REPLY (IF_MAC it) (IF_IP it) sha spa))] w'.
Proof. intros. apply wp_ok_tt. eapply wp_recv_arp_request; done. Qed.

(** C24. An ARP reply for an address with an entry, whose waiting packets go out over live
    UDP links, fills in the MAC address, marks the entry as resolved, sends all packets that
    waited on it in the order of the list and frees their buffers. *)
Theorem arp_reply_releases_packets fd i it dst src sha spa tha tpa pad_ e en frs w :
  listens w fd i it → for_me it dst →
  let f := eth_frame dst src ETH_PROTO_ARP (arp_msg ARP_OP_REPLY sha spa tha tpa ++ pad_) in
  length dst = 6%nat → length src = 6%nat → Forall is_u8 f → zlen f <= 2044 →
  length sha = 6%nat → length tha = 6%nat → is_u32 spa →
  arp_find w (if_node it) spa = Some e → w_arps w !! e = Some en →
  mapM (pending_frame w sha) (arp_pending en) = Some frs →
  ∃ w', recv_one fd (RecvFrame f) w = Ok (tt, w') ∧
    w_arps w' = <[e := mk_arp_entry (arp_ip en) sha (arp_intf en) true []]> (w_arps w) ∧
    (∀ k, w_skbs w' !! k = if decide (k ∈ arp_pending en) then None else w_skbs w !! k) ∧
    sendtos (w_trace w') = sendtos (w_trace w) ++ frs.
Proof.
  intros Hli Hme f Hd Hs Hb Hlen Hsha Htha Hspa Hfind He Hfr. apply wp_ok_tt.
  eapply wp_recv_arp_reply; [done..|exact Hfr|]. intros w' Hs'.
  pose proof (sends_sendtos _ _ _ Hs') as Htr. destruct Hs' as [(t & n & -> & _) _].
  split_and!; [done| |exact Htr]. intros k. cbn. clear. generalize (w_skbs w) as M.
  induction (arp_pending en) as [|k' l IH]; intros M; cbn; [done|]. rewrite IH.
  destruct (decide (k ∈ l)); [by rewrite decide_True by set_solver|].
  destruct (decide (k = k')) as [->|].
  - by rewrite lookup_delete_eq, decide_True by set_solver.
  - rewrite lookup_delete_ne, decide_False by set_solver. done.
Qed.

(** C22. An echo request for a local address, with any data that a frame of 2044 bytes has
    room for, from a source that is not local and whose next hop has its MAC address
    resolved and is routed over a live UDP link, is answered with one echo reply that
    carries the same data and has correct checksums, sent to the source of the request. *)
Theorem echo_request_answered fd i it f c1 c2 data sip it' mac port w :
  ip_arrives w fd i it IP_PROTO_ICMP sip f ([8; 0; c1; c2] ++ data) →
  reaches w (if_node it) sip it' mac port →
  ∃ w', recv_one fd (RecvFrame f) w = Ok (tt, w') ∧
    sends w [(port, ip_frame mac (IF_MAC it') (ip_datagram IP_PROTO_ICMP (IF_IP it') sip
      (icmp_msg ICMP_ECHO_REPLY_TYPE ICMP_ECHO_REPLY_CODE data)))] w'.
Proof.
  intros [Hli (dst & src & hdr & dip & -> & Hme & Hd & Hs & Hf & Hloc) Hb Hlen] Hr. apply wp_ok_tt.
  eapply wp_recv_echo; done.
Qed.

Lemma wp_datagram_queued fd i it f uhdr data sip dport u us w :
  ip_arrives w fd i it IP_PROTO_UDP sip f (uhdr ++ data) →
  length uhdr = 8%nat → slice 2 2 uhdr = be16 dport → is_u16 dport →
  udp_find w i dport = Some u → w_udps w !! u = Some us →
  ∃ w', recv_one fd (RecvFrame f) w = Ok (tt, w') ∧
    rx w' (QUdp u) = rx w (QUdp u) ++ [data] ∧ (∀ q, q ≠ QUdp u → rx w' q = rx w q) ∧
    sendtos (w_trace w') = sendtos (w_trace w).
Proof.
  intros [Hli (dst & src & hdr & dip & -> & Hme & Hd & Hs & Hf & Hloc) Hb Hlen] Hul Hup Hport Hfind Hu.
  apply wp_ok_tt. eapply wp_recv_udp; [done..|]. intros s' w' Hp _ Hs'.
  pose proof (sends_sendtos _ _ _ Hs') as Htr. rewrite app_nil_r in Htr.
  destruct (rx_push_udp w u us s' (li_wf _ _ _ _ Hli) Hu) as [R1 R2].
  rewrite (packet_payload _ _ _ _ _ Hp) in R1.
  split_and!; [|intros q Hq|exact Htr]; rewrite (rx_sends _ _ _ _ Hs'); [exact R1|by apply R2].
Qed.

(** C16. A frame with a UDP datagram for a bound port appends what follows the UDP header,
    padding included, to the queue of the socket found on the incoming interface; no other
    queue changes and nothing is sent. *)
Theorem datagram_queued fd i it f uhdr data sip dport u us w :
  ip_arrives w fd i it IP_PROTO_UDP sip f (uhdr ++ data) →
  length uhdr = 8%nat → slice 2 2 uhdr = be16 dport → is_u16 dport →
  udp_find w i dport = Some u → w_udps w !! u = Some us →
  ∃ w', recv_one fd (RecvFrame f) w = Ok (tt, w') ∧
    rx w' (QUdp u) = rx w (QUdp u) ++ [data] ∧ (∀ q, q ≠ QUdp u → rx w' q = rx w q) ∧
    sendtos (w_trace w') = sendtos (w_trace w).
Proof. exact (wp_datagram_queued fd i it f uhdr data sip dport u us w). Qed.

(** ** Filtering and forwarding *)

(** A frame for another MAC address, or of a type other than ARP and IP, is dropped:
    its buffer is freed, nothing is sent and nothing else changes. *)
Theorem foreign_frame_dropped fd i it dst src proto p w :
  listens w fd i it → ¬ for_me it dst ∨ proto ≠ ETH_PROTO_ARP ∧ proto ≠ ETH_PROTO_IP →
  length dst = 6%nat → length src = 6%nat → is_u16 proto → Forall is_u8 (eth_frame dst src proto p) →
  14 + zlen p <= 2044 →
  ∃ w', recv_one fd (RecvFrame (eth_frame dst src proto p)) w = Ok (tt, w') ∧ sends w [] w'.
Proof. intros. apply wp_ok_tt. by eapply wp_recv_filtered. Qed.

(** C25. A datagram in transit with a 20-byte header (length field 5), with forwarding
    enabled and a TTL above 1, whose route leads over a live UDP link to a next hop with its
    MAC address resolved, is sent to the next hop as one frame, with TTL decremented, the
    source address replaced by that of the outgoing interface, and the checksum computed
    over the old one. *)
Theorem datagram_forwarded fd i it f hdr q ttl dip it' mac port w :
  transit w fd i it f hdr q ttl dip → 1 < ttl → w_ip_forward_enable w = true →
  reaches w (if_node it) dip it' mac port →
  ∃ w', recv_one fd (RecvFrame f) w = Ok (tt, w') ∧
    sends w [(port, ip_frame mac (IF_MAC it') (forwarded_hdr (IF_IP it') ttl hdr ++ q))] w'.
Proof. intros. apply wp_ok_tt. by eapply wp_recv_forwarded. Qed.

(** A datagram in transit whose TTL is at most 1, or when forwarding is disabled, is
    dropped: nothing is sent and nothing changes. *)
Theorem datagram_expires fd i it f hdr q ttl dip w :
  transit w fd i it f hdr q ttl dip → ttl <= 1 ∨ w_ip_forward_enable w = false →
  ∃ w', recv_one fd (RecvFrame f) w = Ok (tt, w') ∧ sends w [] w'.
Proof. intros. apply wp_ok_tt. by eapply wp_recv_expired. Qed.

(** ** TCP *)

(** From the frame to the handler of the connection, or of the socket. *)
Lemma wp_recv_segment (E : fault → Prop) fd i it t ts f data sip sport seq flags wnd Q w :
  segment_arrives w fd i it t ts f data sip sport seq flags wnd →
  (∀ s w1 m d post hdr dport, sends w [] w1 → w_next w1 = Pos.succ (w_next w) →
     seg_arrives w1 (w_next w) s i it m d post hdr data sip sport dport seq flags wnd →
     let L := {| ip_output := ip_output_with (ip_input_fuel 1) |} in
     wp (let* ok :=
           match conn_find w (ts_conns ts) sip sport with
           | Some c => match tc_state <$> w_conns w !! c with
                       | Some handle_estab_state => handle_estab (H := L) c (w_next w)
                       | Some handle_syn_sent_state => handle_syn_sent c (w_next w)
                       | None => ret false
                       end
           | None => if ts_listening ts && has_flag flags FLAG_SYN && negb (has_flag flags FLAG_ACK)
                     then handle_new_connection (H := L) t (w_next w) else ret false
           end in
         if (ok : bool) then ret tt else print PacketDropped ;;; free_skb (w_next w)) Q E
       (with_skb (w_next w) s w1)) →
  wp (recv_one fd (RecvFrame f)) Q E w.
Proof.
  intros [(thdr & dport & [Hli (dst & src & hdr & dip & -> & Hme & Hd & Hs & Hf & Hloc) Hb Hlen] & Hseg & Hfind) Hts] HQ.
  eapply wp_recv_tcp; [done..|]. intros s w1 Hs1 Hn1 Ha.
  destruct (sends_same _ _ Hs1) as (tr & n & Ew1).
  specialize (HQ s w1 _ _ _ _ _ Hs1 Hn1 Ha). apply wp_bind_inv in HQ. mstep.
  eapply (wp_tcp_input_dispatch E _ w1 _ _ _ _ _ _ _ _ _ _ _ _ _ _ _ Ha t ts);
    [by rewrite Ew1|by rewrite Ew1|].
  replace (conn_find w1 (ts_conns ts) sip sport) with (conn_find w (ts_conns ts) sip sport) by by rewrite Ew1.
  destruct (conn_find w (ts_conns ts) sip sport) as [c|]; [|exact HQ].
  intros cn Hcn. replace (w_conns w !! c) with (Some cn) in HQ by by rewrite <- Hcn, Ew1.
  cbn [fmap option_fmap option_map] in HQ. destruct (tc_state cn); exact HQ.
Qed.

(** The end of a segment that is not kept. *)
Lemma sends_dropped w s w1 w' :
  wf w → sends w [] w1 →
  w' = set_skbs (delete (w_next w) (w_skbs (with_skb (w_next w) s w1)))
         (set_trace (w_trace w1 ++ [EPrint PacketDropped]) (with_skb (w_next w) s w1)) →
  sends w [] w'.
Proof.
  intros Hw Hs1 ->. apply (sends_recv w s w1); [done|done|]. split; [|done].
  exists [EPrint PacketDropped], (w_next w1). split; [|done]. destruct w1. done.
Qed.

End RecvThm.

(** ** Witnesses *)

Definition intf_at (w : world) (i : ptr) : intf := default no_intf (w_intfs w !! i).

(** In every state of the demonstration, node 2 listens on descriptor 3 and has
    the address [ip_a], node 3 on descriptor 4 with [ip_b]. *)
Definition at_a (w : world) : bool :=
  bool_decide (w_fd_to_comm w !! 3 = Some 5%positive) && bool_decide (is_Some (w_intfs w !! 5%positive)) &&
  IS_INTF_L3_MODE (intf_at w 5) && is_local w (if_node (intf_at w 5)) ip_a &&
  bool_decide (IF_MAC (intf_at w 5) = mac_a).

Lemma at_a_listens w :
  wf w → at_a w = true →
  listens w 3 5 (intf_at w 5) ∧ local_ip w (if_node (intf_at w 5)) ip_a ∧ IF_MAC (intf_at w 5) = mac_a.
Proof.
  intros Hw Ha. unfold at_a in Ha. rewrite !andb_true_iff, !bool_decide_eq_true in Ha.
  destruct Ha as ((((Hfd & [it Hit]) & Hl3) & Hloc) & Hmac). split_and!; [|by apply is_local_spec|done].
  split; [done|done| |done]. unfold intf_at. by rewrite Hit.
Qed.

(** A frame of the stack with a protocol message for node 2. *)
Lemma frame_for_a w proto p :
  wf w → at_a w = true → is_u8 proto → Forall is_u8 p → zlen p <= 1980 →
  ip_arrives w 3 5 (intf_at w 5) proto ip_b (ip_frame mac_a mac_b (ip_datagram proto ip_b ip_a p))
    (p ++ replicate (26 - length p) 0).
Proof.
  intros Hw Ha Hpr Hp Hlen. destruct (at_a_listens w Hw Ha) as (Hli & Hloc & Hmac).
  rewrite <- Hmac at 1. by apply ip_frame_arrives; [done|done|by_eval|done|by_eval|by_eval|done..].
Qed.

Lemma arp_request_answered_witness :
  ∃ w', recv_one 3 (RecvFrame arp_req_b) lab = Ok (tt, w') ∧
    sends lab [(40001, arp_frame mac_b mac_a (arp_msg ARP_OP_REPLY mac_a ip_a mac_b ip_b))] w'.
Proof.
  apply (arp_request_answered 3 5 (intf_at lab 5) bcast mac_b mac_b ip_b (replicate 6 0) (replicate 18 0) 3 40001 lab);
    [apply at_a_listens; [exact wf_lab|vm_compute; reflexivity]|by right|reflexivity|reflexivity|by_eval|
     by_eval|reflexivity|reflexivity|by_eval|by_eval|vm_compute; reflexivity].
Defined.

Lemma arp_reply_releases_packets_witness :
  let en := mk_arp_entry ip_a [0; 0; 0; 0; 0; 0] 6 false [11%positive] in
  w_arps asked !! 12%positive = Some en ∧
  ∃ w', recv_one 4 (RecvFrame arp_rep_a) asked = Ok (tt, w') ∧
    w_arps w' = <[12%positive := mk_arp_entry ip_a mac_a 6 true []]> (w_arps asked) ∧
    (∀ k, w_skbs w' !! k = if decide (k ∈ [11%positive]) then None else w_skbs asked !! k) ∧
    sendtos (w_trace w') = sendtos (w_trace asked) ++
      [(40000, ip_frame mac_a mac_b (ip_datagram IP_PROTO_ICMP ip_b ip_a (icmp_msg 8 0 [])))].
Proof.
  split; [vm_compute; reflexivity|].
  apply (arp_reply_releases_packets 4 6 (intf_at asked 6) mac_b mac_a mac_a ip_a mac_b ip_b (replicate 18 0) 12
    (mk_arp_entry ip_a [0; 0; 0; 0; 0; 0] 6 false [11%positive])
    [(40000, ip_frame mac_a mac_b (ip_datagram IP_PROTO_ICMP ip_b ip_a (icmp_msg 8 0 [])))] asked);
    [|left; vm_compute; reflexivity|reflexivity|reflexivity|by_eval|by_eval|reflexivity|reflexivity|by_eval|
     vm_compute; reflexivity|vm_compute; reflexivity|vm_compute; reflexivity].
  split; [exact wf_asked|vm_compute; reflexivity..].
Defined.

Lemma echo_request_answered_witness :
  ∃ w', recv_one 3 (RecvFrame echo_req) talk = Ok (tt, w') ∧
    sends talk [(40001, ip_frame mac_b mac_a (ip_datagram IP_PROTO_ICMP ip_a ip_b
      (icmp_msg 0 0 ([1; 2; 3] ++ replicate 19 0))))] w'.
Proof.
  apply (echo_request_answered 3 5 (intf_at talk 5) echo_req 243 253 ([1; 2; 3] ++ replicate 19 0) ip_b
    (intf_at talk 5) mac_b 40001 talk).
  - exact (frame_for_a talk IP_PROTO_ICMP (icmp_msg 8 0 [1; 2; 3]) wf_talk eq_refl ltac:(by_eval) ltac:(by_eval) ltac:(by_eval)).
  - apply path_to_reaches; [exact wf_talk|vm_compute; reflexivity].
Defined.

Lemma datagram_queued_witness :
  ∃ w', recv_one 3 (RecvFrame (udp_to_a [104; 105])) socks = Ok (tt, w') ∧
    rx w' (QUdp 23) = rx socks (QUdp 23) ++ [[104; 105] ++ replicate 16 0] ∧
    (∀ q, q ≠ QUdp 23 → rx w' q = rx socks q) ∧
    sendtos (w_trace w') = sendtos (w_trace socks).
Proof.
  apply (datagram_queued 3 5 (intf_at socks 5) (udp_to_a [104; 105]) [0; 9; 0; 7; 0; 10; 0; 0] ([104; 105] ++ replicate 16 0)
    ip_b 7 23 us_a socks);
    [|reflexivity|reflexivity|by_eval|vm_compute; reflexivity|vm_compute; reflexivity].
  exact (frame_for_a socks IP_PROTO_UDP (udp_msg 9 7 [104; 105]) wf_socks eq_refl ltac:(by_eval) ltac:(by_eval) ltac:(by_eval)).
Defined.

Lemma foreign_frame_dropped_witness :
  ∃ w', recv_one 3 (RecvFrame (eth_frame mac_b mac_b ETH_PROTO_IP [1; 2; 3])) talk = Ok (tt, w') ∧ sends talk [] w'.
Proof.
  destruct (at_a_listens talk wf_talk) as (Hli & _ & Hmac); [vm_compute; reflexivity|].
  apply (foreign_frame_dropped 3 5 (intf_at talk 5) mac_b mac_b ETH_PROTO_IP [1; 2; 3] talk);
    [exact Hli| |reflexivity|reflexivity|by_eval|by_eval|by_eval].
  left. unfold for_me. rewrite Hmac. intros [E|E]; discriminate E.
Defined.

(** A third node, behind the first, whose address is resolved. *)
Definition ip_c : Z := le_decode [172; 16; 10; 2].
Definition ip_a2 : Z := le_decode [172; 16; 10; 1].
Definition mac_a2 : list Z := [0; 0; 34; 103; 138; 63].
Definition mac_c : list Z := [0; 192; 24; 214; 218; 172].
Definition router : world := after [
  Ping 2 (cstr "172.16.10.2");
  Receive 6 (RecvFrame (arp_frame bcast mac_a2 (arp_msg 1 mac_a2 ip_a2 (replicate 6 0) ip_c)));
  Receive 5 (RecvFrame (arp_frame mac_a2 mac_c (arp_msg 2 mac_c ip_c mac_a2 ip_a2)))] talk.

Lemma router_wf : wf router.
Proof. apply reachable_wf, after_reachable, talk_reachable. Qed.

Lemma transit_to_c w hdr q ttl :
  wf w → at_a w = true → is_local w (if_node (intf_at w 5)) ip_c = false → ip_hdr5 hdr →
  slice 8 1 hdr = [ttl] → slice 16 4 hdr = le_encode 4 ip_c →
  let f := eth_frame mac_a mac_b ETH_PROTO_IP (hdr ++ q) in
  Forall is_u8 f → zlen f <= 2044 → transit w 3 5 (intf_at w 5) f hdr q ttl ip_c.
Proof.
  intros Hw Ha Hl H5 H8 H16 f Hb Hlen. destruct (at_a_listens w Hw Ha) as (Hli & _ & Hmac).
  split; [exact Hli| |exact H5|exact H8|exact H16|by_eval|by rewrite <- is_local_spec, Hl|exact Hb|exact Hlen].
  exists mac_a, mac_b. split_and!; [reflexivity|left; exact (eq_sym Hmac)|reflexivity|reflexivity].
Qed.

(** The checksum of the forwarded header is wrong. *)
Lemma datagram_forwarded_witness :
  let hdr := ip_header 28 17 ip_b ip_c (ip_checksum 28 17 ip_b ip_c) in
  let q := udp_msg 9 7 [] in
  rfc1071 hdr = 0 ∧ rfc1071 (forwarded_hdr ip_a2 64 hdr) ≠ 0 ∧
  ∃ w', recv_one 3 (RecvFrame (eth_frame mac_a mac_b ETH_PROTO_IP (hdr ++ q))) router = Ok (tt, w') ∧
    sends router [(40003, ip_frame mac_c mac_a2 (forwarded_hdr ip_a2 64 hdr ++ q))] w'.
Proof.
  intros hdr q. split; [vm_compute; reflexivity|]. split; [by_eval|].
  apply (datagram_forwarded 3 5 (intf_at router 5) (eth_frame mac_a mac_b ETH_PROTO_IP (hdr ++ q)) hdr q 64 ip_c
    (intf_at router 8) mac_c 40003 router); [|by_eval|vm_compute; reflexivity|].
  - apply transit_to_c; [exact router_wf|vm_compute; reflexivity|vm_compute; reflexivity|split; vm_compute; reflexivity|
      vm_compute; reflexivity|vm_compute; reflexivity|by_eval|by_eval].
  - apply path_to_reaches; [exact router_wf|vm_compute; reflexivity].
Defined.

Lemma datagram_expires_witness :
  let hdr := splice 8 [1] (ip_header 28 17 ip_b ip_c 0) in
  let q := udp_msg 9 7 [] in
  ∃ w', recv_one 3 (RecvFrame (eth_frame mac_a mac_b ETH_PROTO_IP (hdr ++ q))) router = Ok (tt, w') ∧
    sends router [] w'.
Proof.
  intros hdr q.
  apply (datagram_expires 3 5 (intf_at router 5) (eth_frame mac_a mac_b ETH_PROTO_IP (hdr ++ q)) hdr q 1 ip_c router).
  - apply transit_to_c; [exact router_wf|vm_compute; reflexivity|vm_compute; reflexivity|split; vm_compute; reflexivity|
      vm_compute; reflexivity|vm_compute; reflexivity|by_eval|by_eval].
  - by left.
Defined.
