(* ===== verification/TcpThm.v ===== *)
(** * The steps of a passive TCP connection

    One received segment at a time: a SYN makes a connection and is answered,
    the acknowledgment establishes it, data in order is queued, a segment out
    of order changes nothing. *)
From S2P Require Import Prelude Cmonad Utils Skbuff World Topology Comm Ethernet Arp Route Ip.
From S2P Require Import Icmp Udp Tcp Stack Graph Scenario Invariant SkbRules LinkSafe IpSafe Reach.
From S2P Require Import Packet Wire ArpSpec IpSpec ProtoSpec RecvSpec SockSpec TcpSpec TcpInSpec.
From S2P Require Import InputSpec Demo SendThm RecvThm.
From stdpp Require Import strings.
#[local] Open Scope Z_scope.

(** The end of a segment that only changed its connection. *)
Lemma sends_dropped_conn w s w1 c cn :
  wf w → sends w [] w1 →
  let w2 := with_conn c cn (with_skb (w_next w) s w1) in
  sends (with_conn c cn w) []
    (set_skbs (delete (w_next w) (w_skbs w2)) (set_trace (w_trace w2 ++ [EPrint PacketDropped]) w2)).
Proof.
  intros Hw [(t & n & -> & Ht) Hn] w2. split; [|exact Hn]. exists (t ++ [EPrint PacketDropped]), n. split.
  - unfold w2. cbn -[insert delete]. rewrite delete_insert_id by by apply (wf_unused_skbs w).
    by rewrite <- app_assoc.
  - unfold sendtos in *. by rewrite omap_app, Ht.
Qed.

(** The socket of a segment is bound to the interface the segment came in by. *)
Lemma socket_bound w fd i it t ts f data sip sport seq flags wnd :
  segment_arrives w fd i it t ts f data sip sport seq flags wnd →
  ts_bound ts = true ∧ ts_intf ts = Some i.
Proof.
  intros [(thdr & dport & [[Hw _ Hit _] _ _ _] & _ & Hfind) Hts].
  unfold tcp_find in Hfind. rewrite Hit in Hfind. cbn [mbind option_bind] in Hfind.
  apply head_filter_sat in Hfind as [_ Hin].
  destruct (tw_socks _ _ _ _ _ _ (wf_tcp _ Hw) i it t Hit Hin) as (ts' & Hts' & ? & ?).
  assert (ts' = ts) as -> by congruence. done.
Qed.

Section TcpThm.
Context `{Os}.

(** The connections of [w'] are those of [w] with [cn] at [c]; nothing was sent. *)
Definition conn_step (w : world) (c : ptr) (cn : tcp_connection_sock) (w' : world) : Prop :=
  w_conns w' = <[c := cn]> (w_conns w) ∧ sendtos (w_trace w') = sendtos (w_trace w).

(** The steps of the connection, with what the calls need of the state. *)
Lemma recv_data_segment fd i it t ts f data sip sport seq flags wnd c cn w :
  segment_arrives w fd i it t ts f data sip sport seq flags wnd →
  conn_find w (ts_conns ts) sip sport = Some c → w_conns w !! c = Some cn →
  tc_state cn = handle_estab_state → seq = tc_rcv_nxt cn →
  has_flag flags FLAG_RST = false → has_flag flags FLAG_FIN = false →
  ∃ w', recv_one fd (RecvFrame f) w = Ok (tt, w') ∧
    (∃ l, conn_step w c (tc_set_rx l (tc_set_rcv_nxt (wrap32 (seq + zlen data)) cn)) w') ∧
    rx w' (QConn c) = rx w (QConn c) ++ [data] ∧ (∀ q, q ≠ QConn c → rx w' q = rx w q) ∧
    w_conn_fds w' = w_conn_fds w ∧ w_tcps w' = w_tcps w.
Proof.
  intros Hse Hfind Hcn Hst -> Hrst Hfin. apply wp_ok_tt.
  assert (wf w) as Hw by (destruct Hse as [(? & ? & [[] _ _ _] & _) _]; done).
  eapply wp_recv_segment; [exact Hse|]. intros s w1 m d post hdr dport Hs1 Hn1 Ha L.
  rewrite Hfind, Hcn. cbn [fmap option_fmap option_map]. rewrite Hst. mstep.
  destruct (sends_same _ _ Hs1) as (tr & n & Ew1).
  einvoke (wp_handle_estab_data _ (ip_input_fuel 1) w1 _ _ _ _ _ _ _ _ _ _ _ _ _ _ _ Ha c cn); [by rewrite Ew1|done..|].
  intros s' Hp. mstep.
  set (cn' := tc_set_rx _ _).
  destruct (rx_push_conn w c cn cn' s' Hw Hcn eq_refl) as [R1 R2].
  rewrite (packet_payload _ _ _ _ _ Hp) in R1.
  assert (∀ q, rx (with_conn c cn' (with_skb (w_next w) s' w1)) q = rx (with_conn c cn' (with_skb (w_next w) s' w)) q) as R3
    by (intros q; by rewrite Ew1).
  split_and!; [|by rewrite R3|intros q Hq; by rewrite R3, R2|by rewrite Ew1|by rewrite Ew1].
  exists (w_next w :: tc_rx_skb cn). split; [by rewrite Ew1|].
  pose proof (sends_sendtos _ _ _ Hs1) as Htr. by rewrite app_nil_r in Htr.
Qed.

(** On an established connection a segment with the expected sequence number and
    neither RST nor FIN advances rcv.nxt by the length of what follows the header, modulo
    2^32, and appends it to the queue of the connection; no other queue changes and nothing
    is sent. *)
Theorem segment_in_order_queued fd i it t ts f data sip sport seq flags wnd c cn w :
  segment_arrives w fd i it t ts f data sip sport seq flags wnd →
  conn_find w (ts_conns ts) sip sport = Some c → w_conns w !! c = Some cn →
  tc_state cn = handle_estab_state → seq = tc_rcv_nxt cn →
  has_flag flags FLAG_RST = false → has_flag flags FLAG_FIN = false →
  ∃ w', recv_one fd (RecvFrame f) w = Ok (tt, w') ∧
    (∃ l, conn_step w c (tc_set_rx l (tc_set_rcv_nxt (wrap32 (seq + zlen data)) cn)) w') ∧
    rx w' (QConn c) = rx w (QConn c) ++ [data] ∧ (∀ q, q ≠ QConn c → rx w' q = rx w q).
Proof.
  intros Hse Hfind Hcn Hst Hseq Hrst Hfin.
  destruct (recv_data_segment fd i it t ts f data sip sport seq flags wnd c cn w) as (w' & ? & ? & ? & ? & _);
    [done..|]. by exists w'.
Qed.

(** A segment with another sequence number is dropped. *)
Lemma segment_out_of_order_dropped fd i it t ts f data sip sport seq flags wnd c cn w :
  segment_arrives w fd i it t ts f data sip sport seq flags wnd →
  conn_find w (ts_conns ts) sip sport = Some c → w_conns w !! c = Some cn →
  tc_state cn = handle_estab_state → seq ≠ tc_rcv_nxt cn →
  ∃ w', recv_one fd (RecvFrame f) w = Ok (tt, w') ∧ sends w [] w'.
Proof.
  intros Hse Hfind Hcn Hst Hseq. apply wp_ok_tt.
  assert (wf w) as Hw by (destruct Hse as [(? & ? & [[] _ _ _] & _) _]; done).
  eapply wp_recv_segment; [exact Hse|]. intros s w1 m d post hdr dport Hs1 Hn1 Ha L.
  rewrite Hfind, Hcn. cbn [fmap option_fmap option_map]. rewrite Hst. mstep.
  destruct (sends_same _ _ Hs1) as (tr & n & Ew1).
  einvoke (wp_handle_estab_out_of_order _ (ip_input_fuel 1) w1 _ _ _ _ _ _ _ _ _ _ _ _ _ _ _ Ha c cn); [by rewrite Ew1|done|].
  mstep. apply wp_print. apply (wp_dealloc _ s); [apply lookup_insert_eq|].
  by apply (sends_dropped w s w1).
Qed.

Lemma recv_third_segment fd i it t ts f data sip sport seq flags wnd c cn w :
  segment_arrives w fd i it t ts f data sip sport seq flags wnd →
  conn_find w (ts_conns ts) sip sport = Some c → w_conns w !! c = Some cn →
  tc_state cn = handle_syn_sent_state →
  ∃ w', recv_one fd (RecvFrame f) w = Ok (tt, w') ∧
    sends (if has_flag flags FLAG_ACK && negb (has_flag flags FLAG_SYN) && (seq =? tc_rcv_nxt cn)
           then with_conn c (tc_set_state handle_estab_state cn) w else w) [] w'.
Proof.
  intros Hse Hfind Hcn Hst. apply wp_ok_tt.
  assert (wf w) as Hw by (destruct Hse as [(? & ? & [[] _ _ _] & _) _]; done).
  eapply wp_recv_segment; [exact Hse|]. intros s w1 m d post hdr dport Hs1 Hn1 Ha L.
  rewrite Hfind, Hcn. cbn [fmap option_fmap option_map]. rewrite Hst. mstep.
  destruct (sends_same _ _ Hs1) as (tr & n & Ew1).
  einvoke (wp_handle_syn_sent_step _ w1 _ _ _ _ _ _ _ _ _ _ _ _ _ _ _ Ha c cn); [by rewrite Ew1|].
  destruct (_ && _).
  - mstep. apply wp_print. apply (wp_dealloc _ s); [apply lookup_insert_eq|].
    by apply (sends_dropped_conn w s w1).
  - mstep. apply wp_print. apply (wp_dealloc _ s); [apply lookup_insert_eq|].
    by apply (sends_dropped w s w1).
Qed.

(** C18. While a connection waits for the third segment, a segment establishes it exactly
    when it has ACK, no SYN and the expected sequence number; nothing else changes and
    nothing is sent. *)
Theorem ack_establishes_connection fd i it t ts f data sip sport seq flags wnd c cn w :
  segment_arrives w fd i it t ts f data sip sport seq flags wnd →
  conn_find w (ts_conns ts) sip sport = Some c → w_conns w !! c = Some cn →
  tc_state cn = handle_syn_sent_state →
  ∃ w', recv_one fd (RecvFrame f) w = Ok (tt, w') ∧
    sends (if has_flag flags FLAG_ACK && negb (has_flag flags FLAG_SYN) && (seq =? tc_rcv_nxt cn)
           then with_conn c (tc_set_state handle_estab_state cn) w else w) [] w'.
Proof. apply recv_third_segment. Qed.

Lemma recv_syn fd i it t ts f data sip sport seq flags wnd mac port w :
  segment_arrives w fd i it t ts f data sip sport seq flags wnd →
  conn_find w (ts_conns ts) sip sport = None → ts_listening ts = true →
  has_flag flags FLAG_SYN = true → has_flag flags FLAG_ACK = false →
  is_u16 (ts_local_port ts) → routed w i it sip → reaches w (if_node it) sip it mac port →
  let c := Pos.succ (w_next w) in
  ∃ w', recv_one fd (RecvFrame f) w = Ok (tt, w') ∧
    w_conns w !! c = None ∧
    (∃ irs, w_conns w' = <[c := syn_conn sip sport seq wnd t irs]> (w_conns w)) ∧
    w_tcps w' = <[t := ts_set_conns (c :: ts_conns ts) (ts_closed_conns ts) ts]> (w_tcps w) ∧
    w_skbs w' = w_skbs w ∧
    sendtos (w_trace w') = sendtos (w_trace w) ++
      [(port, ip_frame mac (IF_MAC it) (ip_datagram IP_PROTO_TCP (IF_IP it) sip
        (tcp_msg (ts_local_ip ts) sip (ts_local_port ts) sport 0 (wrap32 (seq + 1)) 0x12
           TCP_WINDOW_SIZE [])))] ∧
    w_tcp_fds w' = w_tcp_fds w ∧ w_conn_fds w' = w_conn_fds w.
Proof.
  intros Hse Hfind Hli Hsyn Hack Hlp [Hit Hroute] Hr c. apply wp_ok_tt.
  assert (wf w) as Hw by (destruct Hse as [(? & ? & [[] _ _ _] & _) _]; done).
  destruct (socket_bound _ _ _ _ _ _ _ _ _ _ _ _ _ Hse) as [Hbd Hi].
  pose proof (se_sock _ _ _ _ _ _ _ _ _ _ _ _ _ Hse) as Hts.
  eapply wp_recv_segment; [exact Hse|]. intros s w1 m d post hdr dport Hs1 Hn1 Ha L.
  rewrite Hfind, Hli, Hsyn, Hack. cbn [andb negb]. mstep.
  destruct (sends_same _ _ Hs1) as (tr & n & Ew1).
  einvoke (wp_handle_new_connection_wire _ (ip_input_fuel 1) w1 _ _ _ _ _ _ _ _ _ _ _ _ _ _ _ Ha t ts i it mac port);
    [by rewrite Ew1|done|done|done|by rewrite Ew1|by rewrite Ew1| |].
  { apply (reaches_evolves w); [done|apply Ha|by rewrite Ew1..]. }
  intros irs w' Hs'. mstep. apply wp_print. pose proof (sends_sendtos _ _ _ Hs') as Htr.
  pose proof (sends_sendtos _ _ _ Hs1) as Htr1. rewrite app_nil_r in Htr1.
  destruct Hs' as [(t' & n' & -> & _) _].
  apply (wp_dealloc _ s); [apply lookup_insert_eq|].
  split_and!.
  - destruct (wf_fresh _ Hw) as (_ & _ & _ & _ & _ & _ & _ & _ & Hc). apply Hc. unfold c. lia.
  - exists irs. unfold syn_world, c. rewrite Hn1. by rewrite Ew1.
  - unfold syn_world, c. rewrite Hn1. by rewrite Ew1.
  - rewrite Ew1. cbn -[insert delete]. by apply delete_insert_id, (wf_unused_skbs w).
  - change (sendtos ((w_trace (syn_world w1 (w_next w) s sip sport seq wnd t ts irs) ++ t') ++ [EPrint PacketDropped]) =
      sendtos (w_trace w) ++ [(port, ip_frame mac (IF_MAC it) (ip_datagram IP_PROTO_TCP (IF_IP it) sip
        (tcp_msg (ts_local_ip ts) sip (ts_local_port ts) sport 0 (wrap32 (seq + 1)) 0x12 TCP_WINDOW_SIZE [])))]).
    rewrite <- Htr1. unfold sendtos at 1. rewrite omap_app. cbn [omap list_omap]. rewrite app_nil_r. exact Htr.
  - by rewrite Ew1.
  - by rewrite Ew1.
Qed.

(** C17. A SYN without ACK for a listening socket from a peer that has no connection with it
    yet, when the route back to the peer leads over the receiving interface, an end of a
    live UDP link, and the MAC address of the next hop is resolved, makes a connection with
    the state that handle_new_connection sets up, and one SYN+ACK segment that acknowledges
    it is sent; the received buffer is freed. *)
Theorem syn_makes_connection fd i it t ts f data sip sport seq flags wnd mac port w :
  segment_arrives w fd i it t ts f data sip sport seq flags wnd →
  conn_find w (ts_conns ts) sip sport = None → ts_listening ts = true →
  has_flag flags FLAG_SYN = true → has_flag flags FLAG_ACK = false →
  is_u16 (ts_local_port ts) → routed w i it sip → reaches w (if_node it) sip it mac port →
  let c := Pos.succ (w_next w) in
  ∃ w', recv_one fd (RecvFrame f) w = Ok (tt, w') ∧
    w_conns w !! c = None ∧
    (∃ irs, w_conns w' = <[c := syn_conn sip sport seq wnd t irs]> (w_conns w)) ∧
    w_tcps w' = <[t := ts_set_conns (c :: ts_conns ts) (ts_closed_conns ts) ts]> (w_tcps w) ∧
    w_skbs w' = w_skbs w ∧
    sendtos (w_trace w') = sendtos (w_trace w) ++
      [(port, ip_frame mac (IF_MAC it) (ip_datagram IP_PROTO_TCP (IF_IP it) sip
        (tcp_msg (ts_local_ip ts) sip (ts_local_port ts) sport 0 (wrap32 (seq + 1)) 0x12
           TCP_WINDOW_SIZE [])))].
Proof.
  intros Hse Hfind Hli Hsyn Hack Hlp Hroute Hr c.
  destruct (recv_syn fd i it t ts f data sip sport seq flags wnd mac port w) as (w' & ? & ? & ? & ? & ? & ? & _);
    [done..|]. exists w'. by split_and!.
Qed.

(** [close_connection] resets the peer and moves the connection to the closed ones. *)
Lemma wp_close_connection_wire (E : fault → Prop) deliver c cn ts it mac port Q w :
  let L := {| ip_output := ip_output_with deliver |} in
  conn_reaches w c cn ts it mac port → window_open cn 0 →
  (∀ w', sends w [(port, ip_frame mac (IF_MAC it) (ip_datagram IP_PROTO_TCP (IF_IP it) (tc_remote_ip cn)
            (conn_segment ts cn 0x14 [])))] w' →
     Q true (set_tcps (<[tc_parent cn := ts_set_conns (list_remove c (ts_conns ts))
        (c :: list_remove c (ts_closed_conns ts)) ts]> (w_tcps w)) w')) →
  wp (close_connection (H := L) c) Q E w.
Proof.
  intros L Hr Hwin HQ. unfold close_connection. mstep. apply wp_print. mstep.
  change (Z.lor FLAG_ACK FLAG_RST) with 0x14. set (w1 := set_trace _ w).
  assert (conn_reaches w1 c cn ts it mac port) as Hr1.
  { destruct Hr as [? ? ? Hr ? ?]. split; try done. apply (reaches_evolves w); try done. apply wf_trace, Hr. }
  einvoke (wp_tcp_out_wire E deliver c cn ts it mac port [] 0x14); [exact Hr1|done|done|done|exact Hwin|].
  intros w' Hs. change (tcp_advance 0x14 (zlen []) (tc_snt_nxt cn)) with (tc_snt_nxt cn) in Hs.
  replace (tc_set_snt_nxt (tc_snt_nxt cn) cn) with cn in Hs by by destruct cn.
  rewrite with_conn_id in Hs by apply Hr1. pose proof Hs as [(t & n & -> & _) _].
  mstep. apply (wp_load _ cn); [apply Hr|]. mstep. apply (wp_update _ _ ts); [apply Hr|]. mstep.
  apply HQ. by apply (sends_events _ [EPrint ClosingConnection]) in Hs.
Qed.

(** C19. A RST with the expected sequence number for an established connection whose send
    window admits an empty segment, when the route to the peer leads over the socket's
    interface, an end of a live UDP link, and the MAC address of the next hop is resolved,
    moves the connection to the closed ones of its socket and sends one ACK+RST segment; the
    received buffer stays allocated. *)
Theorem reset_closes_connection fd i it t ts f data sip sport seq flags wnd c cn mac port w :
  segment_arrives w fd i it t ts f data sip sport seq flags wnd →
  conn_find w (ts_conns ts) sip sport = Some c → conn_reaches w c cn ts it mac port →
  tc_state cn = handle_estab_state → seq = tc_rcv_nxt cn →
  has_flag flags FLAG_RST = true → window_open cn 0 →
  ∃ w', recv_one fd (RecvFrame f) w = Ok (tt, w') ∧
    w_tcps w' = <[t := ts_set_conns (list_remove c (ts_conns ts))
                         (c :: list_remove c (ts_closed_conns ts)) ts]> (w_tcps w) ∧
    w_conns w' = w_conns w ∧
    (∃ s, w_skbs w' = <[w_next w := s]> (w_skbs w)) ∧
    sendtos (w_trace w') = sendtos (w_trace w) ++
      [(port, ip_frame mac (IF_MAC it) (ip_datagram IP_PROTO_TCP (IF_IP it) (tc_remote_ip cn)
        (conn_segment ts cn 0x14 [])))].
Proof.
  intros Hse Hfind Hr Hst -> Hrst Hwin. apply wp_ok_tt.
  assert (wf w) as Hw by (destruct Hse as [(? & ? & [[] _ _ _] & _) _]; done).
  pose proof (cr_conn _ _ _ _ _ _ _ Hr) as Hcn.
  assert (tc_parent cn = t) as Hpar.
  { unfold conn_find in Hfind. apply head_filter_sat in Hfind as [_ Hin].
    destruct (tw_conns _ _ _ _ _ _ (wf_tcp _ Hw) t ts c (se_sock _ _ _ _ _ _ _ _ _ _ _ _ _ Hse) Hin) as (cn' & ? & ?).
    by simplify_eq. }
  eapply wp_recv_segment; [exact Hse|]. intros s w1 m d post hdr dport Hs1 Hn1 Ha L.
  rewrite Hfind, Hcn. cbn [fmap option_fmap option_map]. rewrite Hst. mstep.
  destruct (sends_same _ _ Hs1) as (tr & n & Ew1).
  einvoke (wp_handle_estab_reset _ (ip_input_fuel 1) w1 _ _ _ _ _ _ _ _ _ _ _ _ _ _ _ Ha c cn); [by rewrite Ew1|done|done|].
  eapply (wp_close_connection_wire _ _ c cn ts it mac port); [|done|].
  { destruct Hr as [? ? ? Hr ? ?]. split; try by rewrite ?Ew1.
    apply (reaches_evolves w); [done|apply Ha|by rewrite Ew1..]. }
  intros w' Hs'. mstep. pose proof (sends_sendtos _ _ _ Hs') as Htr.
  pose proof (sends_sendtos _ _ _ Hs1) as Htr1. rewrite app_nil_r in Htr1.
  destruct Hs' as [(t' & n' & -> & _) _]. rewrite Hpar. split_and!.
  - by rewrite Ew1.
  - by rewrite Ew1.
  - exists s. by rewrite Ew1.
  - rewrite <- Htr1. exact Htr.
Qed.
End TcpThm.

(** ** Witnesses *)

Lemma segment_for_a w seq ack flags wnd data :
  wf w → at_a w = true → tcp_find w 5 80 = Some 25%positive → w_tcps w !! 25%positive = Some (ts_of w) →
  tcp_fields_ok 1000 80 seq ack flags wnd → Forall is_u8 data → zlen data <= 1900 →
  segment_arrives w 3 5 (intf_at w 5) 25 (ts_of w) (from_b seq ack flags wnd data)
    (data ++ replicate (6 - length data) 0) ip_b 1000 seq flags wnd.
Proof.
  intros Hw Ha Hfind Hts Hf Hb Hlen. split; [|done]. unfold from_b, tcp_msg.
  set (ck := rfc1071 _). destruct (tcp_segment_fields 1000 80 seq ack flags wnd ck data Hf) as (thdr & E & Hseg).
  exists thdr, 80. split_and!; [|done|done].
  pose proof (sf_length _ _ _ _ _ _ Hseg) as Hl.
  assert (Forall is_u8 (thdr ++ data)) as Hb'.
  { rewrite <- E. apply tcp_segment_bytes; [done| |done]. apply rfc1071_u16, Forall_app. split.
    - apply tcp_pseudo_bytes. unfold is_u16. lia.
    - by apply tcp_segment_bytes. }
  rewrite E, app_assoc.
  replace (6 - length data)%nat with (26 - length (thdr ++ data))%nat by (rewrite length_app; lia).
  apply frame_for_a; [done|done|by_eval|done|]. rewrite length_app. lia.
Qed.

Lemma syn_makes_connection_witness :
  ∃ w', recv_one 3 (RecvFrame (from_b 99 0 2 5000 [])) socks = Ok (tt, w') ∧
    w_conns socks !! 27%positive = None ∧
    (∃ irs, w_conns w' = <[27%positive := syn_conn ip_b 1000 99 5000 25 irs]> (w_conns socks)) ∧
    w_tcps w' = <[25%positive := ts_set_conns [27%positive] [] (ts_of socks)]> (w_tcps socks) ∧
    w_skbs w' = w_skbs socks ∧
    sendtos (w_trace w') = sendtos (w_trace socks) ++
      [(40001, ip_frame mac_b mac_a (ip_datagram IP_PROTO_TCP ip_a ip_b
        (tcp_msg ip_a ip_b 80 1000 0 100 0x12 1500 [])))].
Proof.
  apply (syn_makes_connection 3 5 (intf_at socks 5) 25 (ts_of socks) (from_b 99 0 2 5000 []) (replicate 6 0)
    ip_b 1000 99 2 5000 mac_b 40001 socks).
  - apply (segment_for_a socks 99 0 2 5000 []);
      [exact wf_socks|vm_compute; reflexivity..|split; by_eval|by_eval|by_eval].
  - vm_compute. reflexivity.
  - vm_compute. reflexivity.
  - reflexivity.
  - reflexivity.
  - by_eval.
  - apply routed_intro; vm_compute; reflexivity.
  - apply path_to_reaches; [exact wf_socks|vm_compute; reflexivity].
Defined.

Lemma ack_establishes_connection_witness :
  ∃ w', recv_one 3 (RecvFrame (from_b 100 1 16 5000 [])) syn_rcvd = Ok (tt, w') ∧
    sends (with_conn 27 (tc_set_state handle_estab_state (cn_of syn_rcvd)) syn_rcvd) [] w'.
Proof.
  assert (tc_rcv_nxt (cn_of syn_rcvd) = 100) as Hnxt by (vm_compute; reflexivity).
  assert (segment_arrives syn_rcvd 3 5 (intf_at syn_rcvd 5) 25 (ts_of syn_rcvd) (from_b 100 1 16 5000 [])
    (replicate 6 0) ip_b 1000 100 16 5000) as Hs.
  { apply (segment_for_a syn_rcvd 100 1 16 5000 []);
      [exact wf_syn_rcvd|vm_compute; reflexivity..|split; by_eval|by_eval|by_eval]. }
  pose proof (ack_establishes_connection 3 5 (intf_at syn_rcvd 5) 25 (ts_of syn_rcvd)
    (from_b 100 1 16 5000 []) (replicate 6 0) ip_b 1000 100 16 5000 27 (cn_of syn_rcvd) syn_rcvd Hs
    ltac:(vm_compute; reflexivity) ltac:(vm_compute; reflexivity) ltac:(vm_compute; reflexivity)) as Hx.
  rewrite Hnxt in Hx. exact Hx.
Defined.

Lemma segment_in_order_queued_witness :
  ∃ w', recv_one 3 (RecvFrame (from_b 100 1 16 5000 [104; 105])) estab = Ok (tt, w') ∧
    (∃ l, conn_step estab 27 (tc_set_rx l (tc_set_rcv_nxt 106 (cn_of estab))) w') ∧
    rx w' (QConn 27) = rx estab (QConn 27) ++ [[104; 105; 0; 0; 0; 0]] ∧
    (∀ q, q ≠ QConn 27 → rx w' q = rx estab q).
Proof.
  apply (segment_in_order_queued 3 5 (intf_at estab 5) 25 (ts_of estab) (from_b 100 1 16 5000 [104; 105])
    [104; 105; 0; 0; 0; 0] ip_b 1000 100 16 5000 27 (cn_of estab) estab).
  - apply (segment_for_a estab 100 1 16 5000 [104; 105]);
      [exact wf_estab|vm_compute; reflexivity..|split; by_eval|by_eval|by_eval].
  - vm_compute. reflexivity.
  - vm_compute. reflexivity.
  - vm_compute. reflexivity.
  - vm_compute. reflexivity.
  - reflexivity.
  - reflexivity.
Defined.

Lemma segment_out_of_order_dropped_witness :
  ∃ w', recv_one 3 (RecvFrame (from_b 101 1 16 5000 [104; 105])) estab = Ok (tt, w') ∧ sends estab [] w'.
Proof.
  apply (segment_out_of_order_dropped 3 5 (intf_at estab 5) 25 (ts_of estab) (from_b 101 1 16 5000 [104; 105])
    [104; 105; 0; 0; 0; 0] ip_b 1000 101 16 5000 27 (cn_of estab) estab).
  - apply (segment_for_a estab 101 1 16 5000 [104; 105]);
      [exact wf_estab|vm_compute; reflexivity..|split; by_eval|by_eval|by_eval].
  - vm_compute. reflexivity.
  - vm_compute. reflexivity.
  - vm_compute. reflexivity.
  - by_eval.
Defined.

Lemma reset_closes_connection_witness :
  ∃ w', recv_one 3 (RecvFrame (from_b 100 1 4 5000 [])) estab = Ok (tt, w') ∧
    w_tcps w' = <[25%positive := ts_set_conns [] [27%positive] (ts_of estab)]> (w_tcps estab) ∧
    w_conns w' = w_conns estab ∧
    (∃ s, w_skbs w' = <[w_next estab := s]> (w_skbs estab)) ∧
    sendtos (w_trace w') = sendtos (w_trace estab) ++
      [(40001, ip_frame mac_b mac_a (ip_datagram IP_PROTO_TCP ip_a ip_b
        (tcp_msg ip_a ip_b 80 1000 1 100 0x14 1500 [])))].
Proof.
  apply (reset_closes_connection 3 5 it_a 25 (ts_of estab) (from_b 100 1 4 5000 [])
    (replicate 6 0) ip_b 1000 100 4 5000 27 (cn_of estab) mac_b 40001 estab).
  - replace it_a with (intf_at estab 5) by (vm_compute; reflexivity).
    apply (segment_for_a estab 100 1 4 5000 []);
      [exact wf_estab|vm_compute; reflexivity..|split; by_eval|by_eval|by_eval].
  - vm_compute. reflexivity.
  - apply demo_conn_reaches; [exact wf_estab|vm_compute; reflexivity..].
  - vm_compute. reflexivity.
  - vm_compute. reflexivity.
  - reflexivity.
  - vm_compute. by intros ?.
Defined.
