(* ===== verification/SockThm.v ===== *)
(** * The socket interface

    Reads refine the reads of a queue of messages; sockets get the first free
    descriptor, are found on the interface they are bound to; every call rejects
    a descriptor that is not one; [tcp_accept] gives a connection again. *)
From S2P Require Import Prelude Cmonad Utils Skbuff World Topology Comm Ethernet Arp Route Ip.
From S2P Require Import Icmp Udp Tcp Stack Graph Scenario Invariant SkbRules LinkSafe ArpSafe IpSafe TcpApiSafe Reach.
From S2P Require Import Packet Wire ArpSpec IpSpec ProtoSpec RecvSpec SockSpec TcpSpec TcpInSpec.
From S2P Require Import InputSpec Demo SendThm RecvThm.
From stdpp Require Import strings.
#[local] Open Scope Z_scope.

Section SockThm.
Context `{Os}.

(** ** Reads *)


(** C15. tcp_recv on an established connection refines the same read of a queue, here the
    queue of the data segments that arrived in order. *)
Theorem tcp_recv_reads_fifo fd c cn size w :
  wf w → good_fd MAX_TCP_CONN_SOCKS (w_conn_fds w) fd = Some c → w_conns w !! c = Some cn →
  tc_state cn = handle_estab_state → 0 <= size →
  ∃ r w', tcp_recv fd size w = Ok (r, w') ∧
    match fifo_read size (rx w (QConn c)) with
    | Some (bytes, rest) => r = (zlen bytes, bytes) ∧ read_done w (QConn c) rest w'
    | None => r = (-1, []) ∧ w' = w
    end.
Proof. intros. by apply wp_ok, (wp_tcp_recv_fifo _ fd c cn). Qed.

(** ** Descriptors *)

(** Every socket call on a descriptor that is out of range or not in use returns -1 and
    changes nothing. *)
Theorem bad_descriptors_rejected fd w :
  (good_fd MAX_UDP_SOCKS (w_udp_fds w) fd = None → ∀ ip port buff size b1 b2,
    udp_bind fd ip port w = Ok (-1, w) ∧ udp_close fd w = Ok (-1, w) ∧
    udp_sendto fd buff ip port w = Ok (-1, w) ∧ udp_recvfrom fd size b1 b2 w = Ok (recv_error, w)) ∧
  (good_fd MAX_TCP_SOCKS (w_tcp_fds w) fd = None → ∀ ip port,
    tcp_bind fd ip port w = Ok (-1, w) ∧ tcp_close fd w = Ok (-1, w) ∧ tcp_listen fd w = Ok (-1, w) ∧
    tcp_accept fd w = Ok ((-1, None), w)) ∧
  (good_fd MAX_TCP_CONN_SOCKS (w_conn_fds w) fd = None → ∀ buff size,
    tcp_send fd buff w = Ok (-1, w) ∧ tcp_recv fd size w = Ok ((-1, []), w)).
Proof.
  split_and!; intros Hfd; intros;
    unfold udp_bind, udp_close, udp_sendto, udp_recvfrom, tcp_bind, tcp_close, tcp_listen, tcp_accept,
      tcp_send, tcp_recv, estab_connection, is_good_udp_sock, is_good_tcp_sock, is_good_tcp_connection_sock;
    split_and?; unfold bind, gets; by rewrite Hfd.
Qed.

(** [udp_socket] takes the first free descriptor. *)
Theorem udp_socket_takes_first_slot n w :
  wf w →
  ∃ r w', udp_socket n w = Ok (r, w') ∧
    (r = -1 ∧ w' = w ∧ Forall is_Some (w_udp_fds w) ∨
     ∃ j, r = Z.of_nat j ∧ w_udp_fds w !! j = Some None ∧ Forall is_Some (take j (w_udp_fds w)) ∧
       good_fd MAX_UDP_SOCKS (w_udp_fds w') r = Some (w_next w) ∧
       w_udps w' = <[w_next w := mk_udp_sock false n None 0 []]> (w_udps w)).
Proof.
  intros Hw. apply wp_ok. unfold udp_socket. mstep. mstep.
  destruct (available_slot_from_spec 0 (w_udp_fds w)) as [[-> Hall]|(j & -> & Hj & Hall)].
  { change (-1 <? 0) with true. cbv beta match. mstep. by left. }
  destruct (Z.ltb_spec (0 + Z.of_nat j) 0); [lia|]. mstep. apply wp_alloc. mstep. mstep. mstep.
  right. exists j. pose proof (uw_fds _ _ _ _ (wf_udp _ Hw)) as Hlen.
  pose proof (lookup_lt_Some _ _ _ Hj) as Hlt. rewrite Hlen in Hlt.
  replace (0 + Z.of_nat j) with (Z.of_nat j) by lia. rewrite Nat2Z.id.
  split_and!; [done|done|done| |done].
  unfold good_fd. rewrite Nat2Z.id. cbn [w_udp_fds set_udp_fds hset heap_udps set_udps set_next].
  rewrite list_lookup_insert_eq by lia.
  destruct (Z.ltb_spec (Z.of_nat j) 0); [lia|]. destruct (Z.leb_spec (Z.of_nat MAX_UDP_SOCKS) (Z.of_nat j)); [lia|done].
Qed.

(** udp_bind succeeds exactly when an interface of the node of the socket has the
    address; the socket is then found on this interface by its port. *)
Theorem udp_bind_finds_interface fd u us ip port w :
  wf w → good_fd MAX_UDP_SOCKS (w_udp_fds w) fd = Some u → w_udps w !! u = Some us → us_bound us = false →
  ∃ r w', udp_bind fd ip port w = Ok (r, w') ∧
    match r with
    | 0 => ∃ i it, w_intfs w !! i = Some it ∧ if_node it = us_node us ∧ IS_INTF_L3_MODE it = true ∧
             IF_IP it = ip ∧ w_udps w' = <[u := us_set_bound i port us]> (w_udps w) ∧
             udp_find w' i port = Some u
    | _ => r = -1 ∧ w' = w ∧ ∀ nd i it, w_nodes w !! us_node us = Some nd → Some i ∈ n_intfs nd →
             w_intfs w !! i = Some it → IS_INTF_L3_MODE it = true → IF_IP it ≠ ip
    end.
Proof.
  intros Hw Hfd Hu Hb. apply wp_ok. unfold udp_bind, is_good_udp_sock. mstep. mstep. rewrite Hfd.
  mstep. apply (wp_load _ us); [done|]. rewrite Hb.
  destruct (topo w !! us_node us) as [[sl rt]|] eqn:Ht;
    [|destruct (uw_node _ _ _ _ (wf_udp _ Hw) u us Hu) as [? ?]; congruence].
  destruct (topo_node _ _ _ Ht) as (nd & Hn & Hst). unfold n_static in Hst. injection Hst as E1 E2.
  mstep. unfold _get_matching_interface. mstep. apply (wp_load _ nd); [done|].
  destruct (first_intf_spec (λ it, IS_INTF_L3_MODE it && (ip =? IF_IP it))
    (λ it, ret (IS_INTF_L3_MODE it && (ip =? IF_IP it))) (n_intfs nd) w) as (r & Hr & Hspec); [done| |].
  { intros i Hi. rewrite E1 in Hi. destruct (st_node_intf _ _ _ _ (wf_static _ Hw) _ _ _ i Ht Hi) as (it & ? & _). by exists it. }
  unfold wp at 1. rewrite Hr. destruct r as [i|].
  - destruct Hspec as (it & Hi & Hit & [Hl3 ->%Z.eqb_eq]%andb_prop).
    mstep. apply (wp_update _ _ us); [done|]. mstep. apply (wp_update _ _ it); [done|]. mstep.
    exists i, it. rewrite E1 in Hi.
    destruct (st_node_intf _ _ _ _ (wf_static _ Hw) _ _ _ i Ht Hi) as (it' & Hit' & Hnode).
    assert (it' = it) as -> by congruence. split_and!; try done.
    set (it2 := if_set_nw _ it). set (w2 := hset _ _). unfold udp_find.
    assert (w_intfs w2 !! i = Some it2) as -> by apply lookup_insert_eq. cbn [mbind option_bind].
    change (p_udp_socks (if_nw it2)) with (u :: p_udp_socks (if_nw it)).
    assert (w_udps w2 !! u = Some (us_set_bound i port us)) as Hu2 by apply lookup_insert_eq.
    rewrite filter_cons, decide_True; [done|]. by rewrite Hu2.
  - mstep. split_and!; [done|done|]. intros nd' j jt Hn' Hj Hjt Hl3 Hip.
    assert (nd' = nd) as -> by congruence. specialize (Hspec j jt Hj Hjt).
    cbv beta in Hspec. by rewrite Hl3, Hip, Z.eqb_refl in Hspec.
Qed.

(** ** Accepting *)

(** The first established connection of a list. *)
Definition estab_find (w : world) (l : list ptr) : option ptr :=
  head (filter (λ c, tc_state <$> w_conns w !! c = Some handle_estab_state) l).

(** The descriptor [i] names the connection [c]. *)
Definition conn_fd (w : world) (i : Z) : option ptr := good_fd MAX_TCP_CONN_SOCKS (w_conn_fds w) i.

Definition accept_outcome (w : world) (oc : option ptr) : res (accept_result * world) :=
  let i := available_slot_from 0 (w_conn_fds w) in
  match oc with
  | Some c => if i <? 0 then Ok ((-1, None), w)
              else Ok ((i, peer <$> w_conns w !! c),
                       set_conn_fds (<[Z.to_nat i := Some c]> (w_conn_fds w)) w)
  | None => Ok ((-1, None), w)
  end.

Lemma accept_from_eq l w :
  (∀ c, c ∈ l → is_Some (w_conns w !! c)) → accept_from l w = accept_outcome w (estab_find w l).
Proof.
  induction l as [|c l IH]; intros Hl; cbn [accept_from]; [done|].
  destruct (Hl c) as [cn Hc]; [set_solver|]. unfold bind at 1, load. cbn [hget heap_conns]. rewrite Hc.
  unfold estab_find. rewrite filter_cons, Hc. cbn [fmap option_fmap option_map].
  destruct (decide (tc_state cn = handle_estab_state)) as [Hs|Hs].
  - rewrite bool_decide_eq_true_2, decide_True by congruence. cbn [head accept_outcome]. rewrite Hc.
    unfold bind, gets. destruct (_ <? 0); done.
  - rewrite bool_decide_eq_false_2, decide_False by congruence. apply IH. set_solver.
Qed.

Lemma tcp_accept_eq fd t ts w :
  wf w → good_fd MAX_TCP_SOCKS (w_tcp_fds w) fd = Some t → w_tcps w !! t = Some ts →
  tcp_accept fd w = if ts_listening ts then accept_outcome w (estab_find w (ts_conns ts)) else Ok ((-1, None), w).
Proof.
  intros Hw Hfd Hts. unfold tcp_accept, is_good_tcp_sock, bind at 1, gets. rewrite Hfd.
  unfold bind at 1, load. cbn [hget heap_tcps]. rewrite Hts. destruct (ts_listening ts); cbn [negb]; [|done].
  apply accept_from_eq. intros c Hc.
  destruct (tw_conns _ _ _ _ _ _ (wf_tcp _ Hw) t ts c Hts Hc) as (cn & ? & _). by exists cn.
Qed.

Lemma conn_fd_insert w j c :
  wf w → (j < length (w_conn_fds w))%nat →
  conn_fd (set_conn_fds (<[j := Some c]> (w_conn_fds w)) w) (Z.of_nat j) = Some c.
Proof.
  intros Hw Hj. pose proof (tw_cfds _ _ _ _ _ _ (wf_tcp _ Hw)) as Hlen. rewrite Hlen in Hj.
  unfold conn_fd, good_fd. rewrite Nat2Z.id. cbn [w_conn_fds set_conn_fds].
  rewrite list_lookup_insert_eq by lia.
  destruct (Z.ltb_spec (Z.of_nat j) 0); [lia|].
  destruct (Z.leb_spec (Z.of_nat MAX_TCP_CONN_SOCKS) (Z.of_nat j)); [lia|done].
Qed.

Lemma available_slot_ok l :
  available_slot_from 0 l <? 0 = false →
  ∃ j, available_slot_from 0 l = Z.of_nat j ∧ l !! j = Some None.
Proof.
  intros Hs%Z.ltb_ge. destruct (available_slot_from_spec 0 l) as [[E _]|(j & -> & Hj & _)]; [lia|].
  exists j. split; [lia|done].
Qed.

(** C36. When tcp_accept gives a connection, the next tcp_accept on the same socket gives
    the same connection again under another descriptor, unless no descriptor is left. *)
Theorem tcp_accept_gives_connection_again fd t ts w i p w1 :
  wf w → good_fd MAX_TCP_SOCKS (w_tcp_fds w) fd = Some t → w_tcps w !! t = Some ts →
  tcp_accept fd w = Ok ((i, Some p), w1) →
  ∃ c cn, estab_find w (ts_conns ts) = Some c ∧ w_conns w !! c = Some cn ∧ p = peer cn ∧
    conn_fd w i = None ∧ conn_fd w1 i = Some c ∧
    (Forall is_Some (w_conn_fds w1) ∧ tcp_accept fd w1 = Ok ((-1, None), w1) ∨
     ∃ i2 w2, tcp_accept fd w1 = Ok ((i2, Some p), w2) ∧ i2 ≠ i ∧ conn_fd w2 i2 = Some c).
Proof.
  intros Hw Hfd Hts Hacc. rewrite (tcp_accept_eq fd t ts) in Hacc by done.
  destruct (ts_listening ts) eqn:Hli; [|done].
  destruct (estab_find w (ts_conns ts)) as [c|] eqn:Hfind; [|done]. cbn [accept_outcome] in Hacc.
  destruct (_ <? 0) eqn:Hslot; [done|]. injection Hacc as Ei Hp Ew1.
  apply fmap_Some in Hp as (cn & Hcn & ->). exists c, cn.
  destruct (available_slot_ok _ Hslot) as (j & Ej & Hj). rewrite Ej in Ei, Ew1. rewrite Nat2Z.id in Ew1.
  pose proof (lookup_lt_Some _ _ _ Hj) as Hlt. subst i.
  assert (conn_fd w1 (Z.of_nat j) = Some c) as Hc1 by (rewrite <- Ew1; by apply conn_fd_insert).
  split_and!; [done|done|done| |done|].
  { unfold conn_fd, good_fd. rewrite Nat2Z.id, Hj. by destruct (_ || _). }
  assert (wf w1) as Hw1.
  { pose proof (wp_tcp_accept (λ _, False) fd w Hw) as Hwp. unfold wp in Hwp.
    rewrite (tcp_accept_eq fd t ts), Hli, Hfind in Hwp by done. cbn [accept_outcome] in Hwp.
    rewrite Hslot, Ej, Nat2Z.id, Ew1 in Hwp. exact Hwp. }
  assert (w_conns w1 = w_conns w) as Ec by by rewrite <- Ew1.
  rewrite (tcp_accept_eq fd t ts), Hli by (done || by rewrite <- Ew1).
  assert (estab_find w1 (ts_conns ts) = Some c) as -> by (unfold estab_find; by rewrite Ec).
  unfold accept_outcome. destruct (available_slot_from 0 (w_conn_fds w1) <? 0) eqn:Hs2.
  - left. split; [|done]. apply Z.ltb_lt in Hs2.
    destruct (available_slot_from_spec 0 (w_conn_fds w1)) as [[_ Hall]|(j2 & E2 & _)]; [done|lia].
  - right. destruct (available_slot_ok _ Hs2) as (j2 & Ej2 & Hj2). rewrite Ej2, Nat2Z.id, Ec, Hcn.
    do 2 eexists. split; [done|]. split.
    + intros E%Nat2Z.inj. subst j2. unfold conn_fd, good_fd in Hc1. rewrite Nat2Z.id, Hj2 in Hc1.
      by destruct (_ || _) in Hc1.
    + apply conn_fd_insert; [done|]. by eapply lookup_lt_Some.
Qed.
End SockThm.

(** ** Witnesses *)

(** The sockets after a datagram of two bytes has arrived. *)
Definition got_udp : world := after [Receive 3 (RecvFrame (udp_to_a [104; 105]))] socks.
Definition got_tcp : world := after [Receive 3 (RecvFrame (from_b 100 1 16 5000 [104; 105]))] accepted.

Lemma got_udp_wf : wf got_udp.
Proof. apply reachable_wf, after_reachable, socks_reachable. Qed.
Lemma got_tcp_wf : wf got_tcp.
Proof. apply reachable_wf, after_reachable, accepted_reachable. Qed.


Lemma tcp_recv_reads_fifo_witness :
  ∃ r w', tcp_recv 0 100 got_tcp = Ok (r, w') ∧
    r = (6, [104; 105; 0; 0; 0; 0]) ∧ read_done got_tcp (QConn 27) [] w'.
Proof.
  assert (rx got_tcp (QConn 27) = [[104; 105; 0; 0; 0; 0]]) as Hrx by (vm_compute; reflexivity).
  destruct (tcp_recv_reads_fifo 0 27 (cn_of got_tcp) 100 got_tcp)
    as (r & w' & Hr & Hq); [exact got_tcp_wf|vm_compute; reflexivity..|by_eval|].
  rewrite Hrx in Hq. exists r, w'. exact (conj Hr Hq).
Defined.

Lemma bad_descriptors_rejected_witness :
  good_fd MAX_UDP_SOCKS (w_udp_fds socks) 8 = None ∧
  udp_close 8 socks = Ok (-1, socks) ∧ tcp_accept (-1) socks = Ok ((-1, None), socks) ∧
  tcp_send 3 [1] socks = Ok (-1, socks).
Proof.
  split; [vm_compute; reflexivity|].
  destruct (bad_descriptors_rejected 8 socks) as (Hu & _ & _).
  destruct (bad_descriptors_rejected (-1) socks) as (_ & Ht & _).
  destruct (bad_descriptors_rejected 3 socks) as (_ & _ & Hc).
  split; [apply (Hu ltac:(vm_compute; reflexivity) 0 0 [] 0 false false)|].
  split; [apply (Ht ltac:(vm_compute; reflexivity) 0 0)|apply (Hc ltac:(vm_compute; reflexivity) [1] 0)].
Defined.

Lemma udp_socket_takes_first_slot_witness :
  ∃ r w', udp_socket 2 socks = Ok (r, w') ∧
    (r = -1 ∧ w' = socks ∧ Forall is_Some (w_udp_fds socks) ∨
     ∃ j, r = Z.of_nat j ∧ w_udp_fds socks !! j = Some None ∧ Forall is_Some (take j (w_udp_fds socks)) ∧
       good_fd MAX_UDP_SOCKS (w_udp_fds w') r = Some (w_next socks) ∧
       w_udps w' = <[w_next socks := mk_udp_sock false 2 None 0 []]> (w_udps socks)).
Proof. exact (udp_socket_takes_first_slot 2 socks wf_socks). Defined.

Definition unbound : world := after [UdpSocket 2] socks.

Lemma unbound_wf : wf unbound.
Proof. apply reachable_wf, after_reachable, socks_reachable. Qed.

Lemma udp_bind_finds_interface_witness :
  let u := w_next socks in
  let us := mk_udp_sock false 2 None 0 [] in
  ∃ r w', udp_bind 2 ip_a 53 unbound = Ok (r, w') ∧
    match r with
    | 0 => ∃ i it, w_intfs unbound !! i = Some it ∧ if_node it = 2%positive ∧ IS_INTF_L3_MODE it = true ∧
             IF_IP it = ip_a ∧ w_udps w' = <[u := us_set_bound i 53 us]> (w_udps unbound) ∧
             udp_find w' i 53 = Some u
    | _ => r = -1 ∧ w' = unbound ∧ ∀ nd i it, w_nodes unbound !! 2%positive = Some nd → Some i ∈ n_intfs nd →
             w_intfs unbound !! i = Some it → IS_INTF_L3_MODE it = true → IF_IP it ≠ ip_a
    end.
Proof.
  apply (udp_bind_finds_interface 2 (w_next socks) (mk_udp_sock false 2 None 0 []) ip_a 53 unbound);
    [exact unbound_wf|vm_compute; reflexivity..].
Defined.

Lemma tcp_accept_gives_connection_again_witness :
  ∃ c cn, estab_find estab [27%positive] = Some c ∧ w_conns estab !! c = Some cn ∧ (ip_b, 1000) = peer cn ∧
    conn_fd estab 0 = None ∧ conn_fd accepted 0 = Some c ∧
    (Forall is_Some (w_conn_fds accepted) ∧ tcp_accept 0 accepted = Ok ((-1, None), accepted) ∨
     ∃ i2 w2, tcp_accept 0 accepted = Ok ((i2, Some (ip_b, 1000)), w2) ∧ i2 ≠ 0 ∧ conn_fd w2 i2 = Some c).
Proof.
  apply (tcp_accept_gives_connection_again 0 25 (ts_of estab) estab 0 (ip_b, 1000) accepted);
    [exact wf_estab|vm_compute; reflexivity..].
Defined.
