(* ===== verification/EndToEnd.v ===== *)
(** * Exchanges between two nodes

    The steps of an exchange, composed: each frame that one side sends is
    received by the other side, in the state the previous step left. *)
From S2P Require Import Prelude Cmonad Utils Skbuff World Topology Comm Ethernet Arp Route Ip.
From S2P Require Import Icmp Udp Tcp Stack Net Graph Scenario Invariant SkbRules LinkSafe ArpSafe IpSafe.
From S2P Require Import ApiSafe Reach.
From S2P Require Import Packet Wire ArpSpec IpSpec ProtoSpec RecvSpec SockSpec TcpSpec TcpInSpec.
From S2P Require Import InputSpec Demo SendThm RecvThm.
From stdpp Require Import strings.
#[local] Open Scope Z_scope.

(** ** What sending leaves as it was *)

Lemma wf_sends w fr w' : wf w → sends w fr w' → wf w'.
Proof.
  intros (Hst & Ha & Hu & Ht & Hq & Hf) [(t & n & -> & _) Hn]. cbn in Hn.
  split_and!; try done. unfold fresh_wf, unused in *. cbn.
  destruct_and!. split_and!; eauto using Pos.le_trans.
Qed.

Lemma listens_sends w fr w' fd i it : sends w fr w' → listens w fd i it → listens w' fd i it.
Proof. intros Hs [Hw ? ? ?]. pose proof (wf_sends _ _ _ Hw Hs). destruct Hs as [(t & n & -> & _) _]. by split. Qed.

Lemma reaches_sends w fr w' n dst it mac port :
  sends w fr w' → reaches w n dst it mac port → reaches w' n dst it mac port.
Proof.
  intros Hs Hr. pose proof (wf_sends _ _ _ (rc_wf _ _ _ _ _ _ Hr) Hs) as Hw'.
  destruct Hs as [(t & k & -> & _) _]. by apply (reaches_evolves w).
Qed.

Lemma local_ip_sends w fr w' n ip : sends w fr w' → local_ip w n ip → local_ip w' n ip.
Proof. by intros [(t & k & -> & _) _]. Qed.

(** Frames for [dst] from the node [n] reach the interface [jt], which listens
    on [fd] and whose node has the address [dst]. *)
Record linked (w : world) (n : ptr) (dst : Z) (it : intf) (port fd : Z) (j : ptr) (jt : intf) : Prop := {
  lk_reaches : reaches w n dst it (IF_MAC jt) port;
  lk_listens : listens w fd j jt;
  lk_local : local_ip w (if_node jt) dst;
  lk_src : is_u32 (IF_IP it);
}.

Lemma linked_sends w fr w' n dst it port fd j jt :
  sends w fr w' → linked w n dst it port fd j jt → linked w' n dst it port fd j jt.
Proof.
  intros Hs []. split; [by eapply reaches_sends|by eapply listens_sends|by eapply local_ip_sends|done].
Qed.

(** The frame with a datagram over such a path arrives. *)
Lemma linked_arrives w n dst it port fd j jt proto p :
  linked w n dst it port fd j jt → is_u32 dst → is_u8 proto → Forall is_u8 p → zlen p <= 1980 →
  ip_arrives w fd j jt proto (IF_IP it) (ip_frame (IF_MAC jt) (IF_MAC it) (ip_datagram proto (IF_IP it) dst p))
    (p ++ replicate (26 - length p) 0).
Proof.
  intros [[Hw Hrem (nd & entry & fd' & e & en & _ & _ & Hit & _)] Hli Hloc Hsrc] Hdst Hpr Hp Hlen.
  destruct (st_intf_mac _ _ _ _ (wf_static _ Hw) _ _ Hit) as [Hm6 Hm8].
  by apply ip_frame_arrives.
Qed.

Section EndToEnd.
Context `{Os}.

(** C4. udp_sendto on a bound socket to an address that a listening neighbour has, when the
    route to it leads over the socket's interface, an end of a live UDP link, and the MAC
    address of the neighbour is already resolved, sends one frame; when that frame is
    received there, its data, at most the first 1446 bytes of the buffer, filled up with
    zeros to the 18 bytes that the smallest frame has room for, becomes the last message of
    the socket bound to the port, and no other queue changes. *)
Theorem udp_end_to_end fd u us i it buff ip port wport fd' j jt v vs w :
  good_fd MAX_UDP_SOCKS (w_udp_fds w) fd = Some u → w_udps w !! u = Some us →
  us_bound us = true → us_intf us = Some i → routed w i it ip → is_u16 (us_local_port us) →
  linked w (if_node it) ip it wport fd' j jt → udp_find w j port = Some v → w_udps w !! v = Some vs →
  Forall is_u8 buff → is_u16 port → is_u32 ip →
  let data := take (Z.to_nat MAX_UDP_PAYLOAD) buff in
  ∃ w1 w2 f, udp_sendto fd buff ip port w = Ok (zlen data, w1) ∧ sends w [(wport, f)] w1 ∧
    recv_one fd' (RecvFrame f) w1 = Ok (tt, w2) ∧
    rx w2 (QUdp v) = rx w (QUdp v) ++ [data ++ replicate (18 - length data) 0] ∧
    ∀ q, q ≠ QUdp v → rx w2 q = rx w q.
Proof.
  intros Hfd Hu Hbd Hi Hroute Hlp Hlk Hfind Hv Hb Hp Hip data.
  assert (zlen data <= 1446) as Hlen by (unfold data; rewrite length_take; unfold MAX_UDP_PAYLOAD; lia).
  assert (Forall is_u8 data) as Hdb by by apply Forall_take.
  destruct (wp_udp_sendto_wire fd u us i it buff ip port _ wport w Hfd Hu Hbd Hi Hroute
    (lk_reaches _ _ _ _ _ _ _ _ Hlk) Hb Hlp Hp Hip) as (w1 & Hsend & Hs1).
  set (m := udp_msg (us_local_port us) port data).
  assert (Forall is_u8 m) as Hm.
  { unfold m, udp_msg. rewrite !Forall_app. split_and!; try apply be16_bytes; try done; [unfold is_u16; lia|by repeat constructor]. }
  pose proof (linked_arrives _ _ _ _ _ _ _ _ IP_PROTO_UDP m (linked_sends _ _ _ _ _ _ _ _ _ _ Hs1 Hlk)
    Hip ltac:(done) Hm) as Har.
  assert (zlen m <= 1980) as Hml by (unfold m; rewrite length_udp_msg; lia). specialize (Har Hml).
  set (f := ip_frame _ _ _) in *. exists w1.
  assert (m ++ replicate (26 - length m) 0 =
          (be16 (us_local_port us) ++ be16 port ++ be16 (8 + zlen data) ++ [0; 0]) ++ (data ++ replicate (18 - length data) 0)) as Em.
  { assert (length m = 8 + length data)%nat as -> by apply length_udp_msg.
    replace (26 - (8 + length data))%nat with (18 - length data)%nat by lia.
    unfold m, udp_msg. by rewrite <- !app_assoc. }
  rewrite Em in Har.
  pose proof Hs1 as [(t & n & Ew1 & _) _].
  destruct (wp_datagram_queued fd' j jt f _ (data ++ replicate (18 - length data) 0) (IF_IP it) port v vs w1 Har) as (w2 & Hrecv & R1 & R2 & _);
    [done|done|done|by rewrite Ew1|by rewrite Ew1|].
  exists w2, f. split_and!; [done|exact Hs1|done| |].
  - rewrite R1. by rewrite (rx_sends _ _ _ _ Hs1).
  - intros q Hq. rewrite R2 by done. by apply (rx_sends _ _ _ _ Hs1).
Qed.

Lemma icmp_msg_bytes type code data :
  is_u8 type → is_u8 code → Forall is_u8 data → Forall is_u8 (icmp_msg type code data).
Proof.
  intros Ht Hc Hd. unfold icmp_msg. rewrite !Forall_app. rewrite !Forall_cons. split_and!; try done.
  apply be16_bytes, rfc1071_u16, Forall_app. split; [|done]. by rewrite !Forall_cons.
Qed.

(** An ICMP message over a path, with its padding. *)
Lemma linked_icmp w n dst it port fd j jt type data :
  linked w n dst it port fd j jt → is_u32 dst → is_u8 type → Forall is_u8 data → zlen data <= 1900 →
  ∃ c1 c2, ip_arrives w fd j jt IP_PROTO_ICMP (IF_IP it)
    (ip_frame (IF_MAC jt) (IF_MAC it) (ip_datagram IP_PROTO_ICMP (IF_IP it) dst (icmp_msg type 0 data)))
    ([type; 0; c1; c2] ++ data ++ replicate (22 - length data) 0).
Proof.
  intros Hlk Hdst Ht Hd Hlen. set (ck := rfc1071 ([type; 0; 0; 0] ++ data)). exists (ck / 256), (ck mod 256).
  pose proof (linked_arrives w n dst it port fd j jt IP_PROTO_ICMP (icmp_msg type 0 data) Hlk Hdst ltac:(done)
    (icmp_msg_bytes type 0 data Ht ltac:(done) Hd)) as Har.
  rewrite length_icmp_msg in Har. specialize (Har ltac:(lia)).
  replace (26 - (4 + length data))%nat with (22 - length data)%nat in Har by lia. exact Har.
Qed.

(** C9. Between two listening neighbours over live UDP links that know each other's MAC
    address, ping sends a request, its reception sends a reply, and the reception of the
    reply prints that the pong has arrived. *)
Theorem ping_round_trip n text it port fd j jt it' port' fd' j' jt' nd w :
  let ip := convert_ip_from_str_to_int text in
  linked w n ip it port fd j jt → linked w (if_node jt) (IF_IP it) it' port' fd' j' jt' →
  w_nodes w !! if_node jt' = Some nd →
  ∃ w1 w2 w3 f1 f2,
    ping n text w = Ok (true, w1) ∧ sends w [(port, f1)] w1 ∧
    recv_one fd (RecvFrame f1) w1 = Ok (tt, w2) ∧ sends w1 [(port', f2)] w2 ∧
    recv_one fd' (RecvFrame f2) w2 = Ok (tt, w3) ∧ printed w2 (ReceivedPong (n_name nd) (if_name jt')) w3.
Proof.
  intros ip Hlk Hlk' Hnd.
  assert (∃ w1, ping n text w = Ok (true, w1) ∧ sends w [(port, ip_frame (IF_MAC jt) (IF_MAC it)
    (ip_datagram IP_PROTO_ICMP (IF_IP it) ip (icmp_msg 8 0 [])))] w1) as (w1 & Hping & Hs1).
  { apply wp_ok_eq. eapply wp_icmp_out_wire; [apply Hlk|done..|apply convert_ip_u32|by split]. }
  pose proof (linked_sends _ _ _ _ _ _ _ _ _ _ Hs1 Hlk) as Hlk1.
  pose proof (linked_sends _ _ _ _ _ _ _ _ _ _ Hs1 Hlk') as Hlk1'.
  destruct (linked_icmp w1 n ip it port fd j jt 8 [] Hlk1 (convert_ip_u32 _) ltac:(done) ltac:(done) ltac:(done))
    as (c1 & c2 & [Hli (dst & src & hdr & dip & Ef & Hme & Hd & Hs & Hf & Hloc) Hb Hlen]).
  set (f1 := ip_frame _ _ _) in *. cbn [app] in Ef.
  assert (∃ w2, recv_one fd (RecvFrame f1) w1 = Ok (tt, w2) ∧ sends w1 [(port', ip_frame (IF_MAC jt') (IF_MAC it')
    (ip_datagram IP_PROTO_ICMP (IF_IP it') (IF_IP it) (icmp_msg 0 0 (replicate 22 0))))] w2) as (w2 & Hr1 & Hs2).
  { rewrite Ef in Hb, Hlen |- *. apply wp_ok_tt.
    eapply (wp_recv_echo _ fd j jt dst src hdr c1 c2 (replicate 22 0)); try done. apply Hlk1'. }
  pose proof (linked_sends _ _ _ _ _ _ _ _ _ _ Hs2 Hlk1') as Hlk2.
  destruct (linked_icmp w2 (if_node jt) (IF_IP it) it' port' fd' j' jt' 0 (replicate 22 0) Hlk2 (lk_src _ _ _ _ _ _ _ _ Hlk)
    ltac:(done) ltac:(by_eval) ltac:(by_eval))
    as (c3 & c4 & [Hli2 (dst2 & src2 & hdr2 & dip2 & Ef2 & Hme2 & Hd2 & Hs2' & Hf2 & Hloc2) Hb2 Hlen2]).
  set (f2 := ip_frame (IF_MAC jt') (IF_MAC it') _) in *. rewrite app_nil_r in Ef2.
  assert (∃ w3, recv_one fd' (RecvFrame f2) w2 = Ok (tt, w3) ∧
    printed w2 (ReceivedPong (n_name nd) (if_name jt')) w3) as (w3 & Hr2 & Hp).
  { rewrite Ef2 in Hb2, Hlen2 |- *. apply wp_ok_tt.
    eapply (wp_recv_pong _ fd' j' jt' nd dst2 src2 hdr2 c3 c4 (replicate 22 0)); try done.
    destruct Hs1 as [(t1 & n1 & -> & _) _]. by destruct Hs2 as [(t2 & n2 & -> & _) _]. }
  by exists w1, w2, w3, f1, f2.
Qed.

(** ** Address resolution *)

Lemma eth_arp_frame dst src msg : arp_frame dst src msg = eth_frame dst src ETH_PROTO_ARP (msg ++ replicate 18 0).
Proof. apply eth_frame_app. Qed.

Lemma arp_msg_bytes op sha spa tha tpa :
  is_u16 op → Forall is_u8 sha → Forall is_u8 tha → Forall is_u8 (arp_msg op sha spa tha tpa).
Proof.
  intros. unfold arp_msg. rewrite !Forall_app. split_and!; try done; try apply le_encode_bytes; [by_eval|].
  by apply be16_bytes.
Qed.

Lemma arp_frame_ok dst src op sha spa tha tpa :
  is_u16 op → length dst = 6%nat → Forall is_u8 dst → length src = 6%nat → Forall is_u8 src →
  length sha = 6%nat → Forall is_u8 sha → length tha = 6%nat → Forall is_u8 tha →
  let f := eth_frame dst src ETH_PROTO_ARP (arp_msg op sha spa tha tpa ++ replicate 18 0) in
  Forall is_u8 f ∧ zlen f <= 2044.
Proof.
  intros Ho Hd1 Hd2 Hs1 Hs2 Ha1 Ha2 Ht1 Ht2 f. split.
  - apply eth_frame_bytes; [done|done|done|]. apply Forall_app. split; [by apply arp_msg_bytes|by apply Forall_replicate].
  - unfold f. rewrite length_eth_frame by done. unfold arp_msg, be16.
    rewrite !length_app, !length_le_encode, Ha1, Ht1, length_replicate. cbn [length]. lia.
Qed.

(** What the state is like while a datagram waits. *)
Lemma asked_for_spec w n dst i it nh port dgram mac w' :
  unknown_hop w n dst i it nh port → asked_for w n nh i it port dgram w' → length mac = 6%nat →
  20 <= zlen dgram →
  let e := Pos.succ (w_next w) in
  w_intfs w' = w_intfs w ∧ w_links w' = w_links w ∧ w_fd_to_comm w' = w_fd_to_comm w ∧
  arp_find w' n nh = Some e ∧
  w_arps w' !! e = Some (mk_arp_entry nh [0; 0; 0; 0; 0; 0] i false [w_next w]) ∧
  pending_frame w' mac (w_next w) = Some (port, ip_frame mac (IF_MAC it) dgram) ∧
  sendtos (w_trace w') = sendtos (w_trace w) ++ [(port, hop_request it nh)].
Proof.
  intros [Hw Hrem (nd & entry & fd & Hn & Hrt & <- & Hit & Hwire & Hnh) Hnone] (m & s & Hp & Hm & Hs) Hmac Hlen e.
  pose proof (sends_sendtos _ _ _ Hs) as Htr. destruct Hs as [(t & k & -> & _) _].
  destruct (st_intf_mac _ _ _ _ (wf_static _ Hw) _ _ Hit) as [Hm6 _].
  split_and!; [done|done|done| | | |exact Htr].
  - unfold arp_find. cbn -[alter insert filter]. rewrite lookup_alter_eq, Hn. cbn -[alter insert filter].
    rewrite filter_cons, lookup_insert_eq. by rewrite decide_True.
  - apply lookup_insert_eq.
  - unfold pending_frame, wire. cbn -[alter insert]. rewrite lookup_insert_eq. cbn [mbind option_bind].
    assert (skb_intf s = Some (rt_intf entry)) as ->.
    { rewrite <- Hm, <- (pk_meta _ _ _ _ _ Hp). done. }
    cbn [mbind option_bind]. rewrite Hit. cbn [mbind option_bind].
    unfold wire in Hwire. rewrite Hit in Hwire. cbn [mbind option_bind] in Hwire. rewrite Hwire.
    cbn [mbind option_bind]. rewrite (packet_payload _ _ _ _ _ Hp).
    assert (skb_rest s = replicate 53 0) as ->.
    { destruct (packet_bounds _ _ _ _ _ Hp) as (_ & Ht & _). unfold skb_rest. rewrite Ht.
      replace (Z.to_nat (40 + zlen dgram)) with (Z.to_nat 40 + length dgram)%nat by lia.
      rewrite <- drop_drop, (pk_drop _ _ _ _ _ Hp). by rewrite drop_app_length. }
    rewrite eth_pad_zeros; [done|]. rewrite length_eth_frame by done. lia.
Qed.

(** The neighbour answers a request for its address. *)
Lemma hop_request_answered fd j jt it nh fdo port' w :
  listens w fd j jt → IF_IP jt = nh → length (IF_MAC it) = 6%nat → Forall is_u8 (IF_MAC it) → is_u32 (IF_IP it) →
  is_u32 nh → wire w j = Some (fdo, port') →
  ∃ w', recv_one fd (RecvFrame (hop_request it nh)) w = Ok (tt, w') ∧
    sends w [(port', arp_frame (IF_MAC it) (IF_MAC jt) (arp_msg ARP_OP_REPLY (IF_MAC jt) (IF_IP jt) (IF_MAC it) (IF_IP it)))] w'.
Proof.
  intros Hli Hnh Ha6 Ha8 Hu1 Hu2 Hwire. unfold hop_request. rewrite eth_arp_frame. apply wp_ok_tt.
  destruct (arp_frame_ok layer2_fill_with_broadcast_mac (IF_MAC it) ARP_OP_REQUEST (IF_MAC it) (IF_IP it)
    [0; 0; 0; 0; 0; 0] nh) as [Hfb Hfl]; [done|done|by_eval|done|done|done|done|done|by_eval|].
  by eapply (wp_recv_arp_request _ fd j jt); [done|right|..].
Qed.

Lemma arp_find_update w w' n ip e en en' :
  w_nodes w' = w_nodes w → w_arps w' = <[e := en']> (w_arps w) → w_arps w !! e = Some en → arp_ip en' = arp_ip en →
  arp_find w' n ip = arp_find w n ip.
Proof.
  intros En Ea He Hip. unfold arp_find. rewrite En, Ea. destruct (w_nodes w !! n) as [nd|]; [|done].
  cbn -[insert filter]. f_equal. apply list_filter_iff. intros x. rewrite lookup_insert. case_decide; [|done].
  subst. rewrite He. cbn. by rewrite Hip.
Qed.

(** C10. When the node has no ARP entry for the next hop of the route, which leads over a
    live UDP link, ping sends an ARP request and keeps the packet; the neighbour with this
    address, when it receives the request, answers over its end of a live UDP link; the
    reception of the answer resolves the entry and sends the packet that waited. *)
Theorem ping_resolves_next_hop n text i it nh port fd j jt fdo port' fd' w :
  let ip := convert_ip_from_str_to_int text in
  unknown_hop w n ip i it nh port → if_node it = n → is_u32 (IF_IP it) →
  listens w fd j jt → IF_IP jt = nh → is_u32 nh → wire w j = Some (fdo, port') → listens w fd' i it →
  ∃ w1 w2 w3 f1 f2,
    ping n text w = Ok (true, w1) ∧ sendtos (w_trace w1) = sendtos (w_trace w) ++ [(port, f1)] ∧
    recv_one fd (RecvFrame f1) w1 = Ok (tt, w2) ∧ sends w1 [(port', f2)] w2 ∧
    recv_one fd' (RecvFrame f2) w2 = Ok (tt, w3) ∧
    sendtos (w_trace w3) = sendtos (w_trace w2) ++
      [(port, ip_frame (IF_MAC jt) (IF_MAC it)
        (ip_datagram IP_PROTO_ICMP (IF_IP it) ip (icmp_msg ICMP_ECHO_REQUEST_TYPE 0 [])))] ∧
    ∃ e, arp_find w3 n nh = Some e ∧ w_arps w3 !! e = Some (mk_arp_entry nh (IF_MAC jt) i true []).
Proof.
  intros ip Hun Hnode Hu1 HliB Hnh Hu2 HwireB HliA. pose proof Hun as [Hw Hrem (nd & entry & fd0 & Hn & Hrt & Hi & Hit & Hwire & Hnhe) Hnone].
  pose proof HliB as [_ HfB HjtB Hl3B]. pose proof HliA as [_ HfA _ Hl3A].
  destruct (st_intf_mac _ _ _ _ (wf_static _ Hw) _ _ Hit) as [Ha6 Ha8].
  destruct (st_intf_mac _ _ _ _ (wf_static _ Hw) _ _ HjtB) as [Hb6 Hb8].
  set (dgram := ip_datagram IP_PROTO_ICMP (IF_IP it) ip (icmp_msg 8 0 [])).
  assert (∃ w1, ping n text w = Ok (true, w1) ∧ asked_for w n nh i it port dgram w1) as (w1 & Hping & Hask).
  { apply wp_ok_eq. eapply wp_icmp_out_waits; [exact Hun|done..|apply convert_ip_u32|by split]. }
  assert (wf w1) as Hw1.
  { assert (is_Some (topo w !! n)) as Ht by (rewrite (node_topo _ _ _ Hn); by eexists).
    pose proof (wp_ping (λ _, True) 1 n text w Hw Ht I I) as Hwp. unfold wp in Hwp.
    change (ping n text w = Ok (true, w1)) in Hping.
    replace (ping (H := {| ip_output := ip_output_with (ip_input_fuel 2) |}) n text w) with (Ok (true, w1)) in Hwp by (symmetry; exact Hping).
    by destruct Hwp. }
  destruct (asked_for_spec w n ip i it nh port dgram (IF_MAC jt) w1 Hun Hask Hb6) as (Ei & El & Ec & Hfind & Hent & Hpend & Htr1).
  { unfold dgram. rewrite length_ip_datagram. lia. }
  assert (∀ x, wire w1 x = wire w x) as Ewire by (intros x; unfold wire; by rewrite Ei, El).
  set (f1 := hop_request it nh) in *.
  destruct (hop_request_answered fd j jt it nh fdo port' w1) as (w2 & Hr1 & Hs2);
    [split; [done|by rewrite Ec|by rewrite Ei|done]|done|done|done|done|done|by rewrite Ewire|].
  fold f1 in Hr1.
  pose proof (wf_sends _ _ _ Hw1 Hs2) as Hw2. pose proof Hs2 as [(t2 & n2 & Ew2 & _) _].
  set (f2 := arp_frame _ _ _) in *.
  assert (∃ w3, recv_one fd' (RecvFrame f2) w2 = Ok (tt, w3) ∧
    sends (set_arps (<[Pos.succ (w_next w) := mk_arp_entry nh (IF_MAC jt) i true []]> (w_arps w2))
      (set_skbs (delete (w_next w) (w_skbs w2)) w2)) [(port, ip_frame (IF_MAC jt) (IF_MAC it) dgram)] w3) as (w3 & Hr2 & Hs3).
  { unfold f2. rewrite eth_arp_frame. apply wp_ok_tt.
    destruct (arp_frame_ok (IF_MAC it) (IF_MAC jt) ARP_OP_REPLY (IF_MAC jt) (IF_IP jt) (IF_MAC it) (IF_IP it))
      as [Hfb Hfl]; [done..|].
    eapply (wp_recv_arp_reply _ fd' i it _ _ _ _ _ _ _ (Pos.succ (w_next w)) (mk_arp_entry nh [0; 0; 0; 0; 0; 0] i false [w_next w]));
      [split; [done|by rewrite Ew2; cbn; rewrite Ec|by rewrite Ew2; cbn; rewrite Ei|done]|by left|done|done|done|done|done|done|by rewrite Hnh| | | |].
    - rewrite Hnode, Hnh, Ew2. exact Hfind.
    - rewrite Ew2. exact Hent.
    - cbn [arp_pending mapM]. replace (pending_frame w2 (IF_MAC jt) (w_next w)) with (pending_frame w1 (IF_MAC jt) (w_next w)) by by rewrite Ew2.
      rewrite Hpend. done.
    - done. }
  exists w1, w2, w3, f1, f2. split_and!; try done.
  - pose proof (sends_sendtos _ _ _ Hs3) as Htr3. exact Htr3.
  - exists (Pos.succ (w_next w)). destruct Hs3 as [(t3 & n3 & -> & _) _]. split; [|apply lookup_insert_eq].
    rewrite <- Hfind. eapply arp_find_update; [by rewrite Ew2|by rewrite Ew2|exact Hent|done].
Qed.
End EndToEnd.

(** ** Witnesses *)

Lemma linked_intro w n dst it port fd j jt :
  wf w → path_to w n dst = Some (it, IF_MAC jt, port) → w_fd_to_comm w !! fd = Some j →
  w_intfs w !! j = Some jt → IS_INTF_L3_MODE jt = true → is_local w (if_node jt) dst = true →
  bool_decide (is_u32 (IF_IP it)) = true → linked w n dst it port fd j jt.
Proof.
  intros Hw Hp Hfd Hj Hl3 Hloc Hip%bool_decide_eq_true. split; [by apply path_to_reaches|by split| |done].
  by apply is_local_spec.
Qed.

Lemma udp_end_to_end_witness :
  ∃ w1 w2 f, udp_sendto 0 [104; 105] ip_b 9 socks = Ok (2, w1) ∧ sends socks [(40001, f)] w1 ∧
    recv_one 4 (RecvFrame f) w1 = Ok (tt, w2) ∧
    rx w2 (QUdp 24) = rx socks (QUdp 24) ++ [[104; 105] ++ replicate 16 0] ∧
    ∀ q, q ≠ QUdp 24 → rx w2 q = rx socks q.
Proof.
  apply (udp_end_to_end 0 23 us_a 5 it_a [104; 105] ip_b 9 40001 4 6 it_b 24
    (default no_sock (w_udps socks !! 24%positive)) socks);
    [vm_compute; reflexivity|vm_compute; reflexivity|vm_compute; reflexivity|vm_compute; reflexivity| |by_eval| |
     vm_compute; reflexivity|vm_compute; reflexivity|by_eval|by_eval|by_eval].
  - apply routed_intro; vm_compute; reflexivity.
  - apply linked_intro; [exact wf_socks|vm_compute; reflexivity..].
Defined.

Definition nd_a : node := default (mk_node [] [] init_node_nw_prop) (w_nodes socks !! 2%positive).

Lemma ping_round_trip_witness :
  n_name nd_a = cstr "node0" ∧ ∃ w1 w2 w3 f1 f2,
    ping 2 (cstr "192.168.89.2") socks = Ok (true, w1) ∧ sends socks [(40001, f1)] w1 ∧
    recv_one 4 (RecvFrame f1) w1 = Ok (tt, w2) ∧ sends w1 [(40000, f2)] w2 ∧
    recv_one 3 (RecvFrame f2) w2 = Ok (tt, w3) ∧ printed w2 (ReceivedPong (n_name nd_a) (if_name it_a)) w3.
Proof.
  split; [vm_compute; reflexivity|].
  apply (ping_round_trip 2 (cstr "192.168.89.2") it_a 40001 4 6 it_b it_b 40000 3 5 it_a nd_a socks).
  - apply linked_intro; [exact wf_socks|vm_compute; reflexivity..].
  - apply linked_intro; [exact wf_socks|vm_compute; reflexivity..].
  - vm_compute. reflexivity.
Defined.

(** The next hop of a destination, computed. *)
Definition hop_of (w : world) (n : ptr) (dst : Z) : option (ptr * intf * Z * Z) :=
  nd ← w_nodes w !! n;
  match rt_lookup_lpm (n_rt_table (n_nw nd)) dst with
  | Ok (Some entry) =>
      it ← w_intfs w !! rt_intf entry;
      '(_, port) ← wire w (rt_intf entry);
      Some (rt_intf entry, it, next_hop entry dst, port)
  | _ => None
  end.

Lemma unknown_hop_intro w n dst i it nh port :
  wf w → hop_of w n dst = Some (i, it, nh, port) → is_local w n dst = false → arp_find w n nh = None →
  unknown_hop w n dst i it nh port.
Proof.
  intros Hw Hh Hl Hnone. unfold hop_of in Hh.
  destruct (w_nodes w !! n) as [nd|] eqn:Hn; cbn [mbind option_bind] in Hh; [|done].
  destruct (rt_lookup_lpm _ _) as [[entry|]|] eqn:Hr; [|done..].
  destruct (w_intfs w !! rt_intf entry) as [it0|] eqn:Hit; cbn [mbind option_bind] in Hh; [|done].
  destruct (wire w (rt_intf entry)) as [[fd p]|] eqn:Hwi; cbn [mbind option_bind] in Hh; [|done].
  injection Hh as <- <- <- <-. split; [done|by rewrite <- is_local_spec, Hl| |done].
  by exists nd, entry, fd.
Qed.

Lemma ping_resolves_next_hop_witness :
  ∃ w1 w2 w3 f1 f2,
    ping 3 (cstr "192.168.89.1") lab = Ok (true, w1) ∧
    sendtos (w_trace w1) = sendtos (w_trace lab) ++ [(40000, f1)] ∧
    recv_one 3 (RecvFrame f1) w1 = Ok (tt, w2) ∧ sends w1 [(40001, f2)] w2 ∧
    recv_one 4 (RecvFrame f2) w2 = Ok (tt, w3) ∧
    sendtos (w_trace w3) = sendtos (w_trace w2) ++
      [(40000, ip_frame mac_a mac_b (ip_datagram IP_PROTO_ICMP ip_b ip_a (icmp_msg 8 0 [])))] ∧
    ∃ e, arp_find w3 3 ip_a = Some e ∧ w_arps w3 !! e = Some (mk_arp_entry ip_a mac_a 6 true []).
Proof.
  apply (ping_resolves_next_hop 3 (cstr "192.168.89.1") 6 (intf_at lab 6) ip_a 40000 3 5 (intf_at lab 5) 3 40001 4 lab).
  - apply unknown_hop_intro; [exact wf_lab|vm_compute; reflexivity..].
  - vm_compute. reflexivity.
  - by_eval.
  - split; [exact wf_lab|vm_compute; reflexivity..].
  - vm_compute. reflexivity.
  - by_eval.
  - vm_compute. reflexivity.
  - split; [exact wf_lab|vm_compute; reflexivity..].
Defined.
