(* ===== verification/TcpSession.v ===== *)
(** * A passive TCP connection from its SYN to the data

    The three segments of a client and the calls of the server, one after the
    other, each in the state that the step before it has left. *)
From S2P Require Import Prelude Cmonad Utils Skbuff World Topology Comm Ethernet Arp Route Ip.
From S2P Require Import Icmp Udp Tcp Stack Net Graph Scenario Invariant SkbRules LinkSafe ArpSafe IpSafe.
From S2P Require Import StackSafe RecvSafe TcpApiSafe Reach.
From S2P Require Import Packet Wire ArpSpec IpSpec ProtoSpec RecvSpec SockSpec TcpSpec TcpInSpec.
From S2P Require Import InputSpec Demo SendThm RecvThm TcpThm SockThm EndToEnd.
From stdpp Require Import strings.
#[local] Open Scope Z_scope.

(** A segment that arrives still does in a state with the same topology, in
    which the sockets have the same ports. *)
Lemma segment_arrives_later w w' fd i it t ts ts' f data sip sport seq flags wnd :
  wf w' → w_intfs w' = w_intfs w → topo w' = topo w → w_fd_to_comm w' = w_fd_to_comm w →
  (∀ x, ts_local_port <$> w_tcps w' !! x = ts_local_port <$> w_tcps w !! x) → w_tcps w' !! t = Some ts' →
  segment_arrives w fd i it t ts f data sip sport seq flags wnd →
  segment_arrives w' fd i it t ts' f data sip sport seq flags wnd.
Proof.
  intros Hw Ei Et Ec Hp Hts [(thdr & dport & [[_ Hfd Hit Hl3] (dst & src & hdr & dip & Hf & Hme & Hd & Hs & Hip & Hloc) Hb Hz] & Hseg & Hfind) _].
  split; [|done]. exists thdr, dport. split_and!; [|done|].
  - split; [split; [done|by rewrite Ec|by rewrite Ei|done]| |done|done].
    exists dst, src, hdr, dip. split_and!; try done. unfold local_ip. by rewrite Et, Ei.
  - unfold tcp_find in *. rewrite Ei, Hit in *. cbn [mbind option_bind] in *. rewrite <- Hfind. f_equal.
    apply list_filter_iff. intros x. by rewrite Hp.
Qed.

(** Replacing a socket by one with the same port; a new connection is found. *)
Lemma same_port (m : gmap ptr tcp_sock) t ts ts' x :
  m !! t = Some ts → ts_local_port ts' = ts_local_port ts → ts_local_port <$> <[t := ts']> m !! x = ts_local_port <$> m !! x.
Proof. intros Ht Hp. rewrite lookup_insert. case_decide; [|done]. subst. rewrite Ht. cbn. by rewrite Hp. Qed.

Lemma conn_find_new w c l cn sip sport :
  w_conns w !! c = Some cn → peer cn = (sip, sport) → conn_find w (c :: l) sip sport = Some c.
Proof. intros Hc Hp. unfold conn_find. rewrite filter_cons, decide_True; [done|]. rewrite Hc. cbn. by rewrite Hp. Qed.

Section TcpSession.
Context `{Os}.

(** What the reception of a frame keeps. *)
Lemma recv_evolves fd f w w' :
  wf w → Forall is_u8 f → recv_one fd (RecvFrame f) w = Ok (tt, w') → wf w' ∧ evolves None w w'.
Proof.
  intros Hw Hf Hr. pose proof (wp_recv_one (λ _, True) fd (RecvFrame f) w Hw Hf (λ _, I) (λ _, conj I I)) as Hwp.
  unfold wp in Hwp. by rewrite Hr in Hwp.
Qed.

Lemma segment_wf w fd i it t ts f data sip sport seq flags wnd :
  segment_arrives w fd i it t ts f data sip sport seq flags wnd → wf w ∧ Forall is_u8 f.
Proof. by intros [(? & ? & [[] _ ? _] & _) _]. Qed.

(** The handshake: after the SYN and the ACK of a client there is an established
    connection, found at its address and port, with nothing to read. *)
Lemma handshake fd i it t ts mac port w f1 d1 fl1 wnd1 f2 d2 fl2 wnd2 sip sport seq :
  let seq' := wrap32 (seq + 1) in let c := Pos.succ (w_next w) in
  let ts' := ts_set_conns (c :: ts_conns ts) (ts_closed_conns ts) ts in
  segment_arrives w fd i it t ts f1 d1 sip sport seq fl1 wnd1 →
  segment_arrives w fd i it t ts f2 d2 sip sport seq' fl2 wnd2 →
  has_flag fl1 FLAG_SYN = true → has_flag fl1 FLAG_ACK = false →
  has_flag fl2 FLAG_SYN = false → has_flag fl2 FLAG_ACK = true →
  ts_listening ts = true → is_u16 (ts_local_port ts) → conn_find w (ts_conns ts) sip sport = None →
  routed w i it sip → reaches w (if_node it) sip it mac port →
  ∃ w1 w2 cn, recv_one fd (RecvFrame f1) w = Ok (tt, w1) ∧
    sendtos (w_trace w1) = sendtos (w_trace w) ++
      [(port, ip_frame mac (IF_MAC it) (ip_datagram IP_PROTO_TCP (IF_IP it) sip
        (tcp_msg (ts_local_ip ts) sip (ts_local_port ts) sport 0 seq' 0x12 TCP_WINDOW_SIZE [])))] ∧
    recv_one fd (RecvFrame f2) w1 = Ok (tt, w2) ∧ wf w2 ∧
    w_conns w2 !! c = Some cn ∧ tc_state cn = handle_estab_state ∧ peer cn = (sip, sport) ∧
    tc_rcv_nxt cn = seq' ∧ tc_rx_skb cn = [] ∧
    w_tcps w2 = <[t := ts']> (w_tcps w) ∧ w_tcp_fds w2 = w_tcp_fds w ∧ w_conn_fds w2 = w_conn_fds w ∧
    w_intfs w2 = w_intfs w ∧ topo w2 = topo w ∧ w_fd_to_comm w2 = w_fd_to_comm w.
Proof.
  intros seq' c ts' S1 S2 Hs1 Ha1 Hs2 Ha2 Hli Hlp Hnone Hroute Hreach.
  destruct (segment_wf _ _ _ _ _ _ _ _ _ _ _ _ _ S1) as [Hw Hb1].
  destruct (segment_wf _ _ _ _ _ _ _ _ _ _ _ _ _ S2) as [_ Hb2].
  pose proof (se_sock _ _ _ _ _ _ _ _ _ _ _ _ _ S1) as Hts.
  (* the SYN *)
  destruct (recv_syn fd i it t ts f1 d1 sip sport seq fl1 wnd1 mac port w S1 Hnone Hli Hs1 Ha1 Hlp Hroute Hreach)
    as (w1 & R1 & Hfresh & (irs & Ec1) & Et1 & _ & Hsend & Ef1 & Eg1).
  fold c in Ec1. set (cn1 := syn_conn sip sport seq wnd1 t irs) in *. fold ts' in Et1.
  destruct (recv_evolves _ _ _ _ Hw Hb1 R1) as [Hw1 V1].
  assert (w_conns w1 !! c = Some cn1) as Hc1 by (rewrite Ec1; apply lookup_insert_eq).
  (* the ACK *)
  assert (segment_arrives w1 fd i it t ts' f2 d2 sip sport seq' fl2 wnd2) as S2'.
  { eapply segment_arrives_later; [done|apply V1..| |rewrite Et1; apply lookup_insert_eq|exact S2].
    intros x. rewrite Et1. by apply (same_port _ t ts). }
  destruct (recv_third_segment fd i it t ts' f2 d2 sip sport seq' fl2 wnd2 c cn1 w1 S2'
    (conn_find_new w1 c (ts_conns ts) cn1 sip sport Hc1 eq_refl) Hc1 eq_refl) as (w2 & R2 & Hk2).
  destruct (recv_evolves _ _ _ _ Hw1 Hb2 R2) as [Hw2 V2].
  rewrite Ha2, Hs2 in Hk2. replace (seq' =? tc_rcv_nxt cn1) with true in Hk2 by (symmetry; apply Z.eqb_refl).
  cbn [andb negb] in Hk2. destruct (sends_same _ _ Hk2) as (tr2 & n2 & Ew2).
  exists w1, w2, (tc_set_state handle_estab_state cn1).
  split_and!; try done; try (rewrite Ew2; done); try (etrans; [apply V2|apply V1]).
  rewrite Ew2. apply lookup_insert_eq.
Qed.

(** C8. A whole passive connection, for a client that has no connection with the socket yet,
    to which the route leads over the receiving interface, an end of a live UDP link, with
    the MAC address of the next hop resolved, while a connection descriptor is free: the
    client's SYN (without ACK) for a listening socket is answered with a SYN+ACK that
    acknowledges it, the client's ACK (no SYN, with the sequence number after the SYN's)
    establishes the connection, tcp_accept gives it with the client's address and port under
    a new descriptor, and after the client's next segment with this sequence number and
    neither RST nor FIN, tcp_recv on this descriptor returns the first bytes of its data. *)
Theorem passive_session sfd fd i it t ts mac port w
    f1 d1 fl1 wnd1 f2 d2 fl2 wnd2 f3 data fl3 wnd3 sip sport seq size :
  let seq' := wrap32 (seq + 1) in
  segment_arrives w fd i it t ts f1 d1 sip sport seq fl1 wnd1 →
  segment_arrives w fd i it t ts f2 d2 sip sport seq' fl2 wnd2 →
  segment_arrives w fd i it t ts f3 data sip sport seq' fl3 wnd3 →
  has_flag fl1 FLAG_SYN = true → has_flag fl1 FLAG_ACK = false →
  has_flag fl2 FLAG_SYN = false → has_flag fl2 FLAG_ACK = true →
  has_flag fl3 FLAG_RST = false → has_flag fl3 FLAG_FIN = false →
  good_fd MAX_TCP_SOCKS (w_tcp_fds w) sfd = Some t → ts_listening ts = true →
  is_u16 (ts_local_port ts) → conn_find w (ts_conns ts) sip sport = None →
  available_slot_from 0 (w_conn_fds w) <? 0 = false →
  routed w i it sip → reaches w (if_node it) sip it mac port → 0 <= size →
  ∃ w1 w2 w3 w4 w5 cfd,
    recv_one fd (RecvFrame f1) w = Ok (tt, w1) ∧
    sendtos (w_trace w1) = sendtos (w_trace w) ++
      [(port, ip_frame mac (IF_MAC it) (ip_datagram IP_PROTO_TCP (IF_IP it) sip
        (tcp_msg (ts_local_ip ts) sip (ts_local_port ts) sport 0 seq' 0x12 TCP_WINDOW_SIZE [])))] ∧
    recv_one fd (RecvFrame f2) w1 = Ok (tt, w2) ∧
    tcp_accept sfd w2 = Ok ((cfd, Some (sip, sport)), w3) ∧ conn_fd w cfd = None ∧
    recv_one fd (RecvFrame f3) w3 = Ok (tt, w4) ∧
    tcp_recv cfd size w4 = Ok ((zlen (take (Z.to_nat size) data), take (Z.to_nat size) data), w5).
Proof.
  intros seq' S1 S2 S3 Hs1 Ha1 Hs2 Ha2 Hr3 Hf3 Hfd Hli Hlp Hnone Hslot Hroute Hreach Hsize.
  pose proof (se_sock _ _ _ _ _ _ _ _ _ _ _ _ _ S1) as Hts.
  destruct (handshake fd i it t ts mac port w f1 d1 fl1 wnd1 f2 d2 fl2 wnd2 sip sport seq S1 S2 Hs1 Ha1 Hs2 Ha2 Hli Hlp
    Hnone Hroute Hreach) as (w1 & w2 & cn & R1 & Hsend & R2 & Hw2 & Hc2 & Hst & Hpeer & Hnxt & Hrx2 & Et2 & Ef2 & Eg2 & Ei2 & Eo2 & Em2).
  fold seq' in Hsend, Hnxt. set (c := Pos.succ (w_next w)) in *. set (ts' := ts_set_conns _ _ ts) in *.
  assert (w_tcps w2 !! t = Some ts') as Hts2 by (rewrite Et2; apply lookup_insert_eq).
  (* tcp_accept *)
  destruct (available_slot_ok _ Hslot) as (j & Ej & Hj). set (w3 := set_conn_fds (<[j := Some c]> (w_conn_fds w2)) w2).
  assert (tcp_accept sfd w2 = Ok ((Z.of_nat j, Some (sip, sport)), w3)) as R3.
  { rewrite (tcp_accept_eq sfd t ts'); [|done|by rewrite Ef2|done].
    change (ts_listening ts') with (ts_listening ts). rewrite Hli.
    assert (estab_find w2 (ts_conns ts') = Some c) as ->.
    { unfold estab_find. cbn [ts_conns ts' ts_set_conns]. rewrite filter_cons, decide_True; [done|]. rewrite Hc2. cbn. by rewrite Hst. }
    unfold accept_outcome. rewrite Eg2, Hslot, Ej, Nat2Z.id, Hc2. unfold w3. rewrite Eg2. cbn [fmap option_fmap option_map]. by rewrite Hpeer. }
  assert (wf w3) as Hw3.
  { pose proof (wp_tcp_accept (λ _, True) sfd w2 Hw2) as Hwp. unfold wp in Hwp. by rewrite R3 in Hwp. }
  (* the data *)
  assert (segment_arrives w3 fd i it t ts' f3 data sip sport seq' fl3 wnd3) as S3'.
  { eapply segment_arrives_later; [done|exact Ei2|exact Eo2|exact Em2| |exact Hts2|exact S3].
    intros x. cbn. rewrite Et2. by apply (same_port _ t ts). }
  destruct (recv_data_segment fd i it t ts' f3 data sip sport seq' fl3 wnd3 c cn w3 S3'
    (conn_find_new w3 c (ts_conns ts) cn sip sport Hc2 Hpeer) Hc2 Hst (eq_sym Hnxt) Hr3 Hf3)
    as (w4 & R4 & (l & Ec4 & _) & Hrx & _ & Eg4 & _).
  destruct (recv_evolves _ _ _ _ Hw3 (proj2 (segment_wf _ _ _ _ _ _ _ _ _ _ _ _ _ S3)) R4) as [Hw4 _].
  assert (rx w3 (QConn c) = []) as Hrx3.
  { unfold rx, queue_of. rewrite (queue_conn_Some _ _ _ _ cn) by exact Hc2. by rewrite Hrx2. }
  rewrite Hrx3 in Hrx. cbn [app] in Hrx.
  (* tcp_recv *)
  set (cn4 := tc_set_rx l (tc_set_rcv_nxt (wrap32 (seq' + zlen data)) cn)) in *.
  assert (w_conns w4 !! c = Some cn4) as Hc4 by (rewrite Ec4; apply lookup_insert_eq).
  assert (good_fd MAX_TCP_CONN_SOCKS (w_conn_fds w4) (Z.of_nat j) = Some c) as Hg4.
  { rewrite Eg4. apply conn_fd_insert; [done|]. rewrite Eg2. by eapply lookup_lt_Some. }
  pose proof (wp_tcp_recv_fifo (λ _, False) (Z.of_nat j) c cn4 size w4 Hw4 Hg4 Hc4 Hst Hsize) as Hwp.
  rewrite Hrx in Hwp. apply wp_ok in Hwp as (r & w5 & R5 & -> & _).
  exists w1, w2, w3, w4, w5, (Z.of_nat j). split_and!; [exact R1|exact Hsend|exact R2|exact R3| |exact R4|exact R5].
  unfold conn_fd, good_fd. rewrite Nat2Z.id, Hj. by destruct (_ || _).
Qed.
End TcpSession.

(** ** Example: a client at port 1000 of the neighbour sends two characters. *)
Lemma passive_session_witness :
  ∃ w1 w2 w3 w4 w5 cfd,
    recv_one 3 (RecvFrame (from_b 99 0 2 5000 [])) socks = Ok (tt, w1) ∧
    sendtos (w_trace w1) = sendtos (w_trace socks) ++
      [(40001, ip_frame mac_b mac_a (ip_datagram IP_PROTO_TCP ip_a ip_b (tcp_msg ip_a ip_b 80 1000 0 100 0x12 1500 [])))] ∧
    recv_one 3 (RecvFrame (from_b 100 1 16 5000 [])) w1 = Ok (tt, w2) ∧
    tcp_accept 0 w2 = Ok ((cfd, Some (ip_b, 1000)), w3) ∧ conn_fd socks cfd = None ∧
    recv_one 3 (RecvFrame (from_b 100 1 16 5000 [104; 105])) w3 = Ok (tt, w4) ∧
    tcp_recv cfd 2 w4 = Ok ((2, [104; 105]), w5).
Proof.
  assert (∀ seq ack flags wnd data, tcp_fields_ok 1000 80 seq ack flags wnd → Forall is_u8 data → zlen data <= 1900 →
    segment_arrives socks 3 5 (intf_at socks 5) 25 (ts_of socks) (from_b seq ack flags wnd data)
      (data ++ replicate (6 - length data) 0) ip_b 1000 seq flags wnd) as Hseg.
  { intros. apply segment_for_a; [exact wf_socks|vm_compute; reflexivity..|done|done|done]. }
  assert (intf_at socks 5 = it_a) as Eit by (vm_compute; reflexivity). rewrite Eit in Hseg.
  apply (passive_session 0 3 5 it_a 25 (ts_of socks) mac_b 40001 socks
    (from_b 99 0 2 5000 []) (replicate 6 0) 2 5000 (from_b 100 1 16 5000 []) (replicate 6 0) 16 5000
    (from_b 100 1 16 5000 [104; 105]) [104; 105; 0; 0; 0; 0] 16 5000 ip_b 1000 99 2).
  - apply (Hseg 99 0 2 5000 []); [split; by_eval|by_eval|by_eval].
  - apply (Hseg 100 1 16 5000 []); [split; by_eval|by_eval|by_eval].
  - apply (Hseg 100 1 16 5000 [104; 105]); [split; by_eval|by_eval|by_eval].
  - reflexivity.
  - reflexivity.
  - reflexivity.
  - reflexivity.
  - reflexivity.
  - reflexivity.
  - vm_compute. reflexivity.
  - vm_compute. reflexivity.
  - by_eval.
  - vm_compute. reflexivity.
  - vm_compute. reflexivity.
  - apply routed_intro; vm_compute; reflexivity.
  - apply path_to_reaches; [exact wf_socks|vm_compute; reflexivity].
  - by_eval.
Defined.
