(* ===== verification/TcpStream.v ===== *)
(** * The byte stream of a TCP connection

    The segments of a peer's stream arrive lost, repeated and in any order,
    and the application reads in between.  The receiver of tcp.c keeps only the
    segment it expects, so what the application reads is a prefix of the
    stream; how long it is, is computed by [progress].  A segment counts with all
    that follows its header: the padding of a frame with less than six bytes of
    data is data for the receiver, and such a frame is no piece of the stream. *)
From S2P Require Import Prelude Cmonad Utils Skbuff World Topology Comm Ethernet Arp Route Ip.
From S2P Require Import Icmp Udp Tcp Stack Net Graph Scenario Invariant Frame SkbRules LinkSafe ArpSafe IpSafe.
From S2P Require Import StackSafe TcpApiSafe Reach.
From S2P Require Import Packet Wire ArpSpec IpSpec ProtoSpec RecvSpec SockSpec TcpSpec TcpInSpec.
From S2P Require Import InputSpec Demo SendThm RecvThm TcpThm SockThm EndToEnd TcpSession.
From stdpp Require Import strings.
#[local] Open Scope Z_scope.

(** ** Segments and reads *)

(** A segment: the frame that carries it, and its place in the stream. *)
Record piece := mk_piece { pc_frame : list Z; pc_offset : Z; pc_data : list Z; pc_flags : Z; pc_wnd : Z }.
Inductive op := Arrives (p : piece) | Reads (size : Z).

Definition advance (n : Z) (p : piece) : Z := if pc_offset p =? n then n + zlen (pc_data p) else n.

(** How much of the stream has been accepted, when [n] bytes were before. *)
Fixpoint progress (n : Z) (ops : list op) : Z :=
  match ops with
  | [] => n
  | Arrives p :: ops => progress (advance n p) ops
  | Reads _ :: ops => progress n ops
  end.

Definition piece_of (stream : list Z) (p : piece) : Prop :=
  0 <= pc_offset p ∧ pc_offset p + zlen (pc_data p) <= zlen stream ∧
  pc_data p = slice (pc_offset p) (zlen (pc_data p)) stream.

Lemma advance_bounds stream n p :
  piece_of stream p → n <= zlen stream → n <= advance n p <= zlen stream.
Proof. intros (? & ? & _) ?. unfold advance. zbool; lia. Qed.

(** A division of the stream from [n] to [e] into segments that are not empty. *)
Fixpoint division (n : Z) (ps : list piece) (e : Z) : Prop :=
  match ps with
  | [] => n = e
  | p :: ps => pc_offset p = n ∧ 0 < zlen (pc_data p) ∧ division (n + zlen (pc_data p)) ps e
  end.

Lemma division_app n ps qs e :
  division n (ps ++ qs) e → ∃ m, division n ps m ∧ division m qs e.
Proof.
  revert n. induction ps as [|p ps IH]; intros n; cbn; [by exists n|].
  intros (Ho & Hl & (m & H1 & H2)%IH). by exists m.
Qed.

Lemma division_offsets n ps e :
  division n ps e → n <= e ∧ ∀ p, p ∈ ps → n <= pc_offset p < e.
Proof.
  revert n. induction ps as [|q ps IH]; intros n; cbn; [intros ->; split; [done|set_solver]|].
  intros (Ho & Hl & [Hle Hps]%IH). split; [lia|]. intros p [->|Hp]%elem_of_cons; [lia|].
  apply Hps in Hp. lia.
Qed.

(** When the segments of a division arrive in their order, however many others
    of them come in between, all of the stream is accepted. *)
Lemma progress_division ops before ps n m e :
  division n before m → division m ps e →
  (∀ p, Arrives p ∈ ops → p ∈ before ++ ps) → Arrives <$> ps `sublist_of` ops → progress m ops = e.
Proof.
  revert before ps m. induction ops as [|[p|size] ops IH]; intros before ps m Hb Hd Hin Hsub; cbn [progress].
  - apply sublist_nil_r, fmap_nil_inv in Hsub as ->. exact Hd.
  - assert (pc_offset p = m → ∃ ps', ps = p :: ps') as Hhead.
    { intros Ho. destruct (division_offsets _ _ _ Hb) as [_ Hob].
      destruct (division_offsets _ _ _ Hd) as [_ Hod].
      assert (p ∈ ps) as Hp by (destruct (proj1 (elem_of_app _ _ _) (Hin p ltac:(left))) as [Hp%Hob|]; [lia|done]).
      destruct ps as [|q ps']; [by apply not_elem_of_nil in Hp|]. destruct Hd as (Hq & Hl & Hd).
      apply elem_of_cons in Hp as [->|Hp]; [by exists ps'|]. apply division_offsets in Hd as [_ Hd].
      apply Hd in Hp. lia. }
    unfold advance. destruct (Z.eqb_spec (pc_offset p) m) as [Ho|Ho].
    + destruct (Hhead Ho) as [ps' ->]. destruct Hd as (_ & Hl & Hd).
      apply (IH (before ++ [p]) ps'); [|done| |].
      * clear -Hb Hl Ho. revert n Hb. induction before as [|q before IHb]; intros n; cbn; [intros ->; lia|].
        intros (? & ? & ?). split_and!; [done..|]. by apply IHb.
      * intros q Hq. rewrite <- app_assoc. apply Hin. by right.
      * cbn in Hsub. apply sublist_cons_r in Hsub as [Hsub|(l & [= <-] & Hsub)]; [|done].
        etrans; [|exact Hsub]. by apply sublist_cons.
    + apply (IH before ps); [done..|set_solver|].
      apply sublist_cons_r in Hsub as [Hsub|(l & El & Hsub)]; [done|].
      destruct ps as [|q ps]; [done|]. injection El as -> <-. by destruct Hd as [].
  - apply (IH before ps); [done..|set_solver|].
    apply sublist_cons_r in Hsub as [Hsub|(l & El & Hsub)]; [done|]. by destruct ps.
Qed.

(** The data read by the calls of tcp_recv among the operations. *)
Fixpoint run `{Os} (fd cfd : Z) (ops : list op) : W (list Z) :=
  match ops with
  | [] => ret []
  | Arrives p :: ops => recv_one fd (RecvFrame (pc_frame p)) ;;; run fd cfd ops
  | Reads size :: ops =>
      let* r := tcp_recv cfd size in
      let* out := run fd cfd ops in
      ret (snd r ++ out)
  end.

(** ** What reading leaves alone *)

Definition unread (cn : tcp_connection_sock) : tcp_connection_sock := tc_set_rx [] cn.

Definition reading (w w' : world) : Prop :=
  (w_intfs w' = w_intfs w ∧ topo w' = topo w ∧ w_fd_to_comm w' = w_fd_to_comm w) ∧
  w_tcps w' = w_tcps w ∧ w_conn_fds w' = w_conn_fds w ∧
  ∀ c, unread <$> w_conns w' !! c = unread <$> w_conns w !! c.

#[export] Instance reading_preorder : PreOrder reading.
Proof.
  split; [done|]. intros w1 w2 w3 ((A1 & A2 & A3) & A4 & A5 & A6) ((B1 & B2 & B3) & B4 & B5 & B6).
  split_and!; congruence.
Qed.

Lemma reading_skb {A} k (m : M sk_buff A) : keeps reading (on_skb k m).
Proof. apply keeps_on_skb; [exact _|done]. Qed.
Lemma reading_free k : keeps reading (dealloc (A := sk_buff) k).
Proof. apply (keeps_dealloc reading). done. Qed.
Lemma reading_queue c f : keeps reading (update (A := tcp_connection_sock) c (λ cn, tc_set_rx (f cn) cn)).
Proof.
  apply (keeps_update reading). intros w cn Hc. cbn in *. split_and!; try done. intros c'. cbn.
  rewrite lookup_insert. case_decide; [|done]. subst. by rewrite Hc.
Qed.
#[local] Hint Resolve reading_skb reading_free reading_queue : keeps.

Lemma reading_tcp_recv fd size : keeps reading (tcp_recv fd size).
Proof. unfold tcp_recv, estab_connection, is_good_tcp_connection_sock, free_skb. frame. Qed.

(** Segments that arrive still do, and connections are found as before. *)
Definition same_sockets (w w' : world) : Prop :=
  w_intfs w' = w_intfs w ∧ topo w' = topo w ∧ w_fd_to_comm w' = w_fd_to_comm w ∧
  w_tcps w' = w_tcps w ∧ w_conn_fds w' = w_conn_fds w ∧ ∀ c, peer <$> w_conns w' !! c = peer <$> w_conns w !! c.

Lemma conn_find_peers w w' l ip port :
  (∀ c, peer <$> w_conns w' !! c = peer <$> w_conns w !! c) → conn_find w' l ip port = conn_find w l ip port.
Proof. intros Hp. unfold conn_find. f_equal. apply list_filter_iff. intros c. by rewrite Hp. Qed.

Lemma reading_same w w' : reading w w' → same_sockets w w'.
Proof.
  intros ((? & ? & ?) & ? & ? & Hc). split_and!; try done. intros c. specialize (Hc c).
  destruct (w_conns w' !! c), (w_conns w !! c); try done. cbn in *. f_equal. injection Hc. unfold peer. congruence.
Qed.

Section TcpStream.
Context `{Os}.
Context (fd cfd : Z) (i : ptr) (it : intf) (t : ptr) (ts : tcp_sock) (c : ptr) (sip sport nxt : Z) (stream : list Z).

(** The connection is established and [n] bytes of the stream have been accepted. *)
Record streaming (n : Z) (w : world) : Prop := {
  sm_wf : wf w;
  sm_sock : w_tcps w !! t = Some ts;
  sm_fd : good_fd MAX_TCP_CONN_SOCKS (w_conn_fds w) cfd = Some c;
  sm_find : conn_find w (ts_conns ts) sip sport = Some c;
  sm_conn : ∃ cn, w_conns w !! c = Some cn ∧ tc_state cn = handle_estab_state ∧ tc_rcv_nxt cn = wrap32 (nxt + n);
}.

(** The segment [p] of the peer's stream, which ends neither the connection nor the stream. *)
Definition piece_arrives (w : world) (p : piece) : Prop :=
  segment_arrives w fd i it t ts (pc_frame p) (pc_data p) sip sport (wrap32 (nxt + pc_offset p)) (pc_flags p) (pc_wnd p) ∧
  has_flag (pc_flags p) FLAG_RST = false ∧ has_flag (pc_flags p) FLAG_FIN = false ∧ piece_of stream p.

Definition op_ok (w : world) (o : op) : Prop :=
  match o with Arrives p => piece_arrives w p | Reads size => 0 <= size end.

Lemma op_ok_later w w' o : same_sockets w w' → wf w' → w_tcps w !! t = Some ts → op_ok w o → op_ok w' o.
Proof.
  intros (Ei & Et & Ec & Ep & _) Hw Hts. destruct o as [p|]; [|done]. intros [Hs Hp]. split; [|done].
  eapply segment_arrives_later; [done..| |by rewrite Ep|exact Hs]. intros x. by rewrite Ep.
Qed.

Lemma streaming_step n n' w w' cn' :
  streaming n w → same_sockets w w' → wf w' → w_conns w' !! c = Some cn' →
  tc_state cn' = handle_estab_state → tc_rcv_nxt cn' = wrap32 (nxt + n') → streaming n' w'.
Proof.
  intros [_ Hs Hf Hcf _] (_ & _ & _ & Et & Ef & Hp) Hw Hc Hst Hn. split; [done|by rewrite Et|by rewrite Ef| |by exists cn'].
  by rewrite (conn_find_peers w w').
Qed.

(** Within a stream of less than [2^32] bytes, sequence numbers tell offsets apart. *)
Lemma offset_expected n o :
  0 <= n <= zlen stream → 0 <= o <= zlen stream → zlen stream < 2 ^ 32 →
  wrap32 (nxt + o) = wrap32 (nxt + n) → o = n.
Proof. intros. zdiv. Qed.

Lemma step_arrives n w p :
  streaming n w → piece_arrives w p → 0 <= n <= zlen stream → zlen stream < 2 ^ 32 →
  ∃ w', recv_one fd (RecvFrame (pc_frame p)) w = Ok (tt, w') ∧ streaming (advance n p) w' ∧ same_sockets w w' ∧
    concat (rx w' (QConn c)) = concat (rx w (QConn c)) ++ slice n (advance n p - n) stream.
Proof.
  intros Hsm (Hseg & Hrst & Hfin & (Ho & Hl & Hdata)) Hn Hlen.
  pose proof Hsm as [Hw Hts Hfd Hfind (cn & Hc & Hst & Hnxt)].
  pose proof (segment_wf _ _ _ _ _ _ _ _ _ _ _ _ _ Hseg) as [_ Hb].
  unfold advance. destruct (Z.eqb_spec (pc_offset p) n) as [En|En].
  - destruct (recv_data_segment fd i it t ts _ _ _ _ _ _ _ c cn w Hseg Hfind Hc Hst) as
      (w' & Hr & (l & Ec & _) & Hrx & _ & Ef & Et); [by rewrite En|done..|].
    destruct (recv_evolves _ _ _ _ Hw Hb Hr) as [Hw' V].
    assert (same_sockets w w') as Hss.
    { split_and!; [apply V..|done|done|]. intros x. rewrite Ec, lookup_insert. case_decide; [|done]. subst. by rewrite Hc. }
    exists w'. split_and!; [done| |done|].
    + eapply streaming_step; [done..|rewrite Ec; apply lookup_insert_eq|done|]. cbn. rewrite En.
      unfold wrap32. rewrite Zplus_mod_idemp_l. f_equal. lia.
    + rewrite Hrx, concat_app. cbn. rewrite app_nil_r. f_equal. rewrite Hdata at 1. rewrite En. f_equal. lia.
  - destruct (segment_out_of_order_dropped fd i it t ts _ _ _ _ _ _ _ c cn w Hseg Hfind Hc Hst) as (w' & Hr & Hs).
    { rewrite Hnxt. intros E. apply En. by apply (offset_expected n (pc_offset p)); [|lia|..]. }
    destruct (recv_evolves _ _ _ _ Hw Hb Hr) as [Hw' V]. destruct (sends_same _ _ Hs) as (tr & m & Ew).
    exists w'. split_and!; [done| | |].
    + eapply streaming_step; [done| |done|by rewrite Ew|done|done]. by rewrite Ew.
    + by rewrite Ew.
    + rewrite (rx_sends _ _ _ _ Hs), Z.sub_diag. unfold slice. cbn. by rewrite app_nil_r.
Qed.

Lemma step_reads n w size :
  streaming n w → 0 <= size →
  ∃ r w', tcp_recv cfd size w = Ok (r, w') ∧ streaming n w' ∧ same_sockets w w' ∧
    snd r ++ concat (rx w' (QConn c)) = concat (rx w (QConn c)).
Proof.
  intros Hsm Hsize. pose proof Hsm as [Hw _ Hfd _ (cn & Hc & Hst & Hnxt)].
  pose proof (wp_tcp_recv_fifo (λ _, False) cfd c cn size w Hw Hfd Hc Hst Hsize) as Hread.
  apply wp_ok in Hread as (r & w' & Hr & Hq).
  pose proof (keeps_ok _ _ _ _ _ (reading_tcp_recv cfd size) Hr) as Hrd.
  assert (wf w') as Hw'.
  { pose proof (wp_tcp_recv (λ _, True) cfd size w Hw Hsize) as Hwp. unfold wp in Hwp. by rewrite Hr in Hwp. }
  exists r, w'. split_and!; [done| |by apply reading_same|].
  - pose proof Hrd as (_ & _ & _ & Hcs). specialize (Hcs c). rewrite Hc in Hcs.
    destruct (w_conns w' !! c) as [cn'|] eqn:Hc'; [|done]. injection Hcs as Hu.
    eapply streaming_step; [done|by apply reading_same|done|done|congruence|congruence].
  - destruct (fifo_read size (rx w (QConn c))) as [[bytes rest]|] eqn:Hf.
    + destruct Hq as (-> & -> & _). by eapply fifo_read_concat.
    + by destruct Hq as (-> & ->).
Qed.

Lemma run_stream ops n w :
  streaming n w → Forall (op_ok w) ops → 0 <= n <= zlen stream → zlen stream < 2 ^ 32 →
  n <= progress n ops <= zlen stream ∧
  ∃ out w', run fd cfd ops w = Ok (out, w') ∧ streaming (progress n ops) w' ∧
    out ++ concat (rx w' (QConn c)) = concat (rx w (QConn c)) ++ slice n (progress n ops - n) stream.
Proof.
  revert n w. induction ops as [|o ops IH]; intros n w Hsm Hops Hn Hlen.
  { cbn. split; [lia|]. exists [], w. split_and!; [done|done|]. rewrite Z.sub_diag. unfold slice. cbn. by rewrite app_nil_r. }
  apply Forall_cons in Hops as [Ho Hops].
  assert (∀ w', same_sockets w w' → wf w' → Forall (op_ok w') ops) as Hlater.
  { intros w' Hss Hw'. eapply Forall_impl; [exact Hops|]. intros o'. apply op_ok_later; [done..|apply Hsm]. }
  destruct o as [p|size]; cbn [run progress].
  - destruct (step_arrives n w p Hsm Ho Hn Hlen) as (w1 & R1 & S1 & Hss & Hrx1).
    pose proof (advance_bounds stream n p (proj2 (proj2 (proj2 Ho))) (proj2 Hn)) as Hadv.
    destruct (IH (advance n p) w1 S1 (Hlater _ Hss (sm_wf _ _ S1))) as (Hp & out & w' & R & S & Hout); [lia|done|].
    split; [lia|]. exists out, w'. split_and!; [by unfold bind at 1; rewrite R1|done|].
    rewrite Hout, Hrx1, <- app_assoc. f_equal.
    replace (progress (advance n p) ops - n) with ((advance n p - n) + (progress (advance n p) ops - advance n p)) by lia.
    rewrite slice_app_split by lia. f_equal. f_equal. lia.
  - destruct (step_reads n w size Hsm Ho) as (r & w1 & R1 & S1 & Hss & Hrx1).
    destruct (IH n w1 S1 (Hlater _ Hss (sm_wf _ _ S1)) Hn Hlen) as (Hp & out & w' & R & S & Hout).
    split; [done|]. exists (snd r ++ out), w'. split_and!; [|done|by rewrite <- app_assoc, Hout, app_assoc, Hrx1].
    unfold bind at 1. rewrite R1. unfold bind at 1. by rewrite R.
Qed.

(** C6. The receiver of a connection refines a stream: however the segments of a peer's
    stream of less than 2^32 bytes are lost, repeated and reordered, and whenever the
    application reads in between, the bytes that tcp_recv has returned and those that wait
    are, one after the other, the prefix of the stream whose length an abstract receiver
    computes from the offsets of the segments; rcv.nxt is the number of the byte after it.
    *)
Theorem tcp_delivers_prefix ops w :
  streaming 0 w → Forall (op_ok w) ops → zlen stream < 2 ^ 32 →
  ∃ out w', run fd cfd ops w = Ok (out, w') ∧ streaming (progress 0 ops) w' ∧
    out ++ concat (rx w' (QConn c)) = concat (rx w (QConn c)) ++ take (Z.to_nat (progress 0 ops)) stream.
Proof.
  intros Hsm Hops Hlen.
  destruct (run_stream ops 0 w Hsm Hops) as (_ & out & w' & R & S & Hout); [lia|done|].
  exists out, w'. split_and!; [done..|]. by rewrite Hout, Z.sub_0_r.
Qed.

(** C7. When a peer divides its stream into segments and repeats them until each has arrived
    after the one before it, with any other repetitions and reads in between, the whole
    stream is delivered. *)
Theorem tcp_delivers_stream ops ps w :
  streaming 0 w → Forall (op_ok w) ops → zlen stream < 2 ^ 32 →
  division 0 ps (zlen stream) → (∀ p, Arrives p ∈ ops → p ∈ ps) → Arrives <$> ps `sublist_of` ops →
  ∃ out w', run fd cfd ops w = Ok (out, w') ∧
    out ++ concat (rx w' (QConn c)) = concat (rx w (QConn c)) ++ stream.
Proof.
  intros Hsm Hops Hlen Hdiv Hin Hsub.
  destruct (run_stream ops 0 w Hsm Hops) as (_ & out & w' & R & _ & Hout); [lia|done|].
  rewrite (progress_division ops [] ps 0 0 (zlen stream)), Z.sub_0_r in Hout by done.
  exists out, w'. split; [done|]. by rewrite Hout, slice_all.
Qed.
End TcpStream.

(** ** Example: a request of 14 bytes in two segments

    Six bytes wait already.  The second segment comes too early first, and both
    are repeated. *)
Definition request : list Z := cstr "GET / HTTP/1.1".
Definition request_piece (o : Z) (data : list Z) : piece :=
  mk_piece (from_b (106 + o) 1 16 5000 data) o data 16 5000.
Definition request_1 : piece := request_piece 0 (cstr "GET / HT").
Definition request_2 : piece := request_piece 8 (cstr "TP/1.1").

Lemma request_streaming : streaming 0 25 (ts_of got_tcp) 27 ip_b 1000 106 0 got_tcp.
Proof.
  split; [exact got_tcp_wf|vm_compute; reflexivity..|].
  exists (cn_of got_tcp). split_and!; vm_compute; reflexivity.
Qed.

Lemma request_arrives o data :
  tcp_fields_ok 1000 80 (106 + o) 1 16 5000 → Forall is_u8 data → 6 <= zlen data <= 1900 →
  wrap32 (106 + o) = 106 + o → piece_of request (request_piece o data) →
  op_ok 3 5 (intf_at got_tcp 5) 25 (ts_of got_tcp) ip_b 1000 106 request got_tcp (Arrives (request_piece o data)).
Proof.
  intros Hf Hb Hl Ho Hp. split_and!; [|reflexivity|reflexivity|exact Hp]. cbn [op_ok request_piece pc_frame pc_offset pc_data pc_flags pc_wnd]. rewrite Ho.
  pose proof (segment_for_a got_tcp (106 + o) 1 16 5000 data got_tcp_wf ltac:(vm_compute; reflexivity)
    ltac:(vm_compute; reflexivity) ltac:(vm_compute; reflexivity) Hf Hb ltac:(lia)) as Hs.
  replace (6 - length data)%nat with 0%nat in Hs by lia. rewrite app_nil_r in Hs. exact Hs.
Qed.

Lemma request_ops_ok ops :
  Forall (λ o, match o with Arrives p => p = request_1 ∨ p = request_2 | Reads size => 0 <= size end) ops →
  Forall (op_ok 3 5 (intf_at got_tcp 5) 25 (ts_of got_tcp) ip_b 1000 106 request got_tcp) ops.
Proof.
  intros Hops. eapply Forall_impl; [exact Hops|]. intros [p|size]; [|done].
  intros [->| ->]; (apply request_arrives;
    [split; by_eval|by_eval|by_eval|vm_compute; reflexivity|split; [by_eval|split; [by_eval|vm_compute; reflexivity]]]).
Qed.

Lemma tcp_delivers_prefix_witness :
  ∃ out w', run 3 0 [Arrives request_2; Arrives request_1; Reads 5; Arrives request_1] got_tcp = Ok (out, w') ∧
    streaming 0 25 (ts_of got_tcp) 27 ip_b 1000 106 8 w' ∧
    out ++ concat (rx w' (QConn 27)) = [104; 105; 0; 0; 0; 0] ++ cstr "GET / HT".
Proof.
  assert (concat (rx got_tcp (QConn 27)) = [104; 105; 0; 0; 0; 0]) as <- by (vm_compute; reflexivity).
  apply (tcp_delivers_prefix 3 0 5 (intf_at got_tcp 5) 25 (ts_of got_tcp) 27 ip_b 1000 106 request
    [Arrives request_2; Arrives request_1; Reads 5; Arrives request_1] got_tcp request_streaming).
  - apply request_ops_ok.
    repeat first [apply Forall_nil; exact I|apply Forall_cons; split; [first [left; reflexivity|right; reflexivity|by_eval]|]].
  - by_eval.
Defined.

Lemma tcp_delivers_stream_witness :
  ∃ out w', run 3 0 [Arrives request_2; Reads 5; Arrives request_1; Arrives request_1; Reads 100;
      Arrives request_2; Reads 100] got_tcp = Ok (out, w') ∧
    out ++ concat (rx w' (QConn 27)) = [104; 105; 0; 0; 0; 0] ++ cstr "GET / HTTP/1.1".
Proof.
  assert (concat (rx got_tcp (QConn 27)) = [104; 105; 0; 0; 0; 0]) as <- by (vm_compute; reflexivity).
  apply (tcp_delivers_stream 3 0 5 (intf_at got_tcp 5) 25 (ts_of got_tcp) 27 ip_b 1000 106 request
    [Arrives request_2; Reads 5; Arrives request_1; Arrives request_1; Reads 100; Arrives request_2; Reads 100]
    [request_1; request_2] got_tcp request_streaming).
  - apply request_ops_ok.
    repeat first [apply Forall_nil; exact I|apply Forall_cons; split; [first [left; reflexivity|right; reflexivity|by_eval]|]].
  - by_eval.
  - cbn [division request_1 request_2 request_piece pc_offset pc_data]. split; [reflexivity|split; [by_eval|split; [reflexivity|split; [by_eval|reflexivity]]]].
  - intros p Hp. refine (proj1 (Forall_forall (λ o, match o with Arrives p => p ∈ [request_1; request_2] | _ => True end) _)
      _ (Arrives p) Hp).
    repeat first [apply Forall_nil; exact I|apply Forall_cons; split;
      [first [exact I|apply list_elem_of_here|apply list_elem_of_further, list_elem_of_here]|]].
  - apply sublist_cons, sublist_cons, sublist_skip, sublist_cons, sublist_cons, sublist_skip, sublist_cons, sublist_nil.
Defined.
