(* ===== verification/Routed.v ===== *)
(** * A datagram through routers

    Sending, forwarding and reception composed along a path of any length: a
    datagram is delivered behind up to 63 routers, and the 64th drops it, also
    when the routers form a loop. *)
From S2P Require Import Prelude Cmonad Utils Skbuff World Topology Comm Ethernet Arp Route Ip.
From S2P Require Import Icmp Udp Tcp Stack Net Graph Scenario Invariant SkbRules LinkSafe ArpSafe IpSafe.
From S2P Require Import ApiSafe Reach.
From S2P Require Import Packet Wire ArpSpec IpSpec ProtoSpec RecvSpec SockSpec TcpSpec TcpInSpec.
From S2P Require Import InputSpec ForwardSpec Demo SendThm RecvThm EndToEnd.
From stdpp Require Import strings.
#[local] Open Scope Z_scope.

(** ** The forwarded header *)

Lemma forwarded_fields hdr proto src dst src' ttl :
  ip_hdr5 hdr → ip_fields hdr proto src dst → is_u32 src' →
  ip_fields (forwarded_hdr src' ttl hdr) proto src' dst.
Proof.
  intros H5 [Hl Hp _ Hd _ ?] ?.
  pose proof (ip_hdr5_ttl hdr (ttl - 1) H5) as [Hl1 _].
  assert (length (splice 12 (le_encode 4 src') (splice 8 [ttl - 1] hdr)) = 20%nat) as Hl2
    by (rewrite length_splice; rewrite ?length_le_encode; lia).
  split; [|unfold forwarded_hdr, set_source..|done|done].
  - apply length_set_source. by apply ip_hdr5_ttl.
  - rewrite !slice_splice_ne by (rewrite ?length_le_encode; cbn [length be16]; lia). done.
  - rewrite slice_splice_ne by (rewrite ?length_le_encode; cbn [length be16]; lia).
    apply slice_splice_eq; rewrite ?length_le_encode; lia.
  - rewrite !slice_splice_ne by (rewrite ?length_le_encode; cbn [length be16]; lia). done.
Qed.

Lemma ip_hdr5_splice o bs hdr :
  ip_hdr5 hdr → 1 <= o → o + zlen bs <= 20 → ip_hdr5 (splice o bs hdr).
Proof.
  intros [Hl H5] Ho Hb. split; [by rewrite length_splice by lia|]. destruct hdr as [|b hdr]; [done|].
  unfold splice. replace (Z.to_nat o) with (S (Z.to_nat (o - 1))) by lia. exact H5.
Qed.

Lemma forwarded_hdr5 hdr src' ttl :
  ip_hdr5 hdr → ip_hdr5 (forwarded_hdr src' ttl hdr) ∧ slice 8 1 (forwarded_hdr src' ttl hdr) = [ttl - 1].
Proof.
  intros H5. pose proof (ip_hdr5_ttl hdr (ttl - 1) H5) as H1. unfold forwarded_hdr, set_source.
  assert (ip_hdr5 (splice 12 (le_encode 4 src') (splice 8 [ttl - 1] hdr))) as H2
    by (apply ip_hdr5_splice; [done|lia|rewrite length_le_encode; lia]).
  pose proof H5 as [Hl0 _]. pose proof H1 as [Hl1 _]. pose proof H2 as [Hl2 _].
  split; [apply ip_hdr5_splice; [done|lia|cbn [length be16]; lia]|].
  rewrite !slice_splice_ne by (rewrite ?length_le_encode; cbn [length be16]; lia).
  apply slice_splice_eq; cbn [length]; lia.
Qed.

Lemma forwarded_bytes hdr src' ttl :
  Forall is_u8 hdr → is_u8 (ttl - 1) → Forall is_u8 (forwarded_hdr src' ttl hdr).
Proof.
  intros Hb Ht. unfold forwarded_hdr, set_source.
  assert (Forall is_u8 (splice 12 (le_encode 4 src') (splice 8 [ttl - 1] hdr))) as Hb1.
  { apply Forall_splice; [|apply le_encode_bytes]. apply Forall_splice; [done|by apply Forall_singleton]. }
  apply Forall_splice; [done|]. by apply be16_bytes, rfc1071_u16.
Qed.

(** ** Paths

    A hop: the interface by which a datagram leaves a node, the port of the wire
    there, and the descriptor and interface where it comes in. *)
Record hop := mk_hop { hp_out : intf; hp_port : Z; hp_fd : Z; hp_in : ptr; hp_intf : intf }.

(** Frames for [dst] from the node [n] reach a node that forwards packets and
    for which they are not. *)
Record relay (w : world) (n : ptr) (dst : Z) (h : hop) : Prop := {
  rl_reaches : reaches w n dst (hp_out h) (IF_MAC (hp_intf h)) (hp_port h);
  rl_listens : listens w (hp_fd h) (hp_in h) (hp_intf h);
  rl_forwards : w_ip_forward_enable w = true;
  rl_remote : ¬ local_ip w (if_node (hp_intf h)) dst;
  rl_src : is_u32 (IF_IP (hp_out h));
}.

Fixpoint relays (w : world) (n : ptr) (dst : Z) (hops : list hop) : Prop :=
  match hops with
  | [] => True
  | h :: hops => relay w n dst h ∧ relays w (if_node (hp_intf h)) dst hops
  end.

(** The last hop of a path. *)
Fixpoint final (h : hop) (hops : list hop) : hop :=
  match hops with [] => h | h' :: hops => final h' hops end.

(** Frames from [n] reach a node with the address [dst]. *)
Definition ends_at (w : world) (n : ptr) (dst : Z) (h : hop) : Prop :=
  linked w n dst (hp_out h) (hp_port h) (hp_fd h) (hp_in h) (hp_intf h).

(** The frame [f] is received at [h], which sends a frame to the next hop, and so
    on; [f'] is what comes in at the last of them. *)
Inductive travels `{Os} : world → list Z → hop → list hop → world → list Z → Prop :=
  | travels_here w f h : travels w f h [] w f
  | travels_on w f h h' hops w1 f1 w2 f2 :
      recv_one (hp_fd h) (RecvFrame f) w = Ok (tt, w1) → sends w [(hp_port h', f1)] w1 →
      travels w1 f1 h' hops w2 f2 → travels w f h (h' :: hops) w2 f2.

(** A datagram that comes in at [h], with what the next nodes look at. *)
Record passing (w : world) (h : hop) (proto src dst ttl : Z) (f hdr q : list Z) : Prop := {
  ps_transit : transit w (hp_fd h) (hp_in h) (hp_intf h) f hdr q ttl dst;
  ps_fields : ip_fields hdr proto src dst;
  ps_hdr : Forall is_u8 hdr;
  ps_data : Forall is_u8 q;
  ps_size : 26 <= zlen q <= 2010;
}.

Section Routed.
Context `{Os}.

Lemma relay_sends w fr w' n dst h : sends w fr w' → relay w n dst h → relay w' n dst h.
Proof.
  intros Hs []. split; [by eapply reaches_sends|by eapply listens_sends| | |done]; by destruct Hs as [(t & k & -> & _) _].
Qed.

Lemma relays_sends w fr w' n dst hops : sends w fr w' → relays w n dst hops → relays w' n dst hops.
Proof.
  intros Hs. revert n. induction hops as [|h hops IH]; intros n; cbn; [done|].
  intros [Hr Hrs]. split; [by eapply relay_sends|by apply IH].
Qed.

Lemma travels_snoc w f h hops w1 f1 h' w2 f2 :
  travels w f h hops w1 f1 → recv_one (hp_fd (final h hops)) (RecvFrame f1) w1 = Ok (tt, w2) →
  sends w1 [(hp_port h', f2)] w2 → travels w f h (hops ++ [h']) w2 f2.
Proof.
  intros Ht. revert h' w2 f2. induction Ht as [w f h|w f h h1 hops w1 f1 w2 f2 Hr Hs Ht IH]; intros h' w3 f3 Hr3 Hs3; cbn.
  - eapply travels_on; [done|done|constructor].
  - eapply travels_on; [done|done|]. by apply IH.
Qed.

(** The frame that is sent to the first node comes in there. *)
Lemma sent_passes w n dst h proto p :
  relay w n dst h → is_u32 dst → is_u8 proto → Forall is_u8 p → zlen p <= 1980 →
  let len := 20 + zlen p in
  passing w h proto (IF_IP (hp_out h)) dst 64
    (ip_frame (IF_MAC (hp_intf h)) (IF_MAC (hp_out h)) (ip_datagram proto (IF_IP (hp_out h)) dst p))
    (ip_header len proto (IF_IP (hp_out h)) dst (ip_checksum len proto (IF_IP (hp_out h)) dst))
    (p ++ replicate (26 - length p) 0).
Proof.
  destruct h as [it port fd r rt]. intros [[Hw _ (nd & entry & fd' & e & en & _ & _ & Hit & _)] Hli _ Hrem Hsrc] Hdst Hpr Hp Hlen len.
  cbn [hp_out hp_port hp_fd hp_in hp_intf] in *. set (hdr := ip_header _ _ _ _ _).
  destruct (st_intf_mac _ _ _ _ (wf_static _ Hw) _ _ Hit) as [Hm6 Hm8].
  pose proof Hli as [_ _ Hrt _]. destruct (st_intf_mac _ _ _ _ (wf_static _ Hw) _ _ Hrt) as [Hr6 Hr8].
  assert (Forall is_u8 hdr) as Hhb.
  { apply ip_header_bytes; [unfold len, is_u16; lia|done|]. apply rfc1071_u16, ip_header_bytes; [unfold len, is_u16; lia|done|done]. }
  assert (length (eth_frame (IF_MAC rt) (IF_MAC it) ETH_PROTO_IP (ip_datagram proto (IF_IP it) dst p)) = 34 + length p)%nat as Hl
    by (rewrite length_eth_frame, length_ip_datagram by done; lia).
  split; [|by apply ip_header_fields|done|apply Forall_app; split; [done|by apply Forall_replicate]|rewrite length_app, length_replicate; lia].
  split; try done.
  - exists (IF_MAC rt), (IF_MAC it). split_and!; [|by left|done|done].
    unfold ip_frame. cbn [hp_out hp_intf]. rewrite Hl. replace (60 - (34 + length p))%nat with (26 - length p)%nat by lia.
    rewrite eth_frame_app. unfold ip_datagram. by rewrite <- app_assoc.
  - unfold ip_frame. apply Forall_app. split; [|by apply Forall_replicate].
    apply eth_frame_bytes; [done|done|done|]. by apply ip_datagram_bytes; [lia|..].
  - unfold ip_frame. rewrite length_app, length_replicate. cbn [hp_out hp_intf]. rewrite Hl. lia.
Qed.

(** The frame the router sends arrives at the end of the next link. *)
Lemma forwarded_arrives w n dst it port fd j jt proto src hdr q ttl :
  linked w n dst it port fd j jt → ip_hdr5 hdr → ip_fields hdr proto src dst →
  Forall is_u8 hdr → Forall is_u8 q → is_u8 (ttl - 1) → 26 <= zlen q <= 2010 →
  ip_arrives w fd j jt proto (IF_IP it) (ip_frame (IF_MAC jt) (IF_MAC it) (forwarded_hdr (IF_IP it) ttl hdr ++ q)) q.
Proof.
  intros [[Hw _ (nd & entry & fd' & e & en & _ & _ & Hit & _)] Hli Hloc Hsrc] H5 Hf Hb Hq Ht Hlen.
  destruct (st_intf_mac _ _ _ _ (wf_static _ Hw) _ _ Hit) as [Hm6 Hm8].
  pose proof Hli as [_ _ Hjt _]. destruct (st_intf_mac _ _ _ _ (wf_static _ Hw) _ _ Hjt) as [Hj6 Hj8].
  pose proof (forwarded_fields hdr proto src dst (IF_IP it) ttl H5 Hf Hsrc) as Hff. pose proof (if_length _ _ _ _ Hff) as Hl20.
  assert (length (eth_frame (IF_MAC jt) (IF_MAC it) ETH_PROTO_IP (forwarded_hdr (IF_IP it) ttl hdr ++ q)) = 34 + length q)%nat as Hl
    by (rewrite length_eth_frame, length_app, Hl20 by done; lia).
  assert (ip_frame (IF_MAC jt) (IF_MAC it) (forwarded_hdr (IF_IP it) ttl hdr ++ q) =
          eth_frame (IF_MAC jt) (IF_MAC it) ETH_PROTO_IP (forwarded_hdr (IF_IP it) ttl hdr ++ q)) as ->.
  { unfold ip_frame. rewrite Hl. replace (60 - (34 + length q))%nat with 0%nat by lia. apply app_nil_r. }
  split; [done| |apply eth_frame_bytes; [done|done|done|apply Forall_app; split; [by apply forwarded_bytes|done]]|lia].
  exists (IF_MAC jt), (IF_MAC it), (forwarded_hdr (IF_IP it) ttl hdr), dst. split_and!; try done. by left.
Qed.

(** What leaves a router comes in at the next one. *)
Lemma forwarded_passes w n dst h proto src hdr q ttl :
  relay w n dst h → ip_hdr5 hdr → slice 8 1 hdr = [ttl] → ip_fields hdr proto src dst →
  Forall is_u8 hdr → Forall is_u8 q → is_u8 (ttl - 1) → 26 <= zlen q <= 2010 → is_u32 dst →
  let hdr' := forwarded_hdr (IF_IP (hp_out h)) ttl hdr in
  passing w h proto (IF_IP (hp_out h)) dst (ttl - 1)
    (ip_frame (IF_MAC (hp_intf h)) (IF_MAC (hp_out h)) (hdr' ++ q)) hdr' q.
Proof.
  destruct h as [it port fd r rt].
  intros [[Hw _ (nd & entry & fd' & e & en & _ & _ & Hit & _)] Hli _ Hrem Hsrc] H5 Httl Hf Hb Hq Ht Hlen Hdst hdr'.
  cbn [hp_out hp_port hp_fd hp_in hp_intf] in *.
  destruct (st_intf_mac _ _ _ _ (wf_static _ Hw) _ _ Hit) as [Hm6 Hm8].
  pose proof Hli as [_ _ Hrt _]. destruct (st_intf_mac _ _ _ _ (wf_static _ Hw) _ _ Hrt) as [Hr6 Hr8].
  pose proof (forwarded_fields hdr proto src dst (IF_IP it) ttl H5 Hf Hsrc) as Hff. pose proof (if_length _ _ _ _ Hff) as Hl20.
  fold hdr' in Hff, Hl20. pose proof (forwarded_bytes hdr (IF_IP it) ttl Hb Ht) as Hbb. fold hdr' in Hbb.
  assert (length (eth_frame (IF_MAC rt) (IF_MAC it) ETH_PROTO_IP (hdr' ++ q)) = 34 + length q)%nat as Hl
    by (rewrite length_eth_frame, length_app, Hl20 by done; lia).
  assert (ip_frame (IF_MAC rt) (IF_MAC it) (hdr' ++ q) = eth_frame (IF_MAC rt) (IF_MAC it) ETH_PROTO_IP (hdr' ++ q)) as ->.
  { unfold ip_frame. rewrite Hl. replace (60 - (34 + length q))%nat with 0%nat by lia. apply app_nil_r. }
  split; [|done..]. cbn [hp_out hp_port hp_fd hp_in hp_intf]. split; try done.
  - exists (IF_MAC rt), (IF_MAC it). split_and!; [done|by left|done|done].
  - by apply forwarded_hdr5.
  - by apply forwarded_hdr5.
  - apply Hff.
  - apply eth_frame_bytes; [done|done|done|]. by apply Forall_app.
  - lia.
Qed.
(** One router passes a datagram on. *)
Lemma pass_on w h proto src dst ttl f hdr q h' :
  passing w h proto src dst ttl f hdr q → 1 < ttl → relay w (if_node (hp_intf h)) dst h' →
  ∃ w' f' hdr', recv_one (hp_fd h) (RecvFrame f) w = Ok (tt, w') ∧ sends w [(hp_port h', f')] w' ∧
    passing w' h' proto (IF_IP (hp_out h')) dst (ttl - 1) f' hdr' q.
Proof.
  intros [Htr Hf Hb Hq Hl] Httl Hre. pose proof Htr as [_ _ H5 H8 _ Hdst _ _ _].
  assert (is_u8 ttl) as Hu8.
  { pose proof (Forall_slice is_u8 8 1 hdr Hb) as Hsl. rewrite H8 in Hsl. by apply Forall_cons in Hsl as [? _]. }
  assert (∃ w', recv_one (hp_fd h) (RecvFrame f) w = Ok (tt, w') ∧
    sends w [(hp_port h', ip_frame (IF_MAC (hp_intf h')) (IF_MAC (hp_out h'))
      (forwarded_hdr (IF_IP (hp_out h')) ttl hdr ++ q))] w') as (w' & Hr & Hs).
  { apply wp_ok_tt. eapply wp_recv_forwarded; [exact Htr|done|apply Hre|apply Hre|done]. }
  exists w'. do 2 eexists. split_and!; [exact Hr|exact Hs|].
  eapply forwarded_passes; [by eapply relay_sends|done..| |done|done]. unfold is_u8 in *. lia.
Qed.

(** A path of routers passes it on to its end. *)
Lemma pass_along w h proto src dst ttl f hdr q hops :
  passing w h proto src dst ttl f hdr q → relays w (if_node (hp_intf h)) dst hops → Z.of_nat (length hops) < ttl →
  ∃ w' f' src' hdr' fr, travels w f h hops w' f' ∧ sends w fr w' ∧
    passing w' (final h hops) proto src' dst (ttl - Z.of_nat (length hops)) f' hdr' q.
Proof.
  revert w h src ttl f hdr. induction hops as [|h' hops IH]; intros w h src ttl f hdr Hp Hre Httl.
  { exists w, f, src, hdr, []. split_and!; [constructor|apply sends_refl|]. cbn. by rewrite Z.sub_0_r. }
  destruct Hre as [Hre Hrest]. cbn [length] in Httl.
  destruct (pass_on w h proto src dst ttl f hdr q h' Hp ltac:(lia) Hre) as (w1 & f1 & hdr1 & Hr & Hs & Hp1).
  destruct (IH w1 h' _ _ f1 hdr1 Hp1) as (w' & f' & src' & hdr' & fr & Ht & Hs' & Hp');
    [by eapply relays_sends|lia|].
  exists w', f', src', hdr'. eexists. split_and!; [by eapply travels_on|by eapply sends_trans|].
  cbn [final length]. by replace (ttl - Z.of_nat (S (length hops))) with (ttl - 1 - Z.of_nat (length hops)) by lia.
Qed.

(** Sending, up to the first router. *)
Lemma sendto_passes fd u us i it buff ip port h w :
  good_fd MAX_UDP_SOCKS (w_udp_fds w) fd = Some u → w_udps w !! u = Some us →
  us_bound us = true → us_intf us = Some i → routed w i it ip → is_u16 (us_local_port us) →
  relay w (if_node it) ip h → hp_out h = it → Forall is_u8 buff → is_u16 port → is_u32 ip →
  let data := take (Z.to_nat MAX_UDP_PAYLOAD) buff in
  let uhdr := be16 (us_local_port us) ++ be16 port ++ be16 (8 + zlen data) ++ [0; 0] in
  ∃ w1 f1 hdr, udp_sendto fd buff ip port w = Ok (zlen data, w1) ∧ sends w [(hp_port h, f1)] w1 ∧
    passing w1 h IP_PROTO_UDP (IF_IP it) ip 64 f1 hdr (uhdr ++ data ++ replicate (18 - length data) 0).
Proof.
  intros Hfd Hu Hbd Hi Hroute Hlp Hre <- Hb Hp Hip data uhdr.
  assert (zlen data <= 1446) as Hlen by (unfold data; rewrite length_take; unfold MAX_UDP_PAYLOAD; lia).
  assert (Forall is_u8 data) as Hdb by by apply Forall_take.
  destruct (wp_udp_sendto_wire fd u us i (hp_out h) buff ip port _ (hp_port h) w Hfd Hu Hbd Hi Hroute
    (rl_reaches _ _ _ _ Hre) Hb Hlp Hp Hip) as (w1 & Hsend & Hs1).
  fold data in Hsend, Hs1. set (m := udp_msg (us_local_port us) port data) in *.
  assert (Forall is_u8 m) as Hm.
  { unfold m, udp_msg. rewrite !Forall_app. split_and!; try apply be16_bytes; try done; [unfold is_u16; lia|by repeat constructor]. }
  assert (zlen m = 8 + zlen data) as Hml by (unfold m; rewrite length_udp_msg; lia).
  pose proof (sent_passes w1 (if_node (hp_out h)) ip h IP_PROTO_UDP m (relay_sends _ _ _ _ _ _ Hs1 Hre)
    Hip ltac:(done) Hm ltac:(lia)) as Hps.
  replace (26 - length m)%nat with (18 - length data)%nat in Hps by lia.
  exists w1. do 2 eexists. split_and!; [exact Hsend|exact Hs1|].
  replace (uhdr ++ data ++ replicate (18 - length data) 0) with (m ++ replicate (18 - length data) 0); [exact Hps|].
  unfold m, udp_msg, uhdr. by rewrite <- !app_assoc.
Qed.

(** C5. With forwarding enabled, and when at the sender and at every router on the way the
    route leads over a live UDP link and the MAC address of the next hop is already resolved
    (at the sender over the interface of the bound socket), udp_sendto to an address behind
    up to 63 routers sends one frame, which every router that receives it passes on; when
    the last one is received at the destination, the data, at most the first 1446 bytes of
    the buffer, filled up with zeros to 18 bytes, becomes the last message of the socket
    bound to the port, while no other queue changes. *)
Theorem udp_through_routers fd u us i it buff ip port h hops d v vs w :
  good_fd MAX_UDP_SOCKS (w_udp_fds w) fd = Some u → w_udps w !! u = Some us →
  us_bound us = true → us_intf us = Some i → routed w i it ip → is_u16 (us_local_port us) →
  relays w (if_node it) ip (h :: hops) → hp_out h = it → Z.of_nat (length (h :: hops)) <= 63 →
  ends_at w (if_node (hp_intf (final h hops))) ip d →
  udp_find w (hp_in d) port = Some v → w_udps w !! v = Some vs →
  Forall is_u8 buff → is_u16 port → is_u32 ip →
  let data := take (Z.to_nat MAX_UDP_PAYLOAD) buff in
  ∃ w1 w2 w3 f1 f2, udp_sendto fd buff ip port w = Ok (zlen data, w1) ∧ sends w [(hp_port h, f1)] w1 ∧
    travels w1 f1 h (hops ++ [d]) w2 f2 ∧ recv_one (hp_fd d) (RecvFrame f2) w2 = Ok (tt, w3) ∧
    rx w3 (QUdp v) = rx w (QUdp v) ++ [data ++ replicate (18 - length data) 0] ∧
    ∀ q, q ≠ QUdp v → rx w3 q = rx w q.
Proof.
  intros Hfd Hu Hbd Hi Hroute Hlp [Hre Hres] Hout Hlen Hend Hfind Hv Hb Hp Hip data. cbn [length] in Hlen.
  destruct (sendto_passes fd u us i it buff ip port h w Hfd Hu Hbd Hi Hroute Hlp Hre Hout Hb Hp Hip)
    as (w1 & f1 & hdr & Hsend & Hs1 & Hps). fold data in Hps. set (q := _ ++ data ++ _) in Hps.
  destruct (pass_along w1 h _ _ ip 64 f1 hdr _ hops Hps) as (w2 & f2 & src & hdr2 & fr & Ht & Hs2 & [Htr Hf Hhb Hq Hl]);
    [by eapply relays_sends|lia|].
  pose proof (sends_trans _ _ _ _ _ Hs1 Hs2) as Hs. pose proof Htr as [_ _ H5 H8 _ _ _ _ _].
  assert (is_u8 (64 - Z.of_nat (length hops) - 1)) as Httl by (unfold is_u8; lia).
  pose proof (linked_sends _ _ _ _ _ _ _ _ _ _ Hs Hend) as Hend2.
  (* from the last router *)
  assert (∃ w3, recv_one (hp_fd (final h hops)) (RecvFrame f2) w2 = Ok (tt, w3) ∧
    sends w2 [(hp_port d, ip_frame (IF_MAC (hp_intf d)) (IF_MAC (hp_out d))
      (forwarded_hdr (IF_IP (hp_out d)) (64 - Z.of_nat (length hops)) hdr2 ++ q))] w3) as (w3 & Hr3 & Hs3).
  { apply wp_ok_tt. eapply wp_recv_forwarded; [exact Htr|lia| |apply Hend2|done].
    pose proof (rl_forwards _ _ _ _ Hre) as Hen. by destruct Hs as [(t & n & -> & _) _]. }
  pose proof (forwarded_arrives w3 _ ip _ _ _ _ _ _ src hdr2 _ (64 - Z.of_nat (length hops))
    (linked_sends _ _ _ _ _ _ _ _ _ _ Hs3 Hend2) H5 Hf Hhb Hq Httl Hl) as Har.
  pose proof (sends_trans _ _ _ _ _ Hs Hs3) as Hs'. pose proof Hs' as [(t3 & n3 & Ew3 & _) _].
  (* at the destination *)
  destruct (wp_datagram_queued (hp_fd d) (hp_in d) (hp_intf d) _ _ (data ++ replicate (18 - length data) 0)
    (IF_IP (hp_out d)) port v vs w3 Har) as (w4 & Hr4 & R1 & R2 & _); [done|done|done|by rewrite Ew3|by rewrite Ew3|].
  exists w1, w3, w4, f1. eexists. split_and!; [exact Hsend|exact Hs1|by eapply travels_snoc|exact Hr4| |].
  - by rewrite R1, (rx_sends _ _ _ _ Hs').
  - intros x Hx. by rewrite R2, (rx_sends _ _ _ _ Hs').
Qed.

(** C28. A datagram does not travel for ever: with forwarding enabled, and when at the
    sender and at every router the route leads over a live UDP link to a next hop whose MAC
    address is resolved, the datagram that udp_sendto sends is passed on by 63 routers and
    dropped by the 64th on its path, which sends nothing, so that a loop of routers comes to
    rest. *)
Theorem udp_expires_after_64_routers fd u us i it buff ip port h hops w :
  good_fd MAX_UDP_SOCKS (w_udp_fds w) fd = Some u → w_udps w !! u = Some us →
  us_bound us = true → us_intf us = Some i → routed w i it ip → is_u16 (us_local_port us) →
  relays w (if_node it) ip (h :: hops) → hp_out h = it → length (h :: hops) = 64%nat →
  Forall is_u8 buff → is_u16 port → is_u32 ip →
  ∃ w1 w2 w3 f1 f2, udp_sendto fd buff ip port w = Ok (zlen (take (Z.to_nat MAX_UDP_PAYLOAD) buff), w1) ∧
    sends w [(hp_port h, f1)] w1 ∧ travels w1 f1 h hops w2 f2 ∧
    recv_one (hp_fd (final h hops)) (RecvFrame f2) w2 = Ok (tt, w3) ∧ sends w2 [] w3.
Proof.
  intros Hfd Hu Hbd Hi Hroute Hlp [Hre Hres] Hout Hlen Hb Hp Hip. injection Hlen as Hlen.
  destruct (sendto_passes fd u us i it buff ip port h w Hfd Hu Hbd Hi Hroute Hlp Hre Hout Hb Hp Hip)
    as (w1 & f1 & hdr & Hsend & Hs1 & Hps).
  destruct (pass_along w1 h _ _ ip 64 f1 hdr _ hops Hps) as (w2 & f2 & src & hdr2 & fr & Ht & _ & [Htr _ _ _ _]);
    [by eapply relays_sends|lia|].
  assert (∃ w3, recv_one (hp_fd (final h hops)) (RecvFrame f2) w2 = Ok (tt, w3) ∧ sends w2 [] w3) as (w3 & Hr3 & Hs3).
  { apply wp_ok_tt. eapply wp_recv_expired; [exact Htr|left; lia|done]. }
  by exists w1, w2, w3, f1, f2.
Qed.
End Routed.

(** ** Examples *)

Lemma relay_intro w n dst h :
  wf w → path_to w n dst = Some (hp_out h, IF_MAC (hp_intf h), hp_port h) →
  w_fd_to_comm w !! hp_fd h = Some (hp_in h) → w_intfs w !! hp_in h = Some (hp_intf h) →
  IS_INTF_L3_MODE (hp_intf h) = true → w_ip_forward_enable w = true →
  is_local w (if_node (hp_intf h)) dst = false → bool_decide (is_u32 (IF_IP (hp_out h))) = true → relay w n dst h.
Proof.
  intros Hw Hp Hfd Hi Hl3 Hen Hloc Hip%bool_decide_eq_true.
  split; [by apply path_to_reaches|by split|done| |done]. by rewrite <- is_local_spec, Hloc.
Qed.

(** The node with 192.168.89.2 has routes to 172.16.0.0/16 and 172.17.0.0/16
    over 192.168.89.1, which has a route to the latter back to it. *)
Definition routed_lab : world := after [
  AddRoute 3 (le_decode [172; 16; 0; 0]) 16 ip_a 6;
  AddRoute 3 (le_decode [172; 17; 0; 0]) 16 ip_a 6;
  AddRoute 2 (le_decode [172; 17; 0; 0]) 16 ip_b 5;
  UdpSocket 3; UdpBind 0 ip_b 9; UdpSocket 4; UdpBind 1 ip_c 7] router.

Lemma routed_lab_wf : wf routed_lab.
Proof. apply reachable_wf, after_reachable, after_reachable, talk_reachable. Qed.

Definition lab_intf (i : ptr) : intf := default no_intf (w_intfs routed_lab !! i).
Definition lab_udp (u : ptr) : udp_sock := default no_sock (w_udps routed_lab !! u).

(** From b to a, from a to c, and from a to b. *)
Definition hop_ba : hop := mk_hop (lab_intf 6) 40000 3 5 (lab_intf 5).
Definition hop_ac : hop := mk_hop (lab_intf 8) 40003 6 9 (lab_intf 9).
Definition hop_ab : hop := mk_hop (lab_intf 5) 40001 4 6 (lab_intf 6).

Lemma udp_through_routers_witness :
  ∃ w1 w2 w3 f1 f2, udp_sendto 0 [104; 105] ip_c 7 routed_lab = Ok (2, w1) ∧ sends routed_lab [(40000, f1)] w1 ∧
    travels w1 f1 hop_ba [hop_ac] w2 f2 ∧ recv_one 6 (RecvFrame f2) w2 = Ok (tt, w3) ∧
    rx w3 (QUdp 30) = rx routed_lab (QUdp 30) ++ [[104; 105] ++ replicate 16 0] ∧
    ∀ q, q ≠ QUdp 30 → rx w3 q = rx routed_lab q.
Proof.
  apply (udp_through_routers 0 29 (lab_udp 29) 6 (lab_intf 6) [104; 105] ip_c 7 hop_ba [] hop_ac 30 (lab_udp 30) routed_lab);
    [vm_compute; reflexivity|vm_compute; reflexivity|vm_compute; reflexivity|vm_compute; reflexivity| |by_eval| |
     reflexivity|by_eval| |vm_compute; reflexivity|vm_compute; reflexivity|by_eval|by_eval|by_eval].
  - apply routed_intro; vm_compute; reflexivity.
  - split; [|exact I]. apply relay_intro; [exact routed_lab_wf|vm_compute; reflexivity..].
  - apply linked_intro; [exact routed_lab_wf|vm_compute; reflexivity..].
Defined.

(** An address in a network to which the two nodes route through each other. *)
Definition ip_loop : Z := le_decode [172; 17; 0; 1].

Fixpoint loop (n : nat) : list hop := match n with O => [] | S n => hop_ba :: hop_ab :: loop n end.

Lemma loop_relays n : relays routed_lab 3 ip_loop (loop n).
Proof.
  assert (relay routed_lab 3 ip_loop hop_ba) as H1
    by (apply relay_intro; [exact routed_lab_wf|vm_compute; reflexivity..]).
  assert (relay routed_lab 2 ip_loop hop_ab) as H2
    by (apply relay_intro; [exact routed_lab_wf|vm_compute; reflexivity..]).
  induction n as [|n IH]; [exact I|]. cbn [loop relays].
  replace (if_node (hp_intf hop_ba)) with 2%positive by (vm_compute; reflexivity).
  replace (if_node (hp_intf hop_ab)) with 3%positive by (vm_compute; reflexivity). exact (conj H1 (conj H2 IH)).
Qed.

Lemma udp_expires_after_64_routers_witness :
  ∃ w1 w2 w3 f1 f2, udp_sendto 0 [104; 105] ip_loop 7 routed_lab = Ok (2, w1) ∧ sends routed_lab [(40000, f1)] w1 ∧
    travels w1 f1 hop_ba (hop_ab :: loop 31) w2 f2 ∧ recv_one (hp_fd (final hop_ba (hop_ab :: loop 31))) (RecvFrame f2) w2 = Ok (tt, w3) ∧
    sends w2 [] w3.
Proof.
  apply (udp_expires_after_64_routers 0 29 (lab_udp 29) 6 (lab_intf 6) [104; 105] ip_loop 7 hop_ba (hop_ab :: loop 31) routed_lab);
    [vm_compute; reflexivity|vm_compute; reflexivity|vm_compute; reflexivity|vm_compute; reflexivity| |by_eval| |
     reflexivity|reflexivity|by_eval|by_eval|by_eval].
  - apply routed_intro; vm_compute; reflexivity.
  - replace (if_node (lab_intf 6)) with 3%positive by (vm_compute; reflexivity). exact (loop_relays 32).
Defined.
