(* ===== verification/LinkThm.v ===== *)
(** * Interfaces, links, checksums

    The two ends of a new link are each other's neighbours; the descriptor
    table; flooding; the checksums of headers as they are filled and as they
    are checked. *)
From S2P Require Import Prelude Cmonad Utils Skbuff World Topology Comm Ethernet Arp Route Ip.
From S2P Require Import Icmp Udp Tcp Stack Net Graph Scenario Invariant GraphInv Frame SkbRules LinkSafe ArpSafe IpSafe.
From S2P Require Import GraphSafe Reach Packet Wire ArpSpec IpSpec TcpSpec Demo SendThm Fuel.
From stdpp Require Import strings.
#[local] Open Scope Z_scope.

(** ** The ends of a link *)

Section LinkShape.
Context `{Os}.
#[local] Notation "'anyway'" := (λ _ : fault, True).

Lemma placed_bind_loop fuel i fd : keeps placed (bind_loop fuel i fd).
Proof.
  induction fuel as [|fuel IH]; cbn [bind_loop]; [apply keeps_raise|].
  unfold get_next_udp_port, update_comm, sys_bind. frame.
Qed.
#[local] Hint Resolve placed_bind_loop : keeps.

Lemma placed_init_comm i : keeps placed (init_comm i CT_UDP).
Proof. unfold init_comm, udp_init_comm, sys_socket, update_comm. frame. Qed.
#[local] Hint Resolve placed_init_comm : keeps.

(** The interface is put in its node with the link it is given; the others stay. *)
Lemma wp_init_interface_shape i name n l Q w :
  (∀ w', w_links w' = w_links w → place <$> w_intfs w' !! i = Some (n, l) →
     (∀ j, j ≠ i → place <$> w_intfs w' !! j = place <$> w_intfs w !! j) → Q tt w') →
  wp (init_interface i name n l CT_UDP) Q anyway w.
Proof.
  intros HQ. unfold init_interface. apply wp_bind. unfold update at 1. apply wp_bind, wp_load_inv; [|done].
  intros it Hit. apply wp_store; [by eexists|]. set (w1 := hset _ _).
  apply (wp_keeps placed); [unfold interface_assign_mac_address; frame|]. intros [] w2 [HL HS]. apply HQ; [exact HL| |].
  - rewrite HS. cbn. by rewrite lookup_insert_eq.
  - intros j Hj. rewrite HS. cbn. by rewrite lookup_insert_ne.
Qed.

Lemma wp_insert_link_shape n1 n2 name1 name2 cost w :
  let i1 := w_next w in let i2 := Pos.succ i1 in let l := Pos.succ i2 in
  wp (insert_link_between_two_nodes n1 n2 name1 name2 cost)
    (λ _ w', w_links w' !! l = Some (mk_link i1 i2 cost) ∧
             place <$> w_intfs w' !! i1 = Some (n1, Some l) ∧
             place <$> w_intfs w' !! i2 = Some (n2, Some l)) anyway w.
Proof.
  intros i1 i2 l. unfold insert_link_between_two_nodes.
  apply wp_bind, wp_alloc, wp_bind, wp_alloc, wp_bind, wp_alloc. cbn -[insert].
  fold i1. fold i2. fold l.
  apply wp_bind, wp_init_interface_shape. intros w1 L1 I1 O1.
  apply wp_init_interface_shape. intros w2 L2 I2 O2. split_and!; [|by rewrite O2 by (subst i2; lia)|done].
  rewrite L2, L1. cbn. by rewrite lookup_insert_eq.
Qed.
End LinkShape.

Section LinkThm.
Context `{Os}.

(** insert_link_between_two_nodes, when it returns, leaves a well-formed state in which
    its two new interfaces are each other's neighbours, on the nodes given; it stops only
    when a node has no free slot or no port can be bound. *)
Theorem new_link_joins_neighbours n1 n2 name1 name2 cost w :
  wf w → is_Some (w_nodes w !! n1) → is_Some (w_nodes w !! n2) →
  let i1 := w_next w in let i2 := Pos.succ i1 in
  match insert_link_between_two_nodes n1 n2 name1 name2 cost w with
  | Ok (_, w') => wf w' ∧
      get_nbr_if i1 w' = Ok (Some i2, w') ∧ get_nbr_if i2 w' = Ok (Some i1, w') ∧
      get_nbr_node i1 w' = Ok (Some n2, w') ∧ get_nbr_node i2 w' = Ok (Some n1, w')
  | Err f => f = AssertFail ∨ f = OutOfFuel
  end.
Proof.
  intros Hw G1 G2 i1 i2. rewrite <- topo_is_Some in G1, G2.
  assert (call_ok w (InsertLink n1 n2 name1 name2 cost)) as Hok by (cbn; by rewrite <- !topo_is_Some).
  pose proof (wp_run_call _ w Hw Hok) as Hsafe. cbn [run_call allowed] in Hsafe. unfold wp in Hsafe.
  pose proof (wp_insert_link_shape n1 n2 name1 name2 cost w) as Hs. cbv zeta in Hs. unfold wp in Hs.
  destruct (insert_link_between_two_nodes n1 n2 name1 name2 cost w) as [[[] w']|f]; [|done].
  destruct Hs as (HL & S1 & S2). split; [done|].
  apply fmap_Some in S1 as (it1 & E1 & [= N1 K1]%symmetry). apply fmap_Some in S2 as (it2 & E2 & [= N2 K2]%symmetry).
  assert (get_nbr_if i1 w' = Ok (Some i2, w')) as Hn1.
  { unfold get_nbr_if, bind, load. cbn [hget heap_intfs heap_links]. fold i1 in E1. rewrite E1, K1.
    cbn [hget heap_links]. rewrite HL. cbn [l_intf1 l_intf2]. by rewrite bool_decide_eq_true_2. }
  assert (get_nbr_if i2 w' = Ok (Some i1, w')) as Hn2.
  { unfold get_nbr_if, bind, load. cbn [hget heap_intfs heap_links]. fold i1 i2 in E2. rewrite E2, K2.
    cbn [hget heap_links]. rewrite HL. cbn [l_intf1 l_intf2].
    rewrite bool_decide_eq_false_2; [done|]. subst i2 i1. lia. }
  split_and!; [done|done| |].
  - unfold get_nbr_node, bind at 1. rewrite Hn1. unfold bind, load. cbn [hget heap_intfs].
    fold i1 i2 in E2. rewrite E2. by rewrite N2.
  - unfold get_nbr_node, bind at 1. rewrite Hn2. unfold bind, load. cbn [hget heap_intfs].
    fold i1 in E1. rewrite E1. by rewrite N1.
Qed.

(** ** Descriptors *)

(** set_fd_comm stores exactly the descriptors from 0 to 1023 and refuses the others;
    fd_to_comm gives what was stored last and NULL outside the table. *)
Theorem fd_table_bounds fd c w :
  (0 <= fd < MAX_COMMS ∧
     (∃ w', set_fd_comm fd c w = Ok (true, w') ∧
        ∀ fd', fd_to_comm fd' w' = if decide (fd' = fd) then Ok (c, w')
                                   else Ok (if decide (0 <= fd' < MAX_COMMS) then w_fd_to_comm w !! fd' else None, w'))) ∨
  (¬ 0 <= fd < MAX_COMMS ∧ set_fd_comm fd c w = Ok (false, w) ∧ fd_to_comm fd w = Ok (None, w)).
Proof.
  assert (∀ x, (x <? 0) || (MAX_COMMS <=? x) = negb (bool_decide (0 <= x < MAX_COMMS))) as Hb.
  { intros x. unfold MAX_COMMS. destruct (Z.ltb_spec x 0), (Z.leb_spec 1024 x); cbn;
      [rewrite bool_decide_eq_false_2|rewrite bool_decide_eq_false_2|rewrite bool_decide_eq_false_2|rewrite bool_decide_eq_true_2];
      done || lia. }
  destruct (decide (0 <= fd < MAX_COMMS)) as [Hin|Hout]; [left|right]; split; try done.
  - unfold set_fd_comm. rewrite Hb, bool_decide_eq_true_2 by done. cbn [negb].
    eexists. split; [done|]. intros fd'. unfold fd_to_comm. rewrite Hb.
    destruct (decide (fd' = fd)) as [->|Hne].
    + rewrite bool_decide_eq_true_2 by done. unfold gets. cbn -[partial_alter]. by rewrite lookup_partial_alter_eq.
    + destruct (decide (0 <= fd' < MAX_COMMS)) as [Hin'|Hout'].
      * rewrite bool_decide_eq_true_2 by done. unfold gets. cbn -[partial_alter]. by rewrite lookup_partial_alter_ne.
      * by rewrite bool_decide_eq_false_2.
  - unfold set_fd_comm, fd_to_comm. rewrite Hb, bool_decide_eq_false_2 by done. done.
Qed.

(** ** Flooding *)

Definition flood_targets (exempted : option ptr) (slots : list (option ptr)) : list ptr :=
  omap (λ oi, match oi with Some i => if decide (Some i = exempted) then None else Some i | None => None end) slots.

Lemma wp_flood_slots (E : fault → Prop) ex bytes rc slots ports Q w :
  mapM (λ i, snd <$> wire w i) (flood_targets ex slots) = Some ports →
  (∀ w', sends w ((λ p, (p, bytes)) <$> ports) w' → Q rc w') →
  wp (flood_slots ex bytes rc slots) Q E w.
Proof.
  revert ports w. induction slots as [|[i|] slots IH]; intros ports w Hp HQ; cbn [flood_slots].
  - mstep. injection Hp as <-. apply HQ, sends_refl.
  - unfold flood_targets in Hp. cbn [omap list_omap] in Hp. destruct (decide (Some i = ex)) as [Hex|Hex].
    + rewrite bool_decide_eq_true_2 by done. by eapply IH.
    + rewrite bool_decide_eq_false_2 by done. cbn [mapM] in Hp.
      destruct (wire w i) as [[fd port]|] eqn:Hw; [|done]. cbn [fmap option_fmap option_map mbind option_bind snd] in Hp.
      destruct (mapM _ _) as [ports'|] eqn:Hm in Hp; [|done]. injection Hp as <-.
      mstep. eapply wp_send_bytes_wire; [exact Hw|]. intros r w1 Hr Hs1.
      replace (rc || (r <? 0)) with rc by (destruct (Z.ltb_spec r 0); [lia|]; by rewrite orb_false_r).
      apply (IH ports').
      * rewrite <- Hm. apply Forall_mapM_ext, Forall_forall. intros j _.
        by destruct Hs1 as [(t & n & -> & _) _].
      * intros w2 Hs2. apply HQ. rewrite fmap_cons.
        exact (sends_trans _ _ _ [_] _ Hs1 Hs2).
  - by eapply IH.
Qed.

(** C37. When every interface of the node but the exempted one is an end of a live UDP link
    (both ends have a socket), send_pkt_flood sends the packet once over each of them,
    returns false all the same, and keeps the buffer. *)
Theorem flood_reaches_every_other_interface n nd ex k s ports w :
  w_nodes w !! n = Some nd → w_skbs w !! k = Some s → skb_wf s →
  mapM (λ i, snd <$> wire w i) (flood_targets ex (n_intfs nd)) = Some ports →
  ∃ w', send_pkt_flood n ex k w = Ok (false, w') ∧
    sends w ((λ p, (p, skb_payload s)) <$> ports) w'.
Proof.
  intros Hn Hk Hs Hp. apply wp_ok_eq. pose proof Hs as [].
  unfold send_pkt_flood, skb_bytes, send_bytes_flood.
  mstep. mstep. apply (wp_load _ s); [done|]. rewrite rdn_ok by lia. mstep.
  mstep. mstep. apply (wp_load _ nd); [done|].
  eapply wp_flood_slots; [exact Hp|]. intros w' Hs'. mstep. mstep. mstep. by split.
Qed.

(** ** Checksums, as they are filled and as they are checked *)

Lemma checksum_slot (hdr : list Z) x y :
  slice 10 2 hdr = [x; y] → hdr = take 10 hdr ++ [x; y] ++ drop 12 hdr ∧ length (take 10 hdr) = 10%nat.
Proof.
  intros Hs. unfold slice in Hs. change (Z.to_nat 10) with 10%nat in Hs. change (Z.to_nat 2) with 2%nat in Hs.
  assert (12 <= length hdr)%nat as Hl.
  { apply (f_equal length) in Hs. rewrite length_take, length_drop in Hs. cbn [length] in Hs. lia. }
  split; [|rewrite length_take; lia].
  rewrite <- (take_drop 10 hdr) at 1. f_equal. rewrite <- Hs.
  rewrite <- (take_drop 2 (drop 10 hdr)) at 1. f_equal. by rewrite drop_drop.
Qed.

(** C31. A 20-byte header (length field 5) filled by fill_ip_hcksum passes check_ip_hcksum
    exactly when its checksum field was 0 or 0xffff before. *)
Theorem ip_checksum_fill_then_check s m d hdr p post x y :
  packet s m d (hdr ++ p) post → ip_hdr5 hdr → slice 10 2 hdr = [x; y] →
  ∃ s', fill_ip_hcksum d s = Ok (tt, s') ∧
    check_ip_hcksum d s' = Ok (bool_decide (256 * x + y = 0 ∨ 256 * x + y = 0xffff), s').
Proof.
  intros Hp [Hl H5] Hck. pose proof (packet_bytes _ _ _ _ _ Hp) as [[Hb _]%Forall_app _].
  destruct (checksum_slot hdr x y Hck) as [Hsplit H10].
  set (c := rfc1071 hdr). set (h2 := splice 10 (be16 c) hdr).
  assert (is_u16 c) as Hc by by apply rfc1071_u16.
  assert (h2 = take 10 hdr ++ [c / 256; c mod 256] ++ drop 12 hdr) as Eh2.
  { unfold h2. rewrite Hsplit at 1. by rewrite (splice_at (take 10 hdr) [x; y] (drop 12 hdr) (be16 c) 10) by (rewrite ?H10; done). }
  assert (length h2 = 20%nat) as Hl2 by (unfold h2; rewrite length_splice; cbn [length be16]; lia).
  assert (Z.land (le_decode (slice 0 1 h2)) 15 = 5) as H52 by (unfold h2; by destruct hdr).
  assert (∃ s', fill_ip_hcksum d s = Ok (tt, s') ∧ packet s' m d (h2 ++ p) post) as (s' & Hfill & Hp').
  { apply wp_ok_tt. unfold fill_ip_hcksum, calc_ip_hcksum, ip_ver_hlen, ip_hcksum.
    mstep. mstep. apply (packet_rd8 _ _ _ _ _ Hp _ _ 0); [lia|lia|rewrite length_app; lia|].
    rewrite slice_app_l, H5 by lia. change (5 * 4) with 20.
    apply (packet_checksum _ _ _ _ _ Hp _ _ 0); [lia|lia|lia|rewrite length_app; lia|].
    rewrite (slice_prefix 20 hdr p) by lia. fold c.
    apply (packet_wr16 _ _ _ _ _ Hp _ _ 10); [lia|lia|rewrite length_app; lia|].
    intros s' P'. rewrite splice_app_l, le_encode_HTONS in P'; [exact P'|done|lia|rewrite length_le_encode; lia]. }
  exists s'. split; [done|].
  enough (wp (check_ip_hcksum d) (λ b s2, b = bool_decide (256 * x + y = 0 ∨ 256 * x + y = 0xffff) ∧ s2 = s')
    (λ _, False) s') as (b & s2 & Hr & -> & ->)%wp_ok by done.
  unfold check_ip_hcksum, calc_ip_hcksum, ip_ver_hlen.
  mstep. mstep. apply (packet_rd8 _ _ _ _ _ Hp' _ _ 0); [lia|lia|rewrite length_app; lia|].
  rewrite slice_app_l, H52 by lia. change (5 * 4) with 20.
  apply (packet_checksum _ _ _ _ _ Hp' _ _ 0); [lia|lia|lia|rewrite length_app; lia|].
  rewrite (slice_prefix 20 h2 p) by lia. mstep. split; [|done].
  rewrite Eh2. rewrite Hsplit in Hb.
  assert (c = rfc1071 (take 10 hdr ++ [x; y] ++ drop 12 hdr)) as Ec by (unfold c; by rewrite Hsplit at 1).
  rewrite Ec. apply eq_true_iff_eq. rewrite Z.eqb_eq, bool_decide_eq_true.
  apply rfc1071_store; [by rewrite H10|exact Hb|].
  destruct hdr as [|b0 hdr]; [done|].
  apply Forall_app in Hb as [Hpre [_ Hpost]%Forall_app].
  assert (0 < be_sum (take 10 (b0 :: hdr))) as Hpos.
  { destruct hdr as [|b1 hdr]; [done|]. cbn [take] in Hpre |- *. apply Forall_cons in Hpre as [Hb0 Hpre].
    apply Forall_cons in Hpre as [Hb1 Hpre]. cbn [slice] in H5. unfold slice in H5. cbn in H5.
    pose proof (be_sum_nonneg _ Hpre). unfold be_sum in *. cbn [be_words fold_right]. unfold is_u8 in *.
    assert (b0 ≠ 0) by (intros ->; done). lia. }
  pose proof (be_sum_nonneg _ Hpost). lia.
Qed.

(** C32. A segment with a zero checksum field, once filled by fill_tcp_cksum, is the segment
    with the checksum over the pseudo header and passes check_tcp_cksum, for any data. *)
Theorem tcp_checksum_fill_then_check s m d post sport dport seq ack flags wnd data src dst :
  packet s m d (tcp_segment sport dport seq ack flags wnd 0 data) post → 12 <= d →
  20 + zlen data < 2 ^ 16 → tcp_fields_ok sport dport seq ack flags wnd → Forall is_u8 data →
  ∃ s', fill_tcp_cksum d (skb_len s) src dst s = Ok (tt, s') ∧
    packet s' m d (tcp_msg src dst sport dport seq ack flags wnd data) post ∧
    check_tcp_cksum d (skb_len s') src dst s' = Ok (true, s').
Proof.
  intros Hp Hd Hlen Hf Hdata.
  assert (∃ s', fill_tcp_cksum d (skb_len s) src dst s = Ok (tt, s') ∧
    packet s' m d (tcp_msg src dst sport dport seq ack flags wnd data) post) as (s' & Hfill & Hp').
  { apply wp_ok_tt.
    pose proof (wp_fill_tcp_cksum_bytes (λ _, False) s m d post sport dport seq ack flags wnd data src dst
      (λ _ s', packet s' m d (tcp_msg src dst sport dport seq ack flags wnd data) post) Hp Hd Hlen (λ s' P, P)) as Hwp.
    exact Hwp. }
  exists s'. split_and!; [done|done|].
  enough (wp (check_tcp_cksum d (skb_len s') src dst) (λ b s2, b = true ∧ s2 = s') (λ _, False) s')
    as (b & s2 & Hr & -> & ->)%wp_ok by done.
  rewrite (pk_len _ _ _ _ _ Hp'). unfold check_tcp_cksum. mstep.
  assert (zlen (tcp_msg src dst sport dport seq ack flags wnd data) = 20 + zlen data) as Hz
    by (unfold tcp_msg; rewrite length_tcp_segment; lia).
  eapply wp_calc_tcp_cksum_bytes; [exact Hp'|done|lia|]. rewrite Hz, tcp_msg_verifies by done.
  mstep. by split.
Qed.

End LinkThm.

(** ** Witnesses *)

Lemma new_link_joins_neighbours_witness :
  let r := insert_link_between_two_nodes 3 4 (cstr "eth11") (cstr "eth21") 1 lab in
  match r with Ok _ => true | Err _ => false end = true ∧
  match r with
  | Ok (_, w') => wf w' ∧
      get_nbr_if 11 w' = Ok (Some 12%positive, w') ∧ get_nbr_if 12 w' = Ok (Some 11%positive, w') ∧
      get_nbr_node 11 w' = Ok (Some 4%positive, w') ∧ get_nbr_node 12 w' = Ok (Some 3%positive, w')
  | Err f => f = AssertFail ∨ f = OutOfFuel
  end.
Proof.
  intros r. split; [vm_compute; reflexivity|].
  assert (w_next lab = 11%positive) as Hnext by (vm_compute; reflexivity).
  pose proof (new_link_joins_neighbours 3 4 (cstr "eth11") (cstr "eth21") 1 lab wf_lab
    ltac:(by_eval) ltac:(by_eval)) as Hx.
  cbv zeta in Hx. rewrite Hnext in Hx. exact Hx.
Defined.

Lemma flood_reaches_every_other_interface_witness :
  ∃ w', send_pkt_flood 2 (Some 5%positive) (w_next talk) echo_world = Ok (false, w') ∧
    sends echo_world [(40003, echo_dgram)] w'.
Proof.
  apply (flood_reaches_every_other_interface 2 (default (mk_node [] [] init_node_nw_prop) (w_nodes talk !! 2%positive))
    (Some 5%positive) (w_next talk) echo_skb [40003] echo_world);
    [vm_compute; reflexivity|vm_compute; reflexivity|by_eval|vm_compute; reflexivity].
Defined.

Definition raw_skb (bytes : list Z) : sk_buff :=
  mk_skb None None None None None (zlen bytes) 18 (18 + zlen bytes) (18 + zlen bytes + 46)
    (replicate 18 0 ++ bytes ++ replicate 53 0).

Lemma ip_checksum_fill_then_check_witness :
  let bytes := ip_header 28 17 ip_b ip_a 0 ++ [1; 2; 3] in
  ∃ s', fill_ip_hcksum 18 (raw_skb bytes) = Ok (tt, s') ∧ check_ip_hcksum 18 s' = Ok (true, s').
Proof.
  intros bytes.
  apply (ip_checksum_fill_then_check (raw_skb bytes) (mk_meta None None None None None) 18
    (ip_header 28 17 ip_b ip_a 0) [1; 2; 3] (replicate 53 0) 0 0);
    [split; [by_eval|vm_compute; reflexivity..]|split; vm_compute; reflexivity|vm_compute; reflexivity].
Defined.

Lemma tcp_checksum_fill_then_check_witness :
  let s := raw_skb (tcp_segment 80 1000 1 100 16 1500 0 [104; 105]) in
  ∃ s', fill_tcp_cksum 18 (skb_len s) ip_a ip_b s = Ok (tt, s') ∧
    packet s' (mk_meta None None None None None) 18 (tcp_msg ip_a ip_b 80 1000 1 100 16 1500 [104; 105]) (replicate 53 0) ∧
    check_tcp_cksum 18 (skb_len s') ip_a ip_b s' = Ok (true, s').
Proof.
  intros s. apply (tcp_checksum_fill_then_check s (mk_meta None None None None None) 18 (replicate 53 0) 80 1000 1 100 16 1500
    [104; 105] ip_a ip_b);
    [split; [by_eval|vm_compute; reflexivity..]|by_eval|by_eval|split; by_eval|by_eval].
Defined.
