(* ===== verification/Widths.v ===== *)
(** * The values of the fields stay in the range of their C types

    The model keeps the integers of the program as elements of [Z] and writes
    out the wrap-around where the code computes with them.  This file shows that
    no wrap-around is missing: [typed] says that every field of every object, and
    every frame and port number in the history of the system calls, is in the
    range of its C type, and every function of the program preserves it when the
    application passes arguments in the range of theirs.

    [holds I V m] says that a computation that returns keeps the invariant [I]
    and gives a result that satisfies [V].  Like [keeps] it is closed under the
    constructs of the programs, but it also carries what is known of the values
    that are read, since these are what is written elsewhere; the tactic [walk]
    follows the code of a function. *)
From S2P Require Import Prelude Cmonad Utils Skbuff World Topology Comm Ethernet Arp Route Ip.
From S2P Require Import Icmp Udp Tcp Stack Net Graph Scenario Invariant StackSafe Reach SendThm Demo.
From stdpp Require Import strings.
#[local] Open Scope Z_scope.

Create HintDb holds.

(** ** Invariants with results *)

Section Holds.
Context {S : Type} (I : S → Prop).

Definition holds {A} (V : A → Prop) (m : M S A) : Prop :=
  ∀ s, I s → wp m (λ a s', I s' ∧ V a) (λ _, True) s.

Lemma holds_bind {A B} (V : A → Prop) (V' : B → Prop) m k :
  holds V m → (∀ a, V a → holds V' (k a)) → holds V' (bind m k).
Proof.
  intros Hm Hk s Hs. apply wp_bind. eapply wp_post; [by apply Hm|]. intros a s1 [H1 Ha]. by apply Hk.
Qed.

Lemma holds_true {A} (V : A → Prop) m : holds V m → holds (λ _, True) m.
Proof. intros Hm s Hs. eapply wp_post; [by apply Hm|]. by intros a s' [? _]. Qed.

Lemma holds_ret {A} (V : A → Prop) a : V a → holds V (ret a).
Proof. intros Ha s Hs. by apply wp_ret. Qed.

Lemma holds_raise {A} (V : A → Prop) f : holds V (raise f).
Proof. intros s Hs. by apply wp_raise. Qed.

Lemma holds_gets {A} (V : A → Prop) f : (∀ s, I s → V (f s)) → holds V (gets f).
Proof. intros Hf s Hs. apply wp_gets. auto. Qed.

Lemma holds_modify f : (∀ s, I s → I (f s)) → holds (λ _, True) (modify f).
Proof. intros Hf s Hs. apply wp_modify. auto. Qed.

Lemma holds_lift {A} (V : A → Prop) r : (∀ a, r = Ok a → V a) → holds V (lift r).
Proof. intros Hr s Hs. apply wp_lift. destruct r; auto. Qed.

Lemma holds_assert b : holds (λ _, True) (assert_ b).
Proof. destruct b; [by apply holds_ret|apply holds_raise]. Qed.

Lemma holds_nonnull {A} (p : option A) : holds (λ _, True) (nonnull p).
Proof. destruct p; [by apply holds_ret|apply holds_raise]. Qed.

Lemma holds_ok {A} (V : A → Prop) m s a s' : holds V m → I s → m s = Ok (a, s') → I s' ∧ V a.
Proof. intros Hm Hs E. specialize (Hm s Hs). unfold wp in Hm. by rewrite E in Hm. Qed.
End Holds.

(** ** The types of the fields *)

(** What the values of a structure of the program satisfy. *)
Class Typed (A : Type) := typed_val : A → Prop.

Definition is_u64 (z : Z) : Prop := 0 <= z < 2 ^ 64.
Definition is_mac (mac : list Z) : Prop := length mac = 6%nat ∧ Forall is_u8 mac.

#[export] Instance typed_graph : Typed graph := λ _, True.
#[export] Instance typed_link : Typed link := λ l, is_u32 (l_cost l).
#[export] Instance typed_intf : Typed intf := λ it,
  is_mac (IF_MAC it) ∧ is_u32 (IF_IP it) ∧ is_u16 (comm_port (if_comm it)).
#[export] Instance typed_rt_entry : Typed rt_entry := λ r, is_u32 (rt_dst r) ∧ is_u32 (rt_next r).
#[export] Instance typed_node : Typed node := λ nd,
  is_u32 (n_lb_addr (n_nw nd)) ∧ Forall typed_rt_entry (n_rt_table (n_nw nd)).
#[export] Instance typed_arp : Typed arp_entry := λ en, is_u32 (arp_ip en) ∧ is_mac (arp_mac en).
#[export] Instance typed_udp : Typed udp_sock := λ us, is_u16 (us_local_port us).
#[export] Instance typed_tcp : Typed tcp_sock := λ ts, is_u32 (ts_local_ip ts) ∧ is_u16 (ts_local_port ts).
#[export] Instance typed_conn : Typed tcp_connection_sock := λ cn,
  is_u32 (tc_remote_ip cn) ∧ is_u16 (tc_remote_port cn) ∧
  is_u32 (tc_snt_una cn) ∧ is_u32 (tc_snt_nxt cn) ∧ is_u16 (tc_snt_wnd cn) ∧ is_u32 (tc_snt_iss cn) ∧
  is_u32 (tc_rcv_nxt cn) ∧ is_u16 (tc_rcv_wnd cn) ∧ is_u32 (tc_rcv_irs cn).
#[export] Instance typed_skb : Typed sk_buff := λ s, is_u64 (skb_len s) ∧ Forall is_u8 (skb_head s).

Definition typed_event (e : event) : Prop :=
  match e with
  | EBind _ port _ => is_u16 port
  | ESendto _ port bytes _ => is_u16 port ∧ Forall is_u8 bytes
  | EWrite _ bytes _ | ESendCallback bytes _ | EReceiveCallback bytes _ => Forall is_u8 bytes
  | _ => True
  end.

Definition typed_heap {A} `{Typed A} (m : gmap ptr A) : Prop := map_Forall (λ _, typed_val) m.

Record typed (w : world) : Prop := {
  ty_nodes : typed_heap (w_nodes w);
  ty_intfs : typed_heap (w_intfs w);
  ty_links : typed_heap (w_links w);
  ty_skbs : typed_heap (w_skbs w);
  ty_arps : typed_heap (w_arps w);
  ty_udps : typed_heap (w_udps w);
  ty_tcps : typed_heap (w_tcps w);
  ty_conns : typed_heap (w_conns w);
  ty_port : is_u16 (w_next_udp_port w);
  ty_trace : Forall typed_event (w_trace w);
}.

(** A heap whose objects are part of the invariant. *)
Class TypedHeap A `{HeapLaws A, Typed A} : Prop := {
  th_get w : typed w → typed_heap (hget w);
  th_set w m : typed w → typed_heap m → typed (hset m w);
}.

#[export] Instance th_graphs : TypedHeap graph.
Proof. split; [by intros w _ p a|]. intros w m [] _. by split. Qed.
#[export] Instance th_nodes : TypedHeap node.
Proof. split; [by intros w []|]. intros w m [] ?. by split. Qed.
#[export] Instance th_intfs : TypedHeap intf.
Proof. split; [by intros w []|]. intros w m [] ?. by split. Qed.
#[export] Instance th_links : TypedHeap link.
Proof. split; [by intros w []|]. intros w m [] ?. by split. Qed.
#[export] Instance th_skbs : TypedHeap sk_buff.
Proof. split; [by intros w []|]. intros w m [] ?. by split. Qed.
#[export] Instance th_arps : TypedHeap arp_entry.
Proof. split; [by intros w []|]. intros w m [] ?. by split. Qed.
#[export] Instance th_udps : TypedHeap udp_sock.
Proof. split; [by intros w []|]. intros w m [] ?. by split. Qed.
#[export] Instance th_tcps : TypedHeap tcp_sock.
Proof. split; [by intros w []|]. intros w m [] ?. by split. Qed.
#[export] Instance th_conns : TypedHeap tcp_connection_sock.
Proof. split; [by intros w []|]. intros w m [] ?. by split. Qed.

Lemma typed_set_next p w : typed w → typed (set_next p w).
Proof. intros []. by split. Qed.

Lemma typed_trace e w : typed_event e → typed w → typed (set_trace (w_trace w ++ [e]) w).
Proof. intros He []. split; try done. by apply Forall_app_2; [|apply Forall_singleton]. Qed.

(** ** Rules for the statements on the heap *)

Section HeapStatements.
Context {A : Type} `{TypedHeap A}.

Lemma holds_load p : holds typed typed_val (load (A := A) p).
Proof. intros w Hw. apply wp_load_inv; [|done]. intros a Ha. split; [done|]. by apply (th_get w Hw p). Qed.

Lemma holds_store p (a : A) : typed_val a → holds typed (λ _, True) (store p a).
Proof.
  intros Ha w Hw. unfold wp, store. destruct (hget w !! p); [|done]. split; [|done].
  apply th_set; [done|]. apply map_Forall_insert_2; [done|]. by apply th_get.
Qed.

Lemma holds_update p (f : A → A) :
  (∀ a, typed_val a → typed_val (f a)) → holds typed (λ _, True) (update p f).
Proof. intros Hf. eapply holds_bind; [apply holds_load|]. intros a Ha. apply holds_store. auto. Qed.

Lemma holds_alloc (a : A) : typed_val a → holds typed (λ _, True) (alloc a).
Proof.
  intros Ha w Hw. apply wp_alloc. split; [|done]. apply th_set; [by apply typed_set_next|].
  apply map_Forall_insert_2; [done|]. by apply th_get.
Qed.

Lemma holds_dealloc p : holds typed (λ _, True) (dealloc (A := A) p).
Proof.
  intros w Hw. unfold wp, dealloc. destruct (hget w !! p); [|done]. split; [|done].
  apply th_set; [done|]. apply map_Forall_delete. by apply th_get.
Qed.
End HeapStatements.

Lemma holds_emit e : typed_event e → holds typed (λ _, True) (emit e).
Proof. intros He. apply holds_modify. intros w. by apply typed_trace. Qed.
Lemma holds_print m : holds typed (λ _, True) (print m).
Proof. by apply holds_emit. Qed.

Lemma holds_on_skb {A} (V : A → Prop) k m : holds typed_val V m → holds typed V (on_skb k m).
Proof.
  intros Hm. unfold on_skb. eapply holds_bind; [apply holds_load|]. intros s Hs.
  specialize (Hm s Hs). unfold wp in Hm. destruct (m s) as [[a s']|f]; [|apply holds_raise].
  destruct Hm. eapply holds_bind; [by apply holds_store|]. intros _ _. by apply holds_ret.
Qed.

Lemma holds_first_intf test slots :
  (∀ it, typed_val it → holds typed (λ _, True) (test it)) → holds typed (λ _, True) (first_intf test slots).
Proof.
  intros Ht. induction slots as [|[i|] slots IH]; cbn [first_intf]; [by apply holds_ret| |done].
  eapply holds_bind; [apply holds_load|]. intros it Hit.
  eapply holds_bind; [by apply Ht|]. intros [] _; [by apply holds_ret|done].
Qed.

(** ** Rules for the statements on a buffer *)

Abbreviation sholds := (holds (typed_val (A := sk_buff))).

Lemma wrap64_u64 z : is_u64 (wrap64 z).
Proof. unfold is_u64, wrap64. apply Z.mod_pos_bound. lia. Qed.

Lemma is_u8_0 : is_u8 0. Proof. unfold is_u8. lia. Qed.
Lemma is_u16_0 : is_u16 0. Proof. unfold is_u16. lia. Qed.
Lemma is_u32_0 : is_u32 0. Proof. unfold is_u32. lia. Qed.
#[export] Hint Resolve wrap64_u64 is_u8_0 is_u16_0 is_u32_0 wrap16_u16 wrap32_u32 le_encode_bytes : holds.
#[export] Hint Resolve HTONS_u16 HTONL_u32 Forall_replicate : holds.

Section Buffer.
Lemma holds_window l (d t : sk_buff → Z) :
  (∀ s, is_u64 (skb_len s) → is_u64 (l s)) →
  sholds (λ _, True) (modify (λ s, skb_set_window (l s) (d s) (t s) s)).
Proof. intros Hl. apply holds_modify. intros s []. split; [by apply Hl|done]. Qed.

Lemma holds_s_rdn o n : sholds (λ bs, Forall is_u8 bs ∧ length bs = Z.to_nat n) (s_rdn o n).
Proof.
  intros s Hs. unfold s_rdn, wp, rdn. zbool; cbn; try done.
  split; [exact Hs|]. split; [apply Forall_slice, Hs|apply length_slice; lia].
Qed.

Lemma holds_s_rd_le n o : sholds (λ v, 0 <= v < 256 ^ Z.of_nat n) (λ s, lift (rd_le n (skb_head s) o) s).
Proof.
  intros s Hs. pose proof (holds_s_rdn o (Z.of_nat n) s Hs) as Hb. unfold wp, s_rdn, rd_le in *.
  destruct (rdn _ _ _) as [bs|]; cbn in *; [|done]. destruct Hb as (? & ? & Hl). split; [done|].
  rewrite Nat2Z.id in Hl. rewrite <- Hl. by apply le_decode_bound.
Qed.
Lemma holds_s_rd8 o : sholds is_u8 (s_rd8 o). Proof. apply (holds_s_rd_le 1). Qed.
Lemma holds_s_rd16 o : sholds is_u16 (s_rd16 o). Proof. apply (holds_s_rd_le 2). Qed.
Lemma holds_s_rd32 o : sholds is_u32 (s_rd32 o). Proof. apply (holds_s_rd_le 4). Qed.

Lemma holds_s_wrn o bs : Forall is_u8 bs → sholds (λ _, True) (s_wrn o bs).
Proof.
  intros Hb s []. unfold wp, s_wrn, wrn. zbool; cbn; try done.
  split; [|done]. split; [done|]. by apply Forall_splice.
Qed.
Lemma holds_s_wr8 o v : sholds (λ _, True) (s_wr8 o v). Proof. apply holds_s_wrn, le_encode_bytes. Qed.
Lemma holds_s_wr16 o v : sholds (λ _, True) (s_wr16 o v). Proof. apply holds_s_wrn, le_encode_bytes. Qed.
Lemma holds_s_wr32 o v : sholds (λ _, True) (s_wr32 o v). Proof. apply holds_s_wrn, le_encode_bytes. Qed.
End Buffer.

Lemma holds_get {S} (I : S → Prop) : holds I I get.
Proof. intros s Hs. by apply wp_get. Qed.

#[export] Hint Extern 1 (holds typed _ (load _)) => apply holds_load : holds.
#[export] Hint Extern 1 (holds typed _ (dealloc _)) => apply holds_dealloc : holds.
#[export] Hint Resolve holds_print holds_on_skb holds_get holds_assert holds_nonnull
  holds_s_rdn holds_s_rd8 holds_s_rd16 holds_s_rd32 holds_s_wr8 holds_s_wr16 holds_s_wr32 : holds.

(** Fields of typed objects. *)
Lemma typed_if_mac it : typed_val it → is_mac (IF_MAC it). Proof. by intros []. Qed.
Lemma typed_if_ip it : typed_val it → is_u32 (IF_IP it). Proof. by intros (_ & ? & _). Qed.
Lemma typed_arp_mac en : typed_val en → is_mac (arp_mac en). Proof. by intros []. Qed.
Lemma is_mac_bytes mac : is_mac mac → Forall is_u8 mac. Proof. by intros []. Qed.
Lemma is_mac_read bs : Forall is_u8 bs ∧ length bs = Z.to_nat MAC_ADDR_SIZE → is_mac bs.
Proof. by intros []. Qed.
#[export] Hint Resolve typed_if_mac typed_if_ip typed_arp_mac is_mac_bytes is_mac_read : holds.

(** Values that are in range because they were read from typed objects. *)
Ltac in_range_fields :=
  unfold typed_val, typed_graph, typed_link, typed_intf, typed_rt_entry, typed_node, typed_arp, typed_udp,
    typed_tcp, typed_conn, typed_skb, is_mac in *;
  repeat match goal with x : intf |- _ => destruct x | x : node |- _ => destruct x
    | x : tcp_connection_sock |- _ => destruct x end;
  destruct_and?; cbn in *; split_and?; eauto with holds.
Ltac in_range := intros; first [solve [eauto 4 with holds] | in_range_fields].

(** Walking through a program; [holds] holds the facts about the functions that
    it calls.  What is known of a value that is read becomes a hypothesis. *)
Ltac read_value Ha :=
  cbv beta in Ha;
  lazymatch type of Ha with
  | True => clear Ha
  | _ ∧ _ => pose proof (proj1 Ha)
  | _ => idtac
  end.
Ltac walk_step :=
  lazymatch goal with
  | |- holds _ _ (bind _ _) =>
      first [ eapply holds_bind; [solve [eauto 4 with holds]|let Ha := fresh "Hval" in intros ? Ha; read_value Ha]
            | apply (holds_bind _ (λ _, True)); [|intros ? _] ]
  | |- holds _ _ (ret _) => apply holds_ret; try solve [in_range]
  | |- holds _ _ (raise _) => apply holds_raise
  | |- holds _ _ (gets _) => apply holds_gets; try solve [in_range]
  | |- holds _ _ (lift _) => apply holds_lift; try solve [in_range]
  | |- holds _ _ (on_skb _ _) => apply holds_on_skb
  | |- holds _ _ (s_wrn _ _) => apply holds_s_wrn; try solve [in_range]
  | |- holds _ _ (update _ _) => apply holds_update; try solve [in_range]
  | |- holds _ _ (alloc _) => apply holds_alloc; try solve [in_range]
  | |- holds _ _ (emit _) => apply holds_emit; try solve [in_range]
  | |- holds typed_val _ (modify _) => apply holds_modify; try solve [in_range]
  | |- holds typed _ (modify _) => apply holds_modify; let w := fresh in intros w []; try solve [split; first [done | cbn; eauto with holds]]
  | |- holds _ _ (first_intf _ _) => apply holds_first_intf; intros ? ?
  | |- holds _ _ (match ?x with _ => _ end) => destruct x eqn:?
  | |- holds _ _ _ => first [ solve [eauto 4 with holds] | eapply holds_true; solve [eauto 4 with holds] ]
  end.
Ltac walk := repeat (cbv beta zeta; walk_step).

(** ** Buffers *)

Lemma holds_skb_reserve n : sholds (λ _, True) (skb_reserve n).
Proof. unfold skb_reserve. walk. Qed.
Lemma holds_skb_push n : sholds (λ _, True) (skb_push n).
Proof. unfold skb_push. walk. Qed.
Lemma holds_skb_pull n : sholds (λ _, True) (skb_pull n).
Proof. unfold skb_pull. walk. Qed.
Lemma holds_skb_put n : sholds (λ _, True) (skb_put n).
Proof. unfold skb_put. walk. Qed.
#[export] Hint Resolve holds_skb_reserve holds_skb_push holds_skb_pull holds_skb_put : holds.

Lemma typed_alloc_skb n : typed_val (alloc_skb n).
Proof. split; [unfold is_u64; cbn; lia|]. apply Forall_replicate, is_u8_0. Qed.
#[export] Hint Resolve typed_alloc_skb : holds.

(** ** The network below IP *)

Section Link.
Context `{Os}.


Lemma holds_skb_bytes k : holds typed (Forall is_u8) (skb_bytes k).
Proof.
  unfold skb_bytes. walk. intros bs Hbs. unfold rdn in Hbs. repeat case_match; simplify_eq.
  apply Forall_slice. in_range.
Qed.

Lemma holds_get_nbr_if i : holds typed (λ _, True) (get_nbr_if i).
Proof. unfold get_nbr_if. walk. Qed.
#[local] Hint Resolve holds_skb_bytes holds_get_nbr_if : holds.

Lemma holds_send_bytes_out bytes i : Forall is_u8 bytes → holds typed (λ _, True) (send_bytes_out bytes i).
Proof.
  intros Hb. unfold send_bytes_out, udp_send_bytes, tuntap_send_bytes, sys_sendto, sys_write. walk.
Qed.
#[local] Hint Resolve holds_send_bytes_out : holds.

Lemma holds_send_pkt_out i k : holds typed (λ _, True) (send_pkt_out i k).
Proof. unfold send_pkt_out, free_skb. walk. Qed.
#[local] Hint Resolve holds_send_pkt_out : holds.

Lemma holds_ethernet_output i mac proto k :
  is_mac mac → holds typed (λ _, True) (ethernet_output i mac proto k).
Proof. intros []. unfold ethernet_output. walk. Qed.
#[local] Hint Resolve holds_ethernet_output : holds.

Lemma holds_arp_lookup n ip : holds typed (λ _, True) (arp_table_lookup n ip).
Proof.
  unfold arp_table_lookup. walk. generalize (n_arp_table (n_nw a)). intros l.
  induction l as [|e l IH]; cbn [arp_lookup_from]; walk.
Qed.
#[local] Hint Resolve holds_arp_lookup : holds.

Lemma holds_fill_arp_hdr opcode it hw ip :
  typed_val it → is_mac hw → holds (typed_val (A := sk_buff)) (λ _, True) (fill_arp_hdr opcode it hw ip).
Proof. intros. unfold fill_arp_hdr. walk. Qed.
#[local] Hint Resolve holds_fill_arp_hdr : holds.

Lemma is_mac_zero : is_mac [0; 0; 0; 0; 0; 0].
Proof. split; [done|]. repeat constructor; done. Qed.
Lemma is_mac_broadcast : is_mac layer2_fill_with_broadcast_mac.
Proof. split; [done|]. repeat constructor; done. Qed.
#[local] Hint Resolve is_mac_zero is_mac_broadcast : holds.

Lemma holds_arp_request i ip : holds typed (λ _, True) (send_arp_broadcast_request i ip).
Proof. unfold send_arp_broadcast_request, free_skb. walk. Qed.
#[local] Hint Resolve holds_arp_request : holds.

Lemma holds_send_pending e pkts : holds typed (λ _, True) (send_pending e pkts).
Proof. induction pkts as [|k pkts IH]; cbn [send_pending]; unfold free_skb; walk. Qed.
#[local] Hint Resolve holds_send_pending : holds.

Lemma holds_arp_input k : holds typed (λ _, True) (arp_input k).
Proof.
  unfold arp_input, process_arp_broadcast_request, send_arp_reply_msg, process_arp_reply_msg,
    arp_table_update_from_arp_reply, free_skb. walk.
Qed.
#[local] Hint Resolve holds_arp_input : holds.

(** ** The IP layer, for a local delivery that keeps the invariant *)

Lemma land_u32 ip m : is_u32 ip → is_u32 (Z.land ip m).
Proof.
  unfold is_u32. intros Hip. assert (Z.land ip (Z.ones 32) = ip) as E by (rewrite Z.land_ones, Z.mod_small; lia).
  rewrite <- E, <- Z.land_assoc, (Z.land_comm _ m), Z.land_assoc, Z.land_ones by lia. apply Z.mod_pos_bound. lia.
Qed.

Lemma holds_is_ip_local n ip : holds typed (λ _, True) (is_ip_local n ip).
Proof. unfold is_ip_local. walk. Qed.
#[local] Hint Resolve holds_is_ip_local : holds.

(** The lookup returns one of the routes. *)
Lemma rt_lookup_from_elem ip routes m d mask e :
  rt_lookup_from ip routes m d mask = Ok (Some e) → m = Some e ∨ d = Some e ∨ e ∈ routes.
Proof.
  revert m d mask. induction routes as [|r routes IH]; intros m d mask; cbn [rt_lookup_from].
  { destruct m; intros [= ->]; auto. }
  destruct (rt_dst r =? 0).
  { intros [?|[[= ->]|?]]%IH; rewrite elem_of_cons; auto. }
  destruct (IP_NET_EQ _ _ _) as [[]|]; cbn [rbind andb]; [|intros Hr|done].
  - destruct (mask <? rt_mask r); intros Hr; apply IH in Hr as [Hr|[?|?]]; rewrite elem_of_cons; auto.
    injection Hr as ->. auto.
  - apply IH in Hr as [?|[?|?]]; rewrite elem_of_cons; auto.
Qed.

Lemma typed_route nd ip e :
  typed_val nd → rt_lookup_lpm (n_rt_table (n_nw nd)) ip = Ok (Some e) → typed_val e.
Proof.
  intros [_ Hr] [?|[?|He]]%rt_lookup_from_elem; [done..|]. rewrite Forall_forall in Hr. by apply Hr.
Qed.

Lemma holds_calc_checksum hdr n : sholds (λ _, True) (s_calc_checksum hdr n).
Proof. intros s Hs. unfold s_calc_checksum, wp, lift. by destruct (calc_checksum_16 _ _ _). Qed.
#[local] Hint Resolve holds_calc_checksum : holds.

Section Delivery.
Context (deliver : ptr → W bool) (Hdeliver : ∀ k, holds typed (λ _, True) (deliver k)).
#[local] Hint Resolve Hdeliver : holds.

Lemma holds_find_or_add n ip i : is_u32 ip → holds typed (λ _, True) (find_or_add_arp_entry n ip i).
Proof. intros. unfold find_or_add_arp_entry, arp_table_entry_add. walk. Qed.
#[local] Hint Resolve holds_find_or_add : holds.

Lemma holds_ip_transmit n entry dst k :
  typed_val entry → is_u32 dst → holds typed (λ _, True) (ip_transmit n entry dst k).
Proof.
  intros [_ Hn] Hd. unfold ip_transmit. apply (holds_bind _ is_u32); [walk|]. intros ip Hip. walk.
Qed.
#[local] Hint Resolve holds_ip_transmit : holds.

Lemma holds_fill_ip_hcksum hdr : sholds (λ _, True) (fill_ip_hcksum hdr).
Proof. unfold fill_ip_hcksum, calc_ip_hcksum. walk. Qed.
#[local] Hint Resolve holds_fill_ip_hcksum : holds.

Lemma holds_ip_postroute n k : holds typed (λ _, True) (ip_postroute deliver n k).
Proof.
  unfold ip_postroute. walk_step. walk_step. walk_step.
  apply (holds_bind _ (λ r, ∀ e, r = Some e → typed_val e)).
  { apply holds_lift. intros r Hr e ->. by eapply typed_route. }
  intros [e|] He; [specialize (He e eq_refl)|]; walk.
Qed.
#[local] Hint Resolve holds_ip_postroute : holds.

Lemma holds_ip_output_with n ip proto k : holds typed (λ _, True) (ip_output_with deliver n ip proto k).
Proof. unfold ip_output_with, init_ip_hdr. walk. Qed.
Lemma holds_ip_preroute k : holds typed (λ _, True) (ip_preroute deliver k).
Proof. unfold ip_preroute, ip_forward. walk. Qed.
End Delivery.
End Link.

(** ** The protocols, above such an IP layer *)

Section Protocols.
Context `{L : IpLayer} (Hout : ∀ n ip proto k, holds typed (λ _, True) (ip_output n ip proto k)).
#[local] Hint Resolve Hout holds_calc_checksum : holds.

Lemma holds_icmp_out n ip type code payload :
  Forall is_u8 payload → holds typed (λ _, True) (icmp_out n ip type code payload).
Proof. intros. unfold icmp_out, build_icmp, fill_icmp_cksum, calc_icmp_cksum, free_skb. walk. Qed.
#[local] Hint Resolve holds_icmp_out : holds.
Lemma holds_icmp_input k : holds typed (λ _, True) (icmp_input k).
Proof. unfold icmp_input, skb_names, free_skb. walk. Qed.

Lemma holds_udp_find i port : holds typed (λ _, True) (udp_socks_manager_find i port).
Proof.
  unfold udp_socks_manager_find. walk. generalize (p_udp_socks (if_nw a)). intros l.
  induction l as [|u l IH]; cbn [udp_find_from]; walk.
Qed.
#[local] Hint Resolve holds_udp_find : holds.
Lemma holds_udp_input k : holds typed (λ _, True) (udp_input k).
Proof. unfold udp_input. walk. Qed.
Lemma holds_udp_sendto fd buff ip port :
  Forall is_u8 buff → holds typed (λ _, True) (udp_sendto fd buff ip port).
Proof. intros Hb%(Forall_take _ (Z.to_nat MAX_UDP_PAYLOAD)). unfold udp_sendto, udp_out, build_udp, is_good_udp_sock. walk. Qed.

Lemma holds_tcp_find i port : holds typed (λ _, True) (tcp_socks_manager_find i port).
Proof.
  unfold tcp_socks_manager_find. walk. generalize (p_tcp_socks (if_nw a)). intros l.
  induction l as [|t l IH]; cbn [tcp_find_from]; walk.
Qed.
#[local] Hint Resolve holds_tcp_find : holds.
Lemma holds_conn_find t ip port : holds typed (λ _, True) (find_matching_connection t ip port).
Proof.
  unfold find_matching_connection. walk. generalize (ts_conns a). intros l.
  induction l as [|c l IH]; cbn [conn_find_from]; walk.
Qed.
#[local] Hint Resolve holds_conn_find : holds.

Lemma holds_fill_tcp_cksum hdr size src dst : sholds (λ _, True) (fill_tcp_cksum hdr size src dst).
Proof. unfold fill_tcp_cksum, calc_tcp_cksum. walk. Qed.
#[local] Hint Resolve holds_fill_tcp_cksum : holds.
Lemma holds_build_tcp_ports sport dport : sholds (λ _, True) (build_tcp_ports sport dport).
Proof. unfold build_tcp_ports. walk. Qed.
Lemma holds_build_tcp_rest hdr cn flags buff :
  Forall is_u8 buff → sholds (λ _, True) (build_tcp_rest hdr cn flags buff).
Proof. intros. unfold build_tcp_rest. walk. Qed.
#[local] Hint Resolve holds_build_tcp_ports holds_build_tcp_rest : holds.

Lemma holds_tcp_out c buff flags : Forall is_u8 buff → holds typed (λ _, True) (tcp_out c buff flags).
Proof. intros. unfold tcp_out. walk. Qed.
#[local] Hint Resolve holds_tcp_out : holds.

Lemma typed_new_connection t ip port wnd seq :
  is_u32 ip → is_u16 port → is_u16 wnd → is_u32 seq → typed_val (new_connection t ip port wnd seq).
Proof. intros. split_and!; cbn; eauto with holds. by unfold is_u16, TCP_WINDOW_SIZE. Qed.
#[local] Hint Resolve typed_new_connection : holds.

Lemma holds_tcp_input k : holds typed (λ _, True) (tcp_input k).
Proof.
  unfold tcp_input, handle_estab, handle_syn_sent, handle_new_connection, close_connection. walk.
Qed.
Lemma holds_tcp_send fd buff : Forall is_u8 buff → holds typed (λ _, True) (tcp_send fd buff).
Proof.
  intros Hb%(Forall_take _ (Z.to_nat MAX_TCP_PAYLOAD)).
  unfold tcp_send, estab_connection, is_good_tcp_connection_sock. walk.
Qed.

Lemma holds_ip_input_body k : holds typed (λ _, True) (ip_input_body k).
Proof.
  pose proof holds_icmp_input. pose proof holds_tcp_input. pose proof holds_udp_input.
  unfold ip_input_body. walk.
Qed.
End Protocols.

(** ** The stack *)

Section Stack.
Context `{Os}.

Lemma holds_ip_input_fuel fuel k : holds typed (λ _, True) (ip_input_fuel fuel k).
Proof.
  revert k. induction fuel as [|fuel IH]; intros k; cbn [ip_input_fuel]; [apply holds_raise|].
  apply holds_ip_input_body. intros n ip proto k'. by apply holds_ip_output_with.
Qed.

Lemma holds_ip_output n ip proto k : holds typed (λ _, True) (ip_output n ip proto k).
Proof. apply holds_ip_output_with. intros k'. apply holds_ip_input_fuel. Qed.

Lemma holds_ethernet_input k : holds typed (λ _, True) (ethernet_input k).
Proof.
  pose proof (holds_ip_preroute ip_input (holds_ip_input_fuel STACK_FUEL)).
  pose proof holds_arp_input. unfold ethernet_input, ethernet_input_qualify. walk.
Qed.
#[local] Hint Resolve holds_ethernet_input holds_skb_bytes : holds.

Lemma holds_pkt_receive k : holds typed (λ _, True) (pkt_receive k).
Proof. unfold pkt_receive, switch_input. walk. Qed.
#[local] Hint Resolve holds_pkt_receive : holds.

Lemma received_bytes_u8 n r : received_ok r → Forall is_u8 (received_bytes n r).
Proof. destruct r; cbn; intros Hr; [constructor|by apply Forall_take]. Qed.

Lemma holds_recv_bytes ops i n r :
  received_ok r → holds typed (λ nb, Forall is_u8 nb.2)
    match ops with udp_comm_ops => udp_recv_bytes i n r | tuntap_comm_ops => tuntap_recv_bytes i n r end.
Proof. intros Hr%(received_bytes_u8 n). unfold udp_recv_bytes, tuntap_recv_bytes. walk. Qed.

Lemma holds_recv_one fd r : received_ok r → holds typed (λ _, True) (recv_one fd r).
Proof.
  intros Hr. unfold recv_one, free_skb. walk_step; [walk|]. destruct a as [i|]; [|walk].
  do 5 walk_step. eapply holds_bind; [by apply holds_recv_bytes|]. intros [n bytes] Hb. cbn in Hb. walk.
Qed.
#[local] Hint Resolve holds_recv_one : holds.

(** ** The calls of the application *)

Lemma holds_next_udp_port : holds typed is_u16 get_next_udp_port.
Proof.
  unfold get_next_udp_port. eapply holds_bind; [apply holds_gets; intros w; apply ty_port|]. intros p Hp. walk.
Qed.
#[local] Hint Resolve holds_next_udp_port : holds.

Lemma holds_bind_loop fuel i fd : holds typed (λ _, True) (bind_loop fuel i fd).
Proof.
  induction fuel as [|fuel IH]; cbn [bind_loop]; [apply holds_raise|]. unfold update_comm, sys_bind. walk.
Qed.
#[local] Hint Resolve holds_bind_loop : holds.

Lemma typed_init_nw it : typed_val it → typed_val (if_set_nw init_intf_nw_prop it).
Proof. intros (_ & _ & ?). pose proof is_mac_zero. split_and!; cbn; auto with holds. Qed.
Lemma typed_set_mac code it : typed_val it → typed_val (if_set_nw (p_set_mac (le_encode 6 code) (if_nw it)) it).
Proof. intros (_ & ? & ?). split_and!; [by split; [apply length_le_encode|apply le_encode_bytes]|done..]. Qed.
#[local] Hint Resolve typed_init_nw typed_set_mac : holds.

Lemma holds_init_interface i name n l ct : holds typed (λ _, True) (init_interface i name n l ct).
Proof.
  unfold init_interface, interface_assign_mac_address, init_comm, udp_init_comm, tuntap_init_comm, tun_alloc,
    set_fd_comm, sys_socket, sys_open_tun, sys_ioctl_tun, update_comm. walk.
Qed.
#[local] Hint Resolve holds_init_interface : holds.

Lemma holds_matching_intf n ip : holds typed (λ _, True) (_get_matching_interface n ip).
Proof. unfold _get_matching_interface. walk. Qed.
#[local] Hint Resolve holds_matching_intf : holds.

Lemma holds_s_take n : sholds (Forall is_u8) (s_take n).
Proof. unfold s_take. walk. Qed.
#[local] Hint Resolve holds_s_take : holds.

(** What the socket functions give back. *)
Definition given (V : Z → Prop) (o : option Z) : Prop := match o with Some v => V v | None => True end.
Definition typed_result (r : recv_result) : Prop :=
  Forall is_u8 (rr_bytes r) ∧ given is_u32 (rr_ip r) ∧ given is_u16 (rr_port r).

Lemma typed_recv_error : typed_result recv_error.
Proof. done. Qed.
#[local] Hint Resolve typed_recv_error : holds.

Lemma holds_udp_recvfrom fd size ip port : holds typed typed_result (udp_recvfrom fd size ip port).
Proof.
  unfold udp_recvfrom, is_good_udp_sock, free_skb. walk_step; [walk|]. destruct a as [u|]; [|walk].
  walk_step. walk_step; [walk|]. destruct (last _) as [k|]; [|walk]. walk_step. walk_step.
  apply (holds_bind _ (given is_u32)); [walk|]. intros oip Hip.
  apply (holds_bind _ (given is_u16)); [walk|]. intros oport Hport. walk. by split_and!.
Qed.

Lemma holds_tcp_recv fd size : holds typed (λ r, Forall is_u8 r.2) (tcp_recv fd size).
Proof. unfold tcp_recv, estab_connection, is_good_tcp_connection_sock, free_skb. walk. Qed.

Definition typed_accept (r : accept_result) : Prop :=
  match r.2 with Some (ip, port) => is_u32 ip ∧ is_u16 port | None => True end.

Lemma holds_accept_from conns : holds typed typed_accept (accept_from conns).
Proof.
  induction conns as [|c conns IH]; cbn [accept_from]; walk.

Qed.
#[local] Hint Resolve holds_accept_from : holds.
Lemma holds_tcp_accept fd : holds typed typed_accept (tcp_accept fd).
Proof. unfold tcp_accept, is_good_tcp_sock. walk. Qed.

(** ** Destruction *)

Lemma holds_destroy_interface i : holds typed (λ _, True) (destroy_interface i).
Proof.
  unfold destroy_interface, destroy_comm, udp_destroy_comm, tuntap_destroy_comm, set_fd_comm, update_comm. walk.
Qed.
#[local] Hint Resolve holds_destroy_interface : holds.

Lemma holds_clear_slots n1 n2 l idxs : holds typed (λ _, True) (clear_slots n1 n2 l idxs).
Proof. induction idxs as [|k idxs IH]; cbn [clear_slots]; unfold clear_slot; walk. Qed.
#[local] Hint Resolve holds_clear_slots : holds.

Lemma holds_destroy_link l : holds typed (λ _, True) (destroy_link l).
Proof. unfold destroy_link. walk. Qed.
#[local] Hint Resolve holds_destroy_link : holds.

Lemma holds_destroy_slots n idxs : holds typed (λ _, True) (destroy_slots n idxs).
Proof. induction idxs as [|k idxs IH]; cbn [destroy_slots]; walk. Qed.
#[local] Hint Resolve holds_destroy_slots : holds.

Lemma holds_free_arps l : holds typed (λ _, True) (free_arp_entries l).
Proof. induction l as [|e l IH]; cbn [free_arp_entries]; walk. Qed.
#[local] Hint Resolve holds_free_arps : holds.

Lemma holds_destroy_node n : holds typed (λ _, True) (destroy_node n).
Proof.
  unfold destroy_node, unlink_node, destroy_node_nw_prop, destroy_arp_table, destroy_mac_table, destroy_rt_table. walk.
Qed.
#[local] Hint Resolve holds_destroy_node : holds.

Lemma holds_destroy_graph g : holds typed (λ _, True) (destroy_graph g).
Proof.
  unfold destroy_graph. walk. generalize (g_nodes a). intros l.
  induction l as [|n l IH]; cbn [destroy_nodes]; walk.
Qed.
#[local] Hint Resolve holds_destroy_graph : holds.

(** ** Every state that typed calls reach *)

(** The arguments of the call are in the range of the types of the parameters. *)
Definition call_typed (c : call) : Prop :=
  match c with
  | InsertLink _ _ _ _ cost => is_u32 cost
  | AddRoute _ dst _ next _ => is_u32 dst ∧ is_u32 next
  | UdpBind _ ip port | TcpBind _ ip port => is_u32 ip ∧ is_u16 port
  | UdpSendto _ buff ip port => Forall is_u8 buff ∧ is_u32 ip ∧ is_u16 port
  | TcpSend _ buff => Forall is_u8 buff
  | Receive _ r => received_ok r
  | _ => True
  end.

Lemma typed_add_route dst mask next i nd :
  is_u32 dst → is_u32 next → typed_val nd →
  typed_val (n_set_nw (n_set_rt_table (mk_rt_entry dst mask next i :: n_rt_table (n_nw nd)) (n_nw nd)) nd).
Proof. intros ? ? []. split; [done|]. by constructor. Qed.
#[local] Hint Resolve typed_add_route : holds.

Lemma holds_set_ip n name ip mask : holds typed (λ _, True) (node_set_intf_ip_addr n name ip mask).
Proof.
  pose proof (convert_ip_u32 ip). unfold node_set_intf_ip_addr, get_node_if_by_name, rt_table_add_route.
  walk_step; [walk|]. destruct a; [|walk]. walk_step; [walk|]. walk_step; [walk|].
  apply (holds_bind _ is_u32); [|intros; walk].
  apply holds_lift. intros v. unfold MASK_IP, rbind. case_match; [|done]. intros [= <-]. by apply land_u32.
Qed.
#[local] Hint Resolve holds_set_ip : holds.

Lemma typed_calloc_intf n : typed_val (calloc_intf n).
Proof. split; [exact is_mac_zero|]. by split. Qed.
Lemma typed_set_lb ip nd : is_u32 ip → typed_val nd → typed_val (n_set_nw (n_set_lb ip (n_nw nd)) nd).
Proof. intros ? []. by split. Qed.
Lemma raw_ip_u32 s v : get_raw_ip_addr s = Some v → is_u32 v.
Proof. unfold get_raw_ip_addr. case_match; [done|]. intros [= <-]. apply convert_ip_u32. Qed.
#[local] Hint Resolve typed_calloc_intf typed_set_lb raw_ip_u32 : holds.

Lemma holds_run_call c : call_typed c → holds typed (λ _, True) (run_call c).
Proof.
  intros Hc.
  pose proof holds_ip_output. pose proof (holds_icmp_out holds_ip_output).
  pose proof (holds_udp_sendto holds_ip_output). pose proof (holds_tcp_send holds_ip_output).
  pose proof holds_udp_recvfrom. pose proof holds_tcp_recv. pose proof holds_tcp_accept.
  pose proof convert_ip_u32.
  destruct c; cbn [run_call call_typed] in *; destruct_and?.
  all: unfold create_new_graph, create_graph_node, insert_link_between_two_nodes, insert_tuntap_interface,
    node_set_loopback_address, rt_table_add_route, set_ip_forward, ping, set_send_callback_,
    set_receive_callback_, udp_socket, udp_bind, udp_close, is_good_udp_sock, tcp_socket, tcp_bind, tcp_listen,
    tcp_close, is_good_tcp_sock.
  all: walk.
Qed.

Inductive called : world → Prop :=
  | called_init : called init_world
  | called_call w c w' :
      called w → call_ok w c → call_typed c → run_call c w = Ok (tt, w') → called w'.

Lemma called_reachable w : called w → reachable w.
Proof. induction 1; [constructor|by econstructor]. Qed.

Lemma typed_init_world : typed init_world.
Proof. split; try apply map_Forall_empty; [by unfold is_u16; cbn|constructor]. Qed.

Lemma called_typed w : called w → typed w.
Proof.
  induction 1 as [|w c w' _ Hw _ Hc Hrun]; [exact typed_init_world|].
  by apply (holds_ok _ _ _ _ _ _ (holds_run_call c Hc) Hw Hrun).
Qed.

End Stack.

(** ** Witness *)

#[export] Instance call_typed_dec c : Decision (call_typed c).
Proof. destruct c; cbn [call_typed]; apply _. Defined.

Lemma after_called cs w : called w → Forall call_typed cs → called (after cs w).
Proof.
  unfold after. revert w. induction cs as [|c cs IH]; intros w Hw Hcs; cbn [script default from_option]; [done|].
  apply Forall_cons in Hcs as [Hc Hcs]. case_bool_decide as Hok; [|exact Hw].
  destruct (run_call c w) as [[[] w']|] eqn:Hrun; [|exact Hw].
  specialize (IH w' (called_call w c w' Hw Hok Hc Hrun) Hcs). destruct (script cs w'); [exact IH|exact Hw].
Qed.

Lemma lab_called : called lab.
Proof. apply after_called; [exact called_init|by_eval]. Qed.
Lemma talk_called : called talk.
Proof. apply after_called; [exact lab_called|by_eval]. Qed.
Lemma socks_called : called socks.
Proof. apply after_called; [exact talk_called|by_eval]. Qed.
Lemma syn_rcvd_called : called syn_rcvd.
Proof. apply after_called; [exact socks_called|by_eval]. Qed.
Lemma estab_called : called estab.
Proof. apply after_called; [exact syn_rcvd_called|by_eval]. Qed.

