(* ===== verification/Thread.v ===== *)
(** * The receiving thread: start, stop, and what runs in between

    The thread that runs [recv_task] and the thread of the application take
    turns: a call of the application, the set-up of the receiving thread and
    each of its rounds are single steps (the code takes no lock, so this is an
    idealisation of the schedules).  [stop_recv_thread] sets a flag and waits in
    [pthread_join]; the receiving thread reads the flag between two rounds,
    clears it and ends.  Threads are kept in a list, the last created first, so
    that a second one would show. *)
From S2P Require Import Prelude Cmonad Utils Skbuff World Topology Comm Stack Net Graph Scenario Invariant SkbRules.
From S2P Require Import StackSafe Reach Demo.
From stdpp Require Import strings.
#[local] Open Scope Z_scope.

Definition MAX_EVENTS : nat := 10.

(** A thread that has been created and not yet joined. *)
Inductive thread :=
  | Created
  | Looping (registered : list Z)
  | Ended.

#[export] Instance thread_eq_dec : EqDecision thread.
Proof. solve_decision. Defined.

Record system := mk_system {
  want_quit_recv_task : bool;
  thread_started : bool;
  sy_threads : list thread;
  sy_joining : bool;          (* the application is inside [stop_recv_thread] *)
  sy_world : world;
}.

Definition set_want_quit (b : bool) (s : system) : system :=
  mk_system b (thread_started s) (sy_threads s) (sy_joining s) (sy_world s).
Definition set_started (b : bool) (s : system) : system :=
  mk_system (want_quit_recv_task s) b (sy_threads s) (sy_joining s) (sy_world s).
Definition set_threads (l : list thread) (s : system) : system :=
  mk_system (want_quit_recv_task s) (thread_started s) l (sy_joining s) (sy_world s).
Definition set_joining (b : bool) (s : system) : system :=
  mk_system (want_quit_recv_task s) (thread_started s) (sy_threads s) b (sy_world s).
Definition set_world (w : world) (s : system) : system :=
  mk_system (want_quit_recv_task s) (thread_started s) (sy_threads s) (sy_joining s) w.

Definition init_system : system := mk_system false false [] false init_world.

(** The descriptors with a [comm], in the order in which they are registered. *)
Definition comm_fds (w : world) : list Z :=
  filter (λ fd, is_Some (w_fd_to_comm w !! fd)) (seqZ 0 MAX_COMMS).

Section Thread.
Context `{Os}.

(** [pthread_create] returns [created]. *)
Definition start_recv_thread (created : Z) : M system unit :=
  let* started := gets thread_started in
  if (started : bool) then ret tt else
  if negb (created =? 0) then raise ExitFailure else
  modify (λ s, set_threads (Created :: sy_threads s) s) ;;;
  modify (set_started true).

(** [stop_recv_thread] up to the call of [pthread_join], and from its return
    with the result [joined]. *)
Definition stop_recv_thread_begin : M system unit :=
  let* started := gets thread_started in
  if (started : bool) then
    modify (set_want_quit true) ;;;
    modify (set_joining true)
  else ret tt.

Definition stop_recv_thread_end (joined : Z) : M system unit :=
  modify (set_joining false) ;;;
  if joined =? 0 then
    modify (λ s, set_threads (tail (sy_threads s)) s) ;;;
    modify (set_started false)
  else ret tt.

(** A computation on the shared state of the library. *)
Definition on_world (m : W unit) : M system unit := λ s,
  match m (sy_world s) with
  | Ok (_, w) => Ok (tt, set_world w s)
  | Err f => Err f
  end.

(** One step of [recv_task]: its set-up, or the test of its loop and a round. *)
Definition recv_step (r : round) (t : thread) : M system thread :=
  match t with
  | Created =>
      let* w := gets sy_world in
      on_world recv_setup ;;;
      ret (Looping (comm_fds w))
  | Looping fds =>
      let* quit := gets want_quit_recv_task in
      if (quit : bool) then modify (set_want_quit false) ;;; ret Ended
      else on_world (recv_round r) ;;; ret (Looping fds)
  | Ended => ret Ended
  end.

(** ** The steps of the program *)

Inductive action :=
  | Start (created : Z)
  | Stop
  | Joined (result : Z)
  | App (c : call)
  | Recv (k : nat) (r : round).

Definition act (a : action) : M system unit :=
  match a with
  | Start created => start_recv_thread created
  | Stop => stop_recv_thread_begin
  | Joined result => stop_recv_thread_end result
  | App c => on_world (run_call c)
  | Recv k r =>
      let* l := gets sy_threads in
      match l !! k with
      | Some t =>
          let* t' := recv_step r t in
          modify (λ s, set_threads (<[k := t']> (sy_threads s)) s)
      | None => ret tt
      end
  end.

(** [epoll_wait] reports at most [MAX_EVENTS] of the registered descriptors. *)
Definition round_ok (t : thread) (r : round) : Prop :=
  match r with
  | EpollFails => True
  | EpollEvents events =>
      (length events ≤ MAX_EVENTS)%nat ∧ Forall (λ '(_, r), received_ok r) events ∧
      match t with
      | Looping fds => Forall (λ '(fd, _), fd ∈ fds) events
      | _ => True
      end
  end.

(** When a step can happen.  The application makes one call at a time and leaves
    the reception to the thread; [pthread_join] returns 0 when the thread has
    ended; [fails] says whether it may also return an error. *)
Definition enabled (fails : bool) (a : action) (s : system) : Prop :=
  match a with
  | Start _ | Stop => sy_joining s = false
  | Joined result => sy_joining s = true ∧
      if decide (result = 0) then head (sy_threads s) = Some Ended else fails = true
  | App c => sy_joining s = false ∧ call_ok (sy_world s) c ∧ (∀ fd r, c ≠ Receive fd r)
  | Recv k r => ∃ t, sy_threads s !! k = Some t ∧ round_ok t r
  end.

Inductive system_reachable (fails : bool) : system → Prop :=
  | system_init : system_reachable fails init_system
  | system_step a s s' :
      system_reachable fails s → enabled fails a s → act a s = Ok (tt, s') → system_reachable fails s'.

(** ** The invariant *)

(** There is a thread exactly when [thread_started] is set, and only one. *)
Record thread_inv (s : system) : Prop := {
  th_one : (length (sy_threads s) ≤ 1)%nat;
  th_started : thread_started s = negb (bool_decide (sy_threads s = []));
  th_joining : sy_joining s = true → thread_started s = true;
}.

(** While [pthread_join] does not fail: the flag is set only inside
    [stop_recv_thread], until the thread ends; outside, the thread has not ended. *)
Record quit_inv (s : system) : Prop := {
  qu_outside : sy_joining s = false → want_quit_recv_task s = false ∧ Ended ∉ sy_threads s;
  qu_inside : sy_joining s = true → want_quit_recv_task s = negb (bool_decide (Ended ∈ sy_threads s));
}.

Lemma thread_inv_list s :
  thread_inv s → sy_threads s = [] ∧ thread_started s = false ∧ sy_joining s = false ∨
                 ∃ t, sy_threads s = [t] ∧ thread_started s = true.
Proof.
  intros [H1 H2 H3]. destruct s as [q st [|t [|]] j w]; cbn in *; [left|right|lia].
  - subst st. split_and!; [done..|]. destruct j; [|done]. by specialize (H3 eq_refl).
  - exists t. by subst.
Qed.

Lemma on_world_ok m s s' :
  on_world m s = Ok (tt, s') → ∃ w', m (sy_world s) = Ok (tt, w') ∧ s' = set_world w' s.
Proof. unfold on_world. destruct (m (sy_world s)) as [[[] w']|]; [|done]. intros [= <-]. by exists w'. Qed.

Lemma wf_recv_setup w w' : wf w → recv_setup w = Ok (tt, w') → wf w'.
Proof.
  intros Hw Hr. assert (wp recv_setup (λ _, wf) (λ _, True) w) as Hwp.
  { apply wp_recv_setup; [by left|]. intros t. by apply wf_trace. }
  unfold wp in Hwp. by rewrite Hr in Hwp.
Qed.

Lemma wf_recv_round t r w w' : wf w → round_ok t r → recv_round r w = Ok (tt, w') → wf w'.
Proof.
  intros Hw Hok Hr. assert (wp (recv_round r) (λ _, wf) (λ _, True) w) as Hwp.
  { destruct r as [|evs]; cbn [recv_round round_ok] in *; [apply wp_print; by apply wf_trace|].
    destruct Hok as (_ & Hevs & _). eapply wp_post; [apply wp_recv_events; [done|]|by intros ? ? []].
    eapply Forall_impl; [exact Hevs|]. intros [fd x] ?. tauto. }
  unfold wp in Hwp. by rewrite Hr in Hwp.
Qed.

(** The set-up adds exactly these descriptors, in this order. *)
Definition added (t : list event) : list Z :=
  omap (λ e, match e with EEpollAdd _ fd _ => Some fd | _ => None end) t.

Lemma register_comms_added e fds w w' :
  register_comms e fds w = Ok (tt, w') →
  ∃ t, w' = set_trace (w_trace w ++ t) w ∧ added t = filter (λ fd, is_Some (w_fd_to_comm w !! fd)) fds.
Proof.
  revert w. induction fds as [|fd fds IH]; intros w; cbn [register_comms].
  { intros [= <-]. exists []. rewrite app_nil_r. by destruct w. }
  unfold bind at 1, gets. rewrite filter_cons. destruct (w_fd_to_comm w !! fd) as [c|] eqn:Hc.
  - rewrite decide_True by by eexists. unfold sys_epoll_add, bind, gets, emit, modify, ret. cbn.
    destruct (_ =? -1); [done|]. intros (t & -> & Ht)%IH.
    eexists. split; [cbn; by rewrite <- app_assoc|]. cbn. f_equal. exact Ht.
  - rewrite decide_False by by intros []. apply IH.
Qed.

Lemma recv_setup_added w w' :
  recv_setup w = Ok (tt, w') → ∃ t, w' = set_trace (w_trace w ++ t) w ∧ added t = comm_fds w.
Proof.
  unfold recv_setup, sys_epoll_create, bind, gets, emit, modify, ret. destruct (_ =? -1); [done|].
  intros (t & -> & Ht)%register_comms_added. eexists. split; [cbn; by rewrite <- app_assoc|exact Ht].
Qed.

(** What a step of the thread does to the flag and to the state. *)
Lemma recv_step_ok r t s t' s' :
  wf (sy_world s) → round_ok t r → recv_step r t s = Ok (t', s') →
  wf (sy_world s') ∧ sy_threads s' = sy_threads s ∧ thread_started s' = thread_started s ∧
  sy_joining s' = sy_joining s ∧
  (t' = Ended → t = Ended ∨ want_quit_recv_task s = true) ∧ (t = Ended → t' = Ended) ∧
  want_quit_recv_task s' = want_quit_recv_task s && bool_decide (t' = Ended → t = Ended).
Proof.
  intros Hw Hok. destruct t as [|fds|]; cbn [recv_step]; unfold bind, gets, ret.
  - destruct (on_world recv_setup s) as [[[] s1]|] eqn:Hs; [|done]. intros [= <- <-].
    apply on_world_ok in Hs as (w' & Hr & ->). rewrite bool_decide_eq_true_2, andb_true_r by done.
    split_and!; try done. by eapply wf_recv_setup.
  - destruct (want_quit_recv_task s) eqn:Hq.
    + unfold modify. intros [= <- <-]. rewrite bool_decide_eq_false_2 by (intros Hx; by discriminate (Hx eq_refl)).
      split_and!; try done. by right.
    + destruct (on_world _ s) as [[[] s1]|] eqn:Hs; [|done]. intros [= <- <-].
      apply on_world_ok in Hs as (w' & Hr & ->). split_and!; try done. by eapply wf_recv_round.
  - intros [= <- <-]. rewrite bool_decide_eq_true_2, andb_true_r by done. split_and!; try done. by left.
Qed.

Lemma act_inv fails a s s' :
  wf (sy_world s) → thread_inv s → (fails = false → quit_inv s) → enabled fails a s → act a s = Ok (tt, s') →
  wf (sy_world s') ∧ thread_inv s' ∧ (fails = false → quit_inv s').
Proof.
  intros Hw Ht Hq Hen. pose proof (thread_inv_list s Ht) as Hl. destruct a as [cr| |jr|c|k r]; cbn [act enabled] in *.
  - unfold start_recv_thread, bind, gets. destruct (thread_started s) eqn:Hst; [by intros [= <-]|].
    destruct (negb _); [done|]. unfold modify. intros [= <-].
    destruct Hl as [(Hl & _ & Hj)|(t & _ & ?)]; [|done]. cbn. rewrite Hl. split_and!; [done|by split|].
    intros Hf. destruct (Hq Hf) as [Ho _]. destruct (Ho Hj) as [Ho1 _]. split; cbn; [|by rewrite Hj].
    intros _. split; [done|]. set_solver.
  - unfold stop_recv_thread_begin, bind, gets. destruct (thread_started s) eqn:Hst; [|by intros [= <-]].
    unfold modify. intros [= <-]. destruct Hl as [(_ & ? & _)|(t & Hl & _)]; [congruence|]. split_and!; [done| |].
    + destruct Ht as [T1 T2 T3]. split; cbn; [done|done|done].
    + intros Hf. destruct (Hq Hf) as [Ho _]. destruct (Ho Hen) as [_ Ho2]. split; cbn; [done|].
      intros _. by rewrite bool_decide_eq_false_2.
  - destruct Hen as [Hj Hen]. unfold stop_recv_thread_end, bind, modify.
    destruct Ht as [T1 T2 T3]. specialize (T3 Hj). destruct Hl as [(_ & ? & _)|(t & Hl & _)]; [congruence|].
    destruct (decide (jr = 0)) as [->|Hne].
    + cbn [Z.eqb]. intros [= <-]. rewrite Hl in Hen. change (sy_threads (set_joining false s)) with (sy_threads s).
      rewrite Hl. split_and!; [done|split; cbn; [lia|done|done]|].
      intros Hf. destruct (Hq Hf) as [_ Hi]. specialize (Hi Hj). split; cbn; [|done].
      intros _. split; [|set_solver]. rewrite Hi, bool_decide_eq_true_2; [done|].
      rewrite Hl. injection Hen as ->. set_solver.
    + destruct (Z.eqb_spec jr 0); [done|]. intros [= <-]. split_and!; [done|by split|]. intros ->. done.
  - destruct Hen as (Hj & Hok & _). intros (w' & Hr & ->)%on_world_ok. split_and!.
    + pose proof (wp_run_call c _ Hw Hok) as Hwp. unfold wp in Hwp. by rewrite Hr in Hwp.
    + by destruct Ht.
    + intros Hf. by destruct (Hq Hf).
  - destruct Hen as (t & Hk & Hok). unfold bind, gets. rewrite Hk.
    destruct (recv_step r t s) as [[t' s1]|] eqn:Hs; [|done]. unfold modify. intros [= <-].
    apply recv_step_ok in Hs as (Hw1 & El & Es & Ej & E1 & E2 & Eq); [|done|done].
    destruct Hl as [(Hl & _)|(t0 & Hl & Hst)]; [by rewrite Hl in Hk|].
    rewrite Hl in Hk. destruct k as [|k]; [|done]. injection Hk as ->. split_and!; [done| |].
    + destruct Ht as [T1 T2 T3]. split; cbn; [rewrite El, Hl; cbn; lia|by rewrite El, Hl, Es, Hst|by rewrite Es, Ej].
    + intros Hf. destruct (Hq Hf) as [Ho Hi]. split; cbn; rewrite El, Ej, Hl; cbn; intros Hj.
      * destruct (Ho Hj) as [Hq0 Hne]. rewrite Eq, Hq0. split; [done|]. rewrite Hl in Hne.
        intros <-%list_elem_of_singleton. destruct (E1 eq_refl) as [->|?]; [|congruence]. set_solver.
      * rewrite Eq, (Hi Hj), Hl. destruct (decide (t = Ended)) as [->|Hne].
        -- by rewrite (E2 eq_refl), !bool_decide_eq_true_2 by set_solver.
        -- rewrite (bool_decide_eq_false_2 (Ended ∈ [t])) by set_solver. cbn.
           destruct (decide (t' = Ended)) as [->|Hne'].
           ++ rewrite bool_decide_eq_false_2 by auto. by rewrite bool_decide_eq_true_2 by set_solver.
           ++ rewrite bool_decide_eq_true_2 by done. by rewrite bool_decide_eq_false_2 by set_solver.
Qed.

(** C11. However starting, stopping, calls of the application and rounds of reception follow
    each other, the state is well formed and there is at most one receiving thread, exactly
    when thread_started is set; while pthread_join does not fail, outside stop_recv_thread
    the quit flag is clear and the thread has not ended, and inside it the thread has ended
    or ends at its next test of the flag. *)
Theorem one_receiving_thread fails s :
  system_reachable fails s →
  wf (sy_world s) ∧
  (length (sy_threads s) ≤ 1)%nat ∧ thread_started s = negb (bool_decide (sy_threads s = [])) ∧
  (fails = false →
     (sy_joining s = false → want_quit_recv_task s = false ∧ Ended ∉ sy_threads s) ∧
     (sy_joining s = true →
        sy_threads s = [Ended] ∧ want_quit_recv_task s = false ∨
        ∃ t, sy_threads s = [t] ∧ ∀ r fds, t = Looping fds →
          recv_step r t s = Ok (Ended, set_want_quit false s))).
Proof.
  intros Hr.
  assert (wf (sy_world s) ∧ thread_inv s ∧ (fails = false → quit_inv s)) as (Hw & Ht & Hq).
  { induction Hr as [|a s s' _ (Hw & Ht & Hq) Hen Hact]; [|by eapply act_inv].
    split_and!; [apply wf_init|split; cbn; [lia|done|done]|intros _; split; cbn; [split; [done|set_solver]|done]]. }
  split_and!; [done|apply Ht|apply Ht|]. intros Hf. destruct (Hq Hf) as [Ho Hi]. split; [done|].
  intros Hj. specialize (Hi Hj). pose proof (th_joining _ Ht Hj) as Hst.
  destruct (thread_inv_list _ Ht) as [(_ & ? & _)|(t & Hl & _)]; [congruence|].
  destruct (decide (t = Ended)) as [->|Hne].
  - left. split; [done|]. rewrite Hi, Hl. by rewrite bool_decide_eq_true_2 by set_solver.
  - right. exists t. split; [done|]. intros r fds ->. cbn [recv_step]. unfold bind, gets. rewrite Hi, Hl.
    by rewrite bool_decide_eq_false_2 by set_solver.
Qed.
End Thread.

(** ** Witness *)

#[export] Instance round_ok_dec t r : Decision (round_ok t r).
Proof. destruct r; cbn [round_ok]; [apply _|]. destruct t; apply _. Defined.

#[export] Instance enabled_dec fails a s : Decision (enabled fails a s).
Proof.
  destruct a as [| |result|c|k r]; cbn [enabled]; [apply _..| | |].
  - destruct (decide (result = 0)); apply _.
  - assert (Decision (∀ fd r, c ≠ Receive fd r)) by
      (destruct c; try (left; intros; discriminate); right; intros Hc; by eapply Hc).
    apply _.
  - destruct (sy_threads s !! k) as [t|].
    + destruct (decide (round_ok t r)) as [?|Hno]; [left; by exists t|].
      right. intros (? & [= <-] & ?). done.
    + right. by intros (? & ? & _).
Defined.

Fixpoint run_actions (l : list action) (s : system) : option system :=
  match l with
  | [] => Some s
  | a :: l =>
      if bool_decide (enabled false a s) then
        match act a s with Ok (_, s') => run_actions l s' | Err _ => None end
      else None
  end.

Lemma run_actions_reachable l s s' :
  system_reachable false s → run_actions l s = Some s' → system_reachable false s'.
Proof.
  revert s. induction l as [|a l IH]; intros s Hr; cbn [run_actions]; [by intros [= <-]|].
  case_bool_decide as Hok; [|done]. destruct (act a s) as [[[] s1]|] eqn:Hc; [|done].
  apply IH. by eapply system_step.
Qed.

(** The topology is built, the thread is started, sets itself up and handles a
    frame and an error, the application pings and then stops the thread. *)
Definition session : list action :=
  (App <$> build_calls) ++
  [Start 0; Recv 0 EpollFails; Recv 0 (EpollEvents [(3, RecvFrame echo_req); (4, RecvError (-1))]);
   App (Ping 2 (cstr "192.168.89.2")); Stop].
Definition stopping : system := default init_system (run_actions session init_system).

Lemma one_receiving_thread_witness :
  sy_threads stopping = [Looping [3; 4; 5; 6]] ∧ sy_joining stopping = true ∧
  wf (sy_world stopping) ∧
  recv_step EpollFails (Looping [3; 4; 5; 6]) stopping = Ok (Ended, set_want_quit false stopping).
Proof.
  assert (sy_threads stopping = [Looping [3; 4; 5; 6]]) as Hl by (vm_compute; reflexivity).
  assert (sy_joining stopping = true) as Hj by (vm_compute; reflexivity).
  assert (system_reachable false stopping) as Hr.
  { apply (run_actions_reachable session init_system); [constructor|vm_compute; reflexivity]. }
  destruct (one_receiving_thread false stopping Hr) as (Hw & _ & _ & Hq).
  destruct (Hq eq_refl) as [_ Hin]. rewrite Hl in Hin.
  destruct (Hin Hj) as [[Hl2 _]|(t & Hl2 & Hrec)].
  - exfalso. refine (_ Hl2). intros [=].
  - injection Hl2 as <-. exact (conj Hl (conj Hj (conj Hw (Hrec EpollFails _ eq_refl)))).
Defined.
