(* ===== verification/Callbacks.v ===== *)
(** * What the receive callback sees

    [set_receive_callback] lets an application watch the frames that arrive.
    [quiet] holds of the computations that never run the callback; a walk
    through the code shows that these are all functions but [pkt_receive], so
    that the callback sees each frame that the receiving thread passes to the
    stack exactly once, with its bytes, in the order of arrival, and nothing
    else. *)
From S2P Require Import Prelude Cmonad Utils Skbuff World Topology Comm Ethernet Arp Route Ip.
From S2P Require Import Icmp Udp Tcp Stack Net Graph Invariant GraphInv Frame StackSafe RecvSafe Reach Packet Wire RecvSpec.
#[local] Open Scope Z_scope.

(** The frames of a history that the callback is given. *)
Definition observed (h : list event) : list (list Z * ptr) :=
  omap (λ e, match e with EReceiveCallback bytes i => Some (bytes, i) | _ => None end) h.

Lemma observed_app h h' : observed (h ++ h') = observed h ++ observed h'.
Proof. apply omap_app. Qed.

(** The history is extended, the callback is given the frames [l], and it
    stays set or unset. *)
Definition watched (l : list (list Z * ptr)) (w w' : world) : Prop :=
  w_receive_callback w' = w_receive_callback w ∧ ∃ t, w_trace w' = w_trace w ++ t ∧ observed t = l.

Definition quiet : relation world := watched [].

Lemma watched_trans l1 l2 w1 w2 w3 : watched l1 w1 w2 → watched l2 w2 w3 → watched (l1 ++ l2) w1 w3.
Proof.
  intros (C1 & t1 & T1 & O1) (C2 & t2 & T2 & O2). split; [congruence|].
  exists (t1 ++ t2). by rewrite T2, T1, app_assoc, observed_app, O1, O2.
Qed.

#[export] Instance quiet_preorder : PreOrder quiet.
Proof.
  split; [intros w; split; [done|]; exists []; by rewrite app_nil_r|].
  intros w1 w2 w3. by apply watched_trans.
Qed.

Lemma quiet_watched l w1 w2 w3 : quiet w1 w2 → watched l w2 w3 → watched l w1 w3.
Proof. intros Hq. by apply (watched_trans []). Qed.
Lemma watched_quiet l w1 w2 w3 : watched l w1 w2 → quiet w2 w3 → watched l w1 w3.
Proof. intros Hl Hq. rewrite <- (app_nil_r l). by eapply watched_trans. Qed.

Lemma quiet_same w w' :
  w_trace w' = w_trace w → w_receive_callback w' = w_receive_callback w → quiet w w'.
Proof. intros Ht Hc. split; [done|]. exists []. by rewrite app_nil_r. Qed.

Lemma quiet_emit e : observed [e] = [] → keeps quiet (emit e).
Proof. intros He. apply keeps_modify. intros w. split; [done|]. by exists [e]. Qed.

Lemma quiet_on_skb {A} k (m : M sk_buff A) : keeps quiet (on_skb k m).
Proof. apply keeps_on_skb; [exact _|]. intros. by apply quiet_same. Qed.

Lemma wp_ok_keeps (R : world → Prop) (m : W unit) w w' :
  wp m (λ _, R) (λ _, True) w → m w = Ok (tt, w') → R w'.
Proof. unfold wp. intros Hm E. by rewrite E in Hm. Qed.

(** Writes to the heap, and events other than the callback. *)
Ltac quiet_write :=
  lazymatch goal with
  | |- keeps _ (modify _) => apply keeps_modify; intros; by apply quiet_same
  | |- keeps _ (update _ _) => apply (keeps_update quiet); intros; by apply quiet_same
  | |- keeps _ (alloc _) => apply (keeps_alloc quiet); intros; by apply quiet_same
  | |- keeps _ (dealloc _) => apply (keeps_dealloc quiet); intros; by apply quiet_same
  | |- keeps _ (emit _) => by apply quiet_emit
  | |- keeps _ (print _) => by apply quiet_emit
  | |- keeps _ (on_skb _ _) => apply quiet_on_skb
  | |- keeps _ get => intros ?; by apply wp_get
  end.
#[export] Hint Extern 2 (keeps quiet _) => quiet_write : keeps.

(** ** Sending *)

Section Sending.
Context `{Os}.

Lemma quiet_send_bytes_out bytes i : keeps quiet (send_bytes_out bytes i).
Proof.
  unfold send_bytes_out, udp_send_bytes, tuntap_send_bytes, get_nbr_if, sys_sendto, sys_write, print. frame.
Qed.
#[local] Hint Resolve quiet_send_bytes_out : keeps.

Lemma quiet_send_pkt_out i k : keeps quiet (send_pkt_out i k).
Proof. unfold send_pkt_out, skb_bytes, free_skb. frame. Qed.
#[local] Hint Resolve quiet_send_pkt_out : keeps.

Lemma quiet_ethernet_output i mac proto k : keeps quiet (ethernet_output i mac proto k).
Proof. unfold ethernet_output. frame. Qed.
#[local] Hint Resolve quiet_ethernet_output : keeps.

Lemma quiet_arp_lookup n ip : keeps quiet (arp_table_lookup n ip).
Proof.
  unfold arp_table_lookup. apply keeps_bind; [exact _|frame|]. intros nd. generalize (n_arp_table (n_nw nd)).
  intros entries. induction entries as [|e entries IH]; cbn [arp_lookup_from]; frame.
Qed.
#[local] Hint Resolve quiet_arp_lookup : keeps.

Lemma quiet_send_pending e pkts : keeps quiet (send_pending e pkts).
Proof. induction pkts as [|k pkts IH]; cbn [send_pending]; unfold free_skb; frame. Qed.
#[local] Hint Resolve quiet_send_pending : keeps.

Lemma quiet_arp_request i ip : keeps quiet (send_arp_broadcast_request i ip).
Proof. unfold send_arp_broadcast_request, free_skb. frame. Qed.
#[local] Hint Resolve quiet_arp_request : keeps.

Lemma quiet_arp_input k : keeps quiet (arp_input k).
Proof.
  unfold arp_input, process_arp_broadcast_request, send_arp_reply_msg, process_arp_reply_msg,
    arp_table_update_from_arp_reply, free_skb. frame.
Qed.

Lemma quiet_is_ip_local n ip : keeps quiet (is_ip_local n ip).
Proof. unfold is_ip_local. frame. Qed.
#[local] Hint Resolve quiet_is_ip_local : keeps.

(** ** The IP layer, for a quiet local delivery *)

Section Delivery.
Context (deliver : ptr → W bool) (Hdeliver : ∀ k, keeps quiet (deliver k)).
#[local] Hint Resolve Hdeliver : keeps.

Lemma quiet_ip_postroute n k : keeps quiet (ip_postroute deliver n k).
Proof.
  unfold ip_postroute, ip_transmit, find_or_add_arp_entry, arp_table_entry_add. frame.
Qed.
#[local] Hint Resolve quiet_ip_postroute : keeps.

Lemma quiet_ip_output_with n ip proto k : keeps quiet (ip_output_with deliver n ip proto k).
Proof. unfold ip_output_with. frame. Qed.
Lemma quiet_ip_preroute k : keeps quiet (ip_preroute deliver k).
Proof. unfold ip_preroute, ip_forward. frame. Qed.
End Delivery.
End Sending.

Lemma quiet_matching_intf n ip : keeps quiet (_get_matching_interface n ip).
Proof. unfold _get_matching_interface. frame. Qed.
Lemma quiet_accept_from conns : keeps quiet (accept_from conns).
Proof. induction conns as [|c conns IH]; cbn [accept_from]; frame. Qed.

(** ** The protocols, above a quiet IP layer *)

Section Protocols.
Context `{L : IpLayer} (Hout : ∀ n ip proto k, keeps quiet (ip_output n ip proto k)).
#[local] Hint Resolve Hout : keeps.

Lemma quiet_icmp_out n ip type code payload : keeps quiet (icmp_out n ip type code payload).
Proof. unfold icmp_out, free_skb. frame. Qed.
#[local] Hint Resolve quiet_icmp_out : keeps.
Lemma quiet_icmp_input k : keeps quiet (icmp_input k).
Proof. unfold icmp_input, skb_names, free_skb. frame. Qed.

Lemma quiet_udp_find i port : keeps quiet (udp_socks_manager_find i port).
Proof.
  unfold udp_socks_manager_find. apply keeps_bind; [exact _|frame|]. intros it. generalize (p_udp_socks (if_nw it)).
  intros l. induction l as [|u l IH]; cbn [udp_find_from]; frame.
Qed.
#[local] Hint Resolve quiet_udp_find : keeps.
Lemma quiet_udp_input k : keeps quiet (udp_input k).
Proof. unfold udp_input. frame. Qed.
Lemma quiet_udp_sendto fd buff ip port : keeps quiet (udp_sendto fd buff ip port).
Proof. unfold udp_sendto, udp_out, is_good_udp_sock. frame. Qed.

Lemma quiet_tcp_find i port : keeps quiet (tcp_socks_manager_find i port).
Proof.
  unfold tcp_socks_manager_find. apply keeps_bind; [exact _|frame|]. intros it. generalize (p_tcp_socks (if_nw it)).
  intros l. induction l as [|t l IH]; cbn [tcp_find_from]; frame.
Qed.
#[local] Hint Resolve quiet_tcp_find : keeps.
Lemma quiet_conn_find t ip port : keeps quiet (find_matching_connection t ip port).
Proof.
  unfold find_matching_connection. apply keeps_bind; [exact _|frame|]. intros ts. generalize (ts_conns ts).
  intros l. induction l as [|c l IH]; cbn [conn_find_from]; frame.
Qed.
#[local] Hint Resolve quiet_conn_find : keeps.
Lemma quiet_tcp_out c buff flags : keeps quiet (tcp_out c buff flags).
Proof. unfold tcp_out. frame. Qed.
#[local] Hint Resolve quiet_tcp_out : keeps.
Lemma quiet_tcp_input k : keeps quiet (tcp_input k).
Proof.
  unfold tcp_input, handle_estab, handle_syn_sent, handle_new_connection, close_connection. frame.
Qed.
Lemma quiet_tcp_send fd buff : keeps quiet (tcp_send fd buff).
Proof. unfold tcp_send, estab_connection, is_good_tcp_connection_sock. frame. Qed.

Lemma quiet_ip_input_body k : keeps quiet (ip_input_body k).
Proof.
  pose proof quiet_icmp_input. pose proof quiet_tcp_input. pose proof quiet_udp_input.
  unfold ip_input_body. frame.
Qed.
End Protocols.

(** ** The stack *)

Section Stack.
Context `{Os}.

Lemma quiet_ip_input_fuel fuel k : keeps quiet (ip_input_fuel fuel k).
Proof.
  revert k. induction fuel as [|fuel IH]; intros k; cbn [ip_input_fuel]; [apply keeps_raise|].
  apply quiet_ip_input_body. intros n ip proto k'. by apply quiet_ip_output_with.
Qed.

Lemma quiet_ip_output n ip proto k : keeps quiet (ip_output n ip proto k).
Proof. apply quiet_ip_output_with. intros k'. apply quiet_ip_input_fuel. Qed.

Lemma quiet_ethernet_input k : keeps quiet (ethernet_input k).
Proof.
  pose proof (quiet_ip_preroute ip_input (quiet_ip_input_fuel STACK_FUEL)).
  pose proof quiet_arp_input. unfold ethernet_input, ethernet_input_qualify. frame.
Qed.

(** ** Reception *)

(** The frame that descriptor [fd] passes to the stack. *)
Definition passed (w : world) (fd : Z) (r : received) : list (list Z * ptr) :=
  match w_fd_to_comm w !! fd with
  | Some i => if 0 <? received_count 2044 r then [(received_bytes 2044 r, i)] else []
  | None => []
  end.

(** The callback is given the frames when it is set. *)
Definition told (w : world) (l : list (list Z * ptr)) : list (list Z * ptr) :=
  if w_receive_callback w then l else [].

Lemma observed_prints t : Forall is_print t → observed t = [].
Proof. unfold observed. induction 1 as [|[] t He _ IH]; cbn; by rewrite ?IH. Qed.

Lemma watched_recv_one fd r w w' :
  wf w → received_ok r → recv_one fd r w = Ok (tt, w') → watched (told w (passed w fd r)) w w'.
Proof.
  intros Hw Hr. apply wp_ok_keeps. unfold passed. destruct (w_fd_to_comm w !! fd) as [i|] eqn:Hfd.
  2: { unfold recv_one, told. mstep. mstep. rewrite Hfd. mstep. by case_match. }
  destruct (st_comm _ _ _ _ (wf_static _ Hw) fd i Hfd) as [it Hit].
  set (f := received_bytes 2044 r). apply (wp_recv_buffer _ fd i it); [done..| |]; cbn zeta.
  - intros Hn s t Ht%observed_prints _. destruct (Z.ltb_spec 0 (received_count 2044 r)); [lia|].
    apply (wp_keeps quiet); [unfold free_skb; frame|]. intros _ w1 Hq. eapply watched_quiet; [|exact Hq].
    split; [done|]. exists t. split; [done|]. rewrite Ht. unfold told. by case_match.
  - intros Hf s t Ht%observed_prints P. destruct (Z.ltb_spec 0 (received_count 2044 r)) as [_|Hn].
    2: { exfalso. destruct r; subst f; cbn [received_count received_bytes length] in *; lia. }
    mstep. eapply (wp_pkt_receive_with _ _ i it s f); [done..|].
    match goal with |- context [if ?c then [EReceiveCallback _ _] else []] => set (t1 := if c then [EReceiveCallback f i] else []) end. assert (observed t1 = told w [(f, i)]) as Ht1.
    { subst t1. unfold told. cbn [w_receive_callback set_trace set_next]. by case_match. }
    apply (wp_keeps quiet).
    { pose proof quiet_ethernet_input. unfold switch_input. frame. }
    intros ok w1 Hq1. apply (wp_keeps quiet); [unfold free_skb; frame|]. intros _ w2 Hq2.
    eapply watched_quiet; [|etrans; [exact Hq1|exact Hq2]].
    split; [done|]. exists (t ++ t1). cbn. by rewrite app_assoc, observed_app, Ht, Ht1.
Qed.

(** The frames of several descriptors, in the order in which they are read. *)
Definition arrivals (w : world) (l : list (Z * received)) : list (list Z * ptr) :=
  l ≫= λ '(fd, r), passed w fd r.

Lemma told_app w l l' : told w (l ++ l') = told w l ++ told w l'.
Proof. unfold told. by case_match. Qed.

Lemma arrivals_same w w' l : w_fd_to_comm w' = w_fd_to_comm w → arrivals w' l = arrivals w l.
Proof. intros E. unfold arrivals, passed. by rewrite E. Qed.

(** What a sequence of receptions keeps for the next one. *)
Definition received_all (w : world) (l : list (Z * received)) (w' : world) : Prop :=
  wf w' ∧ w_fd_to_comm w' = w_fd_to_comm w ∧ watched (told w (arrivals w l)) w w'.

Lemma received_all_app l1 l2 w1 w2 w3 :
  received_all w1 l1 w2 → received_all w2 l2 w3 → received_all w1 (l1 ++ l2) w3.
Proof.
  intros (_ & F1 & H1) (W2 & F2 & H2). split; [done|]. split; [congruence|]. unfold arrivals.
  rewrite bind_app, told_app. eapply watched_trans; [exact H1|]. fold (arrivals w1 l2).
  rewrite <- (arrivals_same w1 w2) by done. unfold told in *. destruct H1 as [<- _]. exact H2.
Qed.

Lemma received_all_nil w : wf w → received_all w [] w.
Proof.
  intros Hw. split_and!; [done..|]. assert (told w (arrivals w []) = []) as -> by (unfold told; by case_match).
  reflexivity.
Qed.

Lemma recv_one_all fd r w w' :
  wf w → received_ok r → recv_one fd r w = Ok (tt, w') → received_all w [(fd, r)] w'.
Proof.
  intros Hw Hr Hok. pose proof (wp_recv_one (λ _, True) fd r w Hw Hr ltac:(done) ltac:(done)) as Hwp.
  unfold wp in Hwp. rewrite Hok in Hwp. destruct Hwp as [Hw' He]. split_and!; [done|apply He|].
  unfold arrivals. cbn [mbind list_bind]. rewrite app_nil_r. by apply watched_recv_one.
Qed.

Lemma recv_events_all evs w w' :
  wf w → Forall (λ '(_, r), received_ok r) evs → recv_events evs w = Ok (tt, w') → received_all w evs w'.
Proof.
  intros Hw Hevs. revert w Hw. induction Hevs as [|[fd r] evs Hr _ IH]; intros w Hw; cbn [recv_events].
  { intros [= <-]. by apply received_all_nil. }
  unfold bind. destruct (recv_one fd r w) as [[[] w1]|] eqn:Hone; [|done]. intros Hev.
  apply recv_one_all in Hone; [|done..]. eapply (received_all_app [(fd, r)]); [exact Hone|]. by eapply IH, Hev; destruct Hone.
Qed.

Lemma recv_rounds_all rounds w w' :
  wf w → Forall (λ '(_, r), received_ok r) (rounds ≫= round_events) → recv_rounds rounds w = Ok (tt, w') →
  received_all w (rounds ≫= round_events) w'.
Proof.
  revert w. induction rounds as [|rd rounds IH]; intros w Hw; cbn [recv_rounds mbind list_bind].
  { intros _ [= <-]. by apply received_all_nil. }
  intros [H1 H2]%Forall_app. unfold bind. destruct (recv_round rd w) as [[[] w1]|] eqn:Hone; [|done]. intros Hev.
  assert (received_all w (round_events rd) w1) as Ha.
  { destruct rd as [|evs]; cbn [recv_round round_events] in *; [|by apply recv_events_all].
    injection Hone as <-. destruct (received_all_nil w Hw) as (_ & F & Hq). split_and!; [by apply wf_trace|done|].
    eapply watched_quiet; [exact Hq|]. split; [done|]. by eexists. }
  eapply received_all_app; [exact Ha|]. by eapply IH, Hev; destruct Ha.
Qed.

Lemma quiet_recv_setup : keeps quiet recv_setup.
Proof.
  unfold recv_setup, sys_epoll_create. frame.
  generalize (seqZ 0 MAX_COMMS). intros l. induction l as [|fd l IH]; cbn [register_comms]; unfold sys_epoll_add; frame.
Qed.

(** In whatever rounds the receiving thread reads frames and errors, the receive callback, if
    one is set, is given exactly the frames read without error on descriptors that have an
    interface, cut to 2044 bytes, each once, with its interface and in the order of arrival. *)
Lemma recv_task_watched rounds w w' :
  wf w → Forall (λ '(_, r), received_ok r) (rounds ≫= round_events) →
  recv_task rounds w = Ok (tt, w') →
  ∃ t, w_trace w' = w_trace w ++ t ∧
    observed t = if w_receive_callback w then (rounds ≫= round_events) ≫= (λ '(fd, r), passed w fd r) else [].
Proof.
  intros Hw Hevs. unfold recv_task, bind. destruct (recv_setup w) as [[[] w1]|] eqn:Hs; [|done]. intros Hr.
  pose proof (keeps_ok quiet _ _ _ _ quiet_recv_setup Hs) as Hq.
  assert (wf w1 ∧ w_fd_to_comm w1 = w_fd_to_comm w) as [Hw1 Hfd].
  { revert Hs. apply (wp_ok_keeps (λ w1, wf w1 ∧ w_fd_to_comm w1 = w_fd_to_comm w)). apply wp_recv_setup; [by left|]. intros t. split; [by apply wf_trace|done]. }
  apply recv_rounds_all in Hr as (_ & _ & Hr); [|done..]. rewrite (arrivals_same w w1) in Hr by done.
  unfold told in Hr. rewrite (proj1 Hq) in Hr. destruct (quiet_watched _ _ _ _ Hq Hr) as [_ Ht]. exact Ht.
Qed.

(** ** The calls of the application *)

Lemma quiet_bind_loop fuel i fd : keeps quiet (bind_loop fuel i fd).
Proof.
  induction fuel as [|fuel IH]; cbn [bind_loop]; [apply keeps_raise|].
  unfold get_next_udp_port, update_comm, sys_bind. frame.
Qed.
#[local] Hint Resolve quiet_bind_loop : keeps.

Lemma quiet_init_interface i name n l ct : keeps quiet (init_interface i name n l ct).
Proof.
  unfold init_interface, interface_assign_mac_address, init_comm, udp_init_comm, tuntap_init_comm, tun_alloc,
    set_fd_comm, sys_socket, sys_open_tun, sys_ioctl_tun, update_comm. frame.
Qed.
#[local] Hint Resolve quiet_init_interface : keeps.

Lemma quiet_socket_call c :
  (∀ fd r, c ≠ Receive fd r) → (∀ s r, c ≠ SetCallbacks s r) → keeps quiet (run_call c).
Proof.
  intros Hrecv Hset.
  pose proof quiet_ip_output. pose proof (quiet_icmp_out quiet_ip_output).
  pose proof (quiet_udp_sendto quiet_ip_output). pose proof (quiet_tcp_send quiet_ip_output).
  pose proof quiet_matching_intf. pose proof quiet_accept_from.
  destruct c; cbn [run_call]; try (by destruct (Hrecv _ _ eq_refl)); try (by destruct (Hset _ _ eq_refl)).
  all: unfold create_new_graph, create_graph_node, insert_link_between_two_nodes, insert_tuntap_interface,
    node_set_intf_ip_addr, node_set_loopback_address, get_node_if_by_name, rt_table_add_route, set_ip_forward, ping,
    udp_socket, udp_bind, udp_recvfrom, udp_close, is_good_udp_sock, tcp_socket, tcp_bind, tcp_listen, tcp_accept,
    tcp_recv, tcp_close, estab_connection, is_good_tcp_sock, is_good_tcp_connection_sock, free_skb.
  all: frame.
Qed.

(** No call of the application runs the callback. *)
Lemma calls_run_no_callback c w w' :
  (∀ fd r, c ≠ Receive fd r) → run_call c w = Ok (tt, w') →
  ∃ t, w_trace w' = w_trace w ++ t ∧ observed t = [].
Proof.
  intros Hc Hr. destruct c eqn:Ec; rewrite <- Ec in Hr;
    try solve [eapply (keeps_ok quiet) in Hr as [_ Ht]; [exact Ht|apply quiet_socket_call; by subst]].
  subst c. injection Hr as <-. exists []. by rewrite app_nil_r.
Qed.
End Stack.
