(* ===== verification/Fixture.v ===== *)
(** * test/fixture/fixture.c: the test fixture

    What the tests of the program share: the topology of three nodes, and the
    recording of the frames that the interfaces receive.  The static variables of
    the fixture are a record; with the two threads, the state of the library and
    the loopback network between the sockets they are the state of a [bench], on
    which a test is a computation.  While the test sleeps the receiving thread
    makes [speed] rounds, each of which receives the next datagram in flight. *)
From S2P Require Import Prelude Cmonad Utils Skbuff World Topology Comm Stack Net Graph.
From S2P Require Import Scenario Invariant StackSafe Reach Packet Frame Callbacks Thread Demo.
From stdpp Require Import strings.
#[local] Open Scope Z_scope.

Definition MAX_SAVED_FRAMES : nat := 32.
Definition TEST_ETH01_IP_STR : list Z := cstr "192.168.89.1".
Definition TEST_ETH10_IP_STR : list Z := cstr "192.168.89.2".

(** ** The recording *)

Record fixture := mk_fixture {
  recv_data : list (list Z);
  recv_len : list Z;
  recv_intf : list (option ptr);
  recv_n : nat;
}.

Definition get_test_recv_data (n : nat) (x : fixture) : option (list Z) :=
  if (n <? recv_n x)%nat then recv_data x !! n else None.
Definition get_test_recv_len (n : nat) (x : fixture) : Z :=
  if (n <? recv_n x)%nat then default 0 (recv_len x !! n) else 0.
Definition get_test_recv_intf (n : nat) (x : fixture) : option ptr :=
  if (n <? recv_n x)%nat then default None (recv_intf x !! n) else None.
Definition get_test_recv_n (x : fixture) : nat := recv_n x.

(** All of the static variables are cleared. *)
Definition reset_test_recv : fixture :=
  mk_fixture (replicate MAX_SAVED_FRAMES (replicate (Z.to_nat RECV_BUFFER_SIZE) 0))
    (replicate MAX_SAVED_FRAMES 0) (replicate MAX_SAVED_FRAMES None) 0.

(** [memcpy] into the row [recv_n], of [RECV_BUFFER_SIZE] bytes. *)
Definition receive_callback (bytes : list Z) (i : ptr) : M fixture unit :=
  let* x := get in
  let n := recv_n x in
  match recv_data x !! n with
  | None => raise OutOfBounds
  | Some row =>
      let* row := lift (wrn row 0 bytes) in
      put (mk_fixture (<[n := row]> (recv_data x)) (<[n := Z.of_nat (length bytes)]> (recv_len x))
             (<[n := Some i]> (recv_intf x)) (S n mod MAX_SAVED_FRAMES))
  end.

(** The callback runs for each frame of a piece of the history. *)
Fixpoint receive_callbacks (h : list event) : M fixture unit :=
  match h with
  | [] => ret tt
  | EReceiveCallback bytes i :: h => receive_callback bytes i ;;; receive_callbacks h
  | _ :: h => receive_callbacks h
  end.

(** [l] are the frames received since the recording was reset: the last 32 of
    them are in the places given by their numbers modulo 32. *)
Record recorded (l : list (list Z * ptr)) (x : fixture) : Prop := {
  rec_n : recv_n x = (length l mod MAX_SAVED_FRAMES)%nat;
  rec_rows : length (recv_data x) = MAX_SAVED_FRAMES;
  rec_row : Forall (λ row, zlen row = RECV_BUFFER_SIZE) (recv_data x);
  rec_lens : length (recv_len x) = MAX_SAVED_FRAMES;
  rec_intfs : length (recv_intf x) = MAX_SAVED_FRAMES;
  rec_frame k bytes i :
    l !! k = Some (bytes, i) → (length l ≤ k + MAX_SAVED_FRAMES)%nat →
    let slot := (k mod MAX_SAVED_FRAMES)%nat in
    recv_len x !! slot = Some (zlen bytes) ∧ recv_intf x !! slot = Some (Some i) ∧
    ∃ row, recv_data x !! slot = Some row ∧ take (length bytes) row = bytes;
}.

Lemma recorded_reset : recorded [] reset_test_recv.
Proof.
  split; [done..| |done|done|by intros k]. by apply Forall_replicate.
Qed.

Lemma slots_differ k n :
  (k < n)%nat → (S n ≤ k + MAX_SAVED_FRAMES)%nat → (k mod MAX_SAVED_FRAMES ≠ n mod MAX_SAVED_FRAMES)%nat.
Proof.
  unfold MAX_SAVED_FRAMES. intros H1 H2 E. pose proof (Nat.div_mod_eq k 32). pose proof (Nat.div_mod_eq n 32). lia.
Qed.

Lemma receive_callback_records l x bytes i :
  recorded l x → zlen bytes <= RECV_BUFFER_SIZE →
  ∃ x', receive_callback bytes i x = Ok (tt, x') ∧ recorded (l ++ [(bytes, i)]) x'.
Proof.
  intros [En Ed Er El Ei Hf] Hb. set (n := recv_n x) in *.
  assert (n < MAX_SAVED_FRAMES)%nat as Hn by (rewrite En; by apply Nat.mod_upper_bound).
  destruct (lookup_lt_is_Some_2 (recv_data x) n) as [row Hrow]; [lia|].
  assert (zlen row = RECV_BUFFER_SIZE) as Hlen by exact (Forall_lookup_1 _ _ _ _ Er Hrow).
  unfold receive_callback, bind, get. fold n. rewrite Hrow. unfold lift, put.
  rewrite wrn_ok by lia. eexists. split; [reflexivity|]. split; cbn [recv_n recv_data recv_len recv_intf].
  - rewrite length_app, En, Nat.add_1_r. cbn [length]. rewrite <- Nat.add_1_r, <- (Nat.add_1_r (length l)).
    by rewrite Nat.Div0.add_mod_idemp_l.
  - by rewrite length_insert.
  - apply Forall_insert; [done|]. rewrite length_splice; lia.
  - by rewrite length_insert.
  - by rewrite length_insert.
  - intros k b j Hk Hlast. rewrite length_app in Hlast. cbn [length] in Hlast.
    destruct (decide (k = length l)) as [->|Hne].
    + rewrite list_lookup_middle in Hk by done. injection Hk as <- <-. rewrite <- En.
      rewrite !list_lookup_insert_eq by lia. split_and!; [done..|]. eexists. split; [done|].
      exact (take_app_length bytes _).
    + assert (k < length l)%nat as Hkl.
      { apply lookup_lt_Some in Hk. rewrite length_app in Hk. cbn [length] in Hk. lia. }
      rewrite lookup_app_l in Hk by done.
      rewrite !list_lookup_insert_ne; [apply Hf; [done|lia]|rewrite En; symmetry; apply slots_differ; lia..].
Qed.

(** The events of a history, as the frames they stand for. *)
Lemma receive_callbacks_record h l x :
  recorded l x → Forall (λ '(bytes, _), zlen bytes <= RECV_BUFFER_SIZE) (observed h) →
  ∃ x', receive_callbacks h x = Ok (tt, x') ∧ recorded (l ++ observed h) x'.
Proof.
  revert l x. induction h as [|e h IH]; intros l x Hx Hb.
  { exists x. split; [done|]. cbn. by rewrite app_nil_r. }
  destruct e; try by apply IH.
  cbn in Hb. apply Forall_cons in Hb as [Hb1 Hb].
  destruct (receive_callback_records l x bytes i Hx Hb1) as (x1 & E1 & Hx1).
  destruct (IH _ x1 Hx1 Hb) as (x2 & E2 & Hx2). exists x2. cbn [receive_callbacks]. unfold bind. rewrite E1.
  split; [exact E2|]. rewrite <- app_assoc in Hx2. exact Hx2.
Qed.

(** While no more than 31 frames have come, they are all there. *)
Lemma recorded_get l x k bytes i :
  recorded l x → (length l < MAX_SAVED_FRAMES)%nat → l !! k = Some (bytes, i) →
  get_test_recv_len k x = zlen bytes ∧ get_test_recv_intf k x = Some i ∧
  ∃ row, get_test_recv_data k x = Some row ∧ take (length bytes) row = bytes.
Proof.
  intros [En _ _ _ _ Hf] Hl Hk. pose proof (lookup_lt_Some _ _ _ Hk) as Hkl.
  destruct (Hf k bytes i Hk ltac:(lia)) as (E1 & E2 & row & E3 & E4).
  rewrite Nat.mod_small in * by lia. unfold get_test_recv_len, get_test_recv_intf, get_test_recv_data.
  destruct (Nat.ltb_spec k (recv_n x)); [|lia]. rewrite E1, E2, E3. split_and!; [done..|]. by exists row.
Qed.

(** ** The bench *)

Record bench := mk_bench {
  b_sys : system;
  b_fix : fixture;
  b_tgraph : option ptr;
  b_net : nat;              (* the datagrams sent before this point of the history have arrived *)
}.

Definition b_world (b : bench) : world := sy_world (b_sys b).
Definition set_fix (x : fixture) (b : bench) : bench := mk_bench (b_sys b) x (b_tgraph b) (b_net b).
Definition set_tgraph (g : option ptr) (b : bench) : bench := mk_bench (b_sys b) (b_fix b) g (b_net b).
Definition set_net (n : nat) (b : bench) : bench := mk_bench (b_sys b) (b_fix b) (b_tgraph b) n.

Definition init_bench : bench := mk_bench init_system reset_test_recv None 0.

(** A computation of the program, with the callbacks it makes. *)
Definition on_sys {A} (m : M system A) : M bench A := λ b,
  match m (b_sys b) with
  | Err f => Err f
  | Ok (a, s') =>
      match receive_callbacks (drop (length (w_trace (b_world b))) (w_trace (sy_world s'))) (b_fix b) with
      | Err f => Err f
      | Ok (_, x) => Ok (a, mk_bench s' x (b_tgraph b) (b_net b))
      end
  end.

(** A call of the library by the test. *)
Definition lib {A} (m : W A) : M bench A := on_sys (λ s,
  match m (sy_world s) with
  | Ok (a, w) => Ok (a, set_world w s)
  | Err f => Err f
  end).

(** ** The loopback network *)

(** The first datagram that was sent in [h], and its place. *)
Fixpoint next_datagram (h : list event) (idx : nat) : option (nat * Z * list Z) :=
  match h with
  | [] => None
  | ESendto _ port bytes r :: h =>
      if r <? 0 then next_datagram h (S idx) else Some (idx, port, bytes)
  | _ :: h => next_datagram h (S idx)
  end.

(** The socket bound to a port. *)
Definition fd_of_port (port : Z) (w : world) : option Z :=
  map_fold (λ _ it r, if comm_port (if_comm it) =? port then Some (comm_fd (if_comm it)) else r)
    None (w_intfs w).

Section Bench.
Context `{Os} (speed : nat).

(** One step of the receiving thread: a round receives the next datagram. *)
Definition thread_turn : M bench unit :=
  let* b := get in
  let idle := on_sys (act (Recv 0 (EpollEvents []))) in
  match sy_threads (b_sys b) with
  | Looping _ :: _ =>
      match next_datagram (drop (b_net b) (w_trace (b_world b))) (b_net b) with
      | None => idle
      | Some (idx, port, bytes) =>
          modify (set_net (S idx)) ;;;
          match fd_of_port port (b_world b) with
          | None => idle
          | Some fd => on_sys (act (Recv 0 (EpollEvents [(fd, RecvFrame bytes)])))
          end
      end
  | _ => idle
  end.

Fixpoint turns (n : nat) : M bench unit :=
  match n with
  | O => ret tt
  | S n => thread_turn ;;; turns n
  end.

Fixpoint wait_test_graph_received (fuel n : nat) : M bench unit :=
  let* got := gets (λ b, recv_n (b_fix b)) in
  if (got <? n)%nat then
    match fuel with
    | O => raise OutOfFuel
    | S fuel => turns speed ;;; wait_test_graph_received fuel n
    end
  else ret tt.

(** The thread is created; at [pthread_join] it finishes: its set-up, if it was
    not done yet, and the round that finds the flag set. *)
Definition start_thread : M bench unit := on_sys (act (Start 0)).
Definition stop_thread : M bench unit :=
  on_sys (act Stop) ;;;
  let* joining := gets (λ b, sy_joining (b_sys b)) in
  if (joining : bool) then
    on_sys (act (Recv 0 (EpollEvents []))) ;;;
    on_sys (act (Recv 0 (EpollEvents []))) ;;;
    on_sys (act (Joined 0))
  else ret tt.

(** ** The topology *)

Definition create_test_topology : M bench ptr :=
  let* tgraph := lib (create_new_graph (cstr "graph")) in
  modify (set_tgraph (Some tgraph)) ;;;
  let* tnode0 := lib (create_graph_node tgraph (cstr "node0")) in
  let* tnode1 := lib (create_graph_node tgraph (cstr "node1")) in
  let* tnode2 := lib (create_graph_node tgraph (cstr "node2")) in
  lib (insert_link_between_two_nodes tnode0 tnode1 (cstr "eth01") (cstr "eth10") 1) ;;;
  lib (insert_link_between_two_nodes tnode0 tnode2 (cstr "eth02") (cstr "eth20") 1) ;;;
  lib (node_set_intf_ip_addr tnode0 (cstr "eth01") TEST_ETH01_IP_STR 24) ;;;
  lib (node_set_intf_ip_addr tnode0 (cstr "eth02") (cstr "172.16.10.1") 16) ;;;
  lib (node_set_intf_ip_addr tnode1 (cstr "eth10") TEST_ETH10_IP_STR 24) ;;;
  lib (node_set_intf_ip_addr tnode2 (cstr "eth20") (cstr "172.16.10.2") 16) ;;;
  modify (set_fix reset_test_recv) ;;;
  lib (set_receive_callback_ true) ;;;
  ret tgraph.

Definition destroy_test_topology : M bench unit :=
  let* g := gets b_tgraph in
  let* g := nonnull g in
  lib (destroy_graph g) ;;;
  modify (set_tgraph None) ;;;
  lib (set_receive_callback_ false).
End Bench.

(** ** What the recording holds *)

Section FixtureThm.
Context `{Os}.

Lemma passed_fits w fd r : Forall (λ '(bytes, _), zlen bytes <= RECV_BUFFER_SIZE) (passed w fd r).
Proof.
  unfold passed. destruct (w_fd_to_comm w !! fd) as [i|]; [|done]. case_match; [|done].
  constructor; [|done]. unfold RECV_BUFFER_SIZE. destruct r; cbn [received_bytes]; [cbn; lia|].
  rewrite length_take. lia.
Qed.

(** C23. While the receiving thread works with the callback of the test fixture set, the
    callback is given every frame read without error on a descriptor that has an interface,
    once and in the order of arrival; it never writes outside of its arrays, and of up to 31
    such frames each is found under its number with its bytes, its length and its interface;
    the count starts again at 0 after 31. *)
Theorem fixture_records_frames rounds w w' :
  wf w → Forall (λ '(_, r), received_ok r) (rounds ≫= round_events) → w_receive_callback w = true →
  recv_task rounds w = Ok (tt, w') →
  let frames := (rounds ≫= round_events) ≫= (λ '(fd, r), passed w fd r) in
  ∃ x, receive_callbacks (drop (length (w_trace w)) (w_trace w')) reset_test_recv = Ok (tt, x) ∧
    get_test_recv_n x = (length frames mod MAX_SAVED_FRAMES)%nat ∧
    ((length frames < MAX_SAVED_FRAMES)%nat → ∀ k bytes i, frames !! k = Some (bytes, i) →
       get_test_recv_len k x = zlen bytes ∧ get_test_recv_intf k x = Some i ∧
       ∃ row, get_test_recv_data k x = Some row ∧ take (length bytes) row = bytes).
Proof.
  intros Hw Hevs Hcb Hr frames.
  destruct (recv_task_watched rounds w w' Hw Hevs Hr) as (t & Ht & Ho). rewrite Hcb in Ho.
  destruct (receive_callbacks_record t [] reset_test_recv) as (x & Ex & Hx); [apply recorded_reset| |].
  { rewrite Ho. apply Forall_bind, Forall_true. intros [fd r]. apply passed_fits. }
  exists x. rewrite Ht, drop_app_length. split; [exact Ex|]. rewrite app_nil_l, Ho in Hx. fold frames in Hx.
  split; [apply Hx|]. intros Hl k bytes i Hk. by apply (recorded_get frames).
Qed.

(** ** Waiting for frames *)

Definition fits (b b' : bench) : Prop :=
  (recv_n (b_fix b) < MAX_SAVED_FRAMES → recv_n (b_fix b') < MAX_SAVED_FRAMES)%nat.

#[local] Instance fits_preorder : PreOrder fits.
Proof. unfold fits. split; [intros b; tauto|intros b1 b2 b3; tauto]. Qed.

Lemma receive_callback_n bytes i x x' :
  receive_callback bytes i x = Ok (tt, x') → recv_n x' = (S (recv_n x) mod MAX_SAVED_FRAMES)%nat.
Proof.
  unfold receive_callback, bind, get, lift, put. destruct (recv_data x !! _); [|done].
  destruct (wrn _ _ _); [|done]. intros [= <-]. reflexivity.
Qed.

Lemma receive_callbacks_fit h x x' :
  receive_callbacks h x = Ok (tt, x') → (recv_n x < MAX_SAVED_FRAMES → recv_n x' < MAX_SAVED_FRAMES)%nat.
Proof.
  revert x. induction h as [|[] h IH]; intros x; cbn [receive_callbacks]; try apply IH; [by intros [= <-]|].
  unfold bind. destruct (receive_callback bytes i x) as [[[] x1]|] eqn:E; [|done]. intros Hh _. apply (IH _ Hh).
  rewrite (receive_callback_n _ _ _ _ E). by apply Nat.mod_upper_bound.
Qed.

Lemma fits_on_sys {A} (m : M system A) : keeps fits (on_sys m).
Proof.
  intros b. unfold wp, on_sys. destruct (m (b_sys b)) as [[a s']|]; [|done].
  destruct (receive_callbacks _ _) as [[[] x]|] eqn:E; [|done]. exact (receive_callbacks_fit _ _ _ E).
Qed.

Lemma fits_turns n : keeps fits (turns n).
Proof.
  assert (keeps fits thread_turn) as Hturn.
  { unfold thread_turn. apply keeps_bind; [exact _|by intros b; apply wp_get|]. intros b. cbv zeta.
    repeat first [case_match | apply keeps_bind; [exact _| |intros ?] | apply fits_on_sys | apply keeps_modify; intros ? Hs; exact Hs]. }
  induction n as [|n IH]; cbn [turns]; [apply keeps_ret; exact _|]. apply keeps_bind; [exact _|exact Hturn|intros _; exact IH].
Qed.

(** The test goes on only when enough frames have been recorded, and since the
    number of recorded frames starts again at 0 after 31, a test that waits for 32
    frames or more waits for ever. *)
Theorem wait_returns_received speed fuel n b b' :
  (recv_n (b_fix b) < MAX_SAVED_FRAMES)%nat → wait_test_graph_received speed fuel n b = Ok (tt, b') →
  (n ≤ recv_n (b_fix b') < MAX_SAVED_FRAMES)%nat.
Proof.
  revert b. induction fuel as [|fuel IH]; intros b Hb; cbn [wait_test_graph_received]; unfold bind, gets.
  all: destruct (Nat.ltb_spec (recv_n (b_fix b)) n); [|by intros [= <-]].
  { done. }
  destruct (turns speed b) as [[[] b1]|] eqn:E; [|done]. intros Hr. eapply IH; [|exact Hr].
  by apply (keeps_ok fits _ _ _ _ (fits_turns speed) E).
Qed.
End FixtureThm.

(** ** Witness *)

Definition watched_talk : world := after [SetCallbacks false true] talk.
Definition watched_rounds : list round :=
  [EpollEvents [(3, RecvFrame arp_req_b)]; EpollFails; EpollEvents [(3, RecvError (-1)); (4, RecvFrame arp_rep_a)]].
Definition watched_end : world :=
  match recv_task watched_rounds watched_talk with Ok (_, w') => w' | Err _ => watched_talk end.

Lemma fixture_records_frames_witness :
  ∃ x, receive_callbacks (drop (length (w_trace watched_talk)) (w_trace watched_end)) reset_test_recv = Ok (tt, x) ∧
    get_test_recv_n x = 2%nat ∧ get_test_recv_intf 1 x = Some 6%positive.
Proof.
  assert (reachable watched_talk) as Hr by (apply after_reachable; exact talk_reachable).
  destruct (fixture_records_frames watched_rounds watched_talk watched_end) as (x & Hx & Hn & Hf).
  - exact (reachable_wf _ Hr).
  - by_eval.
  - vm_compute. reflexivity.
  - vm_compute. reflexivity.
  - exists x. split; [exact Hx|]. split; [rewrite Hn; vm_compute; reflexivity|].
    refine (proj1 (proj2 (Hf _ 1%nat (received_bytes 2044 (RecvFrame arp_rep_a)) 6%positive _))).
    + by_eval.
    + vm_compute. reflexivity.
Defined.
