(* ===== verification/Tests.v ===== *)
(** * The test suite, run on the model

    The tests under src/test/unit and the system tests test_ping.c and test_udp.c,
    with their set-up and tear-down, as computations on a [bench].  Assertions of
    the tests are assertions of the model, so a test passes when its computation
    returns.  The main functions of the test programs are executed for two speeds
    of the receiving thread; in the end the state also shows what a test has
    left allocated.  The servers test_tuntap_udp.c and test_tuntap_tcp.c are
    followed through an exchange with a peer on their TAP device. *)
From S2P Require Import Prelude Cmonad Utils Skbuff World Topology Comm Ethernet Arp Route Ip.
From S2P Require Import Icmp Udp Tcp Stack Net Graph Dump Scenario Reach Packet Wire ArpSpec IpSpec ProtoSpec TcpSpec Thread.
From S2P Require Import Fixture.
From stdpp Require Import strings.
#[local] Open Scope Z_scope.

(** ** Assertions, and the objects the tests look up *)

Definition TEST_ASSERT (P : Prop) `{Decision P} : M bench unit := assert_ (bool_decide P).

Definition tgraph : M bench ptr := let* g := gets b_tgraph in nonnull g.
Definition the_node (name : string) : M bench ptr :=
  let* g := tgraph in
  let* r := lib (get_node_by_node_name g (cstr name)) in nonnull r.
Definition the_intf (n : ptr) (name : string) : M bench ptr :=
  let* r := lib (get_node_if_by_name n (cstr name)) in nonnull r.
Definition the_it (i : ptr) : M bench intf := lib (load i).
Definition recording {A} (f : fixture → A) : M bench A := gets (λ b, f (b_fix b)).

(** A string literal that the program is given as a header: a buffer around it. *)
Definition literal (bytes : list Z) : W ptr :=
  alloc (mk_skb None None None None None (Z.of_nat (length bytes)) 0 (Z.of_nat (length bytes))
           (Z.of_nat (length bytes)) bytes).

(** The computation of a function on a buffer of the test, on the bytes [b]. *)
Definition on_bytes {A} (m : M sk_buff A) (b : list Z) : option A :=
  match m (mk_skb None None None None None (Z.of_nat (length b)) 0 (Z.of_nat (length b))
             (Z.of_nat (length b)) b) with
  | Ok (a, _) => Some a
  | Err _ => None
  end.

(** A test of a program that starts the receiving thread in [setUp]. *)
Definition RUN_TEST (setUp tearDown test : M bench unit) : M bench unit :=
  setUp ;;; test ;;; tearDown.
Definition setUp : M bench unit := create_test_topology ;;; ret tt.
Definition setUp_recv : M bench unit := create_test_topology ;;; start_thread.
Definition tearDown : M bench unit := destroy_test_topology.
Definition tearDown_recv : M bench unit := stop_thread ;;; destroy_test_topology.

(** No assertion fails, and the final state. *)
Definition final (m : M bench unit) : option world :=
  match m init_bench with Ok (_, b) => Some (b_world b) | Err _ => None end.

(** What is left on the heap: buffers, ARP entries, sockets and connections, and
    the parts of graphs. *)
Definition left_over (w : world) : list nat :=
  [size (w_skbs w); size (w_arps w); size (w_udps w) + size (w_tcps w) + size (w_conns w);
   size (w_graphs w) + size (w_nodes w) + size (w_links w) + size (w_intfs w)]%nat.

(** A test program passes and leaves [l]. *)
Definition passes (m : M bench unit) (l : list nat) : Prop := left_over <$> final m = Some l.

Definition returns {A} (m : M bench A) : option (A * list nat) :=
  match m init_bench with Ok (a, b) => Some (a, left_over (b_world b)) | Err _ => None end.

Definition FUEL : nat := 10.

(** ** test_comm.c *)

Section Tests.
Context (speed : nat).
Definition wait (n : nat) : M bench unit := wait_test_graph_received speed FUEL n.

Definition send_receive (test_data : list Z) (frame_i : nat) (oif iif : ptr) : M bench unit :=
  lib (send_bytes_out test_data oif) ;;;
  wait (frame_i + 1) ;;;
  let* data := recording (get_test_recv_data frame_i) in
  TEST_ASSERT (take (length test_data) <$> data = Some test_data) ;;;
  let* len := recording (get_test_recv_len frame_i) in
  TEST_ASSERT (Z.of_nat (length test_data) = len) ;;;
  let* i := recording (get_test_recv_intf frame_i) in
  TEST_ASSERT (Some iif = i).

Definition test_send_receive_once : M bench unit :=
  let* tnode0 := the_node "node0" in
  let* tnode1 := the_node "node1" in
  let* eth01 := the_intf tnode0 "eth01" in
  let* eth10 := the_intf tnode1 "eth10" in
  send_receive [1; 2; 3; 4; 5] 0 eth01 eth10.

Definition test_send_receive_many_times : M bench unit :=
  let* tnode0 := the_node "node0" in
  let* tnode1 := the_node "node1" in
  let* tnode2 := the_node "node2" in
  let* eth01 := the_intf tnode0 "eth01" in
  let* eth02 := the_intf tnode0 "eth02" in
  let* eth10 := the_intf tnode1 "eth10" in
  let* eth20 := the_intf tnode2 "eth20" in
  send_receive [0x01; 0x02; 0x03; 0x04; 0x05] 0 eth01 eth10 ;;;
  send_receive [0x11; 0x22; 0x33; 0x44; 0x55; 0x66; 0x77; 0x88; 0x99] 1 eth01 eth10 ;;;
  send_receive [0x88; 0x88; 0x88; 0x88; 0x88] 2 eth02 eth20.

Definition test_comm : M bench unit :=
  RUN_TEST setUp_recv tearDown_recv test_send_receive_once ;;;
  RUN_TEST setUp_recv tearDown_recv test_send_receive_many_times.

(** ** test_arp.c *)

Definition TEST_REQUEST : list Z :=
  [0xff; 0xff; 0xff; 0xff; 0xff; 0xff; 0x00; 0x00; 0xe9; 0x08; 0x6e; 0x9a; 0x08; 0x06; 0x00; 0x01;
   0x08; 0x00; 0x06; 0x04; 0x00; 0x01; 0x00; 0x00; 0xe9; 0x08; 0x6e; 0x9a; 0xc0; 0xa8; 0x59; 0x01;
   0x00; 0x00; 0x00; 0x00; 0x00; 0x00; 0xc0; 0xa8; 0x59; 0x02].
Definition TEST_REQUEST2 : list Z :=
  [0xff; 0xff; 0xff; 0xff; 0xff; 0xff; 0x00; 0x00; 0xe9; 0x08; 0x6e; 0x9a; 0x08; 0x06; 0x00; 0x01;
   0x08; 0x00; 0x06; 0x04; 0x00; 0x01; 0x00; 0x00; 0xe9; 0x08; 0x6e; 0x9a; 0xc0; 0xa8; 0x59; 0x01;
   0x00; 0x00; 0x00; 0x00; 0x00; 0x00; 0xac; 0x10; 0x0a; 0x02].
Definition TEST_REPLY : list Z :=
  [0x00; 0x00; 0xe9; 0x08; 0x6e; 0x9a; 0x00; 0x30; 0xc3; 0x53; 0x50; 0xc8; 0x08; 0x06; 0x00; 0x01;
   0x08; 0x00; 0x06; 0x04; 0x00; 0x02; 0x00; 0x30; 0xc3; 0x53; 0x50; 0xc8; 0xc0; 0xa8; 0x59; 0x02;
   0x00; 0x00; 0xe9; 0x08; 0x6e; 0x9a; 0xc0; 0xa8; 0x59; 0x01].

(** The first recorded frame has the minimal size and starts with [expected]. *)
Definition first_frame_is (expected : list Z) (i : ptr) : M bench unit :=
  wait 1 ;;;
  let* len := recording (get_test_recv_len 0) in
  TEST_ASSERT (60 = len) ;;;
  let* data := recording (get_test_recv_data 0) in
  TEST_ASSERT (take 42 <$> data = Some expected) ;;;
  let* j := recording (get_test_recv_intf 0) in
  TEST_ASSERT (Some i = j).

Definition test_send_arp_broadcast_request_is_received : M bench unit :=
  let* node0 := the_node "node0" in
  let* node1 := the_node "node1" in
  let* eth01 := the_intf node0 "eth01" in
  let* eth10 := the_intf node1 "eth10" in
  lib (send_arp_broadcast_request eth01 (convert_ip_from_str_to_int (cstr "192.168.89.2"))) ;;;
  first_frame_is TEST_REQUEST eth10.

Definition test_process_arp_broadcast_request_does_reply : M bench unit :=
  let* node0 := the_node "node0" in
  let* node1 := the_node "node1" in
  let* eth01 := the_intf node0 "eth01" in
  let* eth10 := the_intf node1 "eth10" in
  let* request := lib (literal TEST_REQUEST) in
  lib (process_arp_broadcast_request eth10 request ETH_HDR_SIZE) ;;;
  lib (free_skb request) ;;;
  first_frame_is TEST_REPLY eth01.

Definition test_process_arp_broadcast_request_filters : M bench unit :=
  let* node1 := the_node "node1" in
  let* eth10 := the_intf node1 "eth10" in
  let* request := lib (literal TEST_REQUEST2) in
  let* ok := lib (process_arp_broadcast_request eth10 request ETH_HDR_SIZE) in
  TEST_ASSERT (ok = false) ;;;
  lib (free_skb request).

Definition test_process_arp_reply_msg_resolves_arp_entry : M bench unit :=
  let* node0 := the_node "node0" in
  let* node1 := the_node "node1" in
  let* eth01 := the_intf node0 "eth01" in
  let* eth10 := the_intf node1 "eth10" in
  stop_thread ;;;
  let ip := convert_ip_from_str_to_int (cstr "192.168.89.2") in
  let* unresolved_entry := lib (alloc (init_arp_entry ip eth01)) in
  lib (arp_table_entry_add node0 unresolved_entry) ;;;
  let* reply := lib (literal TEST_REPLY) in
  let* ok := lib (process_arp_reply_msg eth01 reply ETH_HDR_SIZE) in
  TEST_ASSERT (ok = true) ;;;
  let* entry := lib (arp_table_lookup node0 ip) in
  let* entry := nonnull entry in
  let* en := lib (load (A := arp_entry) entry) in
  TEST_ASSERT (arp_resolved en = true) ;;;
  let* it := the_it eth10 in
  TEST_ASSERT (arp_mac en = IF_MAC it) ;;;
  lib (free_skb reply).

(** The table of the test is the one of a node of its own, and its entry is
    allocated; both are taken apart at the end. *)
Definition test_arp_table_add_and_lookup : M bench unit :=
  let ip1 := le_decode [1; 2; 3; 4] in
  let ip2 := le_decode [1; 2; 3; 5] in
  let* table := lib (alloc (mk_node [] [] init_node_nw_prop)) in
  let* entry1 := lib (alloc (mk_arp_entry ip1 [1; 2; 3; 4; 5; 6] table false [])) in
  let* ok := lib (arp_table_entry_add table entry1) in
  TEST_ASSERT (ok = true) ;;;
  let* r := lib (arp_table_lookup table ip1) in
  TEST_ASSERT (r = Some entry1) ;;;
  let* r := lib (arp_table_lookup table ip2) in
  TEST_ASSERT (r = None) ;;;
  lib (dealloc (A := arp_entry) entry1) ;;;
  lib (dealloc (A := node) table).

Definition test_arp : M bench unit :=
  RUN_TEST setUp_recv tearDown_recv test_send_arp_broadcast_request_is_received ;;;
  RUN_TEST setUp_recv tearDown_recv (TEST_ASSERT (28 = ARP_HDR_SIZE)) ;;;
  RUN_TEST setUp_recv tearDown_recv test_process_arp_broadcast_request_does_reply ;;;
  RUN_TEST setUp_recv tearDown_recv test_process_arp_broadcast_request_filters ;;;
  RUN_TEST setUp_recv tearDown_recv test_process_arp_reply_msg_resolves_arp_entry ;;;
  RUN_TEST setUp_recv tearDown_recv test_arp_table_add_and_lookup.

(** ** test_ip.c *)

Definition example_ip_hdr : list Z :=
  [0x45; 0x00; 0x00; 0x73; 0x00; 0x00; 0x40; 0x00; 0x40; 0x11; 0xb8; 0x61; 0xc0; 0xa8; 0x00; 0x01;
   0xc0; 0xa8; 0x00; 0xc7].
Definition example_ip_hdr_no_cksum : list Z :=
  [0x45; 0x00; 0x00; 0x73; 0x00; 0x00; 0x40; 0x00; 0x40; 0x11; 0x00; 0x00; 0xc0; 0xa8; 0x00; 0x01;
   0xc0; 0xa8; 0x00; 0xc7].

Definition test_calc_ip_hcksum : M bench unit :=
  TEST_ASSERT (on_bytes (calc_ip_hcksum 0) example_ip_hdr_no_cksum = Some 0xb861).
Definition test_fill_ip_hcksum : M bench unit :=
  TEST_ASSERT (on_bytes (fill_ip_hcksum 0 ;;; check_ip_hcksum 0) example_ip_hdr_no_cksum = Some true).
Definition test_check_ip_hcksum : M bench unit :=
  TEST_ASSERT (on_bytes (check_ip_hcksum 0) example_ip_hdr = Some true).

(** An entry for the address of [nbr] in the table of [node]. *)
Definition resolved_entry (node : ptr) (it_nbr : intf) (i : ptr) : M bench unit :=
  let* entry := lib (alloc (init_arp_entry (IF_IP it_nbr) i)) in
  lib (update entry (arp_set_mac (IF_MAC it_nbr))) ;;;
  lib (update entry arp_set_resolved) ;;;
  lib (arp_table_entry_add node entry) ;;;
  ret tt.

Definition test_ping_pong : M bench unit :=
  let* node0 := the_node "node0" in
  let* node1 := the_node "node1" in
  let* eth01 := the_intf node0 "eth01" in
  let* eth10 := the_intf node1 "eth10" in
  let* it01 := the_it eth01 in
  let* it10 := the_it eth10 in
  resolved_entry node0 it10 eth01 ;;;
  resolved_entry node1 it01 eth10 ;;;
  lib (ping node0 TEST_ETH10_IP_STR) ;;;
  wait 2 ;;;
  let* n := recording get_test_recv_n in
  TEST_ASSERT (2%nat = n) ;;;
  let* i := recording (get_test_recv_intf 0) in
  TEST_ASSERT (i = Some eth10) ;;;
  let* i := recording (get_test_recv_intf 1) in
  TEST_ASSERT (i = Some eth01).

Definition test_ip : M bench unit :=
  RUN_TEST setUp_recv tearDown_recv (TEST_ASSERT (20 = IP_HDR_SIZE)) ;;;
  RUN_TEST setUp_recv tearDown_recv test_ping_pong ;;;
  RUN_TEST setUp_recv tearDown_recv test_calc_ip_hcksum ;;;
  RUN_TEST setUp_recv tearDown_recv test_check_ip_hcksum ;;;
  RUN_TEST setUp_recv tearDown_recv test_fill_ip_hcksum.

(** ** test_ethernet.c *)

(** The destination filter of eth01 on a packet of the test. *)
Definition qualifies (pkt : list Z) (expected : bool) : M bench unit :=
  let* tnode0 := the_node "node0" in
  let* intf := the_intf tnode0 "eth01" in
  let* pkt := lib (literal pkt) in
  let* ok := lib (ethernet_input_qualify intf pkt 0) in
  TEST_ASSERT (expected = ok) ;;;
  lib (free_skb pkt).

Definition test_ethernet_input_qualify_true_cases : M bench unit :=
  qualifies [0xff; 0xff; 0xff; 0xff; 0xff; 0xff; 0xdc; 0xa6; 0x32; 0x04; 0xdd; 0x0a; 0x08; 0x00] true ;;;
  qualifies [0x00; 0x00; 0xe9; 0x08; 0x6e; 0x9a; 0xdc; 0xa6; 0x32; 0x04; 0xdd; 0x0a; 0x08; 0x00] true.
Definition test_ethernet_input_qualify_false_cases : M bench unit :=
  qualifies [0xf1; 0xf2; 0xf3; 0xf4; 0xf5; 0xf6; 0xdc; 0xa6; 0x32; 0x04; 0xdd; 0x0a; 0x08; 0x00] false ;;;
  qualifies [0x00; 0x00; 0x00; 0x00; 0x00; 0x00; 0xdc; 0xa6; 0x32; 0x04; 0xdd; 0x0a; 0x08; 0x00] false.

Definition test_ethernet : M bench unit :=
  RUN_TEST setUp tearDown test_ethernet_input_qualify_true_cases ;;;
  RUN_TEST setUp tearDown test_ethernet_input_qualify_false_cases ;;;
  RUN_TEST setUp tearDown (TEST_ASSERT (14 = ETH_HDR_SIZE)).

(** ** test_net.c *)

Definition TEST_IP : list Z := cstr "192.168.0.1".
Definition TEST_IP_RAW : Z := le_decode [0xc0; 0xa8; 0x00; 0x01].
Definition TEST_MASK : Z := 24.

Definition test_init_intf_nw_prop : M bench unit :=
  TEST_ASSERT (p_is_ip_addr_config init_intf_nw_prop = false ∧ p_ip_addr init_intf_nw_prop = 0 ∧
               p_mask init_intf_nw_prop = 0).
Definition test_init_node_nw_prop : M bench unit :=
  TEST_ASSERT (n_is_lb_addr_config init_node_nw_prop = false ∧ n_lb_addr init_node_nw_prop = 0).

Definition test_node_set_loopback_address_with_valid_address : M bench unit :=
  let* node1 := lib (alloc (mk_node [] [] init_node_nw_prop)) in
  lib (node_set_loopback_address node1 TEST_IP) ;;;
  let* nd := lib (load (A := node) node1) in
  TEST_ASSERT (n_lb_addr (n_nw nd) = TEST_IP_RAW ∧ n_is_lb_addr_config (n_nw nd) = true) ;;;
  lib (dealloc (A := node) node1).

Definition slot_of (n : ptr) (idx : nat) : M bench (option ptr) :=
  let* nd := lib (load (A := node) n) in ret (mjoin (n_intfs nd !! idx)).

Definition test_set_intf_ip_address_with_valid_address : M bench unit :=
  let* tnode0 := the_node "node0" in
  lib (node_set_intf_ip_addr tnode0 (cstr "eth01") TEST_IP TEST_MASK) ;;;
  let* i := slot_of tnode0 0 in
  let* i := nonnull i in
  let* it := the_it i in
  TEST_ASSERT (IF_IP it = TEST_IP_RAW ∧ p_is_ip_addr_config (if_nw it) = true ∧ TEST_MASK = p_mask (if_nw it)).

Definition test_get_matching_subnet_interface_with_matching_if : M bench unit :=
  let* tnode0 := the_node "node0" in
  let* first := slot_of tnode0 0 in
  let* second := slot_of tnode0 1 in
  let* r := lib (get_matching_subnet_interface tnode0 (cstr "192.168.89.20")) in
  TEST_ASSERT (r = first ∧ r ≠ None) ;;;
  let* r := lib (get_matching_subnet_interface tnode0 (cstr "172.16.90.100")) in
  TEST_ASSERT (r = second ∧ r ≠ None).

Definition test_get_matching_subnet_interface_without_matching_if : M bench unit :=
  let* tnode0 := the_node "node0" in
  let* r := lib (get_matching_subnet_interface tnode0 (cstr "10.20.30.40")) in
  TEST_ASSERT (r = None) ;;;
  let* r := lib (get_matching_subnet_interface tnode0 (cstr "192.168.90.20")) in
  TEST_ASSERT (r = None) ;;;
  let* r := lib (get_matching_subnet_interface tnode0 (cstr "172.17.90.100")) in
  TEST_ASSERT (r = None).

Definition test_net : M bench unit :=
  RUN_TEST setUp tearDown test_init_intf_nw_prop ;;;
  RUN_TEST setUp tearDown test_node_set_loopback_address_with_valid_address ;;;
  RUN_TEST setUp tearDown test_set_intf_ip_address_with_valid_address ;;;
  RUN_TEST setUp tearDown test_get_matching_subnet_interface_with_matching_if ;;;
  RUN_TEST setUp tearDown test_get_matching_subnet_interface_without_matching_if.

(** ** test_graph.c

    The static objects of the test are allocated; those that no test uses are
    left out.  The second link is set up as in the test, where the interfaces of
    the first one are put into the slots. *)

Record test_graph_objects := mk_objects {
  tnode0 : ptr; tnode1 : ptr; tnode2 : ptr; tintf1 : ptr; tintf2 : ptr;
}.

Definition zero_node : node := mk_node [] (replicate MAX_INTFS_PER_NODE None) init_node_nw_prop.

Definition init_test_graph : M bench test_graph_objects :=
  let* tnode0 := lib (alloc zero_node) in
  let* tnode1 := lib (alloc zero_node) in
  let* tnode2 := lib (alloc zero_node) in
  let* intf1 := lib (alloc (calloc_intf tnode0)) in
  let* intf2 := lib (alloc (calloc_intf tnode1)) in
  let* link0 := lib (alloc (mk_link intf1 intf2 0)) in
  let set_link it := mk_intf (if_name it) (if_node it) (Some link0) (if_nw it) (if_comm it) in
  let set_slot idx i nd := n_set_intfs (<[idx := Some i]> (n_intfs nd)) nd in
  lib (update (A := intf) intf1 set_link) ;;;
  lib (update (A := intf) intf2 set_link) ;;;
  lib (update (A := node) tnode0 (set_slot 0%nat intf1)) ;;;
  lib (update (A := node) tnode1 (set_slot 0%nat intf2)) ;;;
  lib (update (A := node) tnode0 (set_slot 1%nat intf1)) ;;;
  lib (update (A := node) tnode2 (set_slot 0%nat intf2)) ;;;
  ret (mk_objects tnode0 tnode1 tnode2 intf1 intf2).

Definition test_get_nbr_node_with_link : M bench unit :=
  let* t := init_test_graph in
  let* node := lib (get_nbr_node (tintf1 t)) in
  TEST_ASSERT (node = Some (tnode1 t)) ;;;
  let* node := lib (get_nbr_node (tintf2 t)) in
  TEST_ASSERT (node = Some (tnode0 t)).

Definition test_get_nbr_node_without_link : M bench unit :=
  let* intf := lib (alloc (calloc_intf 1)) in
  let* node := lib (get_nbr_node intf) in
  TEST_ASSERT (node = None).

Definition test_get_intf_available_slot_with_interfaces : M bench unit :=
  let* t := init_test_graph in
  let* nd1 := lib (load (tnode1 t)) in
  TEST_ASSERT (get_node_intf_available_slot nd1 = 1) ;;;
  let* nd0 := lib (load (tnode0 t)) in
  TEST_ASSERT (get_node_intf_available_slot nd0 = 2).

Definition test_get_intf_available_slot_without_interfaces : M bench unit :=
  TEST_ASSERT (get_node_intf_available_slot zero_node = 0).

Definition test_get_intf_available_slot_without_slots : M bench unit :=
  let* t := init_test_graph in
  TEST_ASSERT (get_node_intf_available_slot
                 (n_set_intfs (replicate MAX_INTFS_PER_NODE (Some (tintf1 t))) zero_node) = -1).

Definition test_create_new_graph : M bench unit :=
  let* g := lib (create_new_graph (cstr "test_graph")) in
  let* gr := lib (load (A := graph) g) in
  TEST_ASSERT (g_name gr = cstr "test_graph" ∧ g_nodes gr = []) ;;;
  lib (destroy_graph g).

Definition test_create_graph_node : M bench unit :=
  let* g := lib (create_new_graph (cstr "test_graph")) in
  let* n := lib (create_graph_node g (cstr "test_node")) in
  let* nd := lib (load (A := node) n) in
  let* gr := lib (load (A := graph) g) in
  TEST_ASSERT (n_name nd = cstr "test_node" ∧ head (g_nodes gr) = Some n) ;;;
  lib (destroy_node n) ;;;
  let* gr := lib (load (A := graph) g) in
  TEST_ASSERT (g_nodes gr = []) ;;;
  lib (destroy_graph g).

(** A graph of two nodes, which may be linked, taken apart after the assertions. *)
Definition with_two_nodes (linked : bool) (test : ptr → ptr → ptr → M bench unit) : M bench unit :=
  let* g := lib (create_new_graph (cstr "test_graph")) in
  let* node1 := lib (create_graph_node g (cstr "test_node1")) in
  let* node2 := lib (create_graph_node g (cstr "test_node2")) in
  (if linked then lib (insert_link_between_two_nodes node1 node2 (cstr "if1") (cstr "if2") 42) else ret tt) ;;;
  test g node1 node2 ;;;
  lib (destroy_node node1) ;;;
  lib (destroy_node node2) ;;;
  lib (destroy_graph g).

Definition test_insert_link_between_two_nodes : M bench unit := with_two_nodes true (λ _ node1 node2,
  let* i1 := slot_of node1 0 in
  let* i1 := nonnull i1 in
  let* i2 := slot_of node2 0 in
  let* i2 := nonnull i2 in
  let* it1 := the_it i1 in
  let* it2 := the_it i2 in
  TEST_ASSERT (if_name it1 = cstr "if1" ∧ if_name it2 = cstr "if2") ;;;
  let* l := nonnull (if_link it1) in
  let* lk := lib (load (A := link) l) in
  TEST_ASSERT (l_cost lk = 42 ∧ if_link it1 = if_link it2) ;;;
  TEST_ASSERT (if_node it1 = node1 ∧ if_node it2 = node2)).

Definition test_get_node_if_by_name : M bench unit := with_two_nodes true (λ _ node1 node2,
  let* i1 := slot_of node1 0 in
  let* i2 := slot_of node2 0 in
  let* r := lib (get_node_if_by_name node1 (cstr "if1")) in
  TEST_ASSERT (r = i1 ∧ r ≠ None) ;;;
  let* r := lib (get_node_if_by_name node2 (cstr "if2")) in
  TEST_ASSERT (r = i2 ∧ r ≠ None)).

Definition test_get_node_by_node_name : M bench unit := with_two_nodes false (λ g node1 node2,
  let* r := lib (get_node_by_node_name g (cstr "test_node1")) in
  TEST_ASSERT (r = Some node1) ;;;
  let* r := lib (get_node_by_node_name g (cstr "test_node2")) in
  TEST_ASSERT (r = Some node2)).

Definition test_graph_lookups : M bench unit :=
  test_get_nbr_node_with_link ;;;
  test_get_nbr_node_without_link ;;;
  test_get_intf_available_slot_with_interfaces ;;;
  test_get_intf_available_slot_without_interfaces ;;;
  test_get_intf_available_slot_without_slots.
Definition test_graph_construction : M bench unit :=
  test_create_new_graph ;;;
  test_create_graph_node ;;;
  test_insert_link_between_two_nodes ;;;
  test_get_node_if_by_name ;;;
  test_get_node_by_node_name.

(** ** test_tcp.c, test_udp.c, test_icmp.c, test_utils.c *)

Definition TEST_TCP_PACKET : list Z :=
  [0xa6; 0x3e; 0x01; 0xbb; 0x41; 0x5f; 0xc2; 0xc2; 0x29; 0x42; 0x3f; 0x2c; 0x80; 0x10; 0x01; 0xf5;
   0x00; 0x00; 0x00; 0x00; 0x01; 0x01; 0x08; 0x0a; 0x9e; 0x7f; 0x07; 0x44; 0x9b; 0x21; 0x01; 0x04].

(** [before] are the bytes of the buffer in front of the packet. *)
Definition test_tcp_cksum (before : list Z) : M bench unit :=
  TEST_ASSERT (on_bytes (calc_tcp_cksum 12 32 (convert_ip_from_str_to_int (cstr "192.168.1.229"))
                           (convert_ip_from_str_to_int (cstr "185.199.109.153")))
                 (before ++ TEST_TCP_PACKET) = Some 0x3467).

Definition test_header_sizes : M bench unit :=
  TEST_ASSERT (20 = TCP_HDR_SIZE ∧ 12 = PSEUDO_IP_HDR_SIZE) ;;;
  TEST_ASSERT (8 = UDP_HDR_SIZE) ;;;
  TEST_ASSERT (4 = ICMP_HDR_SIZE).

Definition test_utils : M bench unit :=
  let* result := lift (apply_mask (cstr "172.16.10.20") 24) in
  TEST_ASSERT (result = cstr "172.16.10.0") ;;;
  TEST_ASSERT (16885952 = convert_ip_from_str_to_int (cstr "192.168.1.1")) ;;;
  TEST_ASSERT (convert_ip_from_int_to_str 16885952 = cstr "192.168.1.1") ;;;
  TEST_ASSERT (IS_MAC_BROADCAST_ADDR layer2_fill_with_broadcast_mac = true).

(** ** The system tests test_ping.c and test_udp.c *)

(** The message is printed when [ping] returns false. *)
Definition test_ping : M bench bool :=
  let* g := create_test_topology in
  let* node0 := the_node "node0" in
  start_thread ;;;
  let* ok := lib (ping node0 TEST_ETH10_IP_STR) in
  wait 2 ;;;
  lib (dump_nw_graph g) ;;;
  stop_thread ;;;
  destroy_test_topology ;;;
  ret ok.

(** The lengths and bytes that the test prints. *)
Definition test_udp : M bench (list (Z * list Z)) :=
  let* g := create_test_topology in
  let* node0 := the_node "node0" in
  let* node1 := the_node "node1" in
  let* eth01 := the_intf node0 "eth01" in
  let* eth10 := the_intf node1 "eth10" in
  start_thread ;;;
  let* sock0 := lib (udp_socket node0) in
  let* sock1 := lib (udp_socket node1) in
  let* it01 := the_it eth01 in
  let* r := lib (udp_bind sock0 (IF_IP it01) 1000) in
  TEST_ASSERT (r = 0) ;;;
  let* it10 := the_it eth10 in
  let* r := lib (udp_bind sock1 (IF_IP it10) 2000) in
  TEST_ASSERT (r = 0) ;;;
  let msg := cstr "hello world" ++ [10] in
  let* len := lib (udp_sendto sock0 msg (IF_IP it10) 2000) in
  wait 3 ;;;
  let* r1 := lib (udp_recvfrom sock1 5 false false) in
  let* r2 := lib (udp_recvfrom sock1 64 false false) in
  lib (dump_nw_graph g) ;;;
  lib (udp_close sock0) ;;;
  lib (udp_close sock1) ;;;
  stop_thread ;;;
  destroy_test_topology ;;;
  ret [(len, msg); (rr_ret r1, rr_bytes r1); (rr_ret r2, rr_bytes r2)].
End Tests.

(** ** The servers test_tuntap_udp.c and test_tuntap_tcp.c

    Their loops do not end; they are followed for as long as a peer on the TAP
    device, the argument [rounds], sends frames: each element of the list are the
    frames that arrive while the server sleeps or polls once. *)

Definition arrive (frames : list (list Z)) : M bench unit :=
  on_sys (act (Recv 0 (EpollEvents ((λ f, (3, RecvFrame f)) <$> frames)))).

(** The node of the servers, its TAP device and its address. *)
Definition tuntap_node : M bench (ptr * intf) :=
  let* g := lib (create_new_graph (cstr "graph")) in
  let* tnode0 := lib (create_graph_node g (cstr "node0")) in
  lib (insert_tuntap_interface tnode0 (cstr "ethX")) ;;;
  let* ethX := the_intf tnode0 "ethX" in
  lib (node_set_intf_ip_addr tnode0 (cstr "ethX") (cstr "10.10.0.2") 24) ;;;
  let* it := the_it ethX in
  ret (tnode0, it).

(** [snprintf(msg, 256, "Recv number %lu\n", ntimes)] *)
Definition recv_number (ntimes : nat) : list Z := cstr "Recv number " ++ print_lu (Z.of_nat ntimes) ++ [10].

(** The datagrams in the queue are answered. *)
Fixpoint answer_udp (fuel : nat) (sock : Z) (ntimes : nat) : M bench nat :=
  match fuel with
  | O => raise OutOfFuel
  | S fuel =>
      let* r := lib (udp_recvfrom sock 256 true true) in
      match rr_ip r, rr_port r with
      | Some ip, Some port =>
          if 0 <? rr_ret r then
            lib (udp_sendto sock (recv_number ntimes) ip port) ;;;
            answer_udp fuel sock (S ntimes)
          else ret ntimes
      | _, _ => ret ntimes
      end
  end.

Fixpoint serve_udp (rounds : list (list (list Z))) (sock : Z) (ntimes : nat) : M bench nat :=
  let* ntimes := answer_udp FUEL sock ntimes in
  match rounds with
  | [] => ret ntimes
  | frames :: rounds => arrive frames ;;; serve_udp rounds sock ntimes
  end.

Definition test_tuntap_udp (rounds : list (list (list Z))) : M bench nat :=
  let* (tnode0, it) := tuntap_node in
  let* sock := lib (udp_socket tnode0) in
  TEST_ASSERT (0 <= sock) ;;;
  let* r := lib (udp_bind sock (IF_IP it) 2000) in
  TEST_ASSERT (r = 0) ;;;
  start_thread ;;;
  arrive [] ;;;
  serve_udp rounds sock 0.

(** Polling until a connection is accepted; the rounds that are left. *)
Fixpoint accept_tcp (rounds : list (list (list Z))) (sock : Z) : M bench (Z * list (list (list Z))) :=
  let* (conn, _) := lib (tcp_accept sock) in
  if conn <? 0 then
    match rounds with
    | [] => raise OutOfFuel
    | frames :: rounds => arrive frames ;;; accept_tcp rounds sock
    end
  else ret (conn, rounds).

(** The server reads from and answers to [fd]; [ntimes] answers are sent. *)
Fixpoint serve_tcp (rounds : list (list (list Z))) (fd : Z) (ntimes : nat) : M bench nat :=
  let* (nrecv, _) := lib (tcp_recv fd 256) in
  let* ntimes :=
    if 0 <? nrecv then lib (tcp_send fd (recv_number ntimes)) ;;; ret (S ntimes) else ret ntimes in
  match rounds with
  | [] => ret ntimes
  | frames :: rounds => arrive frames ;;; serve_tcp rounds fd ntimes
  end.

(** The descriptor that the test reads from is the one of the listening socket,
    [sock]; it is also the one of the connection, as both are 0. *)
Definition test_tuntap_tcp (rounds : list (list (list Z))) : M bench nat :=
  let* (tnode0, it) := tuntap_node in
  let* sock := lib (tcp_socket tnode0) in
  TEST_ASSERT (0 <= sock) ;;;
  let* r := lib (tcp_bind sock (IF_IP it) 2000) in
  TEST_ASSERT (r = 0) ;;;
  let* r := lib (tcp_listen sock) in
  TEST_ASSERT (r = 0) ;;;
  start_thread ;;;
  arrive [] ;;;
  let* (conn, rounds) := accept_tcp rounds sock in
  TEST_ASSERT (conn = sock) ;;;
  serve_tcp rounds sock 0.

(** ** The results *)

Ltac by_running :=
  repeat match goal with H : _ ∈ _ :: _ |- _ => apply elem_of_cons in H as [->|H]; [vm_compute; reflexivity|] end;
  set_solver.

Definition speeds : list nat := [1; 5]%nat.

Lemma test_comm_passes speed : speed ∈ speeds → passes (test_comm speed) [0; 0; 0; 0]%nat.
Proof. unfold speeds. intros. by_running. Qed.
Lemma test_arp_passes speed : speed ∈ speeds → passes (test_arp speed) [0; 0; 0; 0]%nat.
Proof. unfold speeds. intros. by_running. Qed.
Lemma test_ip_passes speed : speed ∈ speeds → passes (test_ip speed) [0; 0; 0; 0]%nat.
Proof. unfold speeds. intros. by_running. Qed.
Lemma test_ethernet_passes : passes test_ethernet [0; 0; 0; 0]%nat.
Proof. vm_compute. reflexivity. Qed.
Lemma test_net_passes : passes test_net [0; 0; 0; 0]%nat.
Proof. vm_compute. reflexivity. Qed.

(** This test is defined in test_net.c, whose main function does not run it. *)
Lemma test_init_node_nw_prop_passes : passes test_init_node_nw_prop [0; 0; 0; 0]%nat.
Proof. vm_compute. reflexivity. Qed.

Lemma test_graph_lookups_pass : is_Some (final test_graph_lookups).
Proof. vm_compute. by eexists. Qed.
Lemma test_graph_construction_passes : passes test_graph_construction [0; 0; 0; 0]%nat.
Proof. vm_compute. reflexivity. Qed.
Lemma test_sizes_and_utils_pass : is_Some (final (test_header_sizes ;;; test_utils)).
Proof. vm_compute. by eexists. Qed.
Lemma test_tcp_cksum_passes : is_Some (final (test_tcp_cksum (replicate 12 0))).
Proof. vm_compute. by eexists. Qed.

(** The ping is sent.  When the receiving thread is fast, it passes the request
    on before the test ends, and the reply, which waits for the address of the
    other node, is left on the heap with the entry of the ARP table freed. *)
Lemma test_ping_returns :
  returns (test_ping 1) = Some (true, [0; 0; 0; 0]%nat) ∧ returns (test_ping 5) = Some (true, [1; 0; 0; 0]%nat).
Proof. vm_compute. split; reflexivity. Qed.

(** The second read gives the rest of the message and the padding of the frame. *)
Lemma test_udp_returns speed :
  speed ∈ speeds →
  returns (test_udp speed) =
    Some ([(12, cstr "hello world" ++ [10]); (5, cstr "hello"); (13, cstr " world" ++ [10] ++ replicate 6 0)],
          [0; 0; 0; 0]%nat).
Proof. unfold speeds. intros. by_running. Qed.

(** *** A peer of the servers *)

Definition peer_ip : Z := le_decode [10; 10; 0; 1].
Definition peer_mac : list Z := [2; 0; 0; 0; 0; 1].
Definition x_ip : Z := le_decode [10; 10; 0; 2].
Definition x_mac : list Z := le_encode 6 (wrap64 (hashcode (cstr "node0") * hashcode (cstr "ethX"))).

Definition to_x (proto : Z) (p : list Z) : list Z := ip_frame x_mac peer_mac (ip_datagram proto peer_ip x_ip p).
Definition from_x (proto : Z) (p : list Z) : list Z := ip_frame peer_mac x_mac (ip_datagram proto x_ip peer_ip p).
Definition x_asks : list Z :=
  arp_frame layer2_fill_with_broadcast_mac x_mac (arp_msg 1 x_mac x_ip (replicate 6 0) peer_ip).
Definition peer_answers : list Z := arp_frame x_mac peer_mac (arp_msg 2 peer_mac peer_ip x_mac x_ip).

(** The frames written to the device. *)
Definition written {A} (m : M bench A) : option (A * list (list Z)) :=
  match m init_bench with
  | Ok (a, b) => Some (a, omap (λ e, match e with EWrite _ bytes _ => Some bytes | _ => None end) (w_trace (b_world b)))
  | Err _ => None
  end.

(** The answer to a datagram waits for the address of the peer. *)
Lemma test_tuntap_udp_answers :
  let hello := udp_msg 5000 2000 (cstr "hello world, hello") in
  written (test_tuntap_udp [[to_x IP_PROTO_UDP hello]; [peer_answers]; [to_x IP_PROTO_UDP hello]]) =
  Some (2%nat, [x_asks; from_x IP_PROTO_UDP (udp_msg 2000 5000 (cstr "Recv number 0" ++ [10]));
                from_x IP_PROTO_UDP (udp_msg 2000 5000 (cstr "Recv number 1" ++ [10]))]).
Proof. vm_compute. reflexivity. Qed.

(** A connection is made and its first data is answered. *)
Lemma test_tuntap_tcp_answers :
  let to seq ack flags data := to_x IP_PROTO_TCP (tcp_msg peer_ip x_ip 5000 2000 seq ack flags 1000 data) in
  let from seq ack flags data := from_x IP_PROTO_TCP (tcp_msg x_ip peer_ip 2000 5000 seq ack flags 1500 data) in
  written (test_tuntap_tcp [[to 99 0 2 []]; [peer_answers]; [to 100 1 16 []]; [to 100 1 16 (cstr "hello world")]]) =
  Some (1%nat, [x_asks; from 0 100 18 []; from 1 111 16 (cstr "Recv number 0" ++ [10])]).
Proof. vm_compute. reflexivity. Qed.
